(** * Recipe scraper: normalizers, platform classifier, image upload and
    syntax check (utils.py, s3_upload.py, validate_syntax.py)

    A shallow embedding of [parse_time_to_minutes], [parse_servings_to_int]
    and [get_platform] of [src/utils.py], of the five functions of
    [src/s3_upload.py] and of the script [src/validate_syntax.py], together
    with the parts of the Python runtime they rest on:

    - text is a list of Unicode code points; the character properties of
      ASCII are written out, those of the other code points are read from a
      table ([Unicode]) that the functions take as a parameter;
    - floats are IEEE-754 binary64 values ([spec_float] with precision 53
      and maximal exponent 1024), with round-to-nearest-even arithmetic;
    - exceptions are an explicit result type;
    - the [re] module is a backtracking matcher over a small regular
      expression syntax, into which each pattern of the source is
      transcribed;
    - what lies outside the process is a parameter: [urlparse] and
      [mimetypes] ([Libraries]), the environment variables, the clock, the
      random draw, [boto3] and [requests] ([World]), the files and the
      parser of [ast] ([Sources]); the requests sent and the objects stored
      are recorded, in order, as a list of [event]s.

    [int] refuses a text of more than 4300 digits, the default limit of
    CPython since 3.11 (and of the later releases of 3.7 to 3.10).

    What the embedding leaves out: a [bool] argument (an [int] in Python)
    is not a value of [pyvalue]; [str] of an [int] is modelled without
    that limit, which no result of the normalizers reaches; [int] and
    [float] are modelled on the texts the normalizers hand them, runs of
    digits with at most one full stop; the messages of [logging] are not
    recorded, and [logging] and [print] are taken not to fail; the headers
    and the time limit of the request are not part of an [HttpGet]; the
    models of [src/models.py], whose checks are those of pydantic, are not
    embedded. *)

From Stdlib Require Import String Ascii.
From Stdlib Require Import ZArith NArith PArith List Bool Lia.
From Stdlib Require Import Floats.SpecFloat.
From Stdlib Require Decimal DecimalPos DecimalFacts.
From Stdlib Require Hexadecimal HexadecimalPos HexadecimalN HexadecimalFacts.
Import ListNotations.

(** ** Text *)

Module Text.

(** A character is a code point; a Python [str] is a list of them. *)
Definition char := N.
Definition text := list char.

Definition of_string (s : string) : text :=
  map N_of_ascii (list_ascii_of_string s).

Definition is_ascii (c : char) : bool := (c <? 128)%N.

Definition between (lo hi c : N) : bool := ((lo <=? c) && (c <=? hi))%N.

(** What the normalizers need to know of a character: whether it is
    white space ([str.strip], [\s]), a decimal digit with its value
    ([int], [float], [\d]), a digit that is not decimal (accepted by
    [str.isdigit] only), or another alphanumeric character.  All but
    white space and [UOther] are word characters of [\b]. *)
Inductive uclass := USpace | UDecimal (v : N) | UDigit | UAlpha | UOther.

(** The Unicode character database outside ASCII.  [uni_lower] receives
    the characters before (nearest first) and after the one it maps, as
    the lower-casing of a few characters depends on their context, and
    returns a text since some characters lower-case to several. *)
Record Unicode := {
  uni_class : char -> uclass;
  uni_lower : text -> char -> text -> text
}.

Definition ascii_class (c : char) : uclass :=
  if between 9 13 c || between 28 31 c || (c =? 32)%N then USpace
  else if between 48 57 c then UDecimal (c - 48)
  else if between 65 90 c || between 97 122 c then UAlpha
  else UOther.

Section Classes.
Variable U : Unicode.

Definition class_of (c : char) : uclass :=
  if is_ascii c then ascii_class c else uni_class U c.

(** [Py_UNICODE_ISSPACE]: used by [str.strip] and by [\s]. *)
Definition isspace (c : char) : bool :=
  match class_of c with USpace => true | _ => false end.

Definition isdecimal (c : char) : bool :=
  match class_of c with UDecimal _ => true | _ => false end.

Definition isdigit_char (c : char) : bool :=
  match class_of c with UDecimal _ | UDigit => true | _ => false end.

(** A word character of [re]: alphanumeric or underscore. *)
Definition isword (c : char) : bool :=
  match class_of c with
  | UDecimal _ | UDigit | UAlpha => true
  | _ => (c =? 95)%N
  end.

(** [str.isdigit]: non-empty and every character a digit. *)
Definition isdigit (s : text) : bool :=
  match s with [] => false | _ => forallb isdigit_char s end.

(** [str.strip()] *)
Fixpoint lstrip (s : text) : text :=
  match s with
  | c :: t => if isspace c then lstrip t else s
  | [] => []
  end.

Definition strip (s : text) : text := rev (lstrip (rev (lstrip s))).

(** [str.lower()] *)
Definition lower_char (before : text) (c : char) (after : text) : text :=
  if is_ascii c
  then [if between 65 90 c then (c + 32)%N else c]
  else uni_lower U before c after.

Fixpoint lower_from (before s : text) : text :=
  match s with
  | c :: t => lower_char before c t ++ lower_from (c :: before) t
  | [] => []
  end.

Definition lower (s : text) : text := lower_from [] s.

(** [str.replace] of one character by another. *)
Definition replace (a b : char) (s : text) : text :=
  map (fun c => if (c =? a)%N then b else c) s.

(** [str.split(sep)] for a one-character separator. *)
Fixpoint split_acc (sep : char) (cur : text) (s : text) : list text :=
  match s with
  | c :: t => if (c =? sep)%N then rev cur :: split_acc sep [] t
              else split_acc sep (c :: cur) t
  | [] => [rev cur]
  end.

Definition split (sep : char) (s : text) : list text := split_acc sep [] s.

(** [needle in hay] *)
Fixpoint starts_with (needle hay : text) : bool :=
  match needle, hay with
  | [], _ => true
  | a :: n, b :: h => (a =? b)%N && starts_with n h
  | _ :: _, [] => false
  end.

Fixpoint contains (needle hay : text) : bool :=
  starts_with needle hay ||
  match hay with
  | _ :: h => contains needle h
  | [] => false
  end.

End Classes.

(** A sample table: the Unicode database on Latin-1 and on the
    Arabic-Indic digits, with the white space of the other blocks; every
    other code point is taken as a symbol. *)
Definition sample_table : Unicode := {|
  uni_class := fun c =>
    if (c =? 133)%N || (c =? 160)%N || (c =? 5760)%N || between 8192 8202 c ||
       (c =? 8232)%N || (c =? 8233)%N || (c =? 8239)%N || (c =? 8287)%N ||
       (c =? 12288)%N then USpace
    else if between 1632 1641 c then UDecimal (c - 1632)
    else if (c =? 178)%N || (c =? 179)%N || (c =? 185)%N then UDigit
    else if (c =? 170)%N || (c =? 181)%N || (c =? 186)%N || between 188 190 c ||
            (between 192 255 c && negb (c =? 215)%N && negb (c =? 247)%N) then UAlpha
    else UOther;
  uni_lower := fun _ c _ =>
    if between 192 222 c && negb (c =? 215)%N then [(c + 32)%N] else [c]
|}.

Arguments replace (a b)%_N s.
Arguments split sep%_N s.
Arguments split_acc sep%_N cur s.

End Text.

Import Text.

(** ** Exceptions *)

Inductive exn := ValueError | OverflowError | TypeError.

Inductive result (A : Type) : Type :=
| Ok (a : A)
| Raise (e : exn).

Arguments Ok {A} a.
Arguments Raise {A} e.

Definition bind {A B : Type} (r : result A) (k : A -> result B) : result B :=
  match r with
  | Ok a => k a
  | Raise e => Raise e
  end.

Notation "x <- r ;; k" := (bind r (fun x => k))
  (at level 61, r at next level, right associativity).

(** ** Numbers of the Python runtime *)

Module PyNum.

Definition prec : Z := 53.
Definition emax : Z := 1024.

(** A Python [float] is a binary64 value. *)
Definition float := spec_float.

Definition fadd : float -> float -> float := SFadd prec emax.
Definition fmul : float -> float -> float := SFmul prec emax.
Definition fdiv : float -> float -> float := SFdiv prec emax.

(** The float nearest to an integer (ties to even), infinite past the
    largest finite float. *)
Definition nearest_float (n : Z) : float := binary_normalize prec emax n 0 false.

Definition f0 : float := S754_zero false.
Definition f60 : float := nearest_float 60.

(** [x == 0.0] *)
Definition is_zero (x : float) : bool := SFeqb x f0.

(** [float(n)] for an [int]: raises when [n] is too large. *)
Definition float_of_int (n : Z) : result float :=
  match nearest_float n with
  | S754_infinity _ => Raise OverflowError
  | f => Ok f
  end.

(** The float nearest to the rational [p / q]. *)
Definition float_of_ratio (p q : positive) : float :=
  let '(m, e, l) := SFdiv_core_binary prec emax (Zpos p) 0 (Zpos q) 0 in
  binary_round_aux prec emax false m e l.

(** The float nearest to [n / 10^k], for [0 <= n]. *)
Definition float_of_decimal (n : Z) (k : nat) : float :=
  match n with
  | Zpos p => float_of_ratio p (Z.to_pos (10 ^ Z.of_nat k))
  | _ => f0
  end.

(** Nearest integer to [m * 2^e], ties to even. *)
Definition round_half_even (m : Z) (e : Z) : Z :=
  match e with
  | Zneg k =>
      let d := Z.pow 2 (Zpos k) in
      let q := Z.div m d in
      let r := Z.modulo m d in
      match Z.compare (2 * r) d with
      | Lt => q
      | Gt => q + 1
      | Eq => if Z.even q then q else q + 1
      end
  | _ => m * Z.pow 2 e
  end%Z.

(** [round(x)] for a float [x] (no [ndigits]): an [int], or an exception
    for NaN and the infinities.  [int(...)] of the result is the result. *)
Definition py_round (x : float) : result Z :=
  match x with
  | S754_zero _ => Ok 0%Z
  | S754_finite s m e => Ok (cond_Zopp s (round_half_even (Zpos m) e))
  | S754_infinity _ => Raise OverflowError
  | S754_nan => Raise ValueError
  end.

End PyNum.

Import PyNum.

(** ** Conversions from and to text *)

Fixpoint uint_text (d : Decimal.uint) : text :=
  match d with
  | Decimal.Nil => []
  | Decimal.D0 d => 48%N :: uint_text d
  | Decimal.D1 d => 49%N :: uint_text d
  | Decimal.D2 d => 50%N :: uint_text d
  | Decimal.D3 d => 51%N :: uint_text d
  | Decimal.D4 d => 52%N :: uint_text d
  | Decimal.D5 d => 53%N :: uint_text d
  | Decimal.D6 d => 54%N :: uint_text d
  | Decimal.D7 d => 55%N :: uint_text d
  | Decimal.D8 d => 56%N :: uint_text d
  | Decimal.D9 d => 57%N :: uint_text d
  end.

(** [str(n)] for an [int]: decimal digits, after a hyphen when negative. *)
Definition py_str_int (n : Z) : text :=
  match Z.to_int n with
  | Decimal.Pos d => uint_text d
  | Decimal.Neg d => 45%N :: uint_text d
  end.

Section Conversions.
Variable U : Unicode.

(** Value of a run of decimal digits, most significant first; [None] when
    a character is not a decimal digit. *)
Fixpoint digits_value (acc : Z) (s : text) : option Z :=
  match s with
  | [] => Some acc
  | c :: t =>
      match class_of U c with
      | UDecimal v => digits_value (10 * acc + Z.of_N v) t
      | _ => None
      end
  end.

(** The number a non-empty run of decimal digits writes; [ValueError] on
    another text. *)
Definition digits_number (s : text) : result Z :=
  match s with
  | [] => Raise ValueError
  | _ => match digits_value 0 s with
         | Some n => Ok n
         | None => Raise ValueError
         end
  end.

(** [sys.int_info.default_max_str_digits]: [int] refuses a text of more
    digits, leading zeros included. *)
Definition int_max_str_digits : Z := 4300.

(** [int(s)] on the texts the normalizers pass to it (no sign, blank or
    underscore): the value of a non-empty run of at most 4300 decimal
    digits, [ValueError] otherwise. *)
Definition py_int (s : text) : result Z :=
  n <- digits_number s ;;
  if (Z.of_nat (length s) <=? int_max_str_digits)%Z then Ok n else Raise ValueError.

(** Splits a text at its first full stop. *)
Fixpoint cut_at_dot (s : text) : text * option text :=
  match s with
  | [] => ([], None)
  | c :: t =>
      if (c =? 46)%N then ([], Some t)
      else let '(a, b) := cut_at_dot t in (c :: a, b)
  end.

(** [float(s)] on the texts the normalizers pass to it: digits, then
    possibly a full stop and digits, of any length; the nearest float to
    the decimal number written, [ValueError] on another shape. *)
Definition py_float (s : text) : result float :=
  match cut_at_dot s with
  | (ip, None) =>
      n <- digits_number ip ;; Ok (float_of_decimal n 0)
  | (ip, Some fp) =>
      match ip, fp with
      | _ :: _, _ :: _ =>
          n <- digits_number (ip ++ fp) ;; Ok (float_of_decimal n (length fp))
      | _, _ => Raise ValueError
      end
  end.

End Conversions.

(** ** The [re] module *)

Module Re.

(** Character classes of the patterns: [\d], [\s] and a bracketed set. *)
Inductive cls := CDigit | CSpace | COneOf (cs : text).

(** Regular expressions.  Repetition is over a character class, which
    is all the patterns of the source repeat without a bound. *)
Inductive regex :=
| Eps
| Chr (c : char)
| Cls (p : cls)
| Star (p : cls)
| Seq (a b : regex)
| Alt (a b : regex)
| Grp (n : nat) (a : regex)
| WordB
| Bos
| Eos.

Arguments Chr c%_N.

(** [r?], [p+] and [p{1,2}], all greedy. *)
Definition Opt (r : regex) : regex := Alt r Eps.
Definition Plus (p : cls) : regex := Seq (Cls p) (Star p).
Definition OneOrTwo (p : cls) : regex := Seq (Cls p) (Opt (Cls p)).

Fixpoint lit_text (s : text) : regex :=
  match s with
  | [] => Eps
  | [c] => Chr c
  | c :: t => Seq (Chr c) (lit_text t)
  end.

Definition lit (s : string) : regex := lit_text (of_string s).

(** A position in the subject (the character before it and the text
    from it on) with the groups captured so far, latest first. *)
Record mstate := MS {
  m_prev : option char;
  m_rest : text;
  m_caps : list (nat * text)
}.

Fixpoint lookup (n : nat) (caps : list (nat * text)) : option text :=
  match caps with
  | [] => None
  | (i, t) :: rest => if Nat.eqb i n then Some t else lookup n rest
  end.

(** [m.group(n)]: [None] for a group that took no part in the match. *)
Definition group (n : nat) (m : mstate) : option text := lookup n (m_caps m).

(** The text between two positions of the same subject. *)
Definition consumed (from to : mstate) : text :=
  firstn (length (m_rest from) - length (m_rest to)) (m_rest from).

Section Matcher.
Variable U : Unicode.

Definition in_cls (p : cls) (c : char) : bool :=
  match p with
  | CDigit => isdecimal U c
  | CSpace => isspace U c
  | COneOf cs => existsb (N.eqb c) cs
  end.

Definition word_before (st : mstate) : bool :=
  match m_prev st with Some c => isword U c | None => false end.

Definition word_after (st : mstate) : bool :=
  match m_rest st with c :: _ => isword U c | [] => false end.

(** Greedy repetition of a class: the longest run first, then shorter
    ones when the rest of the pattern fails. *)
Fixpoint star (p : char -> bool) (prev : option char) (s : text)
    (caps : list (nat * text)) (k : mstate -> option mstate) : option mstate :=
  match s with
  | c :: t =>
      if p c then
        match star p (Some c) t caps k with
        | Some m => Some m
        | None => k (MS prev s caps)
        end
      else k (MS prev s caps)
  | [] => k (MS prev [] caps)
  end.

(** The backtracking matcher: [rx r st k] matches [r] at [st] and hands
    each candidate end position to the continuation [k], first
    alternative first, until [k] accepts one. *)
Fixpoint rx (r : regex) (st : mstate) (k : mstate -> option mstate) : option mstate :=
  match r with
  | Eps => k st
  | Chr c =>
      match m_rest st with
      | x :: t => if (x =? c)%N then k (MS (Some x) t (m_caps st)) else None
      | [] => None
      end
  | Cls p =>
      match m_rest st with
      | x :: t => if in_cls p x then k (MS (Some x) t (m_caps st)) else None
      | [] => None
      end
  | Star p => star (in_cls p) (m_prev st) (m_rest st) (m_caps st) k
  | Seq a b => rx a st (fun st' => rx b st' k)
  | Alt a b =>
      match rx a st k with
      | Some m => Some m
      | None => rx b st k
      end
  | Grp n a =>
      rx a st (fun st' =>
        k (MS (m_prev st') (m_rest st') ((n, consumed st st') :: m_caps st')))
  | WordB => if xorb (word_before st) (word_after st) then k st else None
  | Bos => match m_prev st with None => k st | Some _ => None end
  | Eos =>
      match m_rest st with
      | [] => k st
      | [c] => if (c =? 10)%N then k st else None
      | _ => None
      end
  end.

(** A match at one position. *)
Definition match_at (r : regex) (prev : option char) (s : text) : option mstate :=
  rx r (MS prev s []) Some.

(** [re.match(r, s)] *)
Definition re_match (r : regex) (s : text) : option mstate := match_at r None s.

(** [re.fullmatch(r, s)] *)
Definition re_fullmatch (r : regex) (s : text) : option mstate :=
  rx r (MS None s [])
     (fun st => match m_rest st with [] => Some st | _ => None end).

(** [re.search(r, s)]: the match at the leftmost position that has one. *)
Fixpoint search_from (r : regex) (prev : option char) (s : text) : option mstate :=
  match match_at r prev s with
  | Some m => Some m
  | None =>
      match s with
      | c :: t => search_from r (Some c) t
      | [] => None
      end
  end.

Definition re_search (r : regex) (s : text) : option mstate := search_from r None s.

(** [r.finditer(s)]: leftmost matches that do not overlap, in order.
    [skip] counts the characters still covered by the previous match.
    (Every pattern of the source consumes a digit, so no match is
    empty.) *)
Fixpoint finditer_from (r : regex) (prev : option char) (s : text) (skip : nat)
    : list mstate :=
  match skip with
  | S n =>
      match s with
      | c :: t => finditer_from r (Some c) t n
      | [] => []
      end
  | O =>
      match match_at r prev s with
      | Some m =>
          m :: match s with
               | c :: t => finditer_from r (Some c) t (length s - length (m_rest m) - 1)
               | [] => []
               end
      | None =>
          match s with
          | c :: t => finditer_from r (Some c) t 0
          | [] => []
          end
      end
  end.

Definition finditer (r : regex) (s : text) : list mstate := finditer_from r None s 0.

(** [re.findall(r, s)] for a pattern with one group and with two:
    a group that took no part yields the empty text. *)
Definition group_or_empty (n : nat) (m : mstate) : text :=
  match group n m with Some t => t | None => [] end.

Definition findall1 (r : regex) (s : text) : list text :=
  map (group_or_empty 1) (finditer r s).

Definition findall2 (r : regex) (s : text) : list (text * text) :=
  map (fun m => (group_or_empty 1 m, group_or_empty 2 m)) (finditer r s).

End Matcher.

Declare Scope regex_scope.
Delimit Scope regex_scope with re.
Bind Scope regex_scope with regex.
Infix ">>" := Seq (at level 55, right associativity) : regex_scope.
Infix "<|>" := Alt (at level 60, right associativity) : regex_scope.

End Re.

Import Re.

(** ** utils.py *)

(** The argument of the normalizers: [Union[str, int, float, None]]. *)
Inductive pyvalue :=
| PyNone
| PyInt (n : Z)
| PyFloat (f : float)
| PyStr (s : text).

(** The three results of [get_platform]. *)
Inductive platform := tiktok | youtube | website.

Local Open Scope regex_scope.

(** [(\d+(?:\.\d+)?)] as group [n] *)
Definition number (n : nat) : regex :=
  Grp n (Plus CDigit >> Opt (Chr 46 >> Plus CDigit)).

(** [\d+:\d{1,2}(?::\d{1,2})?] *)
Definition colon_pattern : regex :=
  Plus CDigit >> Chr 58 >> OneOrTwo CDigit >> Opt (Chr 58 >> OneOrTwo CDigit).

(** [^pt(?:(\d+(?:\.\d+)?)h)?(?:(\d+(?:\.\d+)?)m)?(?:(\d+(?:\.\d+)?)s)?$] *)
Definition iso_pattern : regex :=
  Bos >> lit "pt" >>
  Opt (number 1 >> Chr 104) >> Opt (number 2 >> Chr 109) >> Opt (number 3 >> Chr 115) >>
  Eos.

(** [(\d+(?:\.\d+)?)\s*(?:hours?|hrs?|hr|h)\b] *)
Definition hour_pattern : regex :=
  number 1 >> Star CSpace >>
  ((lit "hour" >> Opt (Chr 115)) <|> (lit "hr" >> Opt (Chr 115)) <|> lit "hr" <|> lit "h") >>
  WordB.

(** [(\d+(?:\.\d+)?)\s*(?:minutes?|mins?|min|m)\b] *)
Definition minute_pattern : regex :=
  number 1 >> Star CSpace >>
  ((lit "minute" >> Opt (Chr 115)) <|> (lit "min" >> Opt (Chr 115)) <|> lit "min" <|> lit "m") >>
  WordB.

(** [(\d+(?:\.\d+)?)\s*(?:seconds?|secs?|sec|s)\b] *)
Definition second_pattern : regex :=
  number 1 >> Star CSpace >>
  ((lit "second" >> Opt (Chr 115)) <|> (lit "sec" >> Opt (Chr 115)) <|> lit "sec" <|> lit "s") >>
  WordB.

(** [(\d+(?:\.\d+)?)h\s*(\d+(?:\.\d+)?)m] *)
Definition compact_hm_pattern : regex :=
  number 1 >> Chr 104 >> Star CSpace >> number 2 >> Chr 109.

(** [(\d+(?:\.\d+)?)h\b] and [(\d+(?:\.\d+)?)m\b] *)
Definition compact_h_pattern : regex := number 1 >> Chr 104 >> WordB.
Definition compact_m_pattern : regex := number 1 >> Chr 109 >> WordB.

(** [(\d+(?:\.\d+)?)] *)
Definition number_pattern : regex := number 1.

(** [(\d+)\s*[-\u2013\u2014to]\s*(\d+)] *)
Definition range_pattern : regex :=
  Grp 1 (Plus CDigit) >> Star CSpace >> Cls (COneOf [45; 8211; 8212; 116; 111])%N >>
  Star CSpace >> Grp 2 (Plus CDigit).

Local Close Scope regex_scope.

Section Utils.
Variable U : Unicode.

(** [float(m.group(n))] *)
Definition float_of_group (n : nat) (m : mstate) : result float :=
  match group n m with
  | Some t => py_float U t
  | None => Raise TypeError
  end.

(** [float(m.group(n)) if m.group(n) else 0.0] *)
Definition float_of_group_or_zero (n : nat) (m : mstate) : result float :=
  match group n m with
  | Some (c :: t) => py_float U (c :: t)
  | _ => Ok f0
  end.

(** [for x in xs: total += term(x)] *)
Fixpoint accumulate {A : Type} (term : A -> result float) (xs : list A) (total : float)
    : result float :=
  match xs with
  | [] => Ok total
  | x :: rest => v <- term x ;; accumulate term rest (fadd total v)
  end.

(** [[int(p) for p in parts]] *)
Fixpoint ints_of (parts : list text) : result (list Z) :=
  match parts with
  | [] => Ok []
  | p :: rest => n <- py_int U p ;; ns <- ints_of rest ;; Ok (n :: ns)
  end.

(** The colon branch, on a text the colon pattern matched in full. *)
Definition colon_minutes (s : text) : result Z :=
  parts <- ints_of (split 58 s) ;;
  hms <- match parts with
         | [hours; minutes] => Ok (hours, minutes, 0%Z)
         | [hours; minutes; seconds] => Ok (hours, minutes, seconds)
         | _ => Raise ValueError
         end ;;
  let '(hours, minutes, seconds) := hms in
  sec <- float_of_int seconds ;;
  hm <- float_of_int (hours * 60 + minutes) ;;
  py_round (fadd hm (fdiv sec f60)).

(** The ISO branch, on the match of the ISO pattern. *)
Definition iso_minutes (m_iso : mstate) : result Z :=
  h <- float_of_group_or_zero 1 m_iso ;;
  mm <- float_of_group_or_zero 2 m_iso ;;
  sec <- float_of_group_or_zero 3 m_iso ;;
  py_round (fadd (fadd (fmul h f60) mm) (fdiv sec f60)).

(** The three unit-word loops, from a running total of [0.0]. *)
Definition unit_words (s : text) : result float :=
  t1 <- accumulate (fun m => x <- float_of_group 1 m ;; Ok (fmul x f60))
                   (finditer U hour_pattern s) f0 ;;
  t2 <- accumulate (fun m => float_of_group 1 m)
                   (finditer U minute_pattern s) t1 ;;
  accumulate (fun m => x <- float_of_group 1 m ;; Ok (fdiv x f60))
             (finditer U second_pattern s) t2.

(** The three compact loops, run one after the other on the same total. *)
Definition compact (s : text) (total : float) : result float :=
  t1 <- accumulate (fun hm => h <- py_float U (fst hm) ;; mm <- py_float U (snd hm) ;;
                              Ok (fadd (fmul h f60) mm))
                   (findall2 U compact_hm_pattern s) total ;;
  t2 <- accumulate (fun h => x <- py_float U h ;; Ok (fmul x f60))
                   (findall1 U compact_h_pattern s) t1 ;;
  accumulate (fun mm => py_float U mm) (findall1 U compact_m_pattern s) t2.

(** The first number of the text, when the total is still [0.0]. *)
Definition bare_number (s : text) (total : float) : result float :=
  if is_zero total then
    match re_search U number_pattern s with
    | Some m => float_of_group 1 m
    | None => Ok total
    end
  else Ok total.

Definition parse_time_to_minutes (time_str : pyvalue) : result Z :=
  match time_str with
  | PyNone => Ok 0%Z
  | PyInt n => f <- float_of_int n ;; py_round f
  | PyFloat f => py_round f
  | PyStr t =>
      let s := lower U (strip U t) in
      match s with
      | [] => Ok 0%Z
      | _ =>
          if isdigit U s then py_int U s
          else
            match re_fullmatch U colon_pattern s with
            | Some _ => colon_minutes s
            | None =>
                let s := replace 44 32 s in
                let s := replace 8211 45 s in
                let s := replace 8212 45 s in
                match re_match U iso_pattern s with
                | Some m_iso => iso_minutes m_iso
                | None =>
                    total <- unit_words s ;;
                    total <- (if is_zero total then compact s total else Ok total) ;;
                    total <- bare_number s total ;;
                    py_round total
                end
            end
      end
  end.

Definition parse_servings_to_int (servings_str : pyvalue) : result Z :=
  match servings_str with
  | PyNone => Ok 0%Z
  | PyInt n => f <- float_of_int n ;; py_round f
  | PyFloat f => py_round f
  | PyStr t =>
      let s := lower U (strip U t) in
      match s with
      | [] => Ok 0%Z
      | _ =>
          if isdigit U s then py_int U s
          else
            match re_search U range_pattern s with
            | Some range_match =>
                match group 1 range_match with
                | Some g => py_int U g
                | None => Raise TypeError
                end
            | None =>
                match re_search U number_pattern s with
                | Some number_match => x <- float_of_group 1 number_match ;; py_round x
                | None => Ok 0%Z
                end
            end
      end
  end.

Definition get_platform (url : text) : platform :=
  let url_lower := lower U url in
  if contains (of_string "tiktok.com") url_lower then tiktok
  else if contains (of_string "youtube.com") url_lower
          || contains (of_string "youtu.be") url_lower then youtube
  else website.

End Utils.

(** ** s3_upload.py *)

(** Equality of two texts, [a == b]. *)
Fixpoint text_eqb (a b : text) : bool :=
  match a, b with
  | [], [] => true
  | x :: a', y :: b' => (x =? y)%N && text_eqb a' b'
  | _, _ => false
  end.

(** [s.lstrip(ch)] for a one-character argument. *)
Fixpoint lstrip_char (ch : char) (s : text) : text :=
  match s with
  | c :: t => if (c =? ch)%N then lstrip_char ch t else s
  | [] => []
  end.

Arguments lstrip_char ch%_N s.

(** [s.zfill(width)]: zeros on the left, after the sign when there is one. *)
Definition zfill (width : nat) (s : text) : text :=
  let pad := repeat 48%N (width - length s) in
  match s with
  | c :: t => if (c =? 43)%N || (c =? 45)%N then c :: pad ++ t else pad ++ s
  | [] => pad
  end.

Fixpoint hex_uint_text (d : Hexadecimal.uint) : text :=
  match d with
  | Hexadecimal.Nil => []
  | Hexadecimal.D0 d => 48%N :: hex_uint_text d
  | Hexadecimal.D1 d => 49%N :: hex_uint_text d
  | Hexadecimal.D2 d => 50%N :: hex_uint_text d
  | Hexadecimal.D3 d => 51%N :: hex_uint_text d
  | Hexadecimal.D4 d => 52%N :: hex_uint_text d
  | Hexadecimal.D5 d => 53%N :: hex_uint_text d
  | Hexadecimal.D6 d => 54%N :: hex_uint_text d
  | Hexadecimal.D7 d => 55%N :: hex_uint_text d
  | Hexadecimal.D8 d => 56%N :: hex_uint_text d
  | Hexadecimal.D9 d => 57%N :: hex_uint_text d
  | Hexadecimal.Da d => 97%N :: hex_uint_text d
  | Hexadecimal.Db d => 98%N :: hex_uint_text d
  | Hexadecimal.Dc d => 99%N :: hex_uint_text d
  | Hexadecimal.Dd d => 100%N :: hex_uint_text d
  | Hexadecimal.De d => 101%N :: hex_uint_text d
  | Hexadecimal.Df d => 102%N :: hex_uint_text d
  end.

(** [hex(n)] for an [int]: [0x] and lower-case hexadecimal digits, after a
    hyphen when negative. *)
Definition py_hex (n : Z) : text :=
  match n with
  | Zneg p => 45%N :: of_string "0x" ++ hex_uint_text (Pos.to_hex_uint p)
  | _ => of_string "0x" ++ hex_uint_text (N.to_hex_uint (Z.to_N n))
  end.

(** [int(x)] for a float [x]: towards zero; an exception for NaN and the
    infinities. *)
Definition py_int_of_float (x : float) : result Z :=
  match x with
  | S754_zero _ => Ok 0%Z
  | S754_finite s m e =>
      Ok (cond_Zopp s (match e with
                       | Zneg k => Zpos m / 2 ^ Zpos k
                       | _ => Zpos m * 2 ^ e
                       end))%Z
  | S754_infinity _ => Raise OverflowError
  | S754_nan => Raise ValueError
  end.

(** [int(datetime.now().timestamp() * 1000)], [now] being the reading of
    the clock. *)
Definition timestamp_ms (now : float) : result Z :=
  py_int_of_float (fmul now (nearest_float 1000)).

(** [generate_unique_filename]; [now] is the reading of the clock and
    [rnd] the draw of [random.randint(0, 0xFFFFF)]. *)
Definition generate_unique_filename (now : float) (rnd : Z) (extension : text)
    : result text :=
  timestamp <- timestamp_ms now ;;
  let hex_timestamp := skipn 2 (py_hex timestamp) in
  let random_hex := zfill 5 (skipn 2 (py_hex rnd)) in
  match extension with
  | _ :: _ => Ok (hex_timestamp ++ [45%N] ++ random_hex ++ [46%N] ++ extension)
  | [] => Ok (hex_timestamp ++ [45%N] ++ random_hex)
  end.

Definition ALLOWED_EXTENSIONS : list text :=
  map of_string ["jpg"; "jpeg"; "png"; "webp"; "gif"; "svg"]%string.

(** The two library functions [get_extension_from_url] calls:
    [urlparse(url).path], which raises [ValueError] on some URLs, and
    [mimetypes.guess_extension], [None] for a type it does not know. *)
Record Libraries := {
  urlparse_path : text -> result text;
  guess_extension : text -> option text
}.

Section Extension.
Variable U : Unicode.
Variable L : Libraries.

(** The extension the path of the URL gives, when it is an allowed one. *)
Definition extension_of_path (path : text) : option text :=
  if contains [46%N] path then
    let ext := lower U (last (split 46 path) []) in
    if existsb (text_eqb ext) ALLOWED_EXTENSIONS then Some ext else None
  else None.

(** The extension the content type gives, when it is an allowed one. *)
Definition extension_of_type (content_type : option text) : option text :=
  match content_type with
  | Some ((_ :: _) as content_type) =>
      match guess_extension L content_type with
      | Some ((_ :: _) as ext) =>
          let ext := lstrip_char 46 ext in
          let ext := if text_eqb ext (of_string "jpe") then of_string "jpg" else ext in
          if existsb (text_eqb ext) ALLOWED_EXTENSIONS then Some ext else None
      | _ => None
      end
  | _ => None
  end.

Definition get_extension_from_url (url : text) (content_type : option text)
    : result text :=
  path <- urlparse_path L url ;;
  match extension_of_path path with
  | Some ext => Ok ext
  | None =>
      match extension_of_type content_type with
      | Some ext => Ok ext
      | None => Ok (of_string "jpg")
      end
  end.

End Extension.

(** What [upload_image_from_url] raises inside its [try]: a
    [requests.RequestException], or another exception. *)
Inductive failure := RequestException | OtherException.

Inductive outcome (A : Type) : Type :=
| Done (a : A)
| Fails (f : failure).

Arguments Done {A} a.
Arguments Fails {A} f.

(** The exceptions of the built-in functions are none of [requests]. *)
Definition of_result {A : Type} (r : result A) : outcome A :=
  match r with
  | Ok a => Done a
  | Raise _ => Fails OtherException
  end.

(** A client of [boto3], by the arguments it was made with. *)
Record s3_client := {
  aws_access_key_id : text;
  aws_secret_access_key : text;
  region_name : text
}.

(** The response of [requests.get]: what [raise_for_status()] does, the
    [Content-Type] header when there is one, and the body, whose reading may
    fail on a streamed response. *)
Record response := {
  raise_for_status : outcome unit;
  header_content_type : option text;
  content : outcome (list Byte.byte)
}.

(** The arguments of [s3_client.put_object]. *)
Record put_request := {
  Bucket : text;
  Key : text;
  Body : list Byte.byte;
  ContentType : text;
  ACL : text
}.

(** The calls that leave the process. *)
Inductive event :=
| HttpGet (url : text)
| PutObject (client : s3_client) (request : put_request).

(** The surroundings of one call of the module: the environment
    variables, the clock, the random draw, and how [boto3.client],
    [requests.get] and [put_object] answer. *)
Record World := {
  getenv : text -> option text;
  clock : float;
  randint : Z;
  boto3_client : text -> text -> text -> outcome s3_client;
  requests_get : text -> outcome response;
  put_object : s3_client -> put_request -> outcome unit
}.

(** The result of [upload_image_from_url] and of
    [upload_image_if_configured]: dictionaries with these keys. *)
Record upload_result := {
  success : bool;
  url : text;
  key : text
}.

Record image_ref := {
  ref_url : text;
  ref_key : text
}.

(** The body of a [try]: it hands on the calls made so far and returns a
    value or the exception raised. *)
Definition attempt (A : Type) : Type := list event -> outcome A * list event.

Definition ret {A : Type} (a : A) : attempt A := fun tr => (Done a, tr).

Definition lift {A : Type} (r : outcome A) : attempt A := fun tr => (r, tr).

Definition call {A : Type} (e : event) (r : outcome A) : attempt A :=
  fun tr => (r, tr ++ [e]).

Definition and_then {A B : Type} (m : attempt A) (k : A -> attempt B) : attempt B :=
  fun tr =>
    match m tr with
    | (Done a, tr') => k a tr'
    | (Fails f, tr') => (Fails f, tr')
    end.

Notation "x <~ m ;; k" := (and_then m (fun x => k))
  (at level 61, m at next level, right associativity).

Section Upload.
Variable U : Unicode.
Variable L : Libraries.
Variable W : World.

(** [os.getenv(name, default)] *)
Definition getenv_or (name : string) (default : string) : text :=
  match getenv W (of_string name) with
  | Some v => v
  | None => of_string default
  end.

Definition get_s3_client : option s3_client :=
  let aws_access_key := getenv W (of_string "AWS_ACCESS_KEY_ID") in
  let aws_secret_key := getenv W (of_string "AWS_SECRET_ACCESS_KEY") in
  let aws_region := getenv_or "AWS_REGION" "us-east-1" in
  match aws_access_key, aws_secret_key with
  | Some ((_ :: _) as aws_access_key), Some ((_ :: _) as aws_secret_key) =>
      match boto3_client W aws_access_key aws_secret_key aws_region with
      | Done s3_client => Some s3_client
      | Fails _ => None
      end
  | _, _ => None
  end.

(** The [try] block of [upload_image_from_url]. *)
Definition download_and_put (image_url : text) (s3_client : s3_client)
    (bucket_name : text) : attempt upload_result :=
  response <~ call (HttpGet image_url) (requests_get W image_url) ;;
  _ <~ lift (raise_for_status response) ;;
  let content_type :=
    match header_content_type response with
    | Some v => v
    | None => of_string "image/jpeg"
    end in
  extension <~ lift (of_result (get_extension_from_url U L image_url (Some content_type))) ;;
  filename <~ lift (of_result (generate_unique_filename (clock W) (randint W) extension)) ;;
  let key := of_string "uploads/scraper/" ++ filename in
  body <~ lift (content response) ;;
  let request := {| Bucket := bucket_name; Key := key; Body := body;
                    ContentType := content_type; ACL := of_string "public-read" |} in
  _ <~ call (PutObject s3_client request) (put_object W s3_client request) ;;
  let aws_region := getenv_or "AWS_REGION" "us-east-1" in
  let s3_url := of_string "https://" ++ bucket_name ++ of_string ".s3." ++ aws_region
                ++ of_string ".amazonaws.com/" ++ key in
  ret {| success := true; url := s3_url; key := key |}.

Definition upload_image_from_url (image_url : text) (s3_client : option s3_client)
    (bucket_name : option text) : upload_result * list event :=
  match image_url with
  | [] => ({| success := false; url := []; key := [] |}, [])
  | _ =>
      let s3_client :=
        match s3_client with
        | Some c => Some c
        | None => get_s3_client
        end in
      match s3_client with
      | None => ({| success := false; url := image_url; key := [] |}, [])
      | Some s3_client =>
          let bucket_name :=
            match bucket_name with
            | Some (_ :: _) => bucket_name
            | _ => getenv W (of_string "AWS_BUCKET_NAME")
            end in
          match bucket_name with
          | Some ((_ :: _) as bucket_name) =>
              match download_and_put image_url s3_client bucket_name [] with
              | (Done result, calls) => (result, calls)
              | (Fails RequestException, calls) =>
                  ({| success := false; url := image_url; key := [] |}, calls)
              | (Fails OtherException, calls) =>
                  ({| success := false; url := image_url; key := [] |}, calls)
              end
          | _ => ({| success := false; url := image_url; key := [] |}, [])
          end
      end
  end.

Definition upload_image_if_configured (image_url : text) : image_ref * list event :=
  match image_url with
  | [] => ({| ref_url := []; ref_key := [] |}, [])
  | _ =>
      let '(result, calls) := upload_image_from_url image_url None None in
      if success result
      then ({| ref_url := url result; ref_key := key result |}, calls)
      else ({| ref_url := image_url; ref_key := [] |}, calls)
  end.

End Upload.

(** ** validate_syntax.py *)

(** What [ast.parse] raises: a [SyntaxError] with its line, when it has
    one, and its message, or another exception with its text. *)
Inductive parse_error :=
| SyntaxError (lineno : option Z) (msg : text)
| ParseException (str : text).

(** The files of the disk and the parser: reading a file gives its text
    or the text of the exception raised; parsing accepts or raises. *)
Record Sources := {
  read_file : text -> text + text;
  ast_parse : text -> option parse_error
}.

(** [f"{e.lineno}"] *)
Definition format_lineno (lineno : option Z) : text :=
  match lineno with
  | Some n => py_str_int n
  | None => of_string "None"
  end.

Definition check_mark : char := 10003%N.
Definition ballot_x : char := 10007%N.

Section ValidateSyntax.
Variable F : Sources.

(** [check_syntax]: the result and the line printed. *)
Definition check_syntax (file_path : text) : bool * text :=
  match read_file F file_path with
  | inl code =>
      match ast_parse F code with
      | None => (true, check_mark :: of_string " " ++ file_path ++ of_string ": Valid syntax")
      | Some (SyntaxError lineno msg) =>
          (false, ballot_x :: of_string " " ++ file_path
                  ++ of_string ": Syntax error at line " ++ format_lineno lineno
                  ++ of_string ": " ++ msg)
      | Some (ParseException str) =>
          (false, ballot_x :: of_string " " ++ file_path ++ of_string ": Error: " ++ str)
      end
  | inr str =>
      (false, ballot_x :: of_string " " ++ file_path ++ of_string ": Error: " ++ str)
  end.

Definition files_to_check : list text :=
  map of_string ["models.py"; "config.py"; "scraper.py"; "app.py"; "utils.py";
                 "s3_upload.py"]%string.

(** [for file in files: if not check_syntax(file): all_valid = False],
    with the lines printed. *)
Fixpoint check_files (files : list text) (all_valid : bool) : bool * list text :=
  match files with
  | [] => (all_valid, [])
  | file :: rest =>
      let '(ok, line) := check_syntax file in
      let '(all_valid, lines) := check_files rest (if ok then all_valid else false) in
      (all_valid, line :: lines)
  end.

(** The script: the lines printed and the status of [sys.exit], if it is
    called. *)
Definition main : list text * option Z :=
  let '(all_valid, lines) := check_files files_to_check true in
  let printed :=
    [of_string "Checking Python syntax..." ++ [10%N]] ++ lines
    ++ [10%N :: repeat 61%N 50] in
  if all_valid
  then (printed ++ [check_mark :: of_string " All files have valid Python syntax!"], None)
  else (printed ++ [ballot_x :: of_string " Some files have syntax errors"], Some 1%Z).

End ValidateSyntax.

(** ** Vocabulary of the statements *)

(** An ASCII digit, [0] to [9]. *)
Definition ascii_digit (c : char) : bool := between 48 57 c.

(** The number a run of ASCII digits denotes, most significant first. *)
Definition decimal_value (ds : text) : Z :=
  fold_left (fun acc c => 10 * acc + Z.of_N (c - 48))%Z ds 0%Z.

(** [n] is the integer nearest to [m * 2^e], the even one of the two when
    [m * 2^e] lies half way. *)
Definition nearest_even (n m e : Z) : Prop :=
  match e with
  | Zneg k =>
      2 * Z.abs (n * 2 ^ Zpos k - m) <= 2 ^ Zpos k /\
      (2 * Z.abs (n * 2 ^ Zpos k - m) = 2 ^ Zpos k -> Z.even n = true)
  | _ => n = m * 2 ^ e
  end%Z.

(** The floats the text branches compute with: no NaN, no negative sign,
    and no exponent below that of the subnormal numbers. *)
Definition wf (x : float) : Prop :=
  match x with
  | S754_nan => False
  | S754_zero s | S754_infinity s => s = false
  | S754_finite s _ e => s = false /\ (-1074 <= e)%Z
  end.

(** ASCII lower-casing of one character. *)
Definition ascii_lower (c : char) : char :=
  if between 65 90 c then (c + 32)%N else c.

(** [d] is the ASCII text [n] up to the case of its letters. *)
Definition ignoring_case (d n : text) : Prop :=
  forallb is_ascii d = true /\ map ascii_lower d = n.

(** The position after the longest run of [p] characters at the head of [s]. *)
Fixpoint skip_run (p : char -> bool) (prev : option char) (s : text) : option char * text :=
  match s with
  | c :: t => if p c then skip_run p (Some c) t else (prev, s)
  | [] => (prev, [])
  end.

(** The character before the position reached after reading [ds]. *)
Definition after (prev : option char) (ds : text) : option char :=
  fold_left (fun _ c => Some c) ds prev.

Section Shapes.
Variable U : Unicode.

(** Digits, then possibly a full stop and digits. *)
Inductive number_shape : text -> Prop :=
| shape_int d :
    d <> [] -> forallb (isdecimal U) d = true -> number_shape d
| shape_frac d1 d2 :
    d1 <> [] -> forallb (isdecimal U) d1 = true ->
    d2 <> [] -> forallb (isdecimal U) d2 = true ->
    number_shape (d1 ++ 46%N :: d2).

(** A non-empty run of decimal digits. *)
Definition digits_shape (T : text) : Prop :=
  T <> [] /\ forallb (isdecimal U) T = true.

(** Where the longest number at the head of [s] ends. *)
Definition number_end (s : text) : option (option char * text) :=
  match s with
  | c :: t =>
      if isdecimal U c then
        let '(pv1, r1) := skip_run (isdecimal U) (Some c) t in
        match r1 with
        | dot :: c2 :: t2 =>
            if (dot =? 46)%N && isdecimal U c2
            then Some (skip_run (isdecimal U) (Some c2) t2)
            else Some (pv1, r1)
        | _ => Some (pv1, r1)
        end
      else None
  | [] => None
  end.

(** A continuation pattern that fails before a digit and before a full stop. *)
Definition rejects_number (K : regex) : Prop :=
  forall pv c t caps k,
    isdecimal U c = true \/ c = 46%N -> rx U K (MS pv (c :: t) caps) k = None.

(** What a group of the patterns captures. *)
Definition captures (P : nat -> text -> Prop) (n : nat) (a : regex) : Prop :=
  forall st k m,
    rx U (Grp n a) st k = Some m ->
    exists T r pv,
      m_rest st = T ++ r /\ P n T /\ k (MS pv r ((n, T) :: m_caps st)) = Some m.

(** Every group of a pattern captures texts of the form [P]. *)
Fixpoint sound (P : nat -> text -> Prop) (r : regex) : Prop :=
  match r with
  | Seq a b | Alt a b => sound P a /\ sound P b
  | Grp n a => captures P n a
  | _ => True
  end.

(** Every group holds a number. *)
Definition numbers : nat -> text -> Prop := fun _ => number_shape.

(** The groups every match of a pattern sets. *)
Fixpoint sure (r : regex) : list nat :=
  match r with
  | Seq a b => sure a ++ sure b
  | Grp n _ => [n]
  | _ => []
  end.

End Shapes.

Section ClockShape.
Variable U : Unicode.

(** The texts [h:mm] and [h:mm:ss] with their fields: digits, at least one
    in [h], one or two in [mm] and in [ss]. *)
Inductive clock_shape : text -> list text -> Prop :=
| clock_hm h mi :
    digits_shape U h -> digits_shape U mi -> length mi <= 2 ->
    clock_shape (h ++ 58%N :: mi) [h; mi]
| clock_hms h mi sec :
    digits_shape U h -> digits_shape U mi -> length mi <= 2 ->
    digits_shape U sec -> length sec <= 2 ->
    clock_shape (h ++ 58%N :: mi ++ 58%N :: sec) [h; mi; sec].

End ClockShape.

(** [round(H * 60 + M + S / 60.0)], as Python evaluates it on integers. *)
Definition clock_minutes (H M S : Z) : result Z :=
  sec <- float_of_int S ;;
  hm <- float_of_int (H * 60 + M) ;;
  py_round (fadd hm (fdiv sec f60)).

(** An ASCII digit or a colon. *)
Definition clock_char (c : char) : bool := ascii_digit c || (c =? 58)%N.

Section NoDigitDef.
Variable U : Unicode.

(** A pattern that reads no decimal digit. *)
Fixpoint nodigit (r : regex) : Prop :=
  match r with
  | Chr c => isdecimal U c = false
  | Cls p | Star p => forall c, in_cls U p c = true -> isdecimal U c = false
  | Seq a b | Alt a b => nodigit a /\ nodigit b
  | Grp _ a => nodigit a
  | _ => True
  end.

(** A text without decimal digits. *)
Definition digit_free (w : text) : bool := forallb (fun c => negb (isdecimal U c)) w.

(** A text that starts neither with a decimal digit nor with a full stop. *)
Definition not_number_led (r : text) : Prop :=
  match r with
  | c :: _ => isdecimal U c = false /\ c <> 46%N
  | [] => True
  end.

(** The failure of a continuation pattern depends on the text only. *)
Definition fail_stable (K : regex) : Prop :=
  forall pv pv' r caps caps',
    rx U K (MS pv r caps) Some = None -> rx U K (MS pv' r caps') Some = None.

(** A text without any digit character, decimal or not. *)
Definition no_digit (w : text) : bool := forallb (fun c => negb (isdigit_char U c)) w.

(** A pattern that starts with digits does not match before another
    character, nor at the end of the text. *)
Definition starts_with_digit (r : regex) : Prop :=
  forall pv s caps k,
    match s with c :: _ => isdecimal U c = false | [] => True end ->
    rx U r (MS pv s caps) k = None.

End NoDigitDef.

Local Open Scope regex_scope.

(** The patterns after their number. *)
Definition hour_tail : regex :=
  Star CSpace >>
  ((lit "hour" >> Opt (Chr 115)) <|> (lit "hr" >> Opt (Chr 115)) <|> lit "hr" <|> lit "h") >>
  WordB.

Definition minute_tail : regex :=
  Star CSpace >>
  ((lit "minute" >> Opt (Chr 115)) <|> (lit "min" >> Opt (Chr 115)) <|> lit "min" <|> lit "m") >>
  WordB.

Definition second_tail : regex :=
  Star CSpace >>
  ((lit "second" >> Opt (Chr 115)) <|> (lit "sec" >> Opt (Chr 115)) <|> lit "sec" <|> lit "s") >>
  WordB.

Definition compact_h_tail : regex := Chr 104 >> WordB.

Definition compact_m_tail : regex := Chr 109 >> WordB.

Local Close Scope regex_scope.

Section SpecSide.
Variable U : Unicode.

(** The compact stage as the specification words it: the combined
    pattern, else the hours alone, else the minutes alone. *)
Definition compact_alternatives (s : text) (total : float) : result float :=
  match findall2 U compact_hm_pattern s with
  | (_ :: _) as compact_hm =>
      accumulate (fun hm => h <- py_float U (fst hm) ;; mm <- py_float U (snd hm) ;;
                            Ok (fadd (fmul h f60) mm)) compact_hm total
  | [] =>
      match findall1 U compact_h_pattern s with
      | (_ :: _) as compact_h =>
          accumulate (fun h => x <- py_float U h ;; Ok (fmul x f60)) compact_h total
      | [] =>
          accumulate (fun mm => py_float U mm) (findall1 U compact_m_pattern s) total
      end
  end.

(** [parse_time_to_minutes] with the compact stage read that way. *)
Definition parse_time_alternatives (time_str : pyvalue) : result Z :=
  match time_str with
  | PyNone => Ok 0%Z
  | PyInt n => f <- float_of_int n ;; py_round f
  | PyFloat f => py_round f
  | PyStr t =>
      let s := lower U (strip U t) in
      match s with
      | [] => Ok 0%Z
      | _ =>
          if isdigit U s then py_int U s
          else
            match re_fullmatch U colon_pattern s with
            | Some _ => colon_minutes U s
            | None =>
                let s := replace 44 32 s in
                let s := replace 8211 45 s in
                let s := replace 8212 45 s in
                match re_match U iso_pattern s with
                | Some m_iso => iso_minutes U m_iso
                | None =>
                    total <- unit_words U s ;;
                    total <- (if is_zero total then compact_alternatives s total
                              else Ok total) ;;
                    total <- bare_number U s total ;;
                    py_round total
                end
            end
      end
  end.

End SpecSide.

Section Totals.
Variable U : Unicode.

(** A text that holds a run of more than 4300 decimal digits. *)
Definition long_run (s : text) : Prop :=
  exists pre g post,
    s = pre ++ g ++ post /\ forallb (isdecimal U) g = true /\
    (4300 < Z.of_nat (length g))%Z.

(** [hours * 60 + minutes + (seconds / 60.0)], as Python evaluates it on
    integers. *)
Definition clock_total (H M S : Z) : result float :=
  sec <- float_of_int S ;;
  hm <- float_of_int (H * 60 + M) ;;
  Ok (fadd hm (fdiv sec f60)).

(** [total_minutes] where [parse_time_to_minutes] returns
    [int(round(total_minutes))], on a trimmed, lower-cased text [s] that
    is not all digits: at the end of the colon branch, of the ISO branch,
    and at the last line. *)
Definition time_total (s : text) : result float :=
  match re_fullmatch U colon_pattern s with
  | Some _ =>
      parts <- ints_of U (split 58 s) ;;
      match parts with
      | [hours; minutes] => clock_total hours minutes 0
      | [hours; minutes; seconds] => clock_total hours minutes seconds
      | _ => Raise ValueError
      end
  | None =>
      let s := replace 44 32 s in
      let s := replace 8211 45 s in
      let s := replace 8212 45 s in
      match re_match U iso_pattern s with
      | Some m_iso =>
          h <- float_of_group_or_zero U 1 m_iso ;;
          mm <- float_of_group_or_zero U 2 m_iso ;;
          sec <- float_of_group_or_zero U 3 m_iso ;;
          Ok (fadd (fadd (fmul h f60) mm) (fdiv sec f60))
      | None =>
          total <- unit_words U s ;;
          total <- (if is_zero total then compact U s total else Ok total) ;;
          bare_number U s total
      end
  end.

(** The first number of a text, [re.search(number_pattern, s).group(1)]. *)
Definition first_number (s : text) : option text :=
  match re_search U number_pattern s with
  | Some m => group 1 m
  | None => None
  end.

(** A total that is infinite, or an [int] that no float holds. *)
Definition overflows (total : result float) : Prop :=
  total = Ok (S754_infinity false) \/ total = Raise OverflowError.

End Totals.

(** A table whose decimal digits have the values 0 to 9. *)
Definition decimal_values (U : Unicode) : Prop :=
  forall c v, uni_class U c = UDecimal v -> (v <= 9)%N.

(** A float of binary64: a mantissa below [2^53] and an exponent that the
    format has. *)
Definition binary64 (x : float) : Prop :=
  match x with
  | S754_finite _ m e => (Zpos m < 2 ^ 53 /\ e <= 971)%Z
  | _ => True
  end.

(** An argument whose float, if it is one, is of binary64. *)
Definition python_value (x : pyvalue) : Prop :=
  match x with
  | PyFloat f => binary64 f
  | _ => True
  end.

(** A lower-case hexadecimal digit, and its value. *)
Definition hex_digit (c : char) : bool := between 48 57 c || between 97 102 c.

Definition hex_digit_value (c : char) : Z :=
  if between 48 57 c then Z.of_N (c - 48) else Z.of_N (c - 87).

(** The number a run of hexadecimal digits denotes, most significant first. *)
Definition hex_value (s : text) : Z :=
  fold_left (fun acc c => 16 * acc + hex_digit_value c)%Z s 0%Z.

(** An environment variable that is not set, or set to the empty text. *)
Definition unset (W : World) (name : string) : Prop :=
  getenv W (of_string name) = None \/ getenv W (of_string name) = Some [].

(** [Content-Type] of a response, as [upload_image_from_url] reads it. *)
Definition content_type_of (resp : response) : text :=
  match header_content_type resp with
  | Some v => v
  | None => of_string "image/jpeg"
  end.

(** Sample libraries: the path is what follows the host, up to the
    query or the fragment; four content types are known. *)
Fixpoint after_slashes (s : text) : text :=
  match s with
  | c :: t =>
      match t with
      | c' :: t' => if (c =? 47)%N && (c' =? 47)%N then t' else after_slashes t
      | [] => []
      end
  | [] => []
  end.

Fixpoint from_slash (s : text) : text :=
  match s with
  | c :: t => if (c =? 47)%N then s else from_slash t
  | [] => []
  end.

Fixpoint until_query (s : text) : text :=
  match s with
  | c :: t => if (c =? 63)%N || (c =? 35)%N then [] else c :: until_query t
  | [] => []
  end.

Definition sample_libraries : Libraries := {|
  urlparse_path := fun url => Ok (until_query (from_slash (after_slashes url)));
  guess_extension := fun content_type =>
    if text_eqb content_type (of_string "image/jpeg") then Some (of_string ".jpg")
    else if text_eqb content_type (of_string "image/png") then Some (of_string ".png")
    else if text_eqb content_type (of_string "image/webp") then Some (of_string ".webp")
    else if text_eqb content_type (of_string "text/html") then Some (of_string ".html")
    else None
|}.

(** Sample worlds: every call succeeds, the clock reads 1700000000
    seconds after 1970 and the draw is [0xabc]; the environment is a
    parameter. *)
Definition sample_world (env : text -> option text) : World := {|
  getenv := env;
  clock := nearest_float 1700000000;
  randint := 0xabc;
  boto3_client := fun access_key secret_key region =>
    Done {| aws_access_key_id := access_key;
            aws_secret_access_key := secret_key;
            region_name := region |};
  requests_get := fun _ =>
    Done {| raise_for_status := Done tt;
            header_content_type := Some (of_string "image/png");
            content := Done [Byte.x89; Byte.x50; Byte.x4e; Byte.x47] |};
  put_object := fun _ _ => Done tt
|}.

Definition sample_env (name : text) : option text :=
  if text_eqb name (of_string "AWS_ACCESS_KEY_ID") then Some (of_string "AKIDEXAMPLE")
  else if text_eqb name (of_string "AWS_SECRET_ACCESS_KEY") then Some (of_string "secret")
  else if text_eqb name (of_string "AWS_BUCKET_NAME") then Some (of_string "recipes")
  else None.

Definition empty_env (name : text) : option text := None.

(** Two more sample worlds: in the first every request fails; in the
    second every request is answered by a page of HTML. *)
Definition offline_world (env : text -> option text) : World := {|
  getenv := env;
  clock := nearest_float 1700000000;
  randint := 0xabc;
  boto3_client := boto3_client (sample_world env);
  requests_get := fun _ => Fails RequestException;
  put_object := fun _ _ => Done tt
|}.

Definition html_world (env : text -> option text) : World := {|
  getenv := env;
  clock := nearest_float 1700000000;
  randint := 0xabc;
  boto3_client := boto3_client (sample_world env);
  requests_get := fun _ =>
    Done {| raise_for_status := Done tt;
            header_content_type := Some (of_string "text/html");
            content := Done [Byte.x3c; Byte.x70; Byte.x3e] |};
  put_object := fun _ _ => Done tt
|}.

(** A separator of the range pattern: one of the five characters of its
    class, which the table classes neither as white space nor as a digit
    (the three that are ASCII are neither). *)
Definition range_separator (U : Unicode) (c : char) : Prop :=
  In c [45; 8211; 8212; 116; 111]%N /\ isspace U c = false /\ isdigit_char U c = false.

(** White space of ASCII. *)
Definition plain_space (c : char) : bool :=
  between 9 13 c || between 28 31 c || (c =? 32)%N.

(** The words of the hour pattern and of the minute pattern. *)
Definition hour_words : list text :=
  map of_string ["hours"; "hour"; "hrs"; "hr"; "h"]%string.

Definition minute_words : list text :=
  map of_string ["minutes"; "minute"; "mins"; "min"; "m"]%string.

Section Quantities.
Variable U : Unicode.

(** The end of the text, or a character that is not a word character. *)
Definition ends_word (s : text) : Prop :=
  match s with
  | c :: _ => isword U c = false
  | [] => True
  end.

(** A text made of quantities of hours and of minutes (ASCII digits,
    ASCII white space or none, a unit word, and then the end of a word)
    among characters that are no digits, with the hours and the minutes it
    names. *)
Inductive quantities : text -> Z -> Z -> Prop :=
| quantities_end : quantities [] 0 0
| quantities_other c s h m :
    isdigit_char U c = false -> quantities s h m -> quantities (c :: s) h m
| quantities_hours d sp w s h m :
    d <> [] -> forallb ascii_digit d = true -> forallb plain_space sp = true ->
    In w hour_words -> ends_word s -> quantities s h m ->
    quantities (d ++ sp ++ w ++ s) (decimal_value d + h) m
| quantities_minutes d sp w s h m :
    d <> [] -> forallb ascii_digit d = true -> forallb plain_space sp = true ->
    In w minute_words -> ends_word s -> quantities s h m ->
    quantities (d ++ sp ++ w ++ s) h (decimal_value d + m).

(** The matches of a unit pattern, number then tail [K], over a text. *)
Definition scan_of (K : regex) (s : text) : list mstate :=
  finditer_from U (Seq (number 1) K) None s 0.

End Quantities.

(** A field of an ISO duration: digits and the letter of the unit, or
    nothing; the number it denotes. *)
Definition iso_field (digits : option text) (unit : char) : text :=
  match digits with
  | Some d => d ++ [unit]
  | None => []
  end.

Definition iso_field_value (digits : option text) : Z :=
  match digits with
  | Some d => decimal_value d
  | None => 0%Z
  end.

Definition iso_field_digits (digits : option text) : Prop :=
  match digits with
  | Some d => d <> [] /\ forallb ascii_digit d = true
  | None => True
  end.

Arguments iso_field digits unit%_N.

(** A pattern that matches only where the letter [x] lies ahead. *)
Definition needs_letter (U : Unicode) (x : char) (K : regex) : Prop :=
  forall st k m, rx U K st k = Some m -> In x (m_rest st).

(** A text without the letters [h], [m] and [s]. *)
Definition unit_free (w : text) : bool :=
  forallb (fun c => negb ((c =? 104) || (c =? 109) || (c =? 115))%N) w.

(** * Properties *)

(** ** Characters *)

Section CharFacts.
Variable U : Unicode.

Lemma ascii_digit_class c :
  ascii_digit c = true -> class_of U c = UDecimal (c - 48).
Proof.
  unfold ascii_digit, class_of, is_ascii, ascii_class, between.
  intros H. apply andb_prop in H as [H1 H2].
  apply N.leb_le in H1. apply N.leb_le in H2.
  assert (E : (c <? 128)%N = true) by (apply N.ltb_lt; lia). rewrite E.
  assert (E1 : (c <=? 13)%N = false) by (apply N.leb_gt; lia).
  assert (E2 : (c <=? 31)%N = false) by (apply N.leb_gt; lia).
  assert (E3 : (c =? 32)%N = false) by (apply N.eqb_neq; lia).
  assert (E4 : (48 <=? c)%N = true) by (apply N.leb_le; lia).
  assert (E5 : (c <=? 57)%N = true) by (apply N.leb_le; lia).
  rewrite E1, E2, E3, E4, E5. rewrite !andb_false_r. reflexivity.
Qed.

Lemma ascii_digit_decimal c : ascii_digit c = true -> isdecimal U c = true.
Proof. intros H. unfold isdecimal. now rewrite (ascii_digit_class c H). Qed.

Lemma ascii_digit_isdigit c : ascii_digit c = true -> isdigit_char U c = true.
Proof. intros H. unfold isdigit_char. now rewrite (ascii_digit_class c H). Qed.

Lemma ascii_digit_not_space c : ascii_digit c = true -> isspace U c = false.
Proof. intros H. unfold isspace. now rewrite (ascii_digit_class c H). Qed.

Lemma ascii_digit_lower before c after :
  ascii_digit c = true -> lower_char U before c after = [c].
Proof.
  unfold ascii_digit, lower_char, is_ascii, between. intros H.
  apply andb_prop in H as [H1 H2].
  apply N.leb_le in H1. apply N.leb_le in H2.
  assert (E : (c <? 128)%N = true) by (apply N.ltb_lt; lia). rewrite E.
  assert (E1 : (65 <=? c)%N = false) by (apply N.leb_gt; lia).
  now rewrite E1.
Qed.

(** A decimal digit is neither white space nor a full stop. *)
Lemma decimal_not_space c : isdecimal U c = true -> isspace U c = false.
Proof. unfold isdecimal, isspace. now destruct (class_of U c). Qed.

Lemma decimal_isdigit c : isdecimal U c = true -> isdigit_char U c = true.
Proof. unfold isdecimal, isdigit_char. now destruct (class_of U c). Qed.

Lemma decimal_isword c : isdecimal U c = true -> isword U c = true.
Proof. unfold isdecimal, isword. now destruct (class_of U c). Qed.

(** Lower-casing and stripping leave a run of ASCII digits alone. *)
Lemma lower_from_digits before ds :
  forallb ascii_digit ds = true -> lower_from U before ds = ds.
Proof.
  revert before. induction ds as [|c ds IH]; intros before H; [reflexivity|].
  simpl in H. apply andb_prop in H as [Hc Hds]. simpl.
  now rewrite (ascii_digit_lower _ _ _ Hc), IH.
Qed.

Lemma lstrip_spaces ws s :
  forallb (isspace U) ws = true -> lstrip U (ws ++ s) = lstrip U s.
Proof.
  induction ws as [|c ws IH]; intros H; [reflexivity|].
  simpl in H. apply andb_prop in H as [Hc Hws]. simpl. now rewrite Hc, IH.
Qed.

Lemma lstrip_digits ds s :
  ds <> [] -> forallb ascii_digit ds = true -> lstrip U (ds ++ s) = ds ++ s.
Proof.
  destruct ds as [|c ds]; [congruence|]. intros _ H. simpl in H.
  apply andb_prop in H as [Hc _]. simpl. now rewrite (ascii_digit_not_space c Hc).
Qed.

Lemma forallb_rev {A} (f : A -> bool) l : forallb f (rev l) = forallb f l.
Proof.
  induction l as [|a l IH]; [reflexivity|]. simpl.
  rewrite forallb_app, IH. simpl. rewrite andb_true_r. apply andb_comm.
Qed.

Lemma strip_digits ws1 ds ws2 :
  ds <> [] -> forallb ascii_digit ds = true ->
  forallb (isspace U) ws1 = true -> forallb (isspace U) ws2 = true ->
  strip U (ws1 ++ ds ++ ws2) = ds.
Proof.
  intros Hne Hds H1 H2. unfold strip.
  rewrite (lstrip_spaces _ _ H1), (lstrip_digits _ _ Hne Hds).
  rewrite rev_app_distr, lstrip_spaces by now rewrite forallb_rev.
  assert (Hr : rev ds <> []).
  { intros E. apply Hne. rewrite <- (rev_involutive ds), E. reflexivity. }
  rewrite <- (app_nil_r (rev ds)), (lstrip_digits _ [] Hr) by now rewrite forallb_rev.
  now rewrite app_nil_r, rev_involutive.
Qed.

Lemma isdigit_digits ds :
  ds <> [] -> forallb ascii_digit ds = true -> isdigit U ds = true.
Proof.
  intros Hne H. unfold isdigit. destruct ds as [|c ds]; [congruence|].
  apply forallb_forall. intros x Hx. apply ascii_digit_isdigit.
  now apply (proj1 (forallb_forall _ _) H).
Qed.

End CharFacts.

(** ** Decimal notation *)

Section DecimalFacts.
Variable U : Unicode.

Lemma digits_value_ascii ds : forall acc,
  forallb ascii_digit ds = true ->
  digits_value U acc ds
  = Some (fold_left (fun acc c => 10 * acc + Z.of_N (c - 48))%Z ds acc).
Proof.
  induction ds as [|c ds IH]; intros acc H; [reflexivity|].
  simpl in H. apply andb_prop in H as [Hc Hds]. simpl.
  now rewrite (ascii_digit_class U _ Hc), IH.
Qed.

Lemma digits_number_digits ds :
  ds <> [] -> forallb ascii_digit ds = true ->
  digits_number U ds = Ok (decimal_value ds).
Proof.
  intros Hne H. unfold digits_number, decimal_value.
  destruct ds as [|c ds]; [congruence|]. now rewrite digits_value_ascii.
Qed.

Lemma py_int_short s :
  (Z.of_nat (length s) <= 4300)%Z -> py_int U s = digits_number U s.
Proof.
  intros L. unfold py_int, int_max_str_digits.
  destruct (digits_number U s); [|reflexivity]. cbn [bind].
  now rewrite (proj2 (Z.leb_le _ _) L).
Qed.

Lemma digits_number_raises s e : digits_number U s = Raise e -> e = ValueError.
Proof.
  unfold digits_number. destruct s as [|c s]; [congruence|].
  destruct (digits_value U 0 (c :: s)); congruence.
Qed.

Lemma py_int_long s :
  (4300 < Z.of_nat (length s))%Z -> py_int U s = Raise ValueError.
Proof.
  intros L. unfold py_int, int_max_str_digits.
  destruct (digits_number U s) as [n|e] eqn:E; cbn [bind].
  - now rewrite (proj2 (Z.leb_gt _ _) L).
  - now rewrite (digits_number_raises s e E).
Qed.

Lemma digits_value_decimal ds : forall acc,
  forallb (isdecimal U) ds = true -> (0 <= acc)%Z ->
  exists n, digits_value U acc ds = Some n /\ (0 <= n)%Z.
Proof.
  induction ds as [|c ds IH]; intros acc H Ha; cbn [digits_value].
  - eauto.
  - cbn [forallb] in H. apply andb_prop in H as [Hc Hds].
    unfold isdecimal in Hc. destruct (class_of U c); try discriminate.
    apply IH; [assumption|lia].
Qed.

Lemma digits_value_nonneg s : forall acc n,
  digits_value U acc s = Some n -> (0 <= acc)%Z -> (0 <= n)%Z.
Proof.
  induction s as [|c s IH]; intros acc n H Ha; cbn [digits_value] in H.
  - injection H as <-. exact Ha.
  - destruct (class_of U c); try discriminate. apply (IH _ _ H). lia.
Qed.

Lemma digits_value_none s : forall acc,
  forallb (isdecimal U) s = false -> digits_value U acc s = None.
Proof.
  induction s as [|c s IH]; intros acc H; cbn [forallb] in H; [discriminate|].
  cbn [digits_value]. unfold isdecimal in H.
  destruct (class_of U c); cbn [andb] in H; try reflexivity. now apply IH.
Qed.

Lemma digits_number_decimal s :
  s <> [] -> forallb (isdecimal U) s = true ->
  exists n, digits_value U 0 s = Some n /\ (0 <= n)%Z /\ digits_number U s = Ok n.
Proof.
  intros Hne H. destruct (digits_value_decimal s 0 H ltac:(lia)) as (n & E & Hn).
  exists n. split; [exact E|]. split; [exact Hn|].
  unfold digits_number. destruct s; [congruence|]. now rewrite E.
Qed.

Lemma digits_number_refuses s :
  forallb (isdecimal U) s = false -> digits_number U s = Raise ValueError.
Proof.
  intros H. unfold digits_number. destruct s; [reflexivity|].
  now rewrite digits_value_none.
Qed.

Lemma py_int_refuses s :
  forallb (isdecimal U) s = false \/ (4300 < Z.of_nat (length s))%Z ->
  py_int U s = Raise ValueError.
Proof.
  intros [H|H]; [|now apply py_int_long].
  unfold py_int. now rewrite digits_number_refuses.
Qed.

Lemma py_int_digits ds :
  ds <> [] -> forallb ascii_digit ds = true -> (Z.of_nat (length ds) <= 4300)%Z ->
  py_int U ds = Ok (decimal_value ds).
Proof.
  intros Hne H L. rewrite py_int_short by exact L. now apply digits_number_digits.
Qed.

Lemma decimal_value_nonneg ds : (0 <= decimal_value ds)%Z.
Proof.
  unfold decimal_value.
  assert (G : forall acc, (0 <= acc)%Z ->
    (0 <= fold_left (fun acc c => 10 * acc + Z.of_N (c - 48))%Z ds acc)%Z).
  { induction ds as [|c ds IH]; intros acc Ha; [exact Ha|]. cbn [fold_left]. apply IH. lia. }
  apply G. lia.
Qed.

Lemma uint_text_digits d : forallb ascii_digit (uint_text d) = true.
Proof. induction d; simpl; auto. Qed.

Lemma uint_text_nonempty d : d <> Decimal.Nil -> uint_text d <> [].
Proof. destruct d; simpl; congruence. Qed.

Lemma fold_uint_acc d : forall acc,
  fold_left (fun acc c => 10 * acc + Z.of_N (c - 48))%Z (uint_text d) (Zpos acc)
  = Zpos (Pos.of_uint_acc d acc).
Proof.
  induction d; intros acc; cbn [uint_text fold_left Pos.of_uint_acc];
    try reflexivity; rewrite <- IHd; f_equal; lia.
Qed.

Lemma fold_uint d :
  fold_left (fun acc c => 10 * acc + Z.of_N (c - 48))%Z (uint_text d) 0%Z
  = Z.of_N (Pos.of_uint d).
Proof.
  induction d; cbn [uint_text fold_left Pos.of_uint]; try reflexivity;
    try exact IHd; apply fold_uint_acc.
Qed.

(** Reading back what [str] prints of a natural number. *)
Lemma decimal_value_str n : (0 <= n)%Z -> decimal_value (py_str_int n) = n.
Proof.
  intros Hn. unfold py_str_int, decimal_value.
  destruct n as [|p|p]; [reflexivity| |lia].
  simpl. rewrite fold_uint. now rewrite DecimalPos.Unsigned.of_to.
Qed.

Lemma str_digits n : (0 <= n)%Z ->
  py_str_int n <> [] /\ forallb ascii_digit (py_str_int n) = true.
Proof.
  intros Hn. unfold py_str_int. destruct n as [|p|p]; [split; [discriminate|reflexivity]| |lia].
  simpl. split.
  - apply uint_text_nonempty, DecimalPos.Unsigned.to_uint_nonnil.
  - apply uint_text_digits.
Qed.

End DecimalFacts.

(** ** Pure digits come first *)

Section PureDigits.
Variable U : Unicode.

Lemma digits_first_time t :
  isdigit U (lower U (strip U t)) = true ->
  parse_time_to_minutes U (PyStr t) = py_int U (lower U (strip U t)).
Proof.
  intros H. unfold parse_time_to_minutes.
  destruct (lower U (strip U t)) as [|c s] eqn:E; [discriminate H|].
  now rewrite H.
Qed.

Lemma digits_first_servings t :
  isdigit U (lower U (strip U t)) = true ->
  parse_servings_to_int U (PyStr t) = py_int U (lower U (strip U t)).
Proof.
  intros H. unfold parse_servings_to_int.
  destruct (lower U (strip U t)) as [|c s] eqn:E; [discriminate H|].
  now rewrite H.
Qed.

Lemma normal_form_digits ws1 ds ws2 :
  ds <> [] -> forallb ascii_digit ds = true ->
  forallb (isspace U) ws1 = true -> forallb (isspace U) ws2 = true ->
  lower U (strip U (ws1 ++ ds ++ ws2)) = ds.
Proof.
  intros Hne Hds H1 H2. rewrite strip_digits by assumption.
  now apply lower_from_digits.
Qed.

(** C7, amended.  A text whose trimmed, lower-cased form satisfies
    [isdigit] is handed to [int] by both normalizers, whatever a later
    grammar would make of it.  Made of at most 4300 decimal digits, it
    gives the number they write; with a digit that is not decimal, or
    with more than 4300 digits, it makes [int] raise [ValueError].  ASCII
    digits, possibly between white space, give the number they denote. *)
Theorem C7_pure_digits_first :
  (forall t,
     isdigit U (lower U (strip U t)) = true ->
     forallb (isdecimal U) (lower U (strip U t)) = true ->
     (Z.of_nat (length (lower U (strip U t))) <= 4300)%Z ->
     exists n,
       digits_value U 0 (lower U (strip U t)) = Some n /\ (0 <= n)%Z /\
       parse_time_to_minutes U (PyStr t) = Ok n /\
       parse_servings_to_int U (PyStr t) = Ok n) /\
  (forall t,
     isdigit U (lower U (strip U t)) = true ->
     forallb (isdecimal U) (lower U (strip U t)) = false \/
     (4300 < Z.of_nat (length (lower U (strip U t))))%Z ->
     parse_time_to_minutes U (PyStr t) = Raise ValueError /\
     parse_servings_to_int U (PyStr t) = Raise ValueError) /\
  (forall ws1 ds ws2,
     ds <> [] -> forallb ascii_digit ds = true -> (Z.of_nat (length ds) <= 4300)%Z ->
     forallb (isspace U) ws1 = true -> forallb (isspace U) ws2 = true ->
     parse_time_to_minutes U (PyStr (ws1 ++ ds ++ ws2)) = Ok (decimal_value ds) /\
     parse_servings_to_int U (PyStr (ws1 ++ ds ++ ws2)) = Ok (decimal_value ds)).
Proof.
  split; [|split].
  - intros t D H L.
    assert (Hne : lower U (strip U t) <> []) by (intros E; rewrite E in D; discriminate).
    destruct (digits_number_decimal U _ Hne H) as (n & E & Hn & G).
    exists n. rewrite digits_first_time, digits_first_servings by exact D.
    rewrite py_int_short by exact L. auto.
  - intros t D H. rewrite digits_first_time, digits_first_servings by exact D.
    split; now apply py_int_refuses.
  - intros ws1 ds ws2 Hne Hds L H1 H2.
    pose proof (normal_form_digits ws1 ds ws2 Hne Hds H1 H2) as E.
    pose proof (isdigit_digits U ds Hne Hds) as D.
    rewrite digits_first_time, digits_first_servings by now rewrite E.
    rewrite E. split; now apply py_int_digits.
Qed.

End PureDigits.

(** ** The length of a decimal text *)

Lemma uint_text_length d : length (uint_text d) = Decimal.nb_digits d.
Proof. induction d; simpl; auto. Qed.

Lemma decimal_value_ge s : forall acc,
  (0 <= acc)%Z -> forallb ascii_digit s = true ->
  (acc * 10 ^ Z.of_nat (length s)
   <= fold_left (fun acc c => 10 * acc + Z.of_N (c - 48))%Z s acc)%Z.
Proof.
  induction s as [|c s IH]; intros acc Hacc Hs.
  - cbn. lia.
  - cbn [forallb] in Hs. apply andb_prop in Hs as [Hc Hs].
    cbn [fold_left length]. rewrite Nat2Z.inj_succ, Z.pow_succ_r by lia.
    specialize (IH (10 * acc + Z.of_N (c - 48))%Z ltac:(lia) Hs).
    assert (0 <= 10 ^ Z.of_nat (length s))%Z by (apply Z.pow_nonneg; lia).
    nia.
Qed.

Lemma to_uint_normal p : Decimal.unorm (Pos.to_uint p) = Pos.to_uint p.
Proof.
  change (Pos.to_uint p) with (N.to_uint (Npos p)) at 2.
  rewrite <- (DecimalPos.Unsigned.of_to p). symmetry. apply DecimalPos.Unsigned.to_of.
Qed.

(** [str] prints no leading zero of a positive number. *)
Lemma to_uint_head p :
  match uint_text (Pos.to_uint p) with
  | c :: _ => ascii_digit c = true /\ c <> 48%N
  | [] => False
  end.
Proof.
  pose proof (to_uint_normal p) as E.
  pose proof (DecimalPos.Unsigned.to_uint_nonzero p) as Z.
  pose proof (DecimalPos.Unsigned.to_uint_nonnil p) as N.
  destruct (Pos.to_uint p) as [|u|u|u|u|u|u|u|u|u|u] eqn:Eu;
    cbn [uint_text]; try (split; [reflexivity|discriminate]).
  - congruence.
  - exfalso. change (Decimal.unorm (Decimal.D0 u)) with (Decimal.unorm u) in E.
    destruct (Decimal.uint_eq_dec u Decimal.Nil) as [->|Hu]; [congruence|].
    pose proof (DecimalFacts.nb_digits_unorm u Hu) as Hn.
    rewrite E in Hn. cbn [Decimal.nb_digits] in Hn. lia.
Qed.

(** The number of digits [str] prints of a natural number below [10^k]. *)
Lemma str_length n k :
  (0 < k)%Z -> (0 <= n < 10 ^ k)%Z -> (Z.of_nat (length (py_str_int n)) <= k)%Z.
Proof.
  intros Hk [H0 Hn]. destruct n as [|p|p]; [cbn; lia| |lia].
  pose proof (decimal_value_str (Zpos p) ltac:(lia)) as V.
  pose proof (proj2 (str_digits (Zpos p) ltac:(lia))) as D.
  pose proof (to_uint_head p) as Hh.
  change (py_str_int (Zpos p)) with (uint_text (Pos.to_uint p)) in *.
  destruct (uint_text (Pos.to_uint p)) as [|c t]; [easy|].
  destruct Hh as [Hc Hz]. cbn [forallb] in D. apply andb_prop in D as [_ Ht].
  assert (1 <= Z.of_N (c - 48))%Z.
  { unfold ascii_digit, between in Hc.
    destruct (N.leb_spec 48 c), (N.leb_spec c 57); cbn in Hc; try discriminate. lia. }
  unfold decimal_value in V. cbn [fold_left] in V.
  pose proof (decimal_value_ge t (10 * 0 + Z.of_N (c - 48))%Z ltac:(lia) Ht) as G.
  rewrite V in G.
  destruct (Z.le_gt_cases (Z.of_nat (length (c :: t))) k) as [|Hgt]; [assumption|exfalso].
  cbn [length] in Hgt. rewrite Nat2Z.inj_succ in Hgt.
  assert (10 ^ k <= 10 ^ Z.of_nat (length t))%Z by (apply Z.pow_le_mono_r; lia).
  nia.
Qed.

Lemma class_of_decimal U c v :
  decimal_values U -> class_of U c = UDecimal v -> (v <= 9)%N.
Proof.
  intros T. unfold class_of, ascii_class.
  destruct (is_ascii c); [|apply T].
  destruct (between 9 13 c || between 28 31 c || (c =? 32)%N); [discriminate|].
  destruct (between 48 57 c) eqn:B.
  - intros [= <-]. unfold between in B. apply andb_prop in B as [B1 B2].
    apply N.leb_le in B1, B2. lia.
  - destruct (between 65 90 c || between 97 122 c); discriminate.
Qed.

(** The value of a run of decimal digits is below ten to their number. *)
Lemma digits_value_lt U s : decimal_values U -> forall acc n,
  digits_value U acc s = Some n -> (0 <= acc)%Z ->
  (n < (acc + 1) * 10 ^ Z.of_nat (length s))%Z.
Proof.
  intros T. induction s as [|c s IH]; intros acc n H Ha; cbn [digits_value] in H.
  - injection H as <-. cbn. lia.
  - destruct (class_of U c) as [|v| | |] eqn:C; try discriminate.
    pose proof (class_of_decimal U c v T C) as Hv.
    specialize (IH _ _ H ltac:(lia)).
    cbn [length]. rewrite Nat2Z.inj_succ, Z.pow_succ_r by lia.
    assert (0 < 10 ^ Z.of_nat (length s))%Z by (apply Z.pow_pos_nonneg; lia).
    nia.
Qed.

Lemma py_int_lt U s n :
  decimal_values U -> py_int U s = Ok n -> (n < 10 ^ 4300)%Z.
Proof.
  intros T H. unfold py_int, int_max_str_digits in H.
  destruct (digits_number U s) as [k|] eqn:E; [|discriminate]. cbn [bind] in H.
  destruct (Z.leb_spec (Z.of_nat (length s)) 4300) as [L|L]; [|discriminate].
  injection H as <-. unfold digits_number in E. destruct s as [|c s]; [discriminate|].
  destruct (digits_value U 0 (c :: s)) as [n|] eqn:V; [|discriminate]. injection E as <-.
  pose proof (digits_value_lt U _ T _ _ V ltac:(lia)) as B.
  assert (10 ^ Z.of_nat (length (c :: s)) <= 10 ^ 4300)%Z by (apply Z.pow_le_mono_r; lia).
  set (a := (10 ^ Z.of_nat (length (c :: s)))%Z) in *.
  set (b := (10 ^ 4300)%Z) in *. clearbody a b. lia.
Qed.


(** ** Binary64 arithmetic *)

Module FloatFacts.
Local Open Scope Z_scope.

Lemma digits2_pos_bounds p :
  2 ^ (Zpos (digits2_pos p) - 1) <= Zpos p < 2 ^ Zpos (digits2_pos p).
Proof.
  induction p as [p IH|p IH|]; cbn [digits2_pos].
  - rewrite Pos2Z.inj_succ.
    replace (Z.succ (Zpos (digits2_pos p)) - 1) with (Z.succ (Zpos (digits2_pos p) - 1)) by lia.
    rewrite !Z.pow_succ_r by lia. lia.
  - rewrite Pos2Z.inj_succ.
    replace (Z.succ (Zpos (digits2_pos p)) - 1) with (Z.succ (Zpos (digits2_pos p) - 1)) by lia.
    rewrite !Z.pow_succ_r by lia. lia.
  - simpl. lia.
Qed.

Lemma iter_xO_spec p k : Zpos (Pos.iter xO p k) = Zpos p * 2 ^ Zpos k.
Proof.
  induction k as [|k IH] using Pos.peano_ind.
  - simpl. lia.
  - rewrite Pos.iter_succ, Pos2Z.inj_succ, Z.pow_succ_r by lia.
    rewrite Pos2Z.inj_xO, IH. lia.
Qed.

Lemma digits2_pos_iter_xO p k :
  digits2_pos (Pos.iter xO p k) = (digits2_pos p + k)%positive.
Proof.
  induction k as [|k IH] using Pos.peano_ind.
  - simpl. lia.
  - rewrite Pos.iter_succ. cbn [digits2_pos]. rewrite IH. lia.
Qed.

Lemma shr_fexp_canonical m e l :
  Zpos (digits2_pos m) = 53 -> -1074 <= e ->
  shr_fexp prec emax (Zpos m) e l = (shr_record_of_loc (Zpos m) l, e).
Proof.
  intros Hd He. unfold shr_fexp, shr, fexp, emin, Zdigits2, prec, emax.
  rewrite Hd.
  replace (Z.max (53 + e - 53) (3 - 1024 - 53) - e) with 0 by lia.
  reflexivity.
Qed.

Lemma binary_round_aux_canonical s m e :
  Zpos (digits2_pos m) = 53 -> -1074 <= e <= 971 ->
  binary_round_aux prec emax s (Zpos m) e loc_Exact = S754_finite s m e.
Proof.
  intros Hd He. unfold binary_round_aux.
  rewrite shr_fexp_canonical by (assumption || lia).
  cbn [shr_record_of_loc shr_m loc_of_shr_record round_nearest_even].
  rewrite shr_fexp_canonical by (assumption || lia).
  cbn [shr_record_of_loc shr_m].
  assert (L : (e <=? emax - prec) = true) by (apply Z.leb_le; unfold emax, prec; lia).
  now rewrite L.
Qed.

Lemma binary_round_small s p :
  Zpos p < 2 ^ 53 ->
  exists m e, binary_round prec emax s p 0 = S754_finite s m e /\
              -52 <= e <= 0 /\ Zpos m = Zpos p * 2 ^ (- e).
Proof.
  intros Hp.
  assert (Hd : Zpos (digits2_pos p) <= 53).
  { destruct (digits2_pos_bounds p) as [H1 _].
    destruct (Z.le_gt_cases (Zpos (digits2_pos p)) 53) as [|G]; [assumption|].
    exfalso.
    assert (2 ^ 53 <= 2 ^ (Zpos (digits2_pos p) - 1)) by (apply Z.pow_le_mono_r; lia).
    lia. }
  unfold binary_round, shl_align, fexp, emin.
  change prec with 53. change emax with 1024.
  rewrite Z.add_0_r.
  replace (Z.max (Zpos (digits2_pos p) - 53) (3 - 1024 - 53))
    with (Zpos (digits2_pos p) - 53) by lia.
  rewrite Z.sub_0_r.
  destruct (Zpos (digits2_pos p) - 53) as [|k|k] eqn:E; [|lia|].
  - exists p, 0. split; [|split; [lia|simpl; lia]].
    apply binary_round_aux_canonical; lia.
  - exists (Pos.iter xO p k), (Zneg k). split; [|split; [lia|]].
    + apply binary_round_aux_canonical; [|lia].
      rewrite digits2_pos_iter_xO. lia.
    + rewrite iter_xO_spec. reflexivity.
Qed.

Lemma round_half_even_exact n e : 0 <= e -> round_half_even (n * 2 ^ e) (- e) = n.
Proof.
  intros He. unfold round_half_even.
  destruct e as [|k|k]; [simpl; lia| |lia].
  cbn [Z.opp]. cbv zeta.
  rewrite Z.mod_mul, Z.div_mul by lia.
  assert (0 < 2 ^ Zpos k) by lia.
  destruct (Z.compare_spec (2 * 0) (2 ^ Zpos k)); try lia; reflexivity.
Qed.

Lemma round_nearest_float n :
  Z.abs n < 2 ^ 53 -> float_of_int n = Ok (nearest_float n) /\ py_round (nearest_float n) = Ok n.
Proof.
  intros Hn. unfold float_of_int, nearest_float, binary_normalize.
  destruct n as [|p|p]; [split; reflexivity| |].
  - destruct (binary_round_small false p) as (m & e & E & He & Hm); [lia|].
    rewrite E. split; [reflexivity|]. cbn [py_round cond_Zopp]. rewrite Hm.
    replace e with (- - e) at 2 by lia. rewrite round_half_even_exact by lia. reflexivity.
  - destruct (binary_round_small true p) as (m & e & E & He & Hm); [lia|].
    rewrite E. split; [reflexivity|]. cbn [py_round cond_Zopp]. rewrite Hm.
    replace e with (- - e) at 2 by lia. rewrite round_half_even_exact by lia. reflexivity.
Qed.

Lemma round_half_even_nearest m e : nearest_even (round_half_even m e) m e.
Proof.
  unfold nearest_even, round_half_even.
  destruct e as [|k|k]; [reflexivity|reflexivity|].
  cbv zeta.
  assert (Hd : 0 < 2 ^ Zpos k) by lia.
  pose proof (Z.div_mod m (2 ^ Zpos k) ltac:(lia)) as Hm.
  pose proof (Z.mod_pos_bound m (2 ^ Zpos k) Hd) as Hr.
  set (d := 2 ^ Zpos k) in *. set (q := m / d) in *. set (r := m mod d) in *.
  destruct (Z.compare_spec (2 * r) d) as [E|L|G].
  - destruct (Z.even q) eqn:Ev.
    + split; [|intros _; exact Ev]. nia.
    + split; [nia|]. intros _. rewrite Z.even_add, Ev. reflexivity.
  - split; [nia|]. intros H. exfalso. nia.
  - split; [nia|]. intros H. exfalso. nia.
Qed.

Lemma round_half_even_nonneg m e : 0 <= m -> 0 <= round_half_even m e.
Proof.
  intros Hm. unfold round_half_even. destruct e as [|k|k]; [lia|nia|].
  cbv zeta. assert (Hd : 0 < 2 ^ Zpos k) by lia.
  pose proof (Z.div_pos m (2 ^ Zpos k) Hm Hd).
  destruct (2 * (m mod 2 ^ Zpos k) ?= 2 ^ Zpos k); [destruct (Z.even _)| |]; lia.
Qed.

Lemma iter_pos_invariant {A} (P : A -> Prop) (f : A -> A) :
  (forall x, P x -> P (f x)) -> forall n x, P x -> P (iter_pos f n x).
Proof.
  intros Hf. induction n as [n IH|n IH|]; intros x Hx; cbn [iter_pos]; auto.
Qed.

Lemma shr_1_nonneg mrs : 0 <= shr_m mrs -> 0 <= shr_m (shr_1 mrs).
Proof.
  destruct mrs as [m r s]. cbn [shr_m]. intros H.
  destruct m as [|[p|p|]|p]; cbn; lia.
Qed.

Lemma shr_record_of_loc_m m l : shr_m (shr_record_of_loc m l) = m.
Proof. destruct l as [|[]]; reflexivity. Qed.

Lemma fexp_ge e : -1074 <= fexp prec emax e.
Proof. unfold fexp, emin, prec, emax. lia. Qed.

Lemma shr_fexp_bounds m e l :
  0 <= m ->
  0 <= shr_m (fst (shr_fexp prec emax m e l)) /\ -1074 <= snd (shr_fexp prec emax m e l).
Proof.
  intros Hm. unfold shr_fexp, shr.
  pose proof (fexp_ge (Zdigits2 m + e)) as Hf.
  destruct (fexp prec emax (Zdigits2 m + e) - e) as [|p|p] eqn:E; cbn [fst snd].
  - rewrite shr_record_of_loc_m. lia.
  - split; [|lia]. apply iter_pos_invariant with (P := fun x => 0 <= shr_m x).
    + exact shr_1_nonneg.
    + now rewrite shr_record_of_loc_m.
  - rewrite shr_record_of_loc_m. lia.
Qed.

Lemma round_nearest_even_ge m l : m <= round_nearest_even m l.
Proof. destruct l as [|[]]; cbn; try lia. destruct (Z.even m); lia. Qed.

Lemma binary_round_aux_wf m e l : 0 <= m -> wf (binary_round_aux prec emax false m e l).
Proof.
  intros Hm. unfold binary_round_aux.
  destruct (shr_fexp prec emax m e l) as [mrs' e'] eqn:E1.
  pose proof (shr_fexp_bounds m e l Hm) as [B1 _]. rewrite E1 in B1. cbn [fst] in B1.
  pose proof (round_nearest_even_ge (shr_m mrs') (loc_of_shr_record mrs')) as R.
  set (m1 := round_nearest_even (shr_m mrs') (loc_of_shr_record mrs')) in *.
  destruct (shr_fexp prec emax m1 e' loc_Exact) as [mrs'' e''] eqn:E2.
  pose proof (shr_fexp_bounds m1 e' loc_Exact ltac:(lia)) as [B2 B3].
  rewrite E2 in B2, B3. cbn [fst snd] in B2, B3.
  destruct (shr_m mrs'') as [|p|p]; [reflexivity| |lia].
  destruct (e'' <=? emax - prec); cbn; auto.
Qed.

Lemma f60_eq : f60 = S754_finite false 8444249301319680 (-47).
Proof. reflexivity. Qed.

Lemma fmul_60_wf x : wf x -> wf (fmul x f60).
Proof.
  rewrite f60_eq. destruct x as [s|s| |s m e]; cbn [wf]; intros H.
  - subst. reflexivity.
  - subst. reflexivity.
  - contradiction.
  - destruct H as [-> He]. unfold fmul, SFmul. apply binary_round_aux_wf. lia.
Qed.

Lemma div_core_nonneg m1 e1 m2 e2 :
  0 <= fst (fst (SFdiv_core_binary prec emax (Zpos m1) e1 (Zpos m2) e2)).
Proof.
  unfold SFdiv_core_binary.
  set (e' := Z.min _ _). set (s := e1 - e2 - e').
  set (m' := match s with Zpos _ => Z.shiftl (Zpos m1) s | 0 => Zpos m1 | Zneg _ => 0 end).
  assert (Hm' : 0 <= m').
  { unfold m'. destruct s; try lia. apply Z.shiftl_nonneg. lia. }
  pose proof (Z_div_mod m' (Zpos m2) ltac:(lia)) as D.
  destruct (Z.div_eucl m' (Zpos m2)) as [q r]. cbn [fst].
  destruct D as [D1 D2]. nia.
Qed.

Lemma fdiv_60_wf x : wf x -> wf (fdiv x f60).
Proof.
  rewrite f60_eq. destruct x as [s|s| |s m e]; cbn [wf]; intros H.
  - subst. reflexivity.
  - subst. reflexivity.
  - contradiction.
  - destruct H as [-> He]. unfold fdiv, SFdiv.
    pose proof (div_core_nonneg m e 8444249301319680 (-47)) as Q.
    destruct (SFdiv_core_binary prec emax (Zpos m) e (Zpos 8444249301319680) (-47)) as [[q e'] l].
    cbn [fst] in Q. now apply binary_round_aux_wf.
Qed.

Lemma binary_round_wf m e : wf (binary_round prec emax false m e).
Proof.
  unfold binary_round.
  destruct (shl_align m e (fexp prec emax (Zpos (digits2_pos m) + e))) as [mz ez].
  apply binary_round_aux_wf. lia.
Qed.

Lemma fadd_wf x y : wf x -> wf y -> wf (fadd x y).
Proof.
  destruct x as [sx|sx| |sx mx ex]; destruct y as [sy|sy| |sy my ey]; cbn [wf];
    intros Hx Hy; try contradiction;
    repeat match goal with H : _ /\ _ |- _ => destruct H end;
    subst; try (cbn [fadd SFadd wf]; now auto).
  unfold fadd, SFadd. cbv zeta. cbn [cond_Zopp].
  unfold binary_normalize.
  set (a := fst (shl_align mx ex _)). set (b := fst (shl_align my ey _)).
  change (wf (binary_round prec emax false (a + b) (Z.min ex ey))).
  apply binary_round_wf.
Qed.

Lemma float_of_decimal_wf n k : wf (float_of_decimal n k).
Proof.
  unfold float_of_decimal. destruct n as [|p|p]; try reflexivity.
  unfold float_of_ratio.
  pose proof (div_core_nonneg p 0 (Z.to_pos (10 ^ Z.of_nat k)) 0) as Q.
  destruct (SFdiv_core_binary _ _ _ _ _ _) as [[q e'] l].
  cbn [fst] in Q. now apply binary_round_aux_wf.
Qed.

Lemma py_round_wf x :
  wf x -> (exists k, py_round x = Ok k /\ 0 <= k) \/ py_round x = Raise OverflowError.
Proof.
  destruct x as [s|s| |s m e]; cbn [wf py_round]; intros H.
  - left. exists 0. split; [reflexivity|lia].
  - now right.
  - contradiction.
  - destruct H as [-> _]. left. eexists. split; [reflexivity|].
    cbn [cond_Zopp]. apply round_half_even_nonneg. lia.
Qed.

Lemma shr_1_div2 mrs : 0 <= shr_m mrs -> shr_m (shr_1 mrs) = shr_m mrs / 2.
Proof.
  destruct mrs as [m r s]. cbn [shr_m]. intros H.
  destruct m as [|[p|p|]|p]; cbn [shr_1 shr_m].
  - reflexivity.
  - apply Z.div_unique with (r := 1); lia.
  - apply Z.div_unique with (r := 0); lia.
  - reflexivity.
  - lia.
Qed.

Lemma pow2_xO p : 2 ^ Zpos p~0 = 2 ^ Zpos p * 2 ^ Zpos p.
Proof. replace (Zpos p~0) with (Zpos p + Zpos p) by lia. now rewrite Z.pow_add_r by lia. Qed.

Lemma pow2_xI p : 2 ^ Zpos p~1 = 2 * (2 ^ Zpos p * 2 ^ Zpos p).
Proof.
  replace (Zpos p~1) with (1 + (Zpos p + Zpos p)) by lia.
  now rewrite !Z.pow_add_r by lia.
Qed.

Lemma iter_shr_1_div p : forall mrs,
  0 <= shr_m mrs ->
  0 <= shr_m (iter_pos shr_1 p mrs) /\
  shr_m (iter_pos shr_1 p mrs) = shr_m mrs / 2 ^ Zpos p.
Proof.
  induction p as [p IH|p IH|]; intros mrs H; cbn [iter_pos].
  - pose proof (shr_1_nonneg mrs H) as H1.
    destruct (IH (shr_1 mrs) H1) as [H2 E2].
    destruct (IH _ H2) as [H3 E3].
    split; [assumption|].
    rewrite E3, E2, shr_1_div2 by assumption.
    rewrite !Z.div_div by lia. now rewrite pow2_xI, Z.mul_assoc.
  - destruct (IH mrs H) as [H2 E2].
    destruct (IH _ H2) as [H3 E3].
    split; [assumption|].
    rewrite E3, E2. rewrite !Z.div_div by lia. now rewrite pow2_xO.
  - split; [now apply shr_1_nonneg|]. rewrite shr_1_div2 by assumption. reflexivity.
Qed.

Lemma shr_fexp_pos m e l :
  -1074 <= e -> 0 < shr_m (fst (shr_fexp prec emax (Zpos m) e l)).
Proof.
  intros He. unfold shr_fexp, shr, fexp, emin, Zdigits2.
  change prec with 53. change emax with 1024.
  destruct (Z.max (Zpos (digits2_pos m) + e - 53) (3 - 1024 - 53) - e) as [|p|p] eqn:E;
    cbn [fst]; try (rewrite shr_record_of_loc_m; lia).
  destruct (iter_shr_1_div p (shr_record_of_loc (Zpos m) l)) as [_ D].
  { rewrite shr_record_of_loc_m. lia. }
  rewrite D, shr_record_of_loc_m.
  destruct (digits2_pos_bounds m) as [B _].
  assert (Hp : Zpos p <= Zpos (digits2_pos m) - 1) by lia.
  assert (2 ^ Zpos p <= Zpos m).
  { eapply Z.le_trans; [|exact B]. apply Z.pow_le_mono_r; lia. }
  apply Z.div_str_pos. lia.
Qed.

Lemma binary_round_aux_nonzero m e l :
  -1074 <= e -> is_zero (binary_round_aux prec emax false (Zpos m) e l) = false.
Proof.
  intros He. unfold binary_round_aux.
  pose proof (shr_fexp_pos m e l He) as P1.
  pose proof (shr_fexp_bounds (Zpos m) e l ltac:(lia)) as [_ B1].
  destruct (shr_fexp prec emax (Zpos m) e l) as [mrs' e'].
  cbn [fst snd] in P1, B1.
  pose proof (round_nearest_even_ge (shr_m mrs') (loc_of_shr_record mrs')) as R.
  destruct (round_nearest_even (shr_m mrs') (loc_of_shr_record mrs')) as [|m1|m1]; try lia.
  pose proof (shr_fexp_pos m1 e' loc_Exact B1) as P2.
  destruct (shr_fexp prec emax (Zpos m1) e' loc_Exact) as [mrs'' e''].
  cbn [fst] in P2.
  destruct (shr_m mrs'') as [|m2|m2]; try lia.
  destruct (e'' <=? emax - prec); reflexivity.
Qed.

Lemma shl_align_exp m e e' : Z.min e e' <= snd (shl_align m e e').
Proof.
  unfold shl_align. destruct (e' - e) eqn:E; cbn [snd]; lia.
Qed.

Lemma fadd_finite_nonzero mx ex my ey :
  -1074 <= ex -> -1074 <= ey ->
  is_zero (fadd (S754_finite false mx ex) (S754_finite false my ey)) = false.
Proof.
  intros Hx Hy. unfold fadd, SFadd. cbv zeta. cbn [cond_Zopp].
  unfold binary_normalize.
  set (a := fst (shl_align mx ex _)). set (b := fst (shl_align my ey _)).
  change (is_zero (binary_round prec emax false (a + b) (Z.min ex ey)) = false).
  unfold binary_round.
  pose proof (shl_align_exp (a + b) (Z.min ex ey)
                (fexp prec emax (Zpos (digits2_pos (a + b)) + Z.min ex ey))) as S.
  pose proof (fexp_ge (Zpos (digits2_pos (a + b)) + Z.min ex ey)) as F.
  destruct (shl_align (a + b) (Z.min ex ey)
              (fexp prec emax (Zpos (digits2_pos (a + b)) + Z.min ex ey))) as [mz ez].
  cbn [snd] in S.
  apply binary_round_aux_nonzero.
  clearbody a b. set (f := fexp prec emax _) in *. clearbody f. lia.
Qed.

Lemma wf_zero x : wf x -> is_zero x = true -> x = f0.
Proof.
  destruct x as [s|s| |s m e]; cbn [wf]; intros H Z; try contradiction.
  - now subst.
  - subst. discriminate Z.
  - destruct H as [-> _]. discriminate Z.
Qed.

Lemma fadd_zero x y :
  wf x -> wf y -> is_zero (fadd x y) = true -> x = f0 /\ y = f0.
Proof.
  intros Hx Hy Z.
  destruct x as [sx|sx| |sx mx ex]; destruct y as [sy|sy| |sy my ey]; cbn [wf] in Hx, Hy;
    try contradiction;
    repeat match goal with H : _ /\ _ |- _ => destruct H end; subst;
    try discriminate Z; try (split; reflexivity).
  rewrite fadd_finite_nonzero in Z by assumption. discriminate Z.
Qed.

Lemma fadd_0_r x : wf x -> fadd x f0 = x.
Proof.
  destruct x as [s|s| |s m e]; cbn [wf]; intros H; try contradiction;
    repeat match goal with H : _ /\ _ |- _ => destruct H end; subst; reflexivity.
Qed.

Lemma fadd_0_l x : wf x -> fadd f0 x = x.
Proof.
  destruct x as [s|s| |s m e]; cbn [wf]; intros H; try contradiction;
    repeat match goal with H : _ /\ _ |- _ => destruct H end; subst; reflexivity.
Qed.

Lemma Zdigits2_lt m : 0 <= m -> m < 2 ^ Zdigits2 m.
Proof.
  intros H. destruct m as [|p|p]; [simpl; lia| |lia].
  cbn [Zdigits2]. apply digits2_pos_bounds.
Qed.

Lemma Zdigits2_le m k : 0 <= k -> 0 <= m < 2 ^ k -> Zdigits2 m <= k.
Proof.
  intros Hk [H0 H]. destruct m as [|p|p]; [simpl; lia| |lia].
  cbn [Zdigits2]. destruct (digits2_pos_bounds p) as [B _].
  destruct (Z.le_gt_cases (Zpos (digits2_pos p)) k) as [L|G]; [exact L|exfalso].
  assert (2 ^ k <= 2 ^ (Zpos (digits2_pos p) - 1)) by (apply Z.pow_le_mono_r; lia).
  lia.
Qed.

Lemma round_nearest_even_le m l : round_nearest_even m l <= m + 1.
Proof. destruct l as [|[]]; cbn; try lia. destruct (Z.even m); lia. Qed.

(** The mantissa and the exponent after [shr_fexp]. *)
Lemma shr_fexp_spec m e l :
  0 <= m ->
  let n := fexp prec emax (Zdigits2 m + e) - e in
  let r := shr_fexp prec emax m e l in
  (n <= 0 -> shr_m (fst r) = m /\ snd r = e) /\
  (0 < n -> shr_m (fst r) = m / 2 ^ n /\ snd r = e + n).
Proof.
  intros Hm n r. subst r. unfold shr_fexp, shr. fold n.
  destruct n as [|p|p] eqn:E; cbn [fst snd].
  - split; [intros _; split; [apply shr_record_of_loc_m|reflexivity]|lia].
  - split; [lia|intros _]. split; [|reflexivity].
    destruct (iter_shr_1_div p (shr_record_of_loc m l)) as [_ D].
    { now rewrite shr_record_of_loc_m. }
    now rewrite D, shr_record_of_loc_m.
  - split; [intros _; split; [apply shr_record_of_loc_m|reflexivity]|lia].
Qed.

(** After [shr_fexp] the mantissa is below [2^53]. *)
Lemma shr_fexp_lt m e l :
  0 <= m -> shr_m (fst (shr_fexp prec emax m e l)) < 2 ^ 53.
Proof.
  intros Hm. destruct (shr_fexp_spec m e l Hm) as [A B].
  pose proof (Zdigits2_lt m Hm) as D.
  assert (Hd : 0 <= Zdigits2 m) by (destruct m; simpl; lia).
  set (d := Zdigits2 m) in *.
  assert (F : d + e - 53 <= fexp prec emax (d + e)) by (unfold fexp, prec; lia).
  destruct (Z.le_gt_cases (fexp prec emax (d + e) - e) 0) as [L|G].
  - destruct (A L) as [-> _].
    assert (2 ^ d <= 2 ^ 53) by (apply Z.pow_le_mono_r; lia). lia.
  - destruct (B G) as [-> _]. set (n := fexp prec emax (d + e) - e) in *.
    apply Z.div_lt_upper_bound; [lia|].
    rewrite <- Z.pow_add_r by lia.
    assert (2 ^ d <= 2 ^ (n + 53)) by (apply Z.pow_le_mono_r; lia). lia.
Qed.

Lemma binary_round_aux_binary64 s m e l :
  0 <= m -> binary64 (binary_round_aux prec emax s m e l).
Proof.
  intros Hm. unfold binary_round_aux.
  destruct (shr_fexp prec emax m e l) as [mrs' e'] eqn:E1.
  pose proof (shr_fexp_bounds m e l Hm) as [B1 _]. rewrite E1 in B1. cbn [fst] in B1.
  pose proof (round_nearest_even_ge (shr_m mrs') (loc_of_shr_record mrs')) as R.
  set (m1 := round_nearest_even (shr_m mrs') (loc_of_shr_record mrs')) in *.
  pose proof (shr_fexp_lt m1 e' loc_Exact ltac:(lia)) as L.
  destruct (shr_fexp prec emax m1 e' loc_Exact) as [mrs'' e''] eqn:E2.
  cbn [fst] in L.
  destruct (shr_m mrs'') as [|p|p]; [exact I| |exact I].
  destruct (e'' <=? emax - prec) eqn:C; [|exact I].
  cbn [binary64]. apply Z.leb_le in C. unfold emax, prec in C. split; [exact L|lia].
Qed.

(** No overflow from a mantissa and an exponent whose number is below
    [2^1023]. *)
Lemma binary_round_aux_finite s m e l :
  0 <= m -> e <= 971 -> Zdigits2 m + e <= 1023 ->
  match binary_round_aux prec emax s m e l with S754_infinity _ => False | _ => True end.
Proof.
  intros Hm He HD. unfold binary_round_aux.
  destruct (shr_fexp_spec m e l Hm) as [A1 B1].
  pose proof (shr_fexp_bounds m e l Hm) as [P1 _].
  pose proof (Zdigits2_lt m Hm) as D.
  assert (Hd : 0 <= Zdigits2 m) by (destruct m; simpl; lia).
  destruct (shr_fexp prec emax m e l) as [mrs' e'] eqn:E1. cbn [fst snd] in A1, B1, P1.
  pose proof (round_nearest_even_ge (shr_m mrs') (loc_of_shr_record mrs')) as R.
  pose proof (round_nearest_even_le (shr_m mrs') (loc_of_shr_record mrs')) as R'.
  set (m1 := round_nearest_even (shr_m mrs') (loc_of_shr_record mrs')) in *.
  (* the number after the first shift and the rounding *)
  assert (M : e' <= 971 /\ Zdigits2 m1 + e' <= 1024).
  { set (d := Zdigits2 m) in *.
    assert (F : fexp prec emax (d + e) = Z.max (d + e - 53) (-1074)) by reflexivity.
    destruct (Z.le_gt_cases (fexp prec emax (d + e) - e) 0) as [L|G].
    - destruct (A1 L) as [Em ->]. split; [exact He|].
      assert (Zdigits2 m1 <= d + 1); [|lia].
      apply Zdigits2_le; [lia|]. split; [lia|].
      rewrite Z.pow_add_r by lia. change (2 ^ 1) with 2. lia.
    - destruct (B1 G) as [Em ->]. set (n := fexp prec emax (d + e) - e) in *.
      split; [lia|].
      assert (Q : shr_m mrs' < 2 ^ Z.max (d - n) 0).
      { rewrite Em. destruct (Z.le_gt_cases n d) as [Hn|Hn].
        - rewrite Z.max_l by lia. apply Z.div_lt_upper_bound; [lia|].
          rewrite <- Z.pow_add_r by lia. now replace (n + (d - n)) with d by lia.
        - rewrite Z.max_r by lia. rewrite Z.div_small; [simpl; lia|].
          split; [lia|]. assert (2 ^ d <= 2 ^ n) by (apply Z.pow_le_mono_r; lia). lia. }
      assert (Zdigits2 m1 <= Z.max (d - n) 0 + 1); [|lia].
      apply Zdigits2_le; [lia|]. split; [lia|].
      rewrite Z.pow_add_r by lia. change (2 ^ 1) with 2. lia. }
  destruct M as [M1 M2].
  assert (H1 : 0 <= m1) by lia.
  destruct (shr_fexp_spec m1 e' loc_Exact H1) as [A2 B2].
  destruct (shr_fexp prec emax m1 e' loc_Exact) as [mrs'' e''] eqn:E2.
  cbn [fst snd] in A2, B2.
  assert (F2 : fexp prec emax (Zdigits2 m1 + e') = Z.max (Zdigits2 m1 + e' - 53) (-1074))
    by reflexivity.
  assert (Le : e'' <= 971).
  { destruct (Z.le_gt_cases (fexp prec emax (Zdigits2 m1 + e') - e') 0) as [L|G].
    - destruct (A2 L) as [_ ->]. exact M1.
    - destruct (B2 G) as [_ ->]. lia. }
  destruct (shr_m mrs''); try exact I.
  assert (C : (e'' <=? emax - prec) = true) by (apply Z.leb_le; unfold emax, prec; lia).
  now rewrite C.
Qed.

(** An [int] below [2^1023] has a float. *)
Lemma nearest_float_finite n :
  Z.abs n < 2 ^ 1023 ->
  match nearest_float n with S754_infinity _ => False | _ => True end.
Proof.
  intros Hn. unfold nearest_float, binary_normalize.
  assert (G : forall s p, Zpos p < 2 ^ 1023 ->
    match binary_round prec emax s p 0 with S754_infinity _ => False | _ => True end).
  { intros s p Hp. unfold binary_round, shl_align.
    assert (Hd : Zpos (digits2_pos p) <= 1023).
    { apply (Zdigits2_le (Zpos p)); lia. }
    assert (F : fexp prec emax (Zpos (digits2_pos p) + 0)
                = Z.max (Zpos (digits2_pos p) - 53) (-1074)).
    { unfold fexp, emin, prec, emax. f_equal; lia. }
    rewrite F.
    destruct (Z.max (Zpos (digits2_pos p) - 53) (-1074) - 0) as [|k|k] eqn:E.
    - apply binary_round_aux_finite; cbn [Zdigits2]; lia.
    - apply binary_round_aux_finite; cbn [Zdigits2]; lia.
    - apply binary_round_aux_finite; cbn [Zdigits2]; try lia.
      rewrite digits2_pos_iter_xO. lia. }
  destruct n as [|p|p]; [exact I|apply G; lia|apply G; lia].
Qed.

(** An [int] from [2^1024] has none. *)
Lemma nearest_float_overflow n :
  2 ^ 1024 <= n -> nearest_float n = S754_infinity false.
Proof.
  intros Hn. unfold nearest_float, binary_normalize.
  destruct n as [|p|p]; try lia.
  assert (Hd : 1025 <= Zpos (digits2_pos p)).
  { destruct (digits2_pos_bounds p) as [_ B].
    destruct (Z.le_gt_cases 1025 (Zpos (digits2_pos p))) as [L|G]; [exact L|exfalso].
    assert (2 ^ Zpos (digits2_pos p) <= 2 ^ 1024) by (apply Z.pow_le_mono_r; lia). lia. }
  unfold binary_round, shl_align.
  assert (F : fexp prec emax (Zpos (digits2_pos p) + 0) = Zpos (digits2_pos p) - 53).
  { unfold fexp, emin, prec, emax. lia. }
  rewrite F.
  destruct (Zpos (digits2_pos p) - 53 - 0) as [|k|k] eqn:E; try lia.
  unfold binary_round_aux.
  destruct (shr_fexp_spec (Zpos p) 0 loc_Exact ltac:(lia)) as [_ B1].
  pose proof (shr_fexp_pos p 0 loc_Exact ltac:(lia)) as P1.
  destruct (shr_fexp prec emax (Zpos p) 0 loc_Exact) as [mrs' e'] eqn:E1.
  cbn [fst snd Zdigits2] in B1, P1. rewrite F in B1.
  destruct B1 as [_ Ee]; [lia|].
  pose proof (round_nearest_even_ge (shr_m mrs') (loc_of_shr_record mrs')) as R.
  destruct (round_nearest_even (shr_m mrs') (loc_of_shr_record mrs')) as [|m1|m1] eqn:Em;
    try lia.
  destruct (shr_fexp_spec (Zpos m1) e' loc_Exact ltac:(lia)) as [A2 B2].
  pose proof (shr_fexp_pos m1 e' loc_Exact ltac:(lia)) as P2.
  destruct (shr_fexp prec emax (Zpos m1) e' loc_Exact) as [mrs'' e''] eqn:E2.
  cbn [fst snd] in A2, B2, P2.
  assert (Le : 972 <= e'').
  { destruct (Z.le_gt_cases (fexp prec emax (Zdigits2 (Zpos m1) + e') - e') 0) as [L|G].
    - destruct (A2 L) as [_ ->]. lia.
    - destruct (B2 G) as [_ ->]. lia. }
  destruct (shr_m mrs'') as [|q|q]; try lia.
  assert (C : (e'' <=? emax - prec) = false) by (apply Z.leb_gt; unfold emax, prec; lia).
  now rewrite C.
Qed.

Lemma binary_round_binary64 s m e : binary64 (binary_round prec emax s m e).
Proof.
  unfold binary_round.
  destruct (shl_align m e (fexp prec emax (Zpos (digits2_pos m) + e))) as [mz ez].
  apply binary_round_aux_binary64. lia.
Qed.

Lemma binary_normalize_binary64 m e : binary64 (binary_normalize prec emax m e false).
Proof.
  unfold binary_normalize. destruct m; [exact I| |]; apply binary_round_binary64.
Qed.

Lemma nearest_float_binary64 n : binary64 (nearest_float n).
Proof. apply binary_normalize_binary64. Qed.

Lemma fmul_binary64 x y : binary64 (fmul x y).
Proof.
  destruct x as [sx|sx| |sx mx ex]; destruct y as [sy|sy| |sy my ey]; try exact I.
  unfold fmul, SFmul. apply binary_round_aux_binary64. lia.
Qed.

Lemma fdiv_binary64 x y : binary64 (fdiv x y).
Proof.
  destruct x as [sx|sx| |sx mx ex]; destruct y as [sy|sy| |sy my ey]; try exact I.
  unfold fdiv, SFdiv.
  pose proof (div_core_nonneg mx ex my ey) as Q.
  destruct (SFdiv_core_binary prec emax (Zpos mx) ex (Zpos my) ey) as [[q e'] l].
  cbn [fst] in Q. now apply binary_round_aux_binary64.
Qed.

Lemma fadd_binary64 x y : binary64 x -> binary64 y -> binary64 (fadd x y).
Proof.
  destruct x as [sx|sx| |sx mx ex]; destruct y as [sy|sy| |sy my ey]; intros Hx Hy;
    try exact I; try assumption;
    try (destruct sx, sy; exact I).
  unfold fadd, SFadd. cbv zeta. apply binary_normalize_binary64.
Qed.

Lemma float_of_decimal_binary64 n k : binary64 (float_of_decimal n k).
Proof.
  unfold float_of_decimal. destruct n as [|p|p]; try exact I.
  unfold float_of_ratio.
  pose proof (div_core_nonneg p 0 (Z.to_pos (10 ^ Z.of_nat k)) 0) as Q.
  destruct (SFdiv_core_binary _ _ _ _ _ _) as [[q e'] l].
  cbn [fst] in Q. now apply binary_round_aux_binary64.
Qed.

Lemma round_half_even_bound m e :
  0 <= m < 2 ^ 53 -> e <= 971 -> 0 <= round_half_even m e < 2 ^ 1024.
Proof.
  intros Hm He. split; [apply round_half_even_nonneg; lia|].
  unfold round_half_even. destruct e as [|k|k].
  - rewrite Z.mul_1_r. assert (2 ^ 53 < 2 ^ 1024) by (apply Z.pow_lt_mono_r; lia). lia.
  - assert (2 ^ Zpos k <= 2 ^ 971) by (apply Z.pow_le_mono_r; lia).
    assert (0 < 2 ^ Zpos k) by lia.
    replace (2 ^ 1024) with (2 ^ 53 * 2 ^ 971) by (rewrite <- Z.pow_add_r by lia; reflexivity).
    nia.
  - cbv zeta. assert (Hd : 0 < 2 ^ Zpos k) by lia.
    assert (2 ^ 53 + 1 < 2 ^ 1024).
    { assert (2 ^ 54 <= 2 ^ 1024) by (apply Z.pow_le_mono_r; lia).
      assert (2 ^ 54 = 2 * 2 ^ 53) by (rewrite <- Z.pow_succ_r by lia; reflexivity).
      lia. }
    assert (m / 2 ^ Zpos k <= m) by (apply Z.div_le_upper_bound; nia).
    destruct (2 * (m mod 2 ^ Zpos k) ?= 2 ^ Zpos k); [destruct (Z.even _)| |]; lia.
Qed.

Lemma py_round_bound x n : binary64 x -> py_round x = Ok n -> Z.abs n < 2 ^ 1024.
Proof.
  destruct x as [s|s| |s m e]; cbn [binary64 py_round]; intros H E; try discriminate.
  - injection E as <-. simpl. lia.
  - injection E as <-. destruct H as [Hm He].
    pose proof (round_half_even_bound (Zpos m) e ltac:(lia) He) as B.
    destruct s; cbn [cond_Zopp]; lia.
Qed.

End FloatFacts.

Import FloatFacts.

(** ** Numeric arguments and rounding *)

Section Numeric.
Variable U : Unicode.

(** C6, amended.  A float argument is rounded by [round]; an [int] that a
    float holds exactly (below [2^53] in absolute value) is returned as it
    is; [None] and the empty text give [0]. *)
Theorem C6_numeric_arguments :
  (forall f, parse_time_to_minutes U (PyFloat f) = py_round f /\
             parse_servings_to_int U (PyFloat f) = py_round f) /\
  (forall n, (Z.abs n < 2 ^ 53)%Z ->
             parse_time_to_minutes U (PyInt n) = Ok n /\
             parse_servings_to_int U (PyInt n) = Ok n) /\
  parse_time_to_minutes U PyNone = Ok 0%Z /\
  parse_time_to_minutes U (PyStr []) = Ok 0%Z /\
  parse_servings_to_int U PyNone = Ok 0%Z.
Proof.
  split; [intros f; split; reflexivity|].
  split; [|repeat split].
  intros n Hn. destruct (round_nearest_float n Hn) as [E R].
  unfold parse_time_to_minutes, parse_servings_to_int.
  rewrite E. cbn [bind]. now rewrite R.
Qed.

End Numeric.

(** ** Concrete inputs *)

Section Evaluations.
Variable U : Unicode.

(** C2.  On [1h30m] and [1hr30min] the hour pattern finds no word boundary
    after the unit, the minute pattern alone matches, and the compact
    patterns are not tried since the total is not zero: the result is 30.
    The other three inputs of the claim give what it says. *)
Theorem C2_unit_words_on_examples :
  parse_time_to_minutes U (PyStr (of_string "1h30m")) = Ok 30%Z /\
  parse_time_to_minutes U (PyStr (of_string "1hr30min")) = Ok 30%Z /\
  parse_time_to_minutes U (PyStr (of_string "1 hour 30 minutes")) = Ok 90%Z /\
  parse_time_to_minutes U (PyStr (of_string "90 min")) = Ok 90%Z /\
  parse_time_to_minutes U (PyStr (of_string "2 hrs")) = Ok 120%Z.
Proof. repeat split; vm_compute; reflexivity. Qed.

(** C3.  The bracketed set of the range pattern holds the letters [t] and
    [o], not the word: a range written with [to] is not matched and the
    first number of the text is returned, here 12 and not 4.  With a
    hyphen the range is found. *)
Theorem C3_range_with_to :
  parse_servings_to_int U (PyStr (of_string "12 cookies, 4 to 6 servings")) = Ok 12%Z /\
  re_search U range_pattern (of_string "12 cookies, 4 to 6 servings") = None /\
  parse_servings_to_int U (PyStr (of_string "12 cookies, 4-6 servings")) = Ok 4%Z /\
  parse_servings_to_int U (PyStr (of_string "4-6")) = Ok 4%Z /\
  parse_servings_to_int U (PyStr (of_string "4 to 6 servings")) = Ok 4%Z.
Proof. repeat split; vm_compute; reflexivity. Qed.

End Evaluations.

(** ** The platform of a URL *)

Section Platform.
Variable U : Unicode.

Lemma lower_from_prefix pre : forall before rest,
  exists l, lower_from U before (pre ++ rest)
            = l ++ lower_from U (rev pre ++ before) rest.
Proof.
  induction pre as [|c pre IH]; intros before rest.
  - now exists [].
  - destruct (IH (c :: before) rest) as [l E].
    exists (lower_char U before c (pre ++ rest) ++ l).
    cbn [app lower_from rev]. rewrite E, <- !app_assoc. reflexivity.
Qed.

Lemma lower_from_ascii d : forall before rest,
  forallb is_ascii d = true ->
  lower_from U before (d ++ rest)
  = map ascii_lower d ++ lower_from U (rev d ++ before) rest.
Proof.
  induction d as [|c d IH]; intros before rest H; [reflexivity|].
  cbn [forallb] in H. apply andb_prop in H as [Hc Hd].
  cbn [app lower_from rev map]. rewrite IH by assumption.
  unfold lower_char. rewrite Hc, <- !app_assoc. reflexivity.
Qed.

Lemma starts_with_app n y : starts_with n (n ++ y) = true.
Proof.
  induction n as [|a n IH]; [reflexivity|].
  cbn [app starts_with]. now rewrite N.eqb_refl, IH.
Qed.

Lemma contains_here n y : contains n (n ++ y) = true.
Proof.
  pose proof (starts_with_app n y) as H.
  destruct (n ++ y); cbn [contains]; now rewrite H.
Qed.

Lemma contains_middle n x y : contains n (x ++ n ++ y) = true.
Proof.
  induction x as [|a x IH]; [exact (contains_here n y)|].
  cbn [app contains]. rewrite IH. apply orb_true_r.
Qed.

(** A domain written in any letter case shows in the lower-cased URL. *)
Lemma lower_contains pre d post n :
  ignoring_case d n -> contains n (lower U (pre ++ d ++ post)) = true.
Proof.
  intros [Hd <-]. unfold lower.
  destruct (lower_from_prefix pre [] (d ++ post)) as [l ->].
  rewrite lower_from_ascii by assumption.
  apply contains_middle.
Qed.

(** C9, amended.  A URL that holds [tiktok.com], in any letter case and
    anywhere, is [tiktok]; one that holds [youtube.com] or [youtu.be] and,
    once lower-cased, not [tiktok.com], is [youtube]; a URL whose
    lower-cased form holds none of the three is [website]. *)
Theorem C9_platform_by_substring :
  (forall pre d post,
     ignoring_case d (of_string "tiktok.com") ->
     get_platform U (pre ++ d ++ post) = tiktok) /\
  (forall pre d post,
     ignoring_case d (of_string "youtube.com") \/ ignoring_case d (of_string "youtu.be") ->
     contains (of_string "tiktok.com") (lower U (pre ++ d ++ post)) = false ->
     get_platform U (pre ++ d ++ post) = youtube) /\
  (forall url,
     contains (of_string "tiktok.com") (lower U url) = false ->
     contains (of_string "youtube.com") (lower U url) = false ->
     contains (of_string "youtu.be") (lower U url) = false ->
     get_platform U url = website).
Proof.
  split; [|split].
  - intros pre d post H. unfold get_platform.
    now rewrite (lower_contains pre d post _ H).
  - intros pre d post H T. unfold get_platform. rewrite T.
    destruct H as [H|H]; rewrite (lower_contains pre d post _ H);
      [reflexivity|now rewrite orb_true_r].
  - intros url H1 H2 H3. unfold get_platform. now rewrite H1, H2, H3.
Qed.

End Platform.

(** ** The matcher *)

Section ReFacts.
Variable U : Unicode.

Lemma star_inv p k m : forall s prev caps,
  star p prev s caps k = Some m ->
  exists ds r pv, s = ds ++ r /\ forallb p ds = true /\ k (MS pv r caps) = Some m.
Proof.
  induction s as [|c t IH]; intros prev caps H; cbn [star] in H.
  - exists [], [], prev. auto.
  - destruct (p c) eqn:Pc.
    + destruct (star p (Some c) t caps k) as [m'|] eqn:E.
      * injection H as <-. destruct (IH _ _ E) as (ds & r & pv & -> & Hd & Hk).
        exists (c :: ds), r, pv. cbn [forallb app]. rewrite Pc. auto.
      * exists [], (c :: t), prev. auto.
    + exists [], (c :: t), prev. auto.
Qed.

Lemma star_greedy p k caps :
  (forall pv c t, p c = true -> k (MS pv (c :: t) caps) = None) ->
  forall s prev,
    star p prev s caps k = k (MS (fst (skip_run p prev s)) (snd (skip_run p prev s)) caps).
Proof.
  intros Hk. induction s as [|c t IH]; intros prev; cbn [star skip_run]; [reflexivity|].
  destruct (p c) eqn:Pc; [|reflexivity].
  rewrite IH. destruct (k _) eqn:E; [reflexivity|]. now apply Hk.
Qed.

Lemma star_first p k caps m : forall s prev,
  k (MS (fst (skip_run p prev s)) (snd (skip_run p prev s)) caps) = Some m ->
  star p prev s caps k = Some m.
Proof.
  induction s as [|c t IH]; intros prev H; cbn [star skip_run] in *; [assumption|].
  destruct (p c) eqn:Pc; [|assumption].
  now rewrite (IH _ H).
Qed.

Lemma skip_run_split p : forall s prev,
  exists ds, s = ds ++ snd (skip_run p prev s) /\ forallb p ds = true /\
             fst (skip_run p prev s) = after prev ds.
Proof.
  induction s as [|c t IH]; intros prev; cbn [skip_run].
  - exists []. auto.
  - destruct (p c) eqn:Pc.
    + destruct (IH (Some c)) as (ds & E & F & L). exists (c :: ds).
      split; [cbn [app]; now f_equal|]. split; [cbn; now rewrite Pc|]. exact L.
    + exists []. auto.
Qed.

Lemma skip_run_app p ds : forall r prev,
  forallb p ds = true ->
  match r with c :: _ => p c = false | [] => True end ->
  skip_run p prev (ds ++ r) = (after prev ds, r).
Proof.
  induction ds as [|c ds IH]; intros r prev Hd Hr.
  - cbn [app]. destruct r as [|c t]; cbn [skip_run]; [reflexivity|]. now rewrite Hr.
  - cbn [forallb] in Hd. apply andb_prop in Hd as [Hc Hd].
    cbn [app skip_run]. now rewrite Hc, IH by assumption.
Qed.

Lemma firstn_consumed (T r : text) : firstn (length (T ++ r) - length r) (T ++ r) = T.
Proof.
  rewrite length_app. replace (length T + length r - length r) with (length T) by lia.
  rewrite firstn_app, Nat.sub_diag, firstn_all. cbn [firstn]. apply app_nil_r.
Qed.

Lemma isdecimal_not_dot c : isdecimal U c = true -> (c =? 46)%N = false.
Proof.
  intros H. apply N.eqb_neq. intros ->. discriminate H.
Qed.

Lemma consumed_eq from to T : m_rest from = T ++ m_rest to -> consumed from to = T.
Proof. unfold consumed. intros ->. apply firstn_consumed. Qed.

Lemma consumed_app T r p c p' c' : consumed (MS p (T ++ r) c) (MS p' r c') = T.
Proof. now apply consumed_eq. Qed.

Lemma number_inv n st k m :
  rx U (number n) st k = Some m ->
  exists T r pv,
    m_rest st = T ++ r /\ number_shape U T /\
    k (MS pv r ((n, T) :: m_caps st)) = Some m.
Proof.
  destruct st as [prev s caps]. unfold number, Plus, Opt.
  destruct s as [|c t]; cbn [rx m_rest m_caps m_prev in_cls]; [discriminate|].
  destruct (isdecimal U c) eqn:Dc; [|discriminate]. intros H.
  apply star_inv in H as (ds & r1 & pv1 & -> & Hds & H).
  cbn [m_rest m_caps m_prev] in H.
  assert (Int : forall r, k (MS pv1 r ((n, consumed (MS prev ((c :: ds) ++ r) caps)
                                              (MS pv1 r caps)) :: caps)) = Some m ->
                exists T r0 pv, c :: ds ++ r = T ++ r0 /\ number_shape U T /\
                                k (MS pv r0 ((n, T) :: caps)) = Some m).
  { intros r Hk. rewrite consumed_app in Hk. exists (c :: ds), r, pv1.
    split; [reflexivity|]. split; [|assumption].
    apply shape_int; [discriminate|]. cbn [forallb]. now rewrite Dc. }
  destruct r1 as [|x [|c2 t2]]; try (apply Int; exact H).
  - destruct (x =? 46)%N; apply Int; exact H.
  - destruct (x =? 46)%N eqn:Ex; [|apply Int; exact H].
    destruct (isdecimal U c2) eqn:Dc2; [|apply Int; exact H].
    match type of H with
    | match ?X with _ => _ end = _ => destruct X as [m'|] eqn:E
    end; [|apply Int; exact H].
    injection H as <-.
    apply star_inv in E as (ds2 & r2 & pv2 & -> & Hds2 & E).
    cbn [m_rest m_caps m_prev] in E.
    apply N.eqb_eq in Ex. subst x.
    rewrite (consumed_eq _ _ ((c :: ds) ++ 46%N :: c2 :: ds2)) in E
      by (cbn [m_rest]; rewrite <- app_assoc; reflexivity).
    exists ((c :: ds) ++ 46%N :: c2 :: ds2), r2, pv2.
    split; [rewrite <- app_assoc; reflexivity|]. split; [|assumption].
    apply shape_frac; try discriminate; cbn [forallb]; [now rewrite Dc|now rewrite Dc2].
Qed.

Lemma number_greedy n K prev s caps k :
  rejects_number U K ->
  rx U (Seq (number n) K) (MS prev s caps) k
  = match number_end U s with
    | Some (pv, r) => rx U K (MS pv r ((n, firstn (length s - length r) s) :: caps)) k
    | None => None
    end.
Proof.
  intros HK. unfold number, Plus, Opt, number_end.
  destruct s as [|c t]; cbn [rx m_rest m_caps m_prev in_cls]; [reflexivity|].
  destruct (isdecimal U c) eqn:Dc; [|reflexivity].
  rewrite star_greedy.
  2:{ intros pv c' t' Dc'. cbn [m_rest m_caps m_prev in_cls] in *.
      rewrite (isdecimal_not_dot _ Dc'). apply HK. now left. }
  cbn [m_rest m_caps m_prev].
  destruct (skip_run (in_cls U CDigit) (Some c) t) as [pv1 r1] eqn:S1. cbn [fst snd].
  change (in_cls U CDigit) with (isdecimal U) in *. rewrite S1.
  unfold consumed. cbn [m_rest].
  destruct r1 as [|x [|c2 t2]]; try reflexivity.
  - destruct (x =? 46)%N; reflexivity.
  - destruct (x =? 46)%N eqn:Ex; [|reflexivity].
    destruct (isdecimal U c2) eqn:Dc2; [|reflexivity]. cbn [andb].
    rewrite star_greedy.
    2:{ intros pv c' t' Dc'. apply HK. now left. }
    cbn [m_rest m_caps m_prev].
    change (in_cls U CDigit) with (isdecimal U) in *.
    destruct (skip_run (isdecimal U) (Some c2) t2) as [pv2 r2] eqn:S2. cbn [fst snd].
    destruct (rx U K _ k) eqn:E; [reflexivity|].
    apply HK. right. now apply N.eqb_eq.
Qed.

Lemma number_first n K prev s caps k m pv r :
  number_end U s = Some (pv, r) ->
  rx U K (MS pv r ((n, firstn (length s - length r) s) :: caps)) k = Some m ->
  rx U (Seq (number n) K) (MS prev s caps) k = Some m.
Proof.
  unfold number, Plus, Opt, number_end.
  destruct s as [|c t]; cbn [rx m_rest m_caps m_prev in_cls]; [discriminate|].
  destruct (isdecimal U c) eqn:Dc; [|discriminate].
  change (in_cls U CDigit) with (isdecimal U) in *.
  destruct (skip_run (isdecimal U) (Some c) t) as [pv1 r1] eqn:S1.
  intros E H. apply star_first. rewrite S1. cbn [fst snd m_rest m_caps m_prev].
  unfold consumed. cbn [m_rest].
  destruct r1 as [|x [|c2 t2]]; try (injection E as <- <-; exact H).
  - destruct (x =? 46)%N; injection E as <- <-; exact H.
  - destruct (x =? 46)%N eqn:Ex; [|injection E as <- <-; exact H].
    destruct (isdecimal U c2) eqn:Dc2; [|injection E as <- <-; exact H].
    cbn [andb] in E. injection E as E.
    rewrite (star_first (isdecimal U) _ _ m); [reflexivity|].
    rewrite E. cbn [fst snd m_rest m_caps m_prev]. exact H.
Qed.

Lemma lookup_app n x y :
  lookup n (x ++ y) = match lookup n x with Some t => Some t | None => lookup n y end.
Proof.
  induction x as [|[i t] x IH]; [reflexivity|]. cbn [app lookup].
  destruct (Nat.eqb i n); [reflexivity|apply IH].
Qed.

Lemma lookup_In n caps T : lookup n caps = Some T -> In (n, T) caps.
Proof.
  induction caps as [|[i t] caps IH]; cbn [lookup]; [discriminate|].
  destruct (Nat.eqb i n) eqn:E.
  - intros [= ->]. apply Nat.eqb_eq in E. subst. now left.
  - intros H. right. now apply IH.
Qed.

(* Matching only adds captures, each of the expected form, and sets the
   groups that are not under an alternative. *)
Lemma rx_captures P r : sound U P r -> forall st k m,
  rx U r st k = Some m ->
  exists st' new,
    k st' = Some m /\ m_caps st' = new ++ m_caps st /\
    (forall i T, In (i, T) new -> P i T) /\
    (forall i, In i (sure r) -> lookup i new <> None).
Proof.
  assert (Same : forall (st st' : mstate) (k : mstate -> option mstate) m,
    k st' = Some m -> m_caps st' = m_caps st ->
    exists st'' new,
      k st'' = Some m /\ m_caps st'' = new ++ m_caps st /\
      (forall i T, In (i, T) new -> P i T) /\
      (forall i, In i [] -> lookup i new <> None)).
  { intros st st' k m Hk Hc. exists st', []. split; [exact Hk|]. split; [exact Hc|].
    split; [intros ? ? []|intros ? []]. }
  induction r as [|c|p|p|a IHa b IHb|a IHa b IHb|n a IHa| | |]; intros Hs st k m H;
    cbn [rx] in H; cbn [sure].
  - now apply Same with (st' := st).
  - destruct (m_rest st) as [|x t]; [discriminate|].
    destruct (x =? c)%N; [|discriminate].
    eapply Same; [exact H|reflexivity].
  - destruct (m_rest st) as [|x t]; [discriminate|].
    destruct (in_cls U p x); [|discriminate].
    eapply Same; [exact H|reflexivity].
  - apply star_inv in H as (ds & r & pv & _ & _ & H).
    eapply Same; [exact H|reflexivity].
  - destruct Hs as [Ha Hb].
    destruct (IHa Ha _ _ _ H) as (st1 & new1 & H1 & C1 & P1 & S1).
    destruct (IHb Hb _ _ _ H1) as (st2 & new2 & H2 & C2 & P2 & S2).
    exists st2, (new2 ++ new1). split; [exact H2|]. split.
    { rewrite C2, C1. apply app_assoc. }
    split.
    { intros i T Hin. apply in_app_or in Hin as [Hin|Hin]; eauto. }
    intros i Hin. rewrite lookup_app.
    apply in_app_or in Hin as [Hin|Hin].
    + destruct (lookup i new2); [discriminate|]. now apply S1.
    + specialize (S2 i Hin). destruct (lookup i new2); [discriminate|congruence].
  - destruct Hs as [Ha Hb].
    destruct (rx U a st k) as [m'|] eqn:E.
    + injection H as <-.
      destruct (IHa Ha _ _ _ E) as (st1 & new1 & H1 & C1 & P1 & _).
      exists st1, new1. split; [exact H1|]. split; [exact C1|].
      split; [exact P1|intros ? []].
    + destruct (IHb Hb _ _ _ H) as (st1 & new1 & H1 & C1 & P1 & _).
      exists st1, new1. split; [exact H1|]. split; [exact C1|].
      split; [exact P1|intros ? []].
  - cbn [sound] in Hs. destruct (Hs st k m H) as (T & r & pv & E & PT & Hk).
    eexists _, [(n, T)]. split; [exact Hk|]. split; [reflexivity|]. split.
    + intros i T' [[= <- <-]|[]]. exact PT.
    + intros i [<-|[]]. cbn [lookup]. now rewrite Nat.eqb_refl.
  - destruct (xorb _ _); [|discriminate]. now apply Same with (st' := st).
  - destruct (m_prev st); [discriminate|]. now apply Same with (st' := st).
  - apply Same with (st' := st); [|reflexivity].
    destruct (m_rest st) as [|c [|c' t]]; try discriminate; [exact H|].
    destruct (c =? 10)%N; [exact H|discriminate].
Qed.

Lemma number_captures n : captures U (fun _ => number_shape U) n
  (Seq (Plus CDigit) (Opt (Seq (Chr 46) (Plus CDigit)))).
Proof. intros st k m H. exact (number_inv n st k m H). Qed.

Lemma plus_captures n : captures U (fun _ => digits_shape U) n (Plus CDigit).
Proof.
  intros [prev s caps] k m. unfold Plus.
  destruct s as [|c t]; cbn [rx m_rest m_caps m_prev in_cls]; [discriminate|].
  destruct (isdecimal U c) eqn:Dc; [|discriminate]. intros H.
  apply star_inv in H as (ds & r & pv & -> & Hds & H).
  cbn [m_rest m_caps m_prev] in H.
  rewrite (consumed_eq _ _ (c :: ds)) in H by reflexivity.
  exists (c :: ds), r, pv. split; [reflexivity|]. split; [|exact H].
  split; [discriminate|]. cbn [forallb]. now rewrite Dc.
Qed.

(** Every match the scans report is a match of the pattern somewhere. *)
Lemma finditer_In r m : forall s prev skip,
  In m (finditer_from U r prev s skip) ->
  exists pv s', match_at U r pv s' = Some m.
Proof.
  induction s as [|c t IH]; intros prev skip H.
  - destruct skip; cbn [finditer_from] in H; [|contradiction].
    destruct (match_at U r prev []) eqn:E; [|contradiction].
    destruct H as [<-|[]]. eauto.
  - destruct skip; cbn [finditer_from] in H; [|eauto].
    destruct (match_at U r prev (c :: t)) eqn:E; [|eauto].
    destruct H as [<-|H]; eauto.
Qed.

Lemma search_from_In r m : forall s prev,
  search_from U r prev s = Some m ->
  exists pv s', match_at U r pv s' = Some m.
Proof.
  induction s as [|c t IH]; intros prev H; cbn [search_from] in H.
  - destruct (match_at U r prev []) eqn:E; [|discriminate]. injection H as <-. eauto.
  - destruct (match_at U r prev (c :: t)) eqn:E; [injection H as <-; eauto|eauto].
Qed.

(** A match of a sound pattern: all its groups have the expected form and
    the sure ones are set. *)
(** What a match captures is part of the text it read. *)
Lemma rx_within r : forall st k m,
  rx U r st k = Some m ->
  exists st' pre,
    k st' = Some m /\ m_rest st = pre ++ m_rest st' /\
    (forall i T, In (i, T) (m_caps st') ->
       In (i, T) (m_caps st) \/ exists a b, m_rest st = a ++ T ++ b).
Proof.
  induction r as [|c|p|p|a IHa b IHb|a IHa b IHb|n a IHa| | |]; intros st k m H;
    cbn [rx] in H.
  - exists st, []. auto.
  - destruct (m_rest st) as [|x t] eqn:E; [discriminate|].
    destruct (x =? c)%N; [|discriminate].
    eexists _, [x]. split; [exact H|]. cbn [m_rest m_caps]. auto.
  - destruct (m_rest st) as [|x t] eqn:E; [discriminate|].
    destruct (in_cls U p x); [|discriminate].
    eexists _, [x]. split; [exact H|]. cbn [m_rest m_caps]. auto.
  - apply star_inv in H as (ds & r & pv & E & _ & H).
    eexists _, ds. split; [exact H|]. cbn [m_rest m_caps]. auto.
  - destruct (IHa _ _ _ H) as (st1 & pre1 & H1 & E1 & C1).
    destruct (IHb _ _ _ H1) as (st2 & pre2 & H2 & E2 & C2).
    exists st2, (pre1 ++ pre2). split; [exact H2|]. split.
    { rewrite E1, E2. apply app_assoc. }
    intros i T Hin. destruct (C2 i T Hin) as [Hc|(x & y & Hc)]; [now apply C1|].
    right. exists (pre1 ++ x), y. rewrite E1, Hc. now rewrite <- app_assoc.
  - destruct (rx U a st k) as [m'|] eqn:E.
    + injection H as <-. now apply IHa.
    + now apply IHb.
  - destruct (IHa _ _ _ H) as (st1 & pre & H1 & E1 & C1).
    eexists _, pre. split; [exact H1|]. cbn [m_rest m_caps]. split; [exact E1|].
    intros i T [[= <- <-]|Hin]; [|now apply C1].
    right. exists [], (m_rest st1). rewrite (consumed_eq st st1 pre E1). exact E1.
  - destruct (xorb _ _); [|discriminate]. exists st, []. auto.
  - destruct (m_prev st); [discriminate|]. exists st, []. auto.
  - exists st, []. split; [|auto].
    destruct (m_rest st) as [|c [|c' t]]; try discriminate; [exact H|].
    destruct (c =? 10)%N; [exact H|discriminate].
Qed.

Lemma match_at_within r pv s m i T :
  match_at U r pv s = Some m -> group i m = Some T -> exists a b, s = a ++ T ++ b.
Proof.
  unfold match_at, group. intros H G.
  destruct (rx_within r _ _ _ H) as (st' & pre & [= <-] & _ & C).
  destruct (C i T (lookup_In _ _ _ G)) as [[]|W]. exact W.
Qed.

Lemma search_from_within r m i T : forall s prev,
  search_from U r prev s = Some m -> group i m = Some T -> exists a b, s = a ++ T ++ b.
Proof.
  induction s as [|c t IH]; intros prev H G; cbn [search_from] in H.
  - destruct (match_at U r prev []) eqn:E; [|discriminate]. injection H as <-.
    exact (match_at_within _ _ _ _ _ _ E G).
  - destruct (match_at U r prev (c :: t)) eqn:E.
    + injection H as <-. exact (match_at_within _ _ _ _ _ _ E G).
    + destruct (IH _ H G) as (a & b & ->). now exists (c :: a), b.
Qed.

Lemma match_at_captures P r pv s m :
  sound U P r -> match_at U r pv s = Some m ->
  (forall i T, group i m = Some T -> P i T) /\
  (forall i, In i (sure r) -> exists T, group i m = Some T /\ P i T).
Proof.
  intros Hs H. unfold match_at in H.
  destruct (rx_captures P r Hs _ _ _ H) as (st' & new & [= <-] & C & HP & HS).
  cbn [m_caps] in C. rewrite app_nil_r in C. unfold group. rewrite C.
  assert (A : forall i T, lookup i new = Some T -> P i T).
  { intros i T L. apply HP. now apply lookup_In. }
  split; [exact A|].
  intros i Hi. specialize (HS i Hi).
  destruct (lookup i new) as [T|] eqn:L; [|congruence]. eauto.
Qed.

End ReFacts.

(** ** Numbers in texts *)

Section TextNumbers.
Variable U : Unicode.

Lemma digits_number_shape T :
  digits_shape U T -> exists n, digits_number U T = Ok n /\ (0 <= n)%Z.
Proof.
  intros [Hne Hd]. destruct (digits_number_decimal U T Hne Hd) as (n & _ & Hn & E). eauto.
Qed.

(** [int] reads a run of decimal digits unless it is longer than 4300. *)
Lemma py_int_digits_shape T :
  digits_shape U T ->
  ((Z.of_nat (length T) <= 4300)%Z /\ exists n, py_int U T = Ok n /\ (0 <= n)%Z) \/
  ((4300 < Z.of_nat (length T))%Z /\ py_int U T = Raise ValueError).
Proof.
  intros S. destruct (Z.le_gt_cases (Z.of_nat (length T)) 4300) as [L|L].
  - left. split; [exact L|]. rewrite py_int_short by exact L. now apply digits_number_shape.
  - right. split; [lia|]. apply py_int_long. lia.
Qed.

Lemma cut_at_dot_digits d :
  forallb (isdecimal U) d = true -> cut_at_dot d = (d, None).
Proof.
  induction d as [|c d IH]; intros H; cbn [cut_at_dot]; [reflexivity|].
  cbn [forallb] in H. apply andb_prop in H as [Hc Hd].
  now rewrite (isdecimal_not_dot U c Hc), IH.
Qed.

Lemma cut_at_dot_frac d1 d2 :
  forallb (isdecimal U) d1 = true -> cut_at_dot (d1 ++ 46%N :: d2) = (d1, Some d2).
Proof.
  induction d1 as [|c d IH]; intros H; cbn [cut_at_dot app]; [reflexivity|].
  cbn [forallb] in H. apply andb_prop in H as [Hc Hd].
  now rewrite (isdecimal_not_dot U c Hc), IH.
Qed.

(** [float] accepts every captured number, and gives a float of the form
    the text branches compute with. *)
Lemma py_float_shape T :
  number_shape U T -> exists x, py_float U T = Ok x /\ wf x.
Proof.
  intros [d Hne Hd|d1 d2 Hne1 Hd1 Hne2 Hd2]; unfold py_float.
  - rewrite cut_at_dot_digits by assumption.
    destruct (digits_number_shape d (conj Hne Hd)) as (n & -> & Hn). cbn [bind].
    eexists. split; [reflexivity|apply float_of_decimal_wf].
  - rewrite cut_at_dot_frac by assumption.
    destruct d1 as [|c1 d1]; [congruence|]. destruct d2 as [|c2 d2]; [congruence|].
    destruct (digits_number_shape ((c1 :: d1) ++ c2 :: d2)) as (n & -> & Hn).
    { split; [discriminate|]. rewrite forallb_app. now rewrite Hd1, Hd2. }
    cbn [bind]. eexists. split; [reflexivity|apply float_of_decimal_wf].
Qed.

(** The loops keep the running total in that form, and do not raise. *)
Lemma accumulate_wf {A} (term : A -> result float) xs : forall total,
  (forall x, In x xs -> exists v, term x = Ok v /\ wf v) -> wf total ->
  exists t, accumulate term xs total = Ok t /\ wf t.
Proof.
  induction xs as [|x xs IH]; intros total Hx Ht; cbn [accumulate].
  - eauto.
  - destruct (Hx x (or_introl eq_refl)) as (v & -> & Hv). cbn [bind].
    apply IH; [intros y Hy; apply Hx; now right|now apply fadd_wf].
Qed.

(** A total of zero means that every term was zero. *)
Lemma accumulate_zero {A} (term : A -> result float) xs : forall total t,
  (forall x, In x xs -> exists v, term x = Ok v /\ wf v) -> wf total ->
  accumulate term xs total = Ok t -> is_zero t = true ->
  total = f0 /\ forall x, In x xs -> term x = Ok f0.
Proof.
  induction xs as [|x xs IH]; intros total t Hx Ht H Z; cbn [accumulate] in H.
  - injection H as <-. split; [now apply wf_zero|intros ? []].
  - destruct (Hx x (or_introl eq_refl)) as (v & E & Hv). rewrite E in H. cbn [bind] in H.
    destruct (IH _ _ (fun y Hy => Hx y (or_intror Hy)) (fadd_wf _ _ Ht Hv) H Z) as [S R].
    assert (Z' : is_zero (fadd total v) = true) by now rewrite S.
    destruct (fadd_zero _ _ Ht Hv Z') as [-> ->].
    split; [reflexivity|]. intros y [<-|Hy]; [exact E|now apply R].
Qed.

(** Adding terms that are all zero leaves the total as it is. *)
Lemma accumulate_zeros {A} (term : A -> result float) xs : forall total,
  (forall x, In x xs -> term x = Ok f0) -> wf total ->
  accumulate term xs total = Ok total.
Proof.
  induction xs as [|x xs IH]; intros total Hx Ht; cbn [accumulate]; [reflexivity|].
  rewrite (Hx x (or_introl eq_refl)). cbn [bind]. rewrite fadd_0_r by assumption.
  apply IH; [intros y Hy; apply Hx; now right|assumption].
Qed.

Ltac sound_number :=
  cbv [hour_pattern minute_pattern second_pattern compact_hm_pattern compact_h_pattern
       compact_m_pattern number_pattern iso_pattern number lit lit_text of_string
       list_ascii_of_string map Opt sound];
  repeat split; try exact I; apply number_captures.

Lemma sound_hour : sound U (numbers U) hour_pattern.
Proof. sound_number. Qed.
Lemma sound_minute : sound U (numbers U) minute_pattern.
Proof. sound_number. Qed.
Lemma sound_second : sound U (numbers U) second_pattern.
Proof. sound_number. Qed.
Lemma sound_compact_hm : sound U (numbers U) compact_hm_pattern.
Proof. sound_number. Qed.
Lemma sound_compact_h : sound U (numbers U) compact_h_pattern.
Proof. sound_number. Qed.
Lemma sound_compact_m : sound U (numbers U) compact_m_pattern.
Proof. sound_number. Qed.
Lemma sound_number_pattern : sound U (numbers U) number_pattern.
Proof. sound_number. Qed.
Lemma sound_iso : sound U (numbers U) iso_pattern.
Proof. sound_number. Qed.

Lemma float_of_group_wf r i pv s m :
  sound U (numbers U) r -> In i (sure r) -> match_at U r pv s = Some m ->
  exists x, float_of_group U i m = Ok x /\ wf x.
Proof.
  intros Hs Hi H. destruct (match_at_captures U (numbers U) r pv s m Hs H) as [_ S].
  destruct (S i Hi) as (T & G & PT). unfold float_of_group. rewrite G.
  now apply py_float_shape.
Qed.

Lemma group_or_empty_shape r i pv s m :
  sound U (numbers U) r -> In i (sure r) -> match_at U r pv s = Some m ->
  number_shape U (group_or_empty i m).
Proof.
  intros Hs Hi H. destruct (match_at_captures U (numbers U) r pv s m Hs H) as [_ S].
  destruct (S i Hi) as (T & G & PT). unfold group_or_empty. now rewrite G.
Qed.

Lemma float_of_group_or_zero_wf r i pv s m :
  sound U (numbers U) r -> match_at U r pv s = Some m ->
  exists x, float_of_group_or_zero U i m = Ok x /\ wf x.
Proof.
  intros Hs H. destruct (match_at_captures U (numbers U) r pv s m Hs H) as [A _].
  unfold float_of_group_or_zero. destruct (group i m) as [[|c T]|] eqn:G;
    try (exists f0; split; reflexivity).
  apply py_float_shape. exact (A i _ G).
Qed.

Lemma unit_words_wf s : exists t, unit_words U s = Ok t /\ wf t.
Proof.
  unfold unit_words.
  destruct (accumulate_wf (fun m => x <- float_of_group U 1 m ;; Ok (fmul x f60))
              (finditer U hour_pattern s) f0) as (t1 & -> & W1); [|reflexivity|].
  { intros m Hm. apply finditer_In in Hm as (pv & s' & Hm).
    destruct (float_of_group_wf hour_pattern 1 pv s' m sound_hour) as (x & -> & Wx);
      [now left|assumption|].
    cbn [bind]. eexists. split; [reflexivity|now apply fmul_60_wf]. }
  cbn [bind].
  destruct (accumulate_wf (fun m => float_of_group U 1 m)
              (finditer U minute_pattern s) t1) as (t2 & -> & W2); [|assumption|].
  { intros m Hm. apply finditer_In in Hm as (pv & s' & Hm).
    apply (float_of_group_wf minute_pattern 1 pv s' m sound_minute); [now left|assumption]. }
  cbn [bind].
  apply accumulate_wf; [|assumption].
  intros m Hm. apply finditer_In in Hm as (pv & s' & Hm).
  destruct (float_of_group_wf second_pattern 1 pv s' m sound_second) as (x & -> & Wx);
    [now left|assumption|].
  cbn [bind]. eexists. split; [reflexivity|now apply fdiv_60_wf].
Qed.

Lemma findall1_shape r s T :
  sound U (numbers U) r -> In 1 (sure r) -> In T (findall1 U r s) -> number_shape U T.
Proof.
  intros Hs Hi H. unfold findall1 in H. apply in_map_iff in H as (m & <- & Hm).
  apply finditer_In in Hm as (pv & s' & Hm).
  now apply (group_or_empty_shape r 1 pv s' m).
Qed.

Lemma compact_hm_term_wf s hm :
  In hm (findall2 U compact_hm_pattern s) ->
  exists v, (h <- py_float U (fst hm) ;; mm <- py_float U (snd hm) ;;
             Ok (fadd (fmul h f60) mm)) = Ok v /\ wf v.
Proof.
  intros H. unfold findall2 in H. apply in_map_iff in H as (m & <- & Hm).
  apply finditer_In in Hm as (pv & s' & Hm). cbn [fst snd].
  destruct (py_float_shape _ (group_or_empty_shape compact_hm_pattern 1 pv s' m
              sound_compact_hm ltac:(now left) Hm)) as (h & -> & Wh).
  destruct (py_float_shape _ (group_or_empty_shape compact_hm_pattern 2 pv s' m
              sound_compact_hm ltac:(right; now left) Hm)) as (mm & -> & Wm).
  cbn [bind]. eexists. split; [reflexivity|]. apply fadd_wf; [now apply fmul_60_wf|assumption].
Qed.

Lemma compact_h_term_wf s T :
  In T (findall1 U compact_h_pattern s) ->
  exists v, (x <- py_float U T ;; Ok (fmul x f60)) = Ok v /\ wf v.
Proof.
  intros H. apply (findall1_shape compact_h_pattern) in H; [|apply sound_compact_h|now left].
  destruct (py_float_shape _ H) as (x & -> & Wx). cbn [bind].
  eexists. split; [reflexivity|now apply fmul_60_wf].
Qed.

Lemma compact_m_term_wf s T :
  In T (findall1 U compact_m_pattern s) -> exists v, py_float U T = Ok v /\ wf v.
Proof.
  intros H. apply (findall1_shape compact_m_pattern) in H; [|apply sound_compact_m|now left].
  now apply py_float_shape.
Qed.

Lemma compact_wf s total : wf total -> exists t, compact U s total = Ok t /\ wf t.
Proof.
  intros W. unfold compact.
  destruct (accumulate_wf _ _ total (compact_hm_term_wf s) W) as (t1 & -> & W1).
  cbn [bind].
  destruct (accumulate_wf _ _ t1 (compact_h_term_wf s) W1) as (t2 & -> & W2).
  cbn [bind].
  exact (accumulate_wf _ _ t2 (compact_m_term_wf s) W2).
Qed.

Lemma bare_number_wf s total : wf total -> exists t, bare_number U s total = Ok t /\ wf t.
Proof.
  intros W. unfold bare_number. destruct (is_zero total); [|eauto].
  destruct (re_search U number_pattern s) as [m|] eqn:E; [|eauto].
  apply search_from_In in E as (pv & s' & E).
  apply (float_of_group_wf number_pattern 1 pv s' m sound_number_pattern); [now left|assumption].
Qed.

Lemma iso_minutes_result pv s m :
  match_at U iso_pattern pv s = Some m ->
  (exists k, iso_minutes U m = Ok k /\ (0 <= k)%Z) \/ iso_minutes U m = Raise OverflowError.
Proof.
  intros H. unfold iso_minutes.
  destruct (float_of_group_or_zero_wf iso_pattern 1 pv s m sound_iso H) as (h & -> & Wh).
  destruct (float_of_group_or_zero_wf iso_pattern 2 pv s m sound_iso H) as (mm & -> & Wm).
  destruct (float_of_group_or_zero_wf iso_pattern 3 pv s m sound_iso H) as (sec & -> & Ws).
  cbn [bind]. apply py_round_wf.
  apply fadd_wf; [apply fadd_wf; [now apply fmul_60_wf|assumption]|now apply fdiv_60_wf].
Qed.

End TextNumbers.

(** ** The clock grammar and the results on texts *)

Section Clock.
Variable U : Unicode.

Lemma rx_seq a b st k : rx U (Seq a b) st k = rx U a st (fun st' => rx U b st' k).
Proof. reflexivity. Qed.

Lemma rx_alt_inv a b st k m :
  rx U (Alt a b) st k = Some m -> rx U a st k = Some m \/ rx U b st k = Some m.
Proof. cbn [rx]. destruct (rx U a st k); auto. Qed.

Lemma chr_inv c st k m :
  rx U (Chr c) st k = Some m ->
  exists t, m_rest st = c :: t /\ k (MS (Some c) t (m_caps st)) = Some m.
Proof.
  cbn [rx]. destruct (m_rest st) as [|x t]; [discriminate|].
  destruct (x =? c)%N eqn:E; [|discriminate]. apply N.eqb_eq in E. subst. eauto.
Qed.

Lemma cls_inv p st k m :
  rx U (Cls p) st k = Some m ->
  exists x t, m_rest st = x :: t /\ in_cls U p x = true /\
              k (MS (Some x) t (m_caps st)) = Some m.
Proof.
  cbn [rx]. destruct (m_rest st) as [|x t]; [discriminate|].
  destruct (in_cls U p x) eqn:E; [|discriminate]. eauto.
Qed.

Lemma plus_inv p st k m :
  rx U (Plus p) st k = Some m ->
  exists ds r pv, m_rest st = ds ++ r /\ ds <> [] /\ forallb (in_cls U p) ds = true /\
                  k (MS pv r (m_caps st)) = Some m.
Proof.
  unfold Plus. rewrite rx_seq. intros H.
  apply cls_inv in H as (x & t & E & Px & H). cbn [rx m_rest m_caps m_prev] in H.
  rewrite E.
  apply star_inv in H as (ds & r & pv & -> & Hds & H).
  exists (x :: ds), r, pv. repeat split; try assumption; try discriminate.
  cbn [forallb]. now rewrite Px.
Qed.

Lemma one_or_two_inv p st k m :
  rx U (OneOrTwo p) st k = Some m ->
  exists ds r pv, m_rest st = ds ++ r /\ (length ds = 1 \/ length ds = 2) /\
                  forallb (in_cls U p) ds = true /\ k (MS pv r (m_caps st)) = Some m.
Proof.
  unfold OneOrTwo, Opt. rewrite rx_seq. intros H.
  apply cls_inv in H as (x & t & E & Px & H). cbn [rx m_rest m_caps m_prev] in H.
  rewrite E. destruct t as [|y t'].
  - exists [x], [], (Some x). cbn [forallb]. rewrite Px. auto.
  - destruct (in_cls U p y) eqn:Py.
    + destruct (k (MS (Some y) t' (m_caps st))) eqn:E2.
      * injection H as <-. exists [x; y], t', (Some y). cbn [forallb]. rewrite Px, Py. auto.
      * exists [x], (y :: t'), (Some x). cbn [forallb]. rewrite Px. auto.
    + exists [x], (y :: t'), (Some x). cbn [forallb]. rewrite Px. auto.
Qed.

Lemma fullmatch_end st m :
  match m_rest st with [] => Some st | _ :: _ => None end = Some m -> m_rest st = [].
Proof. destruct (m_rest st); [reflexivity|discriminate]. Qed.

Lemma one_or_two_shape ds :
  (length ds = 1 \/ length ds = 2) -> forallb (in_cls U CDigit) ds = true ->
  digits_shape U ds /\ length ds <= 2.
Proof.
  intros L H. split; [split|lia]; [|exact H]. destruct ds; [cbn in L; lia|discriminate].
Qed.

(** The colon pattern matches in full the clock texts only. *)
Lemma colon_inv s m :
  re_fullmatch U colon_pattern s = Some m -> exists parts, clock_shape U s parts.
Proof.
  unfold re_fullmatch, colon_pattern. rewrite rx_seq. intros H.
  apply plus_inv in H as (h & r & pv & E & Hne & Hh & H). cbn [m_rest m_caps] in E, H.
  subst s. rewrite rx_seq in H.
  apply chr_inv in H as (t & E & H). cbn [m_rest m_caps] in E, H. subst r.
  rewrite rx_seq in H.
  apply one_or_two_inv in H as (mi & r2 & pv2 & E & Lmi & Hmi & H).
  cbn [m_rest m_caps] in E, H. subst t.
  destruct (one_or_two_shape mi Lmi Hmi) as [Smi Lmi'].
  apply rx_alt_inv in H as [H|H].
  - rewrite rx_seq in H. apply chr_inv in H as (t3 & E & H). cbn [m_rest m_caps] in E, H.
    subst r2.
    apply one_or_two_inv in H as (sec & r3 & pv3 & E & Lsec & Hsec & H).
    cbn [m_rest m_caps] in E, H. subst t3.
    destruct r3; [|discriminate H].
    destruct (one_or_two_shape sec Lsec Hsec) as [Ssec Lsec'].
    exists [h; mi; sec]. rewrite app_nil_r. apply clock_hms; try assumption. now split.
  - cbn [rx m_rest] in H. destruct r2; [|discriminate H].
    exists [h; mi]. rewrite app_nil_r. apply clock_hm; try assumption. now split.
Qed.

Lemma isdecimal_colon : isdecimal U 58%N = false.
Proof. reflexivity. Qed.

Lemma isdecimal_not_colon c : isdecimal U c = true -> (c =? 58)%N = false.
Proof. intros H. apply N.eqb_neq. intros ->. discriminate H. Qed.

Lemma split_acc_digits ds : forall cur r,
  forallb (isdecimal U) ds = true ->
  split_acc 58 cur (ds ++ r) = split_acc 58 (rev ds ++ cur) r.
Proof.
  induction ds as [|c ds IH]; intros cur r H; [reflexivity|].
  cbn [forallb] in H. apply andb_prop in H as [Hc Hds].
  cbn [app split_acc rev]. rewrite (isdecimal_not_colon c Hc), IH by assumption.
  now rewrite <- app_assoc.
Qed.

Lemma split_acc_last ds cur :
  forallb (isdecimal U) ds = true -> split_acc 58 cur ds = [rev cur ++ ds].
Proof.
  intros H. rewrite <- (app_nil_r ds) at 1. rewrite split_acc_digits by assumption.
  cbn [split_acc]. now rewrite rev_app_distr, rev_involutive.
Qed.

Lemma split_clock s parts : clock_shape U s parts -> split 58 s = parts.
Proof.
  intros [h mi [_ Hh] [_ Hmi] _|h mi sec [_ Hh] [_ Hmi] _ [_ Hsec] _]; unfold split.
  - rewrite split_acc_digits by assumption. cbn [split_acc]. rewrite N.eqb_refl.
    rewrite app_nil_r, rev_involutive, split_acc_last by assumption. reflexivity.
  - rewrite split_acc_digits by assumption. cbn [split_acc]. rewrite N.eqb_refl.
    rewrite app_nil_r, rev_involutive, split_acc_digits by assumption.
    cbn [split_acc]. rewrite N.eqb_refl.
    rewrite app_nil_r, rev_involutive, split_acc_last by assumption. reflexivity.
Qed.

Lemma plus_digits_colon h r K k :
  digits_shape U h ->
  rx U (Seq (Plus CDigit) (Seq (Chr 58) K)) (MS None (h ++ 58%N :: r) []) k
  = rx U K (MS (Some 58%N) r []) k.
Proof.
  intros [Hne Hh]. destruct h as [|c ds]; [congruence|].
  cbn [forallb] in Hh. apply andb_prop in Hh as [Hc Hds].
  unfold Plus. rewrite !rx_seq. cbn [rx m_rest m_caps m_prev in_cls app]. rewrite Hc.
  rewrite star_greedy.
  2:{ intros pv c' t' Hc'. cbn [rx m_rest]. now rewrite (isdecimal_not_colon c' Hc'). }
  rewrite skip_run_app; [|exact Hds|exact isdecimal_colon].
  cbn [fst snd rx m_rest m_caps]. now rewrite N.eqb_refl.
Qed.

(** ... and it matches every clock text. *)
Lemma colon_matches s parts :
  clock_shape U s parts -> exists m, re_fullmatch U colon_pattern s = Some m.
Proof.
  intros [h mi Sh [Nmi Hmi] Lmi|h mi sec Sh [Nmi Hmi] Lmi [Nsec Hsec] Lsec];
    unfold re_fullmatch, colon_pattern; rewrite plus_digits_colon by assumption;
    unfold OneOrTwo, Opt.
  - destruct mi as [|a [|b [|]]]; try congruence; try (cbn in Lmi; lia);
      cbn [forallb] in Hmi;
      repeat match goal with H : _ && _ = true |- _ => apply andb_prop in H as [? ?] end;
      cbn [rx m_rest m_caps m_prev in_cls app];
      repeat match goal with H : isdecimal U _ = true |- _ => rewrite H end;
      cbn [rx m_rest m_caps m_prev in_cls]; eauto.
  - destruct mi as [|a [|b [|]]]; try congruence; try (cbn in Lmi; lia);
      destruct sec as [|a' [|b' [|]]]; try congruence; try (cbn in Lsec; lia);
      cbn [forallb] in Hmi, Hsec;
      repeat match goal with H : _ && _ = true |- _ => apply andb_prop in H as [? ?] end;
      cbn [rx m_rest m_caps m_prev in_cls app];
      repeat match goal with H : isdecimal U _ = true |- _ => rewrite H end;
      rewrite ?isdecimal_colon;
      cbn [rx m_rest m_caps m_prev in_cls];
      repeat match goal with H : isdecimal U _ = true |- _ => rewrite H end;
      rewrite ?N.eqb_refl;
      cbn [rx m_rest m_caps m_prev in_cls];
      repeat match goal with H : isdecimal U _ = true |- _ => rewrite H end;
      cbn [rx m_rest m_caps m_prev in_cls]; eauto.
Qed.

Lemma float_of_int_nonneg n :
  (0 <= n)%Z ->
  (exists x, float_of_int n = Ok x /\ wf x) \/ float_of_int n = Raise OverflowError.
Proof.
  intros Hn. unfold float_of_int, nearest_float, binary_normalize.
  destruct n as [|p|p]; [left; exists f0; split; reflexivity| |lia].
  pose proof (binary_round_wf p 0) as W.
  destruct (binary_round prec emax false p 0) as [s|s| |s m e] eqn:E; cbn [wf] in W;
    try contradiction; [left|now right|left]; eexists; (split; [reflexivity|exact W]).
Qed.

Lemma py_int_result s :
  s <> [] ->
  (exists n, py_int U s = Ok n /\ (0 <= n)%Z) \/
  (py_int U s = Raise ValueError /\
   (forallb (isdecimal U) s = false \/ (4300 < Z.of_nat (length s))%Z)).
Proof.
  intros Hne. destruct (forallb (isdecimal U) s) eqn:D.
  - destruct (py_int_digits_shape U s (conj Hne D)) as [[L (n & E & Hn)]|[L E]];
      [left; eauto|right; auto].
  - right. split; [apply py_int_refuses; now left|now left].
Qed.

(** A field of one or two digits is read by [int]. *)
Lemma py_int_field T :
  digits_shape U T -> length T <= 2 -> exists n, py_int U T = Ok n /\ (0 <= n)%Z.
Proof.
  intros S L. destruct (py_int_digits_shape U T S) as [[_ H]|[G _]]; [exact H|lia].
Qed.

Lemma py_round_result x :
  wf x ->
  (exists k, py_round x = Ok k /\ (0 <= k)%Z) \/
  (x = S754_infinity false /\ py_round x = Raise OverflowError).
Proof.
  destruct x as [s|s| |s m e]; cbn [wf py_round]; intros H.
  - left. exists 0%Z. split; [reflexivity|lia].
  - right. now subst.
  - contradiction.
  - destruct H as [-> _]. left. eexists. split; [reflexivity|].
    cbn [cond_Zopp]. apply round_half_even_nonneg. lia.
Qed.

Lemma clock_total_result H M S :
  (0 <= H * 60 + M)%Z -> (0 <= S)%Z ->
  (exists x, clock_total H M S = Ok x /\ wf x) \/ clock_total H M S = Raise OverflowError.
Proof.
  intros Hhm Hsec. unfold clock_total.
  destruct (float_of_int_nonneg S Hsec) as [(x & -> & Wx)| ->]; [|now right].
  destruct (float_of_int_nonneg _ Hhm) as [(y & -> & Wy)| ->]; [|now right].
  cbn [bind]. left. eexists. split; [reflexivity|].
  apply fadd_wf; [assumption|now apply fdiv_60_wf].
Qed.

(** The total of a text: a float of the form the branches compute with,
    unless an [int] of the clock branch is too large for a float, or too
    long for [int]. *)
Lemma time_total_result s :
  (exists x, time_total U s = Ok x /\ wf x) \/
  time_total U s = Raise OverflowError \/
  (time_total U s = Raise ValueError /\ long_run U s).
Proof.
  unfold time_total.
  destruct (re_fullmatch U colon_pattern s) as [m|] eqn:C.
  { destruct (colon_inv _ _ C) as [parts P]. rewrite (split_clock s parts P).
    destruct P as [h mi Sh Smi Lmi|h mi sec Sh Smi Lmi Ssec Lsec]; cbn [ints_of].
    - destruct (py_int_digits_shape U h Sh) as [[_ (H & -> & HH)]|[L ->]].
      + destruct (py_int_field mi Smi Lmi) as (M & -> & HM). cbn [bind].
        destruct (clock_total_result H M 0) as [R|R]; try lia; auto.
      + right. right. split; [reflexivity|].
        exists [], h, (58%N :: mi). split; [reflexivity|]. split; [apply Sh|exact L].
    - destruct (py_int_digits_shape U h Sh) as [[_ (H & -> & HH)]|[L ->]].
      + destruct (py_int_field mi Smi Lmi) as (M & -> & HM).
        destruct (py_int_field sec Ssec Lsec) as (S & -> & HS). cbn [bind].
        destruct (clock_total_result H M S) as [R|R]; try lia; auto.
      + right. right. split; [reflexivity|].
        exists [], h, (58%N :: mi ++ 58%N :: sec).
        split; [reflexivity|]. split; [apply Sh|exact L]. }
  cbv zeta. set (s' := replace 8212 45 (replace 8211 45 (replace 44 32 s))).
  destruct (re_match U iso_pattern s') as [m|] eqn:I.
  { destruct (float_of_group_or_zero_wf U iso_pattern 1 None s' m (sound_iso U) I)
      as (h & -> & Wh).
    destruct (float_of_group_or_zero_wf U iso_pattern 2 None s' m (sound_iso U) I)
      as (mm & -> & Wm).
    destruct (float_of_group_or_zero_wf U iso_pattern 3 None s' m (sound_iso U) I)
      as (sec & -> & Ws).
    cbn [bind]. left. eexists. split; [reflexivity|].
    apply fadd_wf; [apply fadd_wf; [now apply fmul_60_wf|assumption]|now apply fdiv_60_wf]. }
  destruct (unit_words_wf U s') as (t1 & -> & W1). cbn [bind].
  assert (W2 : exists t2, (if is_zero t1 then compact U s' t1 else Ok t1) = Ok t2 /\ wf t2).
  { destruct (is_zero t1); [now apply compact_wf|eauto]. }
  destruct W2 as (t2 & -> & W2). cbn [bind].
  left. now apply bare_number_wf.
Qed.

(** Every branch of [parse_time_to_minutes] that is not the one of the
    pure digits ends in [round] of its total. *)
Lemma time_by_total t :
  lower U (strip U t) <> [] -> isdigit U (lower U (strip U t)) = false ->
  parse_time_to_minutes U (PyStr t)
  = (x <- time_total U (lower U (strip U t)) ;; py_round x).
Proof.
  intros Hne D. unfold parse_time_to_minutes, time_total.
  destruct (lower U (strip U t)) as [|c s] eqn:Es; [congruence|].
  rewrite D. destruct (re_fullmatch U colon_pattern (c :: s)).
  { unfold colon_minutes, clock_total.
    destruct (ints_of U (split 58 (c :: s))) as [[|H [|M [|S [|X parts]]]]|e];
      cbn [bind]; try reflexivity.
    - destruct (float_of_int 0); cbn [bind]; [|reflexivity].
      destruct (float_of_int (H * 60 + M)); reflexivity.
    - destruct (float_of_int S); cbn [bind]; [|reflexivity].
      destruct (float_of_int (H * 60 + M)); reflexivity. }
  cbv zeta. destruct (re_match U iso_pattern _).
  { unfold iso_minutes.
    destruct (float_of_group_or_zero U 1 m); cbn [bind]; [|reflexivity].
    destruct (float_of_group_or_zero U 2 m); cbn [bind]; [|reflexivity].
    destruct (float_of_group_or_zero U 3 m); reflexivity. }
  destruct (unit_words U _) as [t1|e]; cbn [bind]; [|reflexivity].
  destruct (if is_zero t1 then _ else _) as [t2|e]; cbn [bind]; [|reflexivity].
  destruct (bare_number U _ t2); reflexivity.
Qed.

(** What [parse_time_to_minutes] makes of a text: a natural number, or an
    overflow of the total, or the refusal by [int] of digits that are not
    all decimal or are more than 4300. *)
Lemma time_text_result t :
  (exists k, parse_time_to_minutes U (PyStr t) = Ok k /\ (0 <= k)%Z) \/
  (parse_time_to_minutes U (PyStr t) = Raise OverflowError /\
   isdigit U (lower U (strip U t)) = false /\
   overflows (time_total U (lower U (strip U t)))) \/
  (parse_time_to_minutes U (PyStr t) = Raise ValueError /\
   ((isdigit U (lower U (strip U t)) = true /\
     forallb (isdecimal U) (lower U (strip U t)) = false) \/
    long_run U (lower U (strip U t)))).
Proof.
  destruct (lower U (strip U t)) as [|c s] eqn:Es.
  { left. exists 0%Z. unfold parse_time_to_minutes. rewrite Es. split; [reflexivity|lia]. }
  destruct (isdigit U (c :: s)) eqn:D.
  { rewrite digits_first_time by (rewrite Es; exact D). rewrite Es.
    destruct (py_int_result (c :: s) ltac:(discriminate)) as [H|[H C]]; [now left|].
    right. right. split; [exact H|].
    destruct (forallb (isdecimal U) (c :: s)) eqn:F; [|left; now split].
    right. destruct C as [C|C]; [discriminate|].
    exists [], (c :: s), []. rewrite app_nil_r. auto. }
  rewrite time_by_total by (rewrite Es; (discriminate || exact D)). rewrite Es.
  destruct (time_total_result (c :: s)) as [(x & E & W)|[E|[E L]]]; rewrite E; cbn [bind].
  - destruct (py_round_result x W) as [H|[-> H]]; [now left|].
    right. left. split; [exact H|]. split; [reflexivity|now left].
  - right. left. split; [reflexivity|]. split; [reflexivity|now right].
  - right. right. split; [reflexivity|now right].
Qed.

Lemma sound_range : sound U (fun _ => digits_shape U) range_pattern.
Proof.
  cbv [range_pattern sound]. repeat split; try exact I; apply plus_captures.
Qed.

Lemma servings_text_result t :
  (exists k, parse_servings_to_int U (PyStr t) = Ok k /\ (0 <= k)%Z) \/
  (parse_servings_to_int U (PyStr t) = Raise OverflowError /\
   isdigit U (lower U (strip U t)) = false /\
   exists g, first_number U (lower U (strip U t)) = Some g /\
             py_float U g = Ok (S754_infinity false)) \/
  (parse_servings_to_int U (PyStr t) = Raise ValueError /\
   ((isdigit U (lower U (strip U t)) = true /\
     forallb (isdecimal U) (lower U (strip U t)) = false) \/
    long_run U (lower U (strip U t)))).
Proof.
  destruct (lower U (strip U t)) as [|c s] eqn:Es.
  { left. exists 0%Z. unfold parse_servings_to_int. rewrite Es. split; [reflexivity|lia]. }
  destruct (isdigit U (c :: s)) eqn:D.
  { rewrite digits_first_servings by (rewrite Es; exact D). rewrite Es.
    destruct (py_int_result (c :: s) ltac:(discriminate)) as [H|[H C]]; [now left|].
    right. right. split; [exact H|].
    destruct (forallb (isdecimal U) (c :: s)) eqn:F; [|left; now split].
    right. destruct C as [C|C]; [discriminate|].
    exists [], (c :: s), []. rewrite app_nil_r. auto. }
  unfold parse_servings_to_int, first_number. rewrite Es, D.
  destruct (re_search U range_pattern (c :: s)) as [m|] eqn:R.
  { pose proof R as R'. apply search_from_In in R' as (pv & s' & R').
    destruct (match_at_captures U _ _ pv s' m sound_range R') as [_ S].
    destruct (S 1 ltac:(now left)) as (T & G & PT). rewrite G.
    destruct (py_int_digits_shape U T PT) as [[_ H]|[L H]]; [now left|].
    right. right. split; [exact H|]. right.
    destruct (search_from_within U _ _ 1 T _ _ R G) as (a & b & E).
    exists a, T, b. split; [exact E|]. split; [apply PT|exact L]. }
  destruct (re_search U number_pattern (c :: s)) as [m|] eqn:N.
  { apply search_from_In in N as (pv & s' & N).
    destruct (float_of_group_wf U number_pattern 1 pv s' m (sound_number_pattern U)
                ltac:(now left) N) as (x & E & Wx).
    rewrite E. cbn [bind]. unfold float_of_group in E.
    destruct (group 1 m) as [g|]; [|discriminate].
    destruct (py_round_result x Wx) as [H|[-> H]]; [now left|].
    right. left. split; [exact H|]. split; [reflexivity|]. now exists g. }
  left. exists 0%Z. split; [reflexivity|lia].
Qed.

End Clock.

(** ** The value of a clock text *)

Section ClockValue.
Variable U : Unicode.

Lemma clock_char_facts c :
  clock_char c = true ->
  isspace U c = false /\ forall before after, lower_char U before c after = [c].
Proof.
  unfold clock_char. intros H. apply orb_prop in H as [H|H].
  - split; [now apply ascii_digit_not_space|intros; now apply ascii_digit_lower].
  - apply N.eqb_eq in H. subst. split; reflexivity.
Qed.

Lemma lower_from_clock s : forall before,
  forallb clock_char s = true -> lower_from U before s = s.
Proof.
  induction s as [|c s IH]; intros before H; [reflexivity|].
  cbn [forallb] in H. apply andb_prop in H as [Hc Hs].
  cbn [lower_from]. destruct (clock_char_facts c Hc) as [_ L]. now rewrite L, IH.
Qed.

Lemma lstrip_clock s : forallb clock_char s = true -> lstrip U s = s.
Proof.
  destruct s as [|c s]; [reflexivity|]. cbn [forallb lstrip]. intros H.
  apply andb_prop in H as [Hc _]. destruct (clock_char_facts c Hc) as [-> _]. reflexivity.
Qed.

Lemma normal_form_clock s :
  forallb clock_char s = true -> lower U (strip U s) = s.
Proof.
  intros H. unfold strip, lower. rewrite (lstrip_clock s H).
  rewrite lstrip_clock by now rewrite forallb_rev.
  rewrite rev_involutive. now apply lower_from_clock.
Qed.

Lemma ascii_digits_shape ds :
  ds <> [] -> forallb ascii_digit ds = true -> digits_shape U ds.
Proof.
  intros Hne H. split; [assumption|]. apply forallb_forall. intros c Hc.
  apply ascii_digit_decimal. now apply (proj1 (forallb_forall _ _) H).
Qed.

Lemma ascii_digits_clock ds : forallb ascii_digit ds = true -> forallb clock_char ds = true.
Proof.
  intros H. apply forallb_forall. intros c Hc. unfold clock_char.
  now rewrite (proj1 (forallb_forall _ _) H c Hc).
Qed.

Lemma isdigit_with_colon h r : isdigit U (h ++ 58%N :: r) = false.
Proof.
  unfold isdigit. destruct (h ++ 58%N :: r) eqn:E; [reflexivity|]. rewrite <- E.
  rewrite forallb_app. cbn [forallb].
  replace (isdigit_char U 58%N) with false by reflexivity.
  now rewrite andb_false_r.
Qed.

(** A clock text goes to the colon branch. *)
Lemma clock_branch t parts :
  clock_shape U (lower U (strip U t)) parts ->
  parse_time_to_minutes U (PyStr t) = colon_minutes U (lower U (strip U t)).
Proof.
  intros C. unfold parse_time_to_minutes.
  destruct (colon_matches U _ _ C) as [m M].
  assert (D : isdigit U (lower U (strip U t)) = false).
  { destruct C; rewrite <- ?app_assoc; apply isdigit_with_colon. }
  assert (Ne : lower U (strip U t) <> []).
  { destruct C as [h ? ? ? ?|h ? ? ? ? ? ? ?]; destruct h; discriminate. }
  destruct (lower U (strip U t)) as [|c s]; [congruence|].
  now rewrite D, M.
Qed.

Lemma clock_minutes_exact H M :
  (0 <= H * 60 + M < 2 ^ 53)%Z -> clock_minutes H M 0 = Ok (H * 60 + M)%Z.
Proof.
  intros B. unfold clock_minutes.
  change (float_of_int 0) with (Ok f0). cbn [bind].
  change (fdiv f0 f60) with f0.
  destruct (round_nearest_float (H * 60 + M)) as [E R]; [lia|].
  rewrite E. cbn [bind]. rewrite fadd_0_r; [exact R|].
  unfold nearest_float, binary_normalize.
  destruct (H * 60 + M)%Z; [reflexivity|apply binary_round_wf|lia].
Qed.

Lemma colon_minutes_value s h mi sec :
  split 58 s = h :: mi :: sec ->
  (sec = [] \/
   exists x, sec = [x] /\ x <> [] /\ forallb ascii_digit x = true /\ length x <= 2) ->
  h <> [] -> forallb ascii_digit h = true -> (Z.of_nat (length h) <= 4300)%Z ->
  mi <> [] -> forallb ascii_digit mi = true -> length mi <= 2 ->
  colon_minutes U s
  = clock_minutes (decimal_value h) (decimal_value mi)
      (match sec with [x] => decimal_value x | _ => 0%Z end).
Proof.
  intros E Hsec Nh Hh Lh Nmi Hmi Lmi. unfold colon_minutes. rewrite E. cbn [ints_of].
  rewrite (py_int_digits U h Nh Hh Lh), (py_int_digits U mi Nmi Hmi) by lia. cbn [bind].
  destruct Hsec as [->|(x & -> & Nx & Hx & Lx)]; cbn [ints_of bind].
  - reflexivity.
  - rewrite (py_int_digits U x Nx Hx) by lia. reflexivity.
Qed.

(** An hours field of more than 4300 digits stops the colon branch at
    its first [int]. *)
Lemma colon_minutes_long s h rest :
  split 58 s = h :: rest -> (4300 < Z.of_nat (length h))%Z ->
  colon_minutes U s = Raise ValueError.
Proof.
  intros E L. unfold colon_minutes. rewrite E. cbn [ints_of].
  now rewrite (py_int_long U h L).
Qed.

(** C5, amended.  The colon pattern matches in full exactly the texts
    [h:mm] and [h:mm:ss] whose hours field has one digit or more and whose
    minutes and seconds fields have one or two.  On such a text of ASCII
    digits, with at most 4300 of them for the hours, the result is
    [round(h * 60 + mm + ss / 60.0)], which without seconds is
    [h * 60 + mm] itself as long as a float holds it exactly; with more
    than 4300 digits for the hours, [int] raises [ValueError]. *)
Theorem C5_clock_grammar :
  (forall s, (exists m, re_fullmatch U colon_pattern s = Some m) <->
             (exists parts, clock_shape U s parts)) /\
  (forall h mi,
     h <> [] -> forallb ascii_digit h = true -> (Z.of_nat (length h) <= 4300)%Z ->
     mi <> [] -> forallb ascii_digit mi = true -> length mi <= 2 ->
     parse_time_to_minutes U (PyStr (h ++ 58%N :: mi))
     = clock_minutes (decimal_value h) (decimal_value mi) 0 /\
     ((decimal_value h * 60 + decimal_value mi < 2 ^ 53)%Z ->
      parse_time_to_minutes U (PyStr (h ++ 58%N :: mi))
      = Ok (decimal_value h * 60 + decimal_value mi)%Z)) /\
  (forall h mi sec,
     h <> [] -> forallb ascii_digit h = true -> (Z.of_nat (length h) <= 4300)%Z ->
     mi <> [] -> forallb ascii_digit mi = true -> length mi <= 2 ->
     sec <> [] -> forallb ascii_digit sec = true -> length sec <= 2 ->
     parse_time_to_minutes U (PyStr (h ++ 58%N :: mi ++ 58%N :: sec))
     = clock_minutes (decimal_value h) (decimal_value mi) (decimal_value sec)) /\
  (forall h mi,
     forallb ascii_digit h = true -> (4300 < Z.of_nat (length h))%Z ->
     mi <> [] -> forallb ascii_digit mi = true -> length mi <= 2 ->
     parse_time_to_minutes U (PyStr (h ++ 58%N :: mi)) = Raise ValueError /\
     forall sec,
       sec <> [] -> forallb ascii_digit sec = true -> length sec <= 2 ->
       parse_time_to_minutes U (PyStr (h ++ 58%N :: mi ++ 58%N :: sec))
       = Raise ValueError) /\
  parse_time_to_minutes U (PyStr (of_string "1:30")) = Ok 90%Z /\
  parse_time_to_minutes U (PyStr (of_string "1:30:00")) = Ok 90%Z /\
  parse_time_to_minutes U (PyStr (of_string "0:45")) = Ok 45%Z.
Proof.
  assert (Two : forall h mi,
    h <> [] -> forallb ascii_digit h = true ->
    mi <> [] -> forallb ascii_digit mi = true -> length mi <= 2 ->
    parse_time_to_minutes U (PyStr (h ++ 58%N :: mi))
    = colon_minutes U (h ++ 58%N :: mi) /\
    split 58 (h ++ 58%N :: mi) = [h; mi]).
  { intros h mi Nh Hh Nmi Hmi Lmi.
    assert (C : clock_shape U (h ++ 58%N :: mi) [h; mi]).
    { apply clock_hm; [now apply ascii_digits_shape|now apply ascii_digits_shape|assumption]. }
    assert (N : lower U (strip U (h ++ 58%N :: mi)) = h ++ 58%N :: mi).
    { apply normal_form_clock. rewrite forallb_app. cbn [forallb].
      now rewrite !ascii_digits_clock. }
    split; [|now apply (split_clock U)].
    rewrite (clock_branch _ [h; mi]) by now rewrite N. now rewrite N. }
  assert (Three : forall h mi sec,
    h <> [] -> forallb ascii_digit h = true ->
    mi <> [] -> forallb ascii_digit mi = true -> length mi <= 2 ->
    sec <> [] -> forallb ascii_digit sec = true -> length sec <= 2 ->
    parse_time_to_minutes U (PyStr (h ++ 58%N :: mi ++ 58%N :: sec))
    = colon_minutes U (h ++ 58%N :: mi ++ 58%N :: sec) /\
    split 58 (h ++ 58%N :: mi ++ 58%N :: sec) = [h; mi; sec]).
  { intros h mi sec Nh Hh Nmi Hmi Lmi Nsec Hsec Lsec.
    assert (C : clock_shape U (h ++ 58%N :: mi ++ 58%N :: sec) [h; mi; sec]).
    { apply clock_hms; try assumption; now apply ascii_digits_shape. }
    assert (N : lower U (strip U (h ++ 58%N :: mi ++ 58%N :: sec))
                = h ++ 58%N :: mi ++ 58%N :: sec).
    { apply normal_form_clock. rewrite forallb_app. cbn [forallb].
      rewrite forallb_app. cbn [forallb]. now rewrite !ascii_digits_clock. }
    split; [|now apply (split_clock U)].
    rewrite (clock_branch _ [h; mi; sec]) by now rewrite N. now rewrite N. }
  split; [|split; [|split; [|split; [|repeat split; vm_compute; reflexivity]]]].
  - intros s. split; intros [x H]; [now apply colon_inv in H|now apply colon_matches in H].
  - intros h mi Nh Hh Lh Nmi Hmi Lmi.
    destruct (Two h mi Nh Hh Nmi Hmi Lmi) as [P S].
    assert (V : parse_time_to_minutes U (PyStr (h ++ 58%N :: mi))
                = clock_minutes (decimal_value h) (decimal_value mi) 0).
    { rewrite P. apply (colon_minutes_value _ h mi []); auto. }
    split; [exact V|]. intros B. rewrite V. apply clock_minutes_exact.
    pose proof (decimal_value_nonneg h). pose proof (decimal_value_nonneg mi). lia.
  - intros h mi sec Nh Hh Lh Nmi Hmi Lmi Nsec Hsec Lsec.
    destruct (Three h mi sec Nh Hh Nmi Hmi Lmi Nsec Hsec Lsec) as [P S].
    rewrite P. apply (colon_minutes_value _ h mi [sec]); auto.
    right. exists sec. auto.
  - intros h mi Hh Lh Nmi Hmi Lmi.
    assert (Nh : h <> []) by (intros ->; cbn in Lh; lia).
    split.
    + destruct (Two h mi Nh Hh Nmi Hmi Lmi) as [P S].
      rewrite P. now apply (colon_minutes_long _ h [mi]).
    + intros sec Nsec Hsec Lsec.
      destruct (Three h mi sec Nh Hh Nmi Hmi Lmi Nsec Hsec Lsec) as [P S].
      rewrite P. now apply (colon_minutes_long _ h [mi; sec]).
Qed.

End ClockValue.

(** ** Stability *)

Section Stability.
Variable U : Unicode.

Lemma py_float_binary64 T x : py_float U T = Ok x -> binary64 x.
Proof.
  unfold py_float. destruct (cut_at_dot T) as [ip [fp|]].
  - destruct ip as [|a ip]; [discriminate|]. destruct fp as [|b fp]; [discriminate|].
    destruct (digits_number U _); cbn [bind]; [|discriminate].
    intros [= <-]. apply float_of_decimal_binary64.
  - destruct (digits_number U ip); cbn [bind]; [|discriminate].
    intros [= <-]. apply float_of_decimal_binary64.
Qed.

Lemma float_of_group_binary64 i m x : float_of_group U i m = Ok x -> binary64 x.
Proof.
  unfold float_of_group. destruct (group i m); [apply py_float_binary64|discriminate].
Qed.

Lemma float_of_group_or_zero_binary64 i m x :
  float_of_group_or_zero U i m = Ok x -> binary64 x.
Proof.
  unfold float_of_group_or_zero. destruct (group i m) as [[|c T]|];
    try (intros [= <-]; exact I). apply py_float_binary64.
Qed.

Lemma accumulate_binary64 {A} (term : A -> result float) xs :
  (forall a v, term a = Ok v -> binary64 v) ->
  forall total t, binary64 total -> accumulate term xs total = Ok t -> binary64 t.
Proof.
  intros Ht. induction xs as [|a xs IH]; intros total t B H; cbn [accumulate] in H.
  - now injection H as <-.
  - destruct (term a) as [v|] eqn:E; [|discriminate]. cbn [bind] in H.
    apply (IH _ _ (fadd_binary64 _ _ B (Ht a v E)) H).
Qed.

Lemma unit_words_binary64 s t : unit_words U s = Ok t -> binary64 t.
Proof.
  unfold unit_words. intros H.
  destruct (accumulate _ (finditer U hour_pattern s) f0) as [t1|] eqn:E1; [|discriminate].
  cbn [bind] in H.
  destruct (accumulate _ (finditer U minute_pattern s) t1) as [t2|] eqn:E2; [|discriminate].
  cbn [bind] in H.
  apply accumulate_binary64 in E1; [|clear|exact I].
  2:{ intros a v. destruct (float_of_group U 1 a); [|discriminate].
      intros [= <-]. apply fmul_binary64. }
  apply accumulate_binary64 in E2; [|clear|exact E1].
  2:{ intros a v. apply float_of_group_binary64. }
  apply accumulate_binary64 in H; [exact H|clear|exact E2].
  intros a v. destruct (float_of_group U 1 a); [|discriminate].
  intros [= <-]. apply fdiv_binary64.
Qed.

Lemma compact_binary64 s total t : binary64 total -> compact U s total = Ok t -> binary64 t.
Proof.
  unfold compact. intros B H.
  destruct (accumulate _ (findall2 U compact_hm_pattern s) total) as [t1|] eqn:E1;
    [|discriminate].
  cbn [bind] in H.
  destruct (accumulate _ (findall1 U compact_h_pattern s) t1) as [t2|] eqn:E2;
    [|discriminate].
  cbn [bind] in H.
  apply accumulate_binary64 in E1; [|clear|exact B].
  2:{ intros a v. destruct (py_float U (fst a)) as [h|] eqn:Eh; [|discriminate].
      destruct (py_float U (snd a)) as [mm|] eqn:Em; [|discriminate].
      intros [= <-]. apply fadd_binary64; [apply fmul_binary64|].
      exact (py_float_binary64 _ _ Em). }
  apply accumulate_binary64 in E2; [|clear|exact E1].
  2:{ intros a v. destruct (py_float U a); [|discriminate].
      intros [= <-]. apply fmul_binary64. }
  apply accumulate_binary64 in H; [exact H|clear|exact E2].
  intros a v. apply py_float_binary64.
Qed.

Lemma bare_number_binary64 s total t :
  binary64 total -> bare_number U s total = Ok t -> binary64 t.
Proof.
  unfold bare_number. intros B H. destruct (is_zero total); [|now injection H as <-].
  destruct (re_search U number_pattern s); [|now injection H as <-].
  exact (float_of_group_binary64 _ _ _ H).
Qed.

Lemma float_of_int_binary64 n f : float_of_int n = Ok f -> binary64 f.
Proof.
  unfold float_of_int. pose proof (nearest_float_binary64 n) as B.
  destruct (nearest_float n); intros [= <-]; exact B.
Qed.

Lemma clock_total_binary64 H M S x : clock_total H M S = Ok x -> binary64 x.
Proof.
  unfold clock_total.
  destruct (float_of_int S) as [sec|] eqn:E1; [|discriminate].
  destruct (float_of_int (H * 60 + M)) as [hm|] eqn:E2; [|discriminate].
  cbn [bind]. intros [= <-].
  apply fadd_binary64; [exact (float_of_int_binary64 _ _ E2)|apply fdiv_binary64].
Qed.

(** The total of a text is a float of binary64. *)
Lemma time_total_binary64 s x : time_total U s = Ok x -> binary64 x.
Proof.
  unfold time_total. destruct (re_fullmatch U colon_pattern s).
  { destruct (ints_of U (split 58 s)) as [[|H [|M [|S [|X parts]]]]|];
      cbn [bind]; try discriminate; apply clock_total_binary64. }
  cbv zeta. destruct (re_match U iso_pattern _) as [m|].
  { destruct (float_of_group_or_zero U 1 m) as [h|] eqn:E1; [|discriminate].
    destruct (float_of_group_or_zero U 2 m) as [mm|] eqn:E2; [|discriminate].
    destruct (float_of_group_or_zero U 3 m) as [sec|] eqn:E3; [|discriminate].
    cbn [bind]. intros [= <-].
    apply fadd_binary64; [apply fadd_binary64; [apply fmul_binary64|]|apply fdiv_binary64].
    exact (float_of_group_or_zero_binary64 _ _ _ E2). }
  destruct (unit_words U _) as [t1|] eqn:E1; [|discriminate]. cbn [bind].
  apply unit_words_binary64 in E1.
  destruct (if is_zero t1 then _ else _) as [t2|] eqn:E2; [|discriminate]. cbn [bind].
  apply bare_number_binary64.
  destruct (is_zero t1); [exact (compact_binary64 _ _ _ E1 E2)|now injection E2 as <-].
Qed.

Lemma pow2_1024_lt : (2 ^ 1024 < 10 ^ 4300)%Z.
Proof. vm_compute. reflexivity. Qed.

(** What [parse_time_to_minutes] returns has at most 4300 digits. *)
Lemma time_result_lt x n :
  decimal_values U -> python_value x ->
  parse_time_to_minutes U x = Ok n -> (n < 10 ^ 4300)%Z.
Proof.
  intros T V E.
  assert (P0 : (0 < 10 ^ 4300)%Z) by (apply Z.pow_pos_nonneg; lia).
  assert (G : forall k, (Z.abs k < 2 ^ 1024)%Z -> (k < 10 ^ 4300)%Z).
  { intros k Hk. pose proof pow2_1024_lt as P.
    set (a := (2 ^ 1024)%Z) in *. set (b := (10 ^ 4300)%Z) in *. clearbody a b. lia. }
  destruct x as [|k|f|t]; cbn [parse_time_to_minutes python_value] in *.
  - now injection E as <-.
  - destruct (float_of_int k) as [f|] eqn:F; [|discriminate]. cbn [bind] in E.
    apply G. exact (py_round_bound _ _ (float_of_int_binary64 _ _ F) E).
  - apply G. exact (py_round_bound _ _ V E).
  - destruct (lower U (strip U t)) as [|c s] eqn:Es; [now injection E as <-|].
    destruct (isdigit U (c :: s)) eqn:D; [exact (py_int_lt U _ _ T E)|].
    assert (R : parse_time_to_minutes U (PyStr t) = Ok n).
    { unfold parse_time_to_minutes. rewrite Es, D. exact E. }
    rewrite (time_by_total U t) in R by (rewrite Es; (discriminate || exact D)).
    rewrite Es in R. destruct (time_total U (c :: s)) as [y|] eqn:Y; [|discriminate].
    cbn [bind] in R. apply time_total_binary64 in Y.
    apply G. exact (py_round_bound _ _ Y R).
Qed.

(** C8, amended.  When [parse_time_to_minutes] returns a natural number,
    normalizing the decimal text of that number returns it again: for
    every argument whose float, if it is one, is of binary64, the decimal
    digits of the table having the values 0 to 9.  (The results have then
    at most 4300 digits, so that [str] prints them and [int] reads them
    back.) *)
Theorem C8_stability_nonneg x n :
  decimal_values U -> python_value x ->
  parse_time_to_minutes U x = Ok n -> (0 <= n)%Z ->
  parse_time_to_minutes U (PyStr (py_str_int n)) = Ok n.
Proof.
  intros T V R Hn. pose proof (time_result_lt x n T V R) as B.
  destruct (str_digits n Hn) as [Hne Hds].
  pose proof (normal_form_digits U [] (py_str_int n) [] Hne Hds eq_refl eq_refl) as E.
  rewrite app_nil_r in E. simpl in E.
  rewrite digits_first_time by (rewrite E; now apply isdigit_digits).
  rewrite E, py_int_digits; [now rewrite decimal_value_str|assumption|assumption|].
  apply str_length; [reflexivity|split; assumption].
Qed.

End Stability.

(** ** Rounding *)

Section Rounding.
Variable U : Unicode.

(** Without a range, [parse_servings_to_int] rounds the float of the
    first number of the text. *)
Lemma servings_by_number t :
  lower U (strip U t) <> [] -> isdigit U (lower U (strip U t)) = false ->
  re_search U range_pattern (lower U (strip U t)) = None ->
  parse_servings_to_int U (PyStr t)
  = match first_number U (lower U (strip U t)) with
    | Some g => x <- py_float U g ;; py_round x
    | None => Ok 0%Z
    end.
Proof.
  intros Hne D R. unfold parse_servings_to_int, first_number.
  destruct (lower U (strip U t)) as [|c s]; [congruence|]. rewrite D, R.
  destruct (re_search U number_pattern (c :: s)) as [m|] eqn:N; [|reflexivity].
  apply search_from_In in N as (pv & s' & N).
  destruct (float_of_group_wf U number_pattern 1 pv s' m (sound_number_pattern U)
              ltac:(now left) N) as (x & E & _).
  unfold float_of_group in *. destruct (group 1 m); [reflexivity|discriminate].
Qed.

(** C10.  Every result that [int] does not read from digits comes from
    [round], and [round] takes the nearest integer, the even one of two
    that are as near: for a float and for an [int] argument, for the
    total of every branch of [parse_time_to_minutes] on a text, and for
    the first number of a text in [parse_servings_to_int].  So it is on
    the four inputs of the claim and on ties in every branch. *)
Theorem C10_round_half_to_even :
  parse_time_to_minutes U (PyFloat (float_of_decimal 25 1)) = Ok 2%Z /\
  parse_time_to_minutes U (PyFloat (float_of_decimal 35 1)) = Ok 4%Z /\
  parse_servings_to_int U (PyStr (of_string "2.5")) = Ok 2%Z /\
  parse_servings_to_int U (PyStr (of_string "3.5")) = Ok 4%Z /\
  (forall s m e, exists n,
     nearest_even n (Zpos m) e /\
     parse_time_to_minutes U (PyFloat (S754_finite s m e)) = Ok (cond_Zopp s n) /\
     parse_servings_to_int U (PyFloat (S754_finite s m e)) = Ok (cond_Zopp s n)) /\
  (forall s m e, exists n,
     nearest_even n (Zpos m) e /\ py_round (S754_finite s m e) = Ok (cond_Zopp s n)) /\
  (forall s, py_round (S754_zero s) = Ok 0%Z) /\
  (forall n x, float_of_int n = Ok x ->
     parse_time_to_minutes U (PyInt n) = py_round x /\
     parse_servings_to_int U (PyInt n) = py_round x) /\
  (forall t,
     lower U (strip U t) <> [] -> isdigit U (lower U (strip U t)) = false ->
     parse_time_to_minutes U (PyStr t)
     = (x <- time_total U (lower U (strip U t)) ;; py_round x)) /\
  (forall t,
     lower U (strip U t) <> [] -> isdigit U (lower U (strip U t)) = false ->
     re_search U range_pattern (lower U (strip U t)) = None ->
     parse_servings_to_int U (PyStr t)
     = match first_number U (lower U (strip U t)) with
       | Some g => x <- py_float U g ;; py_round x
       | None => Ok 0%Z
       end) /\
  parse_time_to_minutes U (PyStr (of_string "0:02:30")) = Ok 2%Z /\
  parse_time_to_minutes U (PyStr (of_string "0:03:30")) = Ok 4%Z /\
  parse_time_to_minutes U (PyStr (of_string "PT2.5M")) = Ok 2%Z /\
  parse_time_to_minutes U (PyStr (of_string "PT3.5M")) = Ok 4%Z /\
  parse_time_to_minutes U (PyStr (of_string "2.5 min")) = Ok 2%Z /\
  parse_time_to_minutes U (PyStr (of_string "3.5 min")) = Ok 4%Z /\
  parse_time_to_minutes U (PyStr (of_string "150 sec")) = Ok 2%Z /\
  parse_time_to_minutes U (PyStr (of_string "210 sec")) = Ok 4%Z /\
  parse_time_to_minutes U (PyStr (of_string "2.5")) = Ok 2%Z /\
  parse_time_to_minutes U (PyStr (of_string "3.5")) = Ok 4%Z.
Proof.
  assert (R : forall s m e, exists n,
    nearest_even n (Zpos m) e /\ py_round (S754_finite s m e) = Ok (cond_Zopp s n)).
  { intros s m e. exists (round_half_even (Zpos m) e).
    split; [apply round_half_even_nearest|reflexivity]. }
  repeat match goal with
         | |- (parse_time_to_minutes _ _ = Ok _) /\ _ => split; [vm_compute; reflexivity|]
         | |- (parse_servings_to_int _ _ = Ok _) /\ _ => split; [vm_compute; reflexivity|]
         end.
  split.
  { intros s m e. destruct (R s m e) as (n & N & E). exists n. auto. }
  split; [exact R|]. split; [reflexivity|].
  split.
  { intros n x E. unfold parse_time_to_minutes, parse_servings_to_int. rewrite E. auto. }
  split; [exact (time_by_total U)|]. split; [exact servings_by_number|].
  repeat split; vm_compute; reflexivity.
Qed.

End Rounding.

(** ** The scans of two patterns *)

Section Scans.
Variable U : Unicode.

Lemma rx_nodigit r : nodigit U r -> forall st k m,
  rx U r st k = Some m ->
  exists st' w, k st' = Some m /\ m_rest st = w ++ m_rest st' /\ digit_free U w = true.
Proof.
  induction r as [|c|p|p|a IHa b IHb|a IHa b IHb|n a IHa| | |]; intros Hn st k m H.
  - exists st, []. auto.
  - apply chr_inv in H as (t & E & H). eexists _, [c]. split; [exact H|].
    split; [exact E|]. cbn in Hn |- *. now rewrite Hn.
  - apply cls_inv in H as (x & t & E & Px & H). eexists _, [x]. split; [exact H|].
    split; [exact E|]. cbn [digit_free forallb]. now rewrite (Hn x Px).
  - cbn [rx] in H. apply star_inv in H as (ds & r & pv & E & Hds & H).
    eexists _, ds. split; [exact H|]. split; [exact E|].
    unfold digit_free. apply forallb_forall. intros c Hc.
    rewrite (Hn c); [reflexivity|]. exact (proj1 (forallb_forall _ _) Hds c Hc).
  - destruct Hn as [Ha Hb]. rewrite rx_seq in H.
    destruct (IHa Ha _ _ _ H) as (st1 & w1 & H1 & E1 & D1).
    destruct (IHb Hb _ _ _ H1) as (st2 & w2 & H2 & E2 & D2).
    exists st2, (w1 ++ w2). split; [exact H2|]. split.
    + rewrite E1, E2. apply app_assoc.
    + unfold digit_free in *. now rewrite forallb_app, D1, D2.
  - destruct Hn as [Ha Hb]. apply rx_alt_inv in H as [H|H]; eauto.
  - cbn [rx] in H. destruct (IHa Hn _ _ _ H) as (st1 & w1 & H1 & E1 & D1).
    eexists _, w1. split; [exact H1|]. split; assumption.
  - cbn [rx] in H. destruct (xorb _ _); [|discriminate]. exists st, []. auto.
  - cbn [rx] in H. destruct (m_prev st); [discriminate|]. exists st, []. auto.
  - exists st, []. split; [|auto]. cbn [rx] in H.
    destruct (m_rest st) as [|c [|c' t]]; try discriminate; [exact H|].
    destruct (c =? 10)%N; [exact H|discriminate].
Qed.

(** Unfolding of the scan. *)
Lemma finditer_skip r x : forall y pv,
  finditer_from U r pv (x ++ y) (length x) = finditer_from U r (after pv x) y 0.
Proof.
  induction x as [|c x IH]; intros y pv; [reflexivity|].
  cbn [app length finditer_from]. apply IH.
Qed.

Lemma finditer_step_fail r pv c t :
  match_at U r pv (c :: t) = None ->
  finditer_from U r pv (c :: t) 0 = finditer_from U r (Some c) t 0.
Proof. intros H. cbn [finditer_from]. now rewrite H. Qed.

Lemma finditer_step_match r pv s m x :
  match_at U r pv s = Some m -> s = x ++ m_rest m -> x <> [] ->
  finditer_from U r pv s 0 = m :: finditer_from U r (after pv x) (m_rest m) 0.
Proof.
  intros H E Hx. destruct x as [|c x]; [congruence|]. subst s.
  cbn [app finditer_from] in *. rewrite H. f_equal.
  replace (length (c :: x ++ m_rest m) - length (m_rest m) - 1) with (length x).
  - exact (finditer_skip r x (m_rest m) (Some c)).
  - cbn [length]. rewrite length_app. lia.
Qed.

Lemma match_at_number n K pv s :
  rejects_number U K ->
  match_at U (Seq (number n) K) pv s
  = match number_end U s with
    | Some (pv', r) => rx U K (MS pv' r [(n, firstn (length s - length r) s)]) Some
    | None => None
    end.
Proof. intros R. unfold match_at. now apply number_greedy. Qed.

Lemma number_end_spec s pv r :
  number_end U s = Some (pv, r) -> exists T, s = T ++ r /\ number_shape U T.
Proof.
  unfold number_end. destruct s as [|c t]; [discriminate|].
  destruct (isdecimal U c) eqn:Dc; [|discriminate].
  destruct (skip_run_split (isdecimal U) t (Some c)) as (ds & E & Hds & _).
  destruct (skip_run (isdecimal U) (Some c) t) as [pv1 r1]. cbn [snd] in E.
  assert (Int : Some (pv1, r1) = Some (pv, r) ->
                exists T, c :: t = T ++ r /\ number_shape U T).
  { intros [= <- <-]. exists (c :: ds). split; [now rewrite E|].
    apply shape_int; [discriminate|]. cbn [forallb]. now rewrite Dc. }
  destruct r1 as [|x [|c2 t2]]; try exact Int.
  destruct ((x =? 46)%N && isdecimal U c2) eqn:B; [|exact Int].
  apply andb_prop in B as [Ex Dc2]. apply N.eqb_eq in Ex. subst x.
  intros [= H].
  destruct (skip_run_split (isdecimal U) t2 (Some c2)) as (ds2 & E2 & Hds2 & _).
  rewrite H in E2. cbn [snd] in E2.
  exists ((c :: ds) ++ 46%N :: c2 :: ds2). split.
  - rewrite E, E2, <- app_assoc. reflexivity.
  - apply shape_frac; try discriminate; cbn [forallb]; [now rewrite Dc|now rewrite Dc2].
Qed.

Lemma number_end_none s :
  match s with c :: _ => isdecimal U c = false | [] => True end ->
  number_end U s = None.
Proof. destruct s as [|c t]; [reflexivity|]. cbn [number_end]. now intros ->. Qed.

Lemma number_end_digits d r :
  d <> [] -> forallb (isdecimal U) d = true -> not_number_led U r ->
  exists pv, number_end U (d ++ r) = Some (pv, r).
Proof.
  intros Hne Hd Hr. destruct d as [|c ds]; [congruence|].
  cbn [forallb] in Hd. apply andb_prop in Hd as [Hc Hds].
  cbn [app number_end]. rewrite Hc.
  rewrite skip_run_app; [|exact Hds|destruct r; [exact I|exact (proj1 Hr)]].
  destruct r as [|x [|c2 t2]]; eauto.
  destruct Hr as [_ Hx]. apply N.eqb_neq in Hx. rewrite Hx. cbn [andb]. eauto.
Qed.

Lemma number_end_frac d1 d2 r :
  d1 <> [] -> forallb (isdecimal U) d1 = true ->
  d2 <> [] -> forallb (isdecimal U) d2 = true ->
  match r with c :: _ => isdecimal U c = false | [] => True end ->
  exists pv, number_end U (d1 ++ 46%N :: d2 ++ r) = Some (pv, r).
Proof.
  intros Hne1 Hd1 Hne2 Hd2 Hr. destruct d1 as [|c ds]; [congruence|].
  cbn [forallb] in Hd1. apply andb_prop in Hd1 as [Hc Hds].
  destruct d2 as [|c2 ds2]; [congruence|].
  cbn [forallb] in Hd2. apply andb_prop in Hd2 as [Hc2 Hds2].
  cbn [app number_end]. rewrite Hc.
  rewrite skip_run_app; [|exact Hds|reflexivity].
  rewrite N.eqb_refl, Hc2. cbn [andb].
  rewrite skip_run_app; [|exact Hds2|exact Hr]. eauto.
Qed.

Section FailedToken.
Variable K : regex.
Hypothesis K_rejects : rejects_number U K.
Variable r : text.
Hypothesis r_led : not_number_led U r.
Hypothesis K_fails : forall pv caps, rx U K (MS pv r caps) Some = None.

(** Inside a number after which [K] fails, the scan finds nothing. *)
Lemma scan_digits d : forall pv,
  forallb (isdecimal U) d = true ->
  exists pv',
    finditer_from U (Seq (number 1) K) pv (d ++ r) 0
    = finditer_from U (Seq (number 1) K) pv' r 0.
Proof.
  induction d as [|c d IH]; intros pv Hd; [now exists pv|].
  assert (Hd' := Hd). cbn [forallb] in Hd. apply andb_prop in Hd as [Hc Hds].
  destruct (number_end_digits (c :: d) r ltac:(discriminate) Hd' r_led) as [pv1 E].
  change ((c :: d) ++ r) with (c :: d ++ r) in *.
  rewrite finditer_step_fail.
  - apply IH. exact Hds.
  - rewrite match_at_number by exact K_rejects. rewrite E. apply K_fails.
Qed.

Lemma scan_frac d1 : forall d2 pv,
  forallb (isdecimal U) d1 = true ->
  d2 <> [] -> forallb (isdecimal U) d2 = true ->
  exists pv',
    finditer_from U (Seq (number 1) K) pv (d1 ++ 46%N :: d2 ++ r) 0
    = finditer_from U (Seq (number 1) K) pv' r 0.
Proof.
  induction d1 as [|c d IH]; intros d2 pv Hd1 Hne2 Hd2.
  - cbn [app]. rewrite finditer_step_fail.
    + now apply scan_digits.
    + rewrite match_at_number by exact K_rejects.
      now rewrite number_end_none.
  - assert (Hd' := Hd1). cbn [forallb] in Hd1. apply andb_prop in Hd1 as [Hc Hds].
    destruct (number_end_frac (c :: d) d2 r ltac:(discriminate) Hd' Hne2 Hd2) as [pv1 E].
    { destruct r; [exact I|exact (proj1 r_led)]. }
    change ((c :: d) ++ 46%N :: d2 ++ r) with (c :: d ++ 46%N :: d2 ++ r) in *.
    rewrite finditer_step_fail.
    + now apply IH.
    + rewrite match_at_number by exact K_rejects. rewrite E. apply K_fails.
Qed.

Lemma scan_number T pv :
  number_shape U T ->
  exists pv',
    finditer_from U (Seq (number 1) K) pv (T ++ r) 0
    = finditer_from U (Seq (number 1) K) pv' r 0.
Proof.
  intros [d Hne Hd|d1 d2 Hne1 Hd1 Hne2 Hd2].
  - now apply scan_digits.
  - rewrite <- app_assoc. now apply scan_frac.
Qed.

End FailedToken.

(** Over a text without digits the scan of a number pattern finds nothing. *)
Lemma scan_digit_free K w : forall r pv,
  rejects_number U K -> digit_free U w = true ->
  exists pv', finditer_from U (Seq (number 1) K) pv (w ++ r) 0
              = finditer_from U (Seq (number 1) K) pv' r 0.
Proof.
  induction w as [|c w IH]; intros r pv R Hw; [now exists pv|].
  cbn [digit_free forallb] in Hw. apply andb_prop in Hw as [Hc Hw].
  apply negb_true_iff in Hc.
  cbn [app]. rewrite finditer_step_fail.
  - now apply IH.
  - rewrite match_at_number by exact R. now rewrite number_end_none.
Qed.

(** The first match of a number pattern does not depend on the character
    before the text. *)
Lemma finditer_prev K pv pv' s :
  rejects_number U K ->
  finditer_from U (Seq (number 1) K) pv s 0 = finditer_from U (Seq (number 1) K) pv' s 0.
Proof.
  intros R. destruct s as [|c t]; cbn [finditer_from];
    rewrite !(match_at_number 1 K) by exact R; reflexivity.
Qed.

Section TwoScans.
Variables Kb Ks : regex.
Hypothesis Kb_rejects : rejects_number U Kb.
Hypothesis Ks_rejects : rejects_number U Ks.
Hypothesis Kb_nodigit : nodigit U Kb.
Hypothesis Ks_nodigit : nodigit U Ks.
Hypothesis Ks_stable : fail_stable U Ks.
Hypothesis Ks_Kb : forall pv r caps m,
  rx U Ks (MS pv r caps) Some = Some m -> rx U Kb (MS pv r caps) Some = Some m.

Lemma not_led_of_match K pv r caps m :
  rejects_number U K -> rx U K (MS pv r caps) Some = Some m -> not_number_led U r.
Proof.
  intros R H. destruct r as [|c t]; [exact I|]. cbn [not_number_led].
  destruct (isdecimal U c) eqn:Dc.
  - rewrite R in H by now left. discriminate.
  - split; [reflexivity|]. intros ->. rewrite R in H by now right. discriminate.
Qed.

(** Every number the scan of the small pattern reports is reported by the
    scan of the large one. *)
Lemma scans_included n : forall s pv pv',
  length s <= n ->
  incl (map (group 1) (finditer_from U (Seq (number 1) Ks) pv s 0))
       (map (group 1) (finditer_from U (Seq (number 1) Kb) pv' s 0)).
Proof.
  induction n as [|n IH]; intros s pv pv' L.
  { destruct s; [|cbn in L; lia]. cbn [finditer_from].
    rewrite !match_at_number by assumption. cbn [number_end map]. apply incl_refl. }
  destruct s as [|c t].
  { cbn [finditer_from]. rewrite !match_at_number by assumption. apply incl_refl. }
  cbn [length] in L.
  pose proof (match_at_number 1 Ks pv (c :: t) Ks_rejects) as Ms.
  pose proof (match_at_number 1 Kb pv' (c :: t) Kb_rejects) as Mb.
  destruct (number_end U (c :: t)) as [[pv1 r]|] eqn:E.
  2:{ rewrite !finditer_step_fail by assumption. apply IH. lia. }
  destruct (number_end_spec _ _ _ E) as (T & ET & ST).
  assert (NT : T <> []) by (destruct ST as [d ?|[|] ? ? ?]; [assumption|congruence|discriminate]).
  set (caps := [(1, firstn (length (c :: t) - length r) (c :: t))]) in *.
  destruct (rx U Ks (MS pv1 r caps) Some) as [ms|] eqn:Rs.
  - (* both patterns match, at the same place *)
    pose proof (Ks_Kb _ _ _ _ Rs) as Rb. rewrite Rb in Mb.
    destruct (rx_nodigit Ks Ks_nodigit _ _ _ Rs) as (st' & w & [= ->] & Ew & _).
    cbn [m_rest] in Ew.
    assert (Es : c :: t = (T ++ w) ++ m_rest ms) by (rewrite ET, Ew; apply app_assoc).
    assert (Nx : T ++ w <> []) by (destruct T; [congruence|discriminate]).
    rewrite (finditer_step_match _ _ _ _ _ Ms Es Nx).
    rewrite (finditer_step_match _ _ _ _ _ Mb Es Nx).
    cbn [map]. apply incl_cons; [now left|]. apply incl_tl.
    rewrite (finditer_prev Kb _ pv') by assumption.
    apply IH. apply (f_equal (@length _)) in Es. cbn [length] in Es.
    rewrite length_app in Es.
    assert (0 < length (T ++ w)) by (destruct (T ++ w); [congruence|cbn; lia]). lia.
  - destruct (rx U Kb (MS pv1 r caps) Some) as [mb|] eqn:Rb.
    + (* the large pattern alone matches *)
      destruct (rx_nodigit Kb Kb_nodigit _ _ _ Rb) as (st' & w & [= ->] & Ew & Dw).
      cbn [m_rest] in Ew.
      assert (Es : c :: t = (T ++ w) ++ m_rest mb) by (rewrite ET, Ew; apply app_assoc).
      assert (Nx : T ++ w <> []) by (destruct T; [congruence|discriminate]).
      rewrite (finditer_step_match _ _ _ _ _ Mb Es Nx).
      assert (Led : not_number_led U r) by exact (not_led_of_match Kb _ _ _ _ Kb_rejects Rb).
      assert (Fail : forall pv0 caps0, rx U Ks (MS pv0 r caps0) Some = None).
      { intros pv0 caps0. exact (Ks_stable _ _ _ _ _ Rs). }
      rewrite ET.
      destruct (scan_number Ks Ks_rejects r Led Fail T pv ST) as [pv2 ->].
      rewrite Ew.
      destruct (scan_digit_free Ks w (m_rest mb) pv2 Ks_rejects Dw) as [pv3 ->].
      cbn [map]. apply incl_tl.
      rewrite (finditer_prev Kb _ pv') by assumption.
      apply IH. apply (f_equal (@length _)) in Es. cbn [length] in Es.
      rewrite length_app in Es.
      assert (0 < length (T ++ w)) by (destruct (T ++ w); [congruence|cbn; lia]). lia.
    + (* neither matches *)
      rewrite !finditer_step_fail by assumption. apply IH. lia.
Qed.

End TwoScans.

End Scans.

(** ** The unit words and the compact patterns *)

Section Tails.
Variable U : Unicode.

Lemma hour_pattern_eq : hour_pattern = Seq (number 1) hour_tail.
Proof. reflexivity. Qed.
Lemma minute_pattern_eq : minute_pattern = Seq (number 1) minute_tail.
Proof. reflexivity. Qed.
Lemma compact_h_pattern_eq : compact_h_pattern = Seq (number 1) compact_h_tail.
Proof. reflexivity. Qed.
Lemma compact_m_pattern_eq : compact_m_pattern = Seq (number 1) compact_m_tail.
Proof. reflexivity. Qed.

Lemma number_led_facts c x :
  isdecimal U c = true \/ c = 46%N ->
  isdecimal U x = false -> x <> 46%N ->
  (c =? x)%N = false.
Proof.
  intros [Dc| ->] Dx Nx; apply N.eqb_neq; [intros ->; congruence|congruence].
Qed.

Lemma number_led_not_space c :
  isdecimal U c = true \/ c = 46%N -> isspace U c = false.
Proof. intros [Dc| ->]; [now apply decimal_not_space|reflexivity]. Qed.

Lemma rejects_chr x :
  isdecimal U x = false -> x <> 46%N -> rejects_number U (Chr x).
Proof.
  intros Dx Nx pv c t caps k Hc. cbn [rx m_rest].
  now rewrite (number_led_facts c x Hc Dx Nx).
Qed.

Lemma rejects_seq a b : rejects_number U a -> rejects_number U (Seq a b).
Proof. intros Ha pv c t caps k Hc. rewrite rx_seq. now apply Ha. Qed.

Lemma rejects_alt a b :
  rejects_number U a -> rejects_number U b -> rejects_number U (Alt a b).
Proof. intros Ha Hb pv c t caps k Hc. cbn [rx]. rewrite Ha by assumption. now apply Hb. Qed.

Lemma rejects_spaces b : rejects_number U b -> rejects_number U (Seq (Star CSpace) b).
Proof.
  intros Hb pv c t caps k Hc. rewrite rx_seq. cbn [rx star m_rest m_prev m_caps in_cls].
  rewrite (number_led_not_space c Hc). now apply Hb.
Qed.

Ltac rejects :=
  cbv [hour_tail minute_tail compact_h_tail compact_m_tail Opt lit lit_text of_string
       list_ascii_of_string map];
  repeat first [ apply rejects_spaces | apply rejects_alt | apply rejects_seq
               | apply rejects_chr; [reflexivity|discriminate] ].

Lemma hour_tail_rejects : rejects_number U hour_tail.
Proof. rejects. Qed.
Lemma minute_tail_rejects : rejects_number U minute_tail.
Proof. rejects. Qed.
Lemma compact_h_tail_rejects : rejects_number U compact_h_tail.
Proof. rejects. Qed.
Lemma compact_m_tail_rejects : rejects_number U compact_m_tail.
Proof. rejects. Qed.

Lemma space_not_decimal c : in_cls U CSpace c = true -> isdecimal U c = false.
Proof. cbn [in_cls]. unfold isspace, isdecimal. now destruct (class_of U c). Qed.

Ltac nodigits :=
  cbv [hour_tail minute_tail compact_h_tail compact_m_tail Opt lit lit_text of_string
       list_ascii_of_string map nodigit];
  repeat split; try reflexivity; exact space_not_decimal.

Lemma hour_tail_nodigit : nodigit U hour_tail.
Proof. nodigits. Qed.
Lemma minute_tail_nodigit : nodigit U minute_tail.
Proof. nodigits. Qed.
Lemma compact_h_tail_nodigit : nodigit U compact_h_tail.
Proof. nodigits. Qed.
Lemma compact_m_tail_nodigit : nodigit U compact_m_tail.
Proof. nodigits. Qed.

Lemma compact_h_tail_stable : fail_stable U compact_h_tail.
Proof.
  intros pv pv' r caps caps'. unfold compact_h_tail.
  cbn [rx m_rest m_prev m_caps]. destruct r as [|x t]; [reflexivity|].
  destruct (x =? 104)%N; [|reflexivity].
  unfold word_before, word_after. cbn [m_rest m_prev].
  destruct (xorb _ _); [discriminate|reflexivity].
Qed.

Lemma compact_m_tail_stable : fail_stable U compact_m_tail.
Proof.
  intros pv pv' r caps caps'. unfold compact_m_tail.
  cbn [rx m_rest m_prev m_caps]. destruct r as [|x t]; [reflexivity|].
  destruct (x =? 109)%N; [|reflexivity].
  unfold word_before, word_after. cbn [m_rest m_prev].
  destruct (xorb _ _); [discriminate|reflexivity].
Qed.

Lemma not_word x c : isword U x = false -> isword U c = true -> (x =? c)%N = false.
Proof. intros Hx Hc. apply N.eqb_neq. intros ->. congruence. Qed.

Lemma compact_h_is_hour pv r caps m :
  rx U compact_h_tail (MS pv r caps) Some = Some m ->
  rx U hour_tail (MS pv r caps) Some = Some m.
Proof.
  unfold compact_h_tail. rewrite rx_seq. intros H.
  apply chr_inv in H as (t & E & H). cbn [m_rest m_caps] in E, H. subst r.
  cbn [rx m_prev m_rest m_caps] in H. unfold word_before, word_after in H.
  cbn [m_prev m_rest] in H.
  replace (isword U 104%N) with true in H by reflexivity.
  cbv [hour_tail Opt lit lit_text of_string list_ascii_of_string map].
  cbn [rx star m_rest m_prev m_caps in_cls N_of_ascii].
  replace (isspace U 104%N) with false by reflexivity.
  cbn. unfold word_before, word_after. cbn [m_prev m_rest].
  destruct t as [|x t'].
  - exact H.
  - destruct (isword U x) eqn:Wx; [discriminate H|].
    rewrite (not_word x 111%N Wx eq_refl), (not_word x 114%N Wx eq_refl).
    exact H.
Qed.

Lemma compact_m_is_minute pv r caps m :
  rx U compact_m_tail (MS pv r caps) Some = Some m ->
  rx U minute_tail (MS pv r caps) Some = Some m.
Proof.
  unfold compact_m_tail. rewrite rx_seq. intros H.
  apply chr_inv in H as (t & E & H). cbn [m_rest m_caps] in E, H. subst r.
  cbn [rx m_prev m_rest m_caps] in H. unfold word_before, word_after in H.
  cbn [m_prev m_rest] in H.
  replace (isword U 109%N) with true in H by reflexivity.
  cbv [minute_tail Opt lit lit_text of_string list_ascii_of_string map].
  cbn [rx star m_rest m_prev m_caps in_cls N_of_ascii].
  replace (isspace U 109%N) with false by reflexivity.
  cbn. unfold word_before, word_after. cbn [m_prev m_rest].
  destruct t as [|x t'].
  - exact H.
  - destruct (isword U x) eqn:Wx; [discriminate H|].
    rewrite (not_word x 105%N Wx eq_refl).
    exact H.
Qed.

End Tails.

(** ** The compact stage *)

Section Compact.
Variable U : Unicode.

Lemma hour_term_wf s m :
  In m (finditer U hour_pattern s) ->
  exists v, (x <- float_of_group U 1 m ;; Ok (fmul x f60)) = Ok v /\ wf v.
Proof.
  intros Hm. apply finditer_In in Hm as (pv & s' & Hm).
  destruct (float_of_group_wf U hour_pattern 1 pv s' m (sound_hour U)) as (x & -> & Wx);
    [now left|assumption|].
  cbn [bind]. eexists. split; [reflexivity|now apply fmul_60_wf].
Qed.

Lemma minute_term_wf s m :
  In m (finditer U minute_pattern s) -> exists v, float_of_group U 1 m = Ok v /\ wf v.
Proof.
  intros Hm. apply finditer_In in Hm as (pv & s' & Hm).
  apply (float_of_group_wf U minute_pattern 1 pv s' m (sound_minute U)); [now left|assumption].
Qed.

Lemma second_term_wf s m :
  In m (finditer U second_pattern s) ->
  exists v, (x <- float_of_group U 1 m ;; Ok (fdiv x f60)) = Ok v /\ wf v.
Proof.
  intros Hm. apply finditer_In in Hm as (pv & s' & Hm).
  destruct (float_of_group_wf U second_pattern 1 pv s' m (sound_second U)) as (x & -> & Wx);
    [now left|assumption|].
  cbn [bind]. eexists. split; [reflexivity|now apply fdiv_60_wf].
Qed.

(** When the unit words add up to zero, every hour and minute they found
    counted for zero. *)
Lemma unit_words_zero s total :
  unit_words U s = Ok total -> is_zero total = true ->
  total = f0 /\
  (forall m, In m (finditer U hour_pattern s) ->
             (x <- float_of_group U 1 m ;; Ok (fmul x f60)) = Ok f0) /\
  (forall m, In m (finditer U minute_pattern s) -> float_of_group U 1 m = Ok f0).
Proof.
  unfold unit_words. intros H Z.
  destruct (accumulate_wf _ _ f0 (hour_term_wf s) eq_refl) as (t1 & E1 & W1).
  rewrite E1 in H. cbn [bind] in H.
  destruct (accumulate_wf (fun m => float_of_group U 1 m) _ t1 (minute_term_wf s) W1)
    as (t2 & E2 & W2).
  rewrite E2 in H. cbn [bind] in H.
  destruct (accumulate_zero _ _ _ _ (second_term_wf s) W2 H Z) as [-> _].
  destruct (accumulate_zero _ _ t1 f0 (minute_term_wf s) W1 E2 eq_refl) as [-> Zm].
  destruct (accumulate_zero _ _ f0 f0 (hour_term_wf s) eq_refl E1 eq_refl) as [_ Zh].
  destruct (accumulate_wf _ _ f0 (second_term_wf s) eq_refl) as (t3 & E3 & W3).
  rewrite E3 in H. injection H as <-.
  split; [now apply wf_zero|]. split; assumption.
Qed.

Lemma group_of_scan r s m :
  sound U (numbers U) r -> In 1 (sure r) -> In m (finditer U r s) ->
  group 1 m = Some (group_or_empty 1 m).
Proof.
  intros Hs Hi Hm. apply finditer_In in Hm as (pv & s' & Hm).
  destruct (match_at_captures U _ r pv s' m Hs Hm) as [_ S].
  destruct (S 1 Hi) as (T & G & _). unfold group_or_empty. now rewrite G.
Qed.

(** The numbers of the compact hours are numbers of the hour words, and
    likewise for the minutes. *)
Lemma compact_h_in_hours s T :
  In T (findall1 U compact_h_pattern s) ->
  exists m, In m (finditer U hour_pattern s) /\ group 1 m = Some T.
Proof.
  unfold findall1. intros H. apply in_map_iff in H as (mc & <- & Hmc).
  pose proof (group_of_scan _ _ _ (sound_compact_h U) ltac:(now left) Hmc) as G.
  pose proof (scans_included U hour_tail compact_h_tail
                (hour_tail_rejects U) (compact_h_tail_rejects U)
                (hour_tail_nodigit U) (compact_h_tail_nodigit U)
                (compact_h_tail_stable U) (compact_h_is_hour U)
                (length s) s None None (le_n _)) as I.
  specialize (I (group 1 mc) (in_map (group 1) _ mc Hmc)).
  apply in_map_iff in I as (mh & Gh & Hmh).
  exists mh. split; [exact Hmh|]. now rewrite Gh.
Qed.

Lemma compact_m_in_minutes s T :
  In T (findall1 U compact_m_pattern s) ->
  exists m, In m (finditer U minute_pattern s) /\ group 1 m = Some T.
Proof.
  unfold findall1. intros H. apply in_map_iff in H as (mc & <- & Hmc).
  pose proof (group_of_scan _ _ _ (sound_compact_m U) ltac:(now left) Hmc) as G.
  pose proof (scans_included U minute_tail compact_m_tail
                (minute_tail_rejects U) (compact_m_tail_rejects U)
                (minute_tail_nodigit U) (compact_m_tail_nodigit U)
                (compact_m_tail_stable U) (compact_m_is_minute U)
                (length s) s None None (le_n _)) as I.
  specialize (I (group 1 mc) (in_map (group 1) _ mc Hmc)).
  apply in_map_iff in I as (mh & Gh & Hmh).
  exists mh. split; [exact Hmh|]. now rewrite Gh.
Qed.

(** On a text whose unit words add up to zero, the compact hours and the
    compact minutes add nothing: the stage is the combined pattern alone,
    and the three loops give what the alternatives give. *)
Lemma compact_stage s total :
  unit_words U s = Ok total -> is_zero total = true ->
  compact U s total = compact_alternatives U s total.
Proof.
  intros H Z. destruct (unit_words_zero s total H Z) as (-> & Zh & Zm).
  assert (Ch : forall T, In T (findall1 U compact_h_pattern s) ->
                         (x <- py_float U T ;; Ok (fmul x f60)) = Ok f0).
  { intros T HT. destruct (compact_h_in_hours s T HT) as (m & Hm & G).
    specialize (Zh m Hm). unfold float_of_group in Zh. now rewrite G in Zh. }
  assert (Cm : forall T, In T (findall1 U compact_m_pattern s) -> py_float U T = Ok f0).
  { intros T HT. destruct (compact_m_in_minutes s T HT) as (m & Hm & G).
    specialize (Zm m Hm). unfold float_of_group in Zm. now rewrite G in Zm. }
  unfold compact, compact_alternatives.
  destruct (accumulate_wf _ _ f0 (compact_hm_term_wf U s) eq_refl) as (t1 & E1 & W1).
  rewrite E1. cbn [bind].
  rewrite (accumulate_zeros _ _ t1 Ch W1). cbn [bind].
  rewrite (accumulate_zeros (fun mm => py_float U mm) _ t1 Cm W1).
  destruct (findall2 U compact_hm_pattern s) as [|hm hms] eqn:Ehm.
  - cbn [accumulate] in E1. injection E1 as <-.
    destruct (findall1 U compact_h_pattern s) as [|h hs] eqn:Eh.
    + symmetry. apply (accumulate_zeros (fun mm => py_float U mm)); [exact Cm|reflexivity].
    + symmetry. exact (accumulate_zeros _ (h :: hs) f0 Ch eq_refl).
  - symmetry. exact E1.
Qed.

(** C4.  The compact stage runs only on a unit-word total of zero: on any
    other total the result is that total, rounded.  And where the stage
    runs its three patterns behave as alternatives: the function is equal
    to the one that tries the combined pattern, else the hours, else the
    minutes. *)
Theorem C4_compact_alternatives :
  (forall x, parse_time_to_minutes U x = parse_time_alternatives U x) /\
  (forall t total,
     let s := lower U (strip U t) in
     let s' := replace 8212 45 (replace 8211 45 (replace 44 32 s)) in
     s <> [] -> isdigit U s = false ->
     re_fullmatch U colon_pattern s = None -> re_match U iso_pattern s' = None ->
     unit_words U s' = Ok total -> is_zero total = false ->
     parse_time_to_minutes U (PyStr t) = py_round total).
Proof.
  split.
  - intros x. destruct x as [|n|f|t]; try reflexivity.
    unfold parse_time_to_minutes, parse_time_alternatives.
    destruct (lower U (strip U t)) as [|c s]; [reflexivity|].
    destruct (isdigit U (c :: s)); [reflexivity|].
    destruct (re_fullmatch U colon_pattern (c :: s)); [reflexivity|].
    cbv zeta.
    destruct (re_match U iso_pattern _); [reflexivity|].
    destruct (unit_words U _) as [total|e] eqn:E; [|reflexivity].
    cbn [bind]. destruct (is_zero total) eqn:Z; [|reflexivity].
    now rewrite (compact_stage _ _ E Z).
  - intros t total s s' Ne D C I W Z. subst s s'. unfold parse_time_to_minutes.
    destruct (lower U (strip U t)) as [|c s]; [congruence|].
    rewrite D, C. cbv zeta. rewrite I, W. cbn [bind]. rewrite Z. cbn [bind].
    unfold bare_number. now rewrite Z.
Qed.

End Compact.

(** ** Texts without digits *)

Section NoDigits.
Variable U : Unicode.

Lemma no_digit_free w : no_digit U w = true -> digit_free U w = true.
Proof.
  unfold no_digit, digit_free. intros H. apply forallb_forall. intros c Hc.
  pose proof (proj1 (forallb_forall _ _) H c Hc) as N. cbn beta in N.
  apply negb_true_iff in N. apply negb_true_iff.
  destruct (isdecimal U c) eqn:D; [|reflexivity]. now rewrite (decimal_isdigit U c D) in N.
Qed.

Lemma digit_free_replace a b w :
  isdecimal U b = false -> digit_free U w = true -> digit_free U (replace a b w) = true.
Proof.
  intros Hb. unfold digit_free, replace. induction w as [|c w IH]; [reflexivity|].
  cbn [forallb map]. intros H. apply andb_prop in H as [Hc Hw].
  rewrite (IH Hw), andb_true_r. destruct (c =? a)%N; [now rewrite Hb|exact Hc].
Qed.

Lemma digit_free_head c w : digit_free U (c :: w) = true -> isdecimal U c = false.
Proof.
  unfold digit_free. cbn [forallb]. intros H. apply andb_prop in H as [Hc _].
  now apply negb_true_iff.
Qed.

Lemma digit_free_tail c w : digit_free U (c :: w) = true -> digit_free U w = true.
Proof. unfold digit_free. cbn [forallb]. intros H. now apply andb_prop in H as [_ Hw]. Qed.

Lemma number_starts n : starts_with_digit U (number n).
Proof.
  intros pv s caps k H. unfold number, Plus. cbn [rx m_rest in_cls].
  destruct s as [|c t]; [reflexivity|]. now rewrite H.
Qed.

Lemma plus_group_starts n : starts_with_digit U (Grp n (Plus CDigit)).
Proof.
  intros pv s caps k H. unfold Plus. cbn [rx m_rest in_cls].
  destruct s as [|c t]; [reflexivity|]. now rewrite H.
Qed.

Lemma seq_starts a b : starts_with_digit U a -> starts_with_digit U (Seq a b).
Proof. intros Ha pv s caps k H. rewrite rx_seq. now apply Ha. Qed.

Lemma search_digit_free r w : forall pv,
  starts_with_digit U r -> digit_free U w = true -> search_from U r pv w = None.
Proof.
  induction w as [|c w IH]; intros pv Hr Hw; cbn [search_from]; unfold match_at.
  - now rewrite Hr.
  - rewrite Hr by exact (digit_free_head c w Hw). apply IH; [assumption|].
    now apply digit_free_tail in Hw.
Qed.

Lemma finditer_digit_free r w : forall pv skip,
  starts_with_digit U r -> digit_free U w = true -> finditer_from U r pv w skip = [].
Proof.
  induction w as [|c w IH]; intros pv skip Hr Hw.
  - destruct skip; cbn [finditer_from]; [|reflexivity].
    unfold match_at. now rewrite Hr.
  - pose proof (digit_free_tail c w Hw) as Hw'.
    destruct skip; cbn [finditer_from]; [|now apply IH].
    unfold match_at. rewrite Hr by exact (digit_free_head c w Hw). now apply IH.
Qed.

Lemma head_not_decimal w :
  digit_free U w = true -> match w with c :: _ => isdecimal U c = false | [] => True end.
Proof. destruct w as [|c w]; [easy|]. apply digit_free_head. Qed.

Lemma iso_pattern_eq :
  iso_pattern
  = Seq Bos (Seq (Seq (Chr 112) (Chr 116))
      (Seq (Opt (Seq (number 1) (Chr 104)))
         (Seq (Opt (Seq (number 2) (Chr 109)))
            (Seq (Opt (Seq (number 3) (Chr 115))) Eos)))).
Proof. reflexivity. Qed.

Lemma opt_last_digit_free n x pv w caps k m :
  digit_free U w = true ->
  rx U (Opt (Seq (number n) (Chr x))) (MS pv w caps) k = Some m ->
  k (MS pv w caps) = Some m.
Proof.
  intros Hw H. unfold Opt in H. apply rx_alt_inv in H as [H|H].
  - rewrite (seq_starts _ _ (number_starts n)) in H by now apply head_not_decimal.
    discriminate.
  - exact H.
Qed.

(** On a text without digits the ISO pattern captures nothing. *)
Lemma iso_digit_free w m :
  digit_free U w = true -> re_match U iso_pattern w = Some m -> m_caps m = [].
Proof.
  intros Hw. unfold re_match, match_at. rewrite iso_pattern_eq.
  rewrite rx_seq. change (rx U Bos (MS None w []) ?k) with (k (MS None w [])).
  cbv beta. rewrite !rx_seq. intros H.
  apply chr_inv in H as (t1 & E1 & H). cbn [m_rest m_caps] in E1, H. subst w.
  apply chr_inv in H as (t2 & E2 & H). cbn [m_rest m_caps] in E2, H. subst t1.
  apply digit_free_tail, digit_free_tail in Hw.
  apply opt_last_digit_free in H; [|exact Hw].
  apply opt_last_digit_free in H; [|exact Hw].
  apply opt_last_digit_free in H; [|exact Hw].
  cbn [rx m_rest] in H.
  destruct t2 as [|c [|c' t]]; try discriminate.
  - now injection H as <-.
  - destruct (c =? 10)%N; [now injection H as <-|discriminate].
Qed.

Lemma iso_minutes_no_groups m : m_caps m = [] -> iso_minutes U m = Ok 0%Z.
Proof.
  intros H. unfold iso_minutes, float_of_group_or_zero, group. rewrite H. reflexivity.
Qed.

(** A clock text starts with a digit. *)
Lemma clock_starts_digit w parts :
  clock_shape U w parts ->
  match w with x :: _ => isdecimal U x = true | [] => False end.
Proof.
  intros P.
  destruct P as [h mi [Nh Hh] _ _|h mi sec [Nh Hh] _ _ _ _];
    (destruct h as [|x h]; [congruence|]);
    cbn [app forallb] in *; now apply andb_prop in Hh as [Hx _].
Qed.

(** A text without digits: there is nothing to parse and both
    normalizers return 0. *)
Lemma no_digit_time t :
  no_digit U (lower U (strip U t)) = true ->
  parse_time_to_minutes U (PyStr t) = Ok 0%Z.
Proof.
  intros H. unfold parse_time_to_minutes.
  destruct (lower U (strip U t)) as [|c s] eqn:Es; [reflexivity|].
  assert (D : isdigit U (c :: s) = false).
  { unfold isdigit. cbn [forallb]. unfold no_digit in H. cbn [forallb] in H.
    apply andb_prop in H as [Hc _]. apply negb_true_iff in Hc. now rewrite Hc. }
  rewrite D. pose proof (no_digit_free _ H) as F.
  destruct (re_fullmatch U colon_pattern (c :: s)) as [m|] eqn:C.
  { exfalso. destruct (colon_inv U _ _ C) as [parts P].
    pose proof (clock_starts_digit _ _ P) as Dc. cbn beta iota in Dc.
    now rewrite (digit_free_head c s F) in Dc. }
  set (s' := replace 8212 45 (replace 8211 45 (replace 44 32 (c :: s)))).
  assert (F' : digit_free U s' = true).
  { unfold s'. repeat apply digit_free_replace; try reflexivity. exact F. }
  destruct (re_match U iso_pattern s') as [m|] eqn:I.
  { apply iso_minutes_no_groups. exact (iso_digit_free s' m F' I). }
  unfold unit_words, finditer.
  rewrite !finditer_digit_free;
    try exact F'; try (apply seq_starts; apply number_starts).
  cbn [accumulate bind]. replace (is_zero f0) with true by reflexivity.
  unfold compact, findall1, findall2, finditer.
  rewrite !finditer_digit_free;
    try exact F'; try (apply seq_starts; apply number_starts).
  cbn [map accumulate bind].
  unfold bare_number. replace (is_zero f0) with true by reflexivity.
  unfold re_search. rewrite search_digit_free; [reflexivity|apply number_starts|exact F'].
Qed.

Lemma no_digit_servings t :
  no_digit U (lower U (strip U t)) = true ->
  parse_servings_to_int U (PyStr t) = Ok 0%Z.
Proof.
  intros H. unfold parse_servings_to_int.
  destruct (lower U (strip U t)) as [|c s] eqn:Es; [reflexivity|].
  assert (D : isdigit U (c :: s) = false).
  { unfold isdigit. cbn [forallb]. unfold no_digit in H. cbn [forallb] in H.
    apply andb_prop in H as [Hc _]. apply negb_true_iff in Hc. now rewrite Hc. }
  rewrite D. pose proof (no_digit_free _ H) as F.
  unfold re_search.
  rewrite search_digit_free;
    [|unfold range_pattern; apply seq_starts; apply plus_group_starts|exact F].
  rewrite search_digit_free; [reflexivity|apply number_starts|exact F].
Qed.

End NoDigits.

(** ** Totality *)

Section Totality.
Variable U : Unicode.

Lemma float_of_int_finite n x : float_of_int n = Ok x -> x <> S754_infinity false.
Proof.
  unfold float_of_int. destruct (nearest_float n); intros [= <-]; discriminate.
Qed.

Lemma float_of_int_raises n :
  float_of_int n = Raise OverflowError -> (2 ^ 1023 <= Z.abs n)%Z.
Proof.
  intros E. destruct (Z.lt_ge_cases (Z.abs n) (2 ^ 1023)) as [L|G]; [exfalso|exact G].
  pose proof (nearest_float_finite n L) as F. unfold float_of_int in E.
  destruct (nearest_float n); try discriminate. exact F.
Qed.

Lemma float_of_int_overflow n :
  (2 ^ 1024 <= n)%Z -> float_of_int n = Raise OverflowError.
Proof. intros H. unfold float_of_int. now rewrite nearest_float_overflow. Qed.

(** C1, amended.  Both normalizers return a natural number for [None],
    for every float that is finite and not negative, and for every [int]
    from [0] below [2^1023]; an [int] from [2^1024] has no float and
    raises [OverflowError], and an [int] that a float holds exactly comes
    out as it is, also when negative.  On a text they return a natural
    number, unless the total is infinite or an [int] of the clock branch
    has no float ([OverflowError]), or [int] refuses the digits it is
    handed ([ValueError]): the trimmed text when its digits are not all
    decimal, or a run of more than 4300 decimal digits.  On a text without
    any digit they return [0]. *)
Theorem C1_results :
  parse_time_to_minutes U PyNone = Ok 0%Z /\
  parse_servings_to_int U PyNone = Ok 0%Z /\
  (forall s, parse_time_to_minutes U (PyFloat (S754_zero s)) = Ok 0%Z /\
             parse_servings_to_int U (PyFloat (S754_zero s)) = Ok 0%Z) /\
  (forall m e, exists k,
     (0 <= k)%Z /\
     parse_time_to_minutes U (PyFloat (S754_finite false m e)) = Ok k /\
     parse_servings_to_int U (PyFloat (S754_finite false m e)) = Ok k) /\
  (forall n, (Z.abs n < 2 ^ 53)%Z ->
     parse_time_to_minutes U (PyInt n) = Ok n /\
     parse_servings_to_int U (PyInt n) = Ok n) /\
  (forall n, (0 <= n)%Z ->
     (exists k, (0 <= k)%Z /\
                parse_time_to_minutes U (PyInt n) = Ok k /\
                parse_servings_to_int U (PyInt n) = Ok k) \/
     ((2 ^ 1023 <= n)%Z /\
      parse_time_to_minutes U (PyInt n) = Raise OverflowError /\
      parse_servings_to_int U (PyInt n) = Raise OverflowError)) /\
  (forall n, (2 ^ 1024 <= n)%Z ->
     parse_time_to_minutes U (PyInt n) = Raise OverflowError /\
     parse_servings_to_int U (PyInt n) = Raise OverflowError) /\
  (forall t,
     (exists k, parse_time_to_minutes U (PyStr t) = Ok k /\ (0 <= k)%Z) \/
     (parse_time_to_minutes U (PyStr t) = Raise OverflowError /\
      isdigit U (lower U (strip U t)) = false /\
      overflows (time_total U (lower U (strip U t)))) \/
     (parse_time_to_minutes U (PyStr t) = Raise ValueError /\
      ((isdigit U (lower U (strip U t)) = true /\
        forallb (isdecimal U) (lower U (strip U t)) = false) \/
       long_run U (lower U (strip U t))))) /\
  (forall t,
     (exists k, parse_servings_to_int U (PyStr t) = Ok k /\ (0 <= k)%Z) \/
     (parse_servings_to_int U (PyStr t) = Raise OverflowError /\
      isdigit U (lower U (strip U t)) = false /\
      exists g, first_number U (lower U (strip U t)) = Some g /\
                py_float U g = Ok (S754_infinity false)) \/
     (parse_servings_to_int U (PyStr t) = Raise ValueError /\
      ((isdigit U (lower U (strip U t)) = true /\
        forallb (isdecimal U) (lower U (strip U t)) = false) \/
       long_run U (lower U (strip U t))))) /\
  (forall t, no_digit U (lower U (strip U t)) = true ->
     parse_time_to_minutes U (PyStr t) = Ok 0%Z /\
     parse_servings_to_int U (PyStr t) = Ok 0%Z).
Proof.
  split; [reflexivity|]. split; [reflexivity|]. split; [intros s; split; reflexivity|].
  split.
  { intros m e. exists (round_half_even (Zpos m) e).
    split; [apply round_half_even_nonneg; lia|split; reflexivity]. }
  split.
  { intros n Hn. destruct (round_nearest_float n Hn) as [E R].
    unfold parse_time_to_minutes, parse_servings_to_int.
    rewrite E. cbn [bind]. now rewrite R. }
  split.
  { intros n Hn. unfold parse_time_to_minutes, parse_servings_to_int.
    destruct (float_of_int_nonneg n Hn) as [(x & E & W)|E]; rewrite E; cbn [bind].
    - destruct (py_round_result x W) as [(k & R & Hk)|[I _]].
      + left. exists k. rewrite R. auto.
      + now apply float_of_int_finite in E.
    - right. split; [|auto]. apply float_of_int_raises in E. lia. }
  split.
  { intros n Hn. unfold parse_time_to_minutes, parse_servings_to_int.
    now rewrite float_of_int_overflow. }
  split; [exact (time_text_result U)|]. split; [exact (servings_text_result U)|].
  intros t H. split; [now apply no_digit_time|now apply no_digit_servings].
Qed.

End Totality.

(** ** White space around a text and the case of its letters *)

Section Normal.
Variable U : Unicode.

Lemma lstrip_head s :
  match lstrip U s with c :: _ => isspace U c = false | [] => True end.
Proof.
  induction s as [|c s IH]; [exact I|]. cbn [lstrip].
  destruct (isspace U c) eqn:E; [exact IH|exact E].
Qed.

Lemma lstrip_fixed s :
  match s with c :: _ => isspace U c = false | [] => True end -> lstrip U s = s.
Proof. destruct s as [|c s]; [reflexivity|]. cbn [lstrip]. now intros ->. Qed.

Lemma lstrip_all_spaces ws : forallb (isspace U) ws = true -> lstrip U ws = [].
Proof.
  intros H. rewrite <- (app_nil_r ws). now rewrite lstrip_spaces.
Qed.

(** Spaces after a text that does not start with one stay where they are. *)
Lemma lstrip_rev_spaces s ws :
  forallb (isspace U) ws = true ->
  lstrip U (rev (lstrip U (s ++ ws))) = lstrip U (rev (lstrip U s)).
Proof.
  intros Hws. induction s as [|c s IH].
  - cbn [app]. rewrite (lstrip_all_spaces ws Hws). reflexivity.
  - cbn [app lstrip]. destruct (isspace U c); [exact IH|].
    change (c :: s ++ ws) with ((c :: s) ++ ws). rewrite rev_app_distr.
    apply lstrip_spaces. now rewrite forallb_rev.
Qed.

Lemma strip_spaces ws1 t ws2 :
  forallb (isspace U) ws1 = true -> forallb (isspace U) ws2 = true ->
  strip U (ws1 ++ t ++ ws2) = strip U t.
Proof.
  intros H1 H2. unfold strip. rewrite (lstrip_spaces U ws1 _ H1).
  now rewrite lstrip_rev_spaces.
Qed.

(** X1: white space before and after a text changes the result of neither
    normalizer. *)
Theorem surrounding_space_ignored ws1 t ws2 :
  forallb (isspace U) ws1 = true -> forallb (isspace U) ws2 = true ->
  parse_time_to_minutes U (PyStr (ws1 ++ t ++ ws2)) = parse_time_to_minutes U (PyStr t) /\
  parse_servings_to_int U (PyStr (ws1 ++ t ++ ws2)) = parse_servings_to_int U (PyStr t).
Proof.
  intros H1 H2. unfold parse_time_to_minutes, parse_servings_to_int.
  rewrite (strip_spaces ws1 t ws2 H1 H2). split; reflexivity.
Qed.

Lemma isspace_ascii_lower c : is_ascii c = true -> isspace U (ascii_lower c) = isspace U c.
Proof.
  intros A. unfold ascii_lower. destruct (between 65 90 c) eqn:B; [|reflexivity].
  unfold isspace, class_of, is_ascii, ascii_class, between in *.
  destruct (N.leb_spec 65 c), (N.leb_spec c 90); try discriminate.
  replace (c + 32 <? 128)%N with true by (symmetry; apply N.ltb_lt; lia).
  rewrite A.
  repeat match goal with
         | |- context [(?a <=? ?b)%N] => destruct (N.leb_spec a b); try lia
         | |- context [(?a =? ?b)%N] => destruct (N.eqb_spec a b); try lia
         end; reflexivity.
Qed.

Lemma lstrip_map_lower s :
  forallb is_ascii s = true -> lstrip U (map ascii_lower s) = map ascii_lower (lstrip U s).
Proof.
  induction s as [|c s IH]; [reflexivity|]. cbn [forallb map lstrip].
  intros H. apply andb_prop in H as [Hc Hs].
  rewrite (isspace_ascii_lower c Hc). destruct (isspace U c); [exact (IH Hs)|reflexivity].
Qed.

Lemma lstrip_ascii s : forallb is_ascii s = true -> forallb is_ascii (lstrip U s) = true.
Proof.
  induction s as [|c s IH]; [reflexivity|]. cbn [forallb lstrip].
  intros H. destruct (isspace U c); [apply IH; now apply andb_prop in H|exact H].
Qed.

Lemma strip_ascii s : forallb is_ascii s = true -> forallb is_ascii (strip U s) = true.
Proof.
  intros H. unfold strip. rewrite forallb_rev. apply lstrip_ascii.
  rewrite forallb_rev. now apply lstrip_ascii.
Qed.

Lemma strip_map_lower s :
  forallb is_ascii s = true -> strip U (map ascii_lower s) = map ascii_lower (strip U s).
Proof.
  intros H. unfold strip.
  rewrite (lstrip_map_lower s H), <- map_rev, lstrip_map_lower, <- map_rev;
    [reflexivity|].
  rewrite forallb_rev. now apply lstrip_ascii.
Qed.

Lemma ascii_lower_idem c : ascii_lower (ascii_lower c) = ascii_lower c.
Proof.
  unfold ascii_lower, between.
  destruct (N.leb_spec 65 c), (N.leb_spec c 90); cbn [andb]; try reflexivity;
    repeat match goal with
           | |- context [(?a <=? ?b)%N] => destruct (N.leb_spec a b); try lia
           end; reflexivity.
Qed.

Lemma ascii_lower_ascii c : is_ascii c = true -> is_ascii (ascii_lower c) = true.
Proof.
  unfold ascii_lower, is_ascii, between. intros H. apply N.ltb_lt in H.
  destruct (N.leb_spec 65 c), (N.leb_spec c 90); cbn [andb]; apply N.ltb_lt; lia.
Qed.

Lemma lower_ascii_text e : forallb is_ascii e = true -> lower U e = map ascii_lower e.
Proof.
  intros H. unfold lower.
  pose proof (lower_from_ascii U e [] [] H) as E.
  rewrite app_nil_r in E. rewrite E. cbn [lower_from]. apply app_nil_r.
Qed.

Lemma normal_form_case d n :
  ignoring_case d n -> lower U (strip U d) = lower U (strip U n).
Proof.
  intros [A <-].
  assert (A' : forallb is_ascii (map ascii_lower d) = true).
  { clear -A. induction d as [|c d IH]; [reflexivity|]. cbn [map forallb] in *.
    apply andb_prop in A as [Hc Hd]. now rewrite (ascii_lower_ascii c Hc), IH. }
  rewrite (lower_ascii_text _ (strip_ascii _ A)), (lower_ascii_text _ (strip_ascii _ A')).
  rewrite (strip_map_lower d A), map_map.
  apply map_ext. intros c. now rewrite ascii_lower_idem.
Qed.

(** X2: an ASCII text and the same text in lower case have the same
    result, for both normalizers. *)
Theorem letter_case_ignored d n :
  ignoring_case d n ->
  parse_time_to_minutes U (PyStr d) = parse_time_to_minutes U (PyStr n) /\
  parse_servings_to_int U (PyStr d) = parse_servings_to_int U (PyStr n).
Proof.
  intros H. unfold parse_time_to_minutes, parse_servings_to_int.
  rewrite (normal_form_case d n H). split; reflexivity.
Qed.

End Normal.

(** ** Integers in binary64 *)

Section ExactFloats.
Local Open Scope Z_scope.

Lemma digits2_pos_unique p d :
  2 ^ (d - 1) <= Zpos p < 2 ^ d -> Zpos (digits2_pos p) = d.
Proof.
  intros [L H]. destruct (digits2_pos_bounds p) as [L' H'].
  assert (0 < d).
  { destruct (Z.lt_trichotomy d 0) as [N|[->|P]]; [|simpl in H; lia|exact P].
    rewrite Z.pow_neg_r in H by lia. lia. }
  destruct (Z.lt_trichotomy (Zpos (digits2_pos p)) d) as [N|[E|N]]; [|exact E|].
  - assert (2 ^ Zpos (digits2_pos p) <= 2 ^ (d - 1)) by (apply Z.pow_le_mono_r; lia). lia.
  - assert (2 ^ d <= 2 ^ (Zpos (digits2_pos p) - 1)) by (apply Z.pow_le_mono_r; lia). lia.
Qed.

(** Shifting out zeros loses nothing. *)
Lemma iter_shr_1_exact p : forall c,
  0 <= c ->
  iter_pos shr_1 p {| shr_m := c * 2 ^ Zpos p; shr_r := false; shr_s := false |}
  = {| shr_m := c; shr_r := false; shr_s := false |}.
Proof.
  assert (One : forall c, 0 <= c ->
            shr_1 {| shr_m := c * 2; shr_r := false; shr_s := false |}
            = {| shr_m := c; shr_r := false; shr_s := false |}).
  { intros [|q|q] Hc; [reflexivity| |lia].
    replace (Zpos q * 2) with (Zpos q~0) by lia. reflexivity. }
  induction p as [p IH|p IH|]; intros c Hc; cbn [iter_pos].
  - rewrite pow2_xI.
    replace (c * (2 * (2 ^ Zpos p * 2 ^ Zpos p))) with (c * 2 ^ Zpos p * 2 ^ Zpos p * 2) by lia.
    assert (0 <= 2 ^ Zpos p) by (apply Z.pow_nonneg; lia).
    rewrite One by nia. rewrite IH by nia. now apply IH.
  - rewrite pow2_xO.
    replace (c * (2 ^ Zpos p * 2 ^ Zpos p)) with (c * 2 ^ Zpos p * 2 ^ Zpos p) by lia.
    assert (0 <= 2 ^ Zpos p) by (apply Z.pow_nonneg; lia).
    rewrite IH by nia. now apply IH.
  - change (2 ^ 1) with 2. now apply One.
Qed.

Lemma finite_eq s m e m' e' :
  Zpos m = Zpos m' -> e = e' -> S754_finite s m e = S754_finite s m' e'.
Proof. intros E ->. injection E as ->. reflexivity. Qed.

(** The float of a natural number below [2^53]: a mantissa of 53 bits. *)
Lemma nearest_float_pos n :
  Zpos n < 2 ^ 53 ->
  exists m,
    nearest_float (Zpos n) = S754_finite false m (Zpos (digits2_pos n) - 53) /\
    Zpos m = Zpos n * 2 ^ (53 - Zpos (digits2_pos n)).
Proof.
  intros Hn.
  assert (Hd : Zpos (digits2_pos n) <= 53).
  { destruct (digits2_pos_bounds n) as [H1 _].
    destruct (Z.le_gt_cases (Zpos (digits2_pos n)) 53) as [|G]; [assumption|].
    exfalso.
    assert (2 ^ 53 <= 2 ^ (Zpos (digits2_pos n) - 1)) by (apply Z.pow_le_mono_r; lia).
    lia. }
  unfold nearest_float, binary_normalize, binary_round, shl_align, fexp, emin.
  change prec with 53. change emax with 1024.
  rewrite Z.add_0_r.
  replace (Z.max (Zpos (digits2_pos n) - 53) (3 - 1024 - 53))
    with (Zpos (digits2_pos n) - 53) by lia.
  rewrite Z.sub_0_r.
  destruct (Zpos (digits2_pos n) - 53) as [|k|k] eqn:E; [|lia|].
  - exists n. split; [apply binary_round_aux_canonical; lia|].
    replace (53 - Zpos (digits2_pos n)) with 0 by lia. lia.
  - exists (Pos.iter xO n k). split.
    + apply binary_round_aux_canonical; [|lia].
      rewrite digits2_pos_iter_xO. lia.
    + rewrite iter_xO_spec. f_equal. f_equal. lia.
Qed.

(** Rounding a mantissa of at least 53 bits that holds a natural number
    below [2^53] gives the float of that number. *)
Lemma round_aux_int M E n :
  Zpos n < 2 ^ 53 -> E <= 0 -> Zpos M = Zpos n * 2 ^ (- E) -> 2 ^ 52 <= Zpos M ->
  binary_round_aux prec emax false (Zpos M) E loc_Exact = nearest_float (Zpos n).
Proof.
  intros Hn HE HM H52.
  destruct (nearest_float_pos n Hn) as (m & -> & Hm).
  destruct (digits2_pos_bounds n) as [Ln Un].
  set (dn := Zpos (digits2_pos n)) in *.
  assert (0 < 2 ^ (- E)) by (apply Z.pow_pos_nonneg; lia).
  assert (Hd : Zpos (digits2_pos M) = dn - E).
  { apply digits2_pos_unique. rewrite HM.
    replace (dn - E - 1) with (dn - 1 + - E) by lia.
    replace (dn - E) with (dn + - E) by lia.
    rewrite !Z.pow_add_r by lia. nia. }
  assert (Hdn : dn <= 53).
  { destruct (Z.le_gt_cases dn 53) as [|G]; [assumption|exfalso].
    assert (2 ^ 53 <= 2 ^ (dn - 1)) by (apply Z.pow_le_mono_r; lia). lia. }
  assert (H53 : 53 <= dn - E).
  { rewrite <- Hd. destruct (digits2_pos_bounds M) as [_ UM].
    destruct (Z.le_gt_cases 53 (Zpos (digits2_pos M))) as [|G]; [assumption|exfalso].
    assert (2 ^ Zpos (digits2_pos M) <= 2 ^ 52) by (apply Z.pow_le_mono_r; lia). lia. }
  assert (Hm53 : Zpos (digits2_pos m) = 53).
  { apply digits2_pos_unique. rewrite Hm.
    replace (53 - 1) with (dn - 1 + (53 - dn)) by lia.
    replace 53 with (dn + (53 - dn)) at 4 by lia.
    rewrite !Z.pow_add_r by lia.
    assert (0 < 2 ^ (53 - dn)) by (apply Z.pow_pos_nonneg; lia). nia. }
  assert (dn > 0) by (unfold dn; lia).
  clearbody dn. unfold binary_round_aux.
  assert (S1 : shr_fexp prec emax (Zpos M) E loc_Exact
               = ({| shr_m := Zpos m; shr_r := false; shr_s := false |}, dn - 53)).
  { unfold shr_fexp, shr, fexp, emin, Zdigits2. change prec with 53. change emax with 1024.
    rewrite Hd.
    replace (Z.max (dn - E + E - 53) (3 - 1024 - 53) - E) with (dn - 53 - E) by lia.
    cbn [shr_record_of_loc].
    destruct (dn - 53 - E) as [|k|k] eqn:Ek; [| |lia].
    - f_equal; [|lia]. f_equal. rewrite HM, Hm. f_equal. f_equal. lia.
    - f_equal; [|lia].
      replace (Zpos M) with (Zpos m * 2 ^ Zpos k).
      + apply iter_shr_1_exact. lia.
      + rewrite HM, Hm, <- Z.mul_assoc, <- Z.pow_add_r by lia. f_equal. f_equal. lia. }
  rewrite S1. cbn [shr_m loc_of_shr_record round_nearest_even].
  rewrite shr_fexp_canonical by (assumption || lia).
  cbn [shr_record_of_loc shr_m].
  assert (L : (dn - 53 <=? emax - prec) = true) by (apply Z.leb_le; unfold emax, prec; lia).
  now rewrite L.
Qed.

Lemma nearest_float_0 : nearest_float 0 = f0.
Proof. reflexivity. Qed.

Lemma pow_52_le_mantissa n m :
  Zpos m = Zpos n * 2 ^ (53 - Zpos (digits2_pos n)) -> Zpos (digits2_pos n) <= 53 ->
  2 ^ 52 <= Zpos m < 2 ^ 53.
Proof.
  intros Hm Hd. destruct (digits2_pos_bounds n) as [L H].
  set (dn := Zpos (digits2_pos n)) in *.
  assert (0 < dn) by (unfold dn; lia). clearbody dn.
  assert (0 < 2 ^ (53 - dn)) by (apply Z.pow_pos_nonneg; lia).
  replace (2 ^ 52) with (2 ^ (dn - 1) * 2 ^ (53 - dn))
    by (rewrite <- Z.pow_add_r by lia; f_equal; lia).
  replace (2 ^ 53) with (2 ^ dn * 2 ^ (53 - dn))
    by (rewrite <- Z.pow_add_r by lia; f_equal; lia).
  nia.
Qed.

Lemma digits_le_53 n : Zpos n < 2 ^ 53 -> Zpos (digits2_pos n) <= 53.
Proof.
  intros Hn. destruct (digits2_pos_bounds n) as [H1 _].
  destruct (Z.le_gt_cases (Zpos (digits2_pos n)) 53) as [|G]; [assumption|].
  exfalso.
  assert (2 ^ 53 <= 2 ^ (Zpos (digits2_pos n) - 1)) by (apply Z.pow_le_mono_r; lia).
  lia.
Qed.

(** The product of two natural numbers, when it is below [2^53]. *)
Lemma fmul_int a b :
  0 <= a < 2 ^ 53 -> 0 <= b < 2 ^ 53 -> a * b < 2 ^ 53 ->
  fmul (nearest_float a) (nearest_float b) = nearest_float (a * b).
Proof.
  intros Ha Hb Hab.
  destruct a as [|a|a]; [|destruct b as [|b|b]|]; try lia.
  - cbn [Z.mul]. rewrite nearest_float_0.
    destruct b as [|b|b]; [reflexivity| |lia].
    destruct (nearest_float_pos b ltac:(lia)) as (m & -> & _). reflexivity.
  - rewrite Z.mul_0_r, nearest_float_0.
    destruct (nearest_float_pos a ltac:(lia)) as (m & -> & _). reflexivity.
  - destruct (nearest_float_pos a ltac:(lia)) as (ma & -> & Ea).
    destruct (nearest_float_pos b ltac:(lia)) as (mb & -> & Eb).
    pose proof (digits_le_53 a ltac:(lia)) as Da.
    pose proof (digits_le_53 b ltac:(lia)) as Db.
    pose proof (pow_52_le_mantissa a ma Ea Da) as Ba.
    pose proof (pow_52_le_mantissa b mb Eb Db) as Bb.
    unfold fmul, SFmul. cbn [xorb].
    change (Zpos a * Zpos b) with (Zpos (a * b)).
    apply round_aux_int.
    + exact Hab.
    + lia.
    + rewrite Pos2Z.inj_mul, Ea, Eb, Pos2Z.inj_mul.
      replace (- (Zpos (digits2_pos a) - 53 + (Zpos (digits2_pos b) - 53)))
        with ((53 - Zpos (digits2_pos a)) + (53 - Zpos (digits2_pos b))) by lia.
      rewrite Z.pow_add_r by lia. ring.
    + rewrite Pos2Z.inj_mul. change (2 ^ 52) with 4503599627370496 in *. nia.
Qed.

(** The sum of two natural numbers, when it is below [2^53]. *)
Lemma fadd_int a b :
  0 <= a -> 0 <= b -> a + b < 2 ^ 53 ->
  fadd (nearest_float a) (nearest_float b) = nearest_float (a + b).
Proof.
  intros Ha Hb Hab.
  destruct a as [|a|a]; [|destruct b as [|b|b]|]; try lia.
  - cbn [Z.add]. rewrite nearest_float_0.
    destruct b as [|b|b]; [reflexivity| |lia].
    destruct (nearest_float_pos b ltac:(lia)) as (m & -> & _). reflexivity.
  - rewrite Z.add_0_r, nearest_float_0.
    destruct (nearest_float_pos a ltac:(lia)) as (m & -> & _). reflexivity.
  - destruct (nearest_float_pos a ltac:(lia)) as (ma & -> & Ea).
    destruct (nearest_float_pos b ltac:(lia)) as (mb & -> & Eb).
    pose proof (digits_le_53 a ltac:(lia)) as Da.
    pose proof (digits_le_53 b ltac:(lia)) as Db.
    pose proof (pow_52_le_mantissa a ma Ea Da) as Ba.
    pose proof (pow_52_le_mantissa b mb Eb Db) as Bb.
    set (ea := Zpos (digits2_pos a) - 53) in *.
    set (eb := Zpos (digits2_pos b) - 53) in *.
    assert (Hea : ea <= 0) by (unfold ea; lia).
    assert (Heb : eb <= 0) by (unfold eb; lia).
    replace (53 - Zpos (digits2_pos a)) with (- ea) in Ea by (unfold ea; lia).
    replace (53 - Zpos (digits2_pos b)) with (- eb) in Eb by (unfold eb; lia).
    clearbody ea eb.
    unfold fadd, SFadd. cbn [cond_Zopp].
    change (IntDef.Z.min ea eb) with (Z.min ea eb).
    set (ez := Z.min ea eb).
    assert (Sa : Zpos (fst (shl_align ma ea ez)) = Zpos a * 2 ^ (- ez)).
    { unfold shl_align. destruct (ez - ea) as [|d|d] eqn:Ed; cbn [fst].
      - rewrite Ea. f_equal. f_equal. lia.
      - unfold ez in Ed. lia.
      - rewrite iter_xO_spec, Ea, <- Z.mul_assoc, <- Z.pow_add_r by lia.
        f_equal. f_equal. lia. }
    assert (Sb : Zpos (fst (shl_align mb eb ez)) = Zpos b * 2 ^ (- ez)).
    { unfold shl_align. destruct (ez - eb) as [|d|d] eqn:Ed; cbn [fst].
      - rewrite Eb. f_equal. f_equal. lia.
      - unfold ez in Ed. lia.
      - rewrite iter_xO_spec, Eb, <- Z.mul_assoc, <- Z.pow_add_r by lia.
        f_equal. f_equal. lia. }
    assert (Hez : ez <= 0) by (unfold ez; lia).
    assert (Hp : 1 <= 2 ^ (- ez)) by (apply (Z.pow_le_mono_r 2 0 (- ez)); lia).
    assert (Ga : Zpos ma <= Zpos (fst (shl_align ma ea ez))).
    { rewrite Sa, Ea. apply Z.mul_le_mono_nonneg_l; [lia|].
      apply Z.pow_le_mono_r; unfold ez; lia. }
    set (ma' := fst (shl_align ma ea ez)) in *.
    set (mb' := fst (shl_align mb eb ez)) in *.
    clearbody ma' mb'.
    change (Zpos ma' + Zpos mb') with (Zpos (ma' + mb')).
    unfold binary_normalize, binary_round.
    assert (Hs : Zpos (ma' + mb') = Zpos (a + b) * 2 ^ (- ez)).
    { rewrite !Pos2Z.inj_add, Sa, Sb. ring. }
    assert (H52 : 2 ^ 52 <= Zpos (ma' + mb')) by (rewrite Pos2Z.inj_add; lia).
    assert (D53 : 53 <= Zpos (digits2_pos (ma' + mb'))).
    { destruct (digits2_pos_bounds (ma' + mb')) as [_ UM].
      destruct (Z.le_gt_cases 53 (Zpos (digits2_pos (ma' + mb')))) as [|G];
        [assumption|exfalso].
      assert (2 ^ Zpos (digits2_pos (ma' + mb')) <= 2 ^ 52)
        by (apply Z.pow_le_mono_r; lia).
      lia. }
    unfold shl_align, fexp, emin. change prec with 53. change emax with 1024.
    set (dz := Zpos (digits2_pos (ma' + mb'))) in *. clearbody dz.
    destruct (Z.max (dz + ez - 53) (3 - 1024 - 53) - ez) as [|d|d] eqn:Ed; try lia.
    + change (Zpos a + Zpos b) with (Zpos (a + b)).
      apply round_aux_int; assumption.
    + change (Zpos a + Zpos b) with (Zpos (a + b)).
      apply round_aux_int; assumption.
Qed.

(** [float] of the text of a natural number below [2^53]. *)
Lemma float_of_decimal_int n :
  0 <= n < 2 ^ 53 -> float_of_decimal n 0 = nearest_float n.
Proof.
  intros Hn. destruct n as [|p|p]; [reflexivity| |lia].
  unfold float_of_decimal, float_of_ratio.
  change (Z.to_pos (10 ^ Z.of_nat 0)) with 1%positive.
  pose proof (digits_le_53 p ltac:(lia)) as Dp.
  destruct (digits2_pos_bounds p) as [Lp Up].
  unfold SFdiv_core_binary, Zdigits2, fexp, emin.
  change prec with 53. change emax with 1024.
  change (Zpos (digits2_pos 1)) with 1.
  set (dp := Zpos (digits2_pos p)) in *.
  assert (0 < dp) by (unfold dp; lia). clearbody dp.
  change (IntDef.Z.min ?x ?y) with (Z.min x y).
  change (IntDef.Z.max ?x ?y) with (Z.max x y).
  replace (Z.min (Z.max (dp + 0 - (1 + 0) - 53) (3 - 1024 - 53)) (0 - 0))
    with (dp - 54) by lia.
  replace (0 - 0 - (dp - 54)) with (54 - dp) by lia.
  destruct (54 - dp) as [|k|k] eqn:Ek; try lia.
  change (IntDef.Z.shiftl ?x ?y) with (Z.shiftl x y).
  rewrite Z.shiftl_mul_pow2 by lia.
  assert (Hpos : 0 < Zpos p * 2 ^ Zpos k).
  { assert (0 < 2 ^ Zpos k) by (apply Z.pow_pos_nonneg; lia). nia. }
  destruct (Zpos p * 2 ^ Zpos k) as [|M|M] eqn:EM; try lia.
  change (IntDef.Z.div_eucl ?x ?y) with (Z.div_eucl x y).
  pose proof (Z_div_mod (Zpos M) 1 ltac:(lia)) as D.
  destruct (Z.div_eucl (Zpos M) 1) as [q r]. destruct D as [D1 D2].
  assert (r = 0) by lia. assert (q = Zpos M) by lia. subst q r.
  change (new_location 1 0) with loc_Exact.
  apply round_aux_int.
  - lia.
  - lia.
  - rewrite <- EM. f_equal. f_equal. lia.
  - rewrite <- EM, <- Ek.
    replace (2 ^ 52) with (2 ^ (dp - 1) * 2 ^ (53 - dp))
      by (rewrite <- Z.pow_add_r by lia; f_equal; lia).
    replace (2 ^ (54 - dp)) with (2 * 2 ^ (53 - dp))
      by (rewrite <- Z.pow_succ_r by lia; f_equal; lia).
    assert (0 < 2 ^ (53 - dp)) by (apply Z.pow_pos_nonneg; lia). nia.
Qed.

Lemma nearest_float_nonzero n : 0 < n < 2 ^ 53 -> is_zero (nearest_float n) = false.
Proof.
  intros Hn. destruct n as [|p|p]; try lia.
  destruct (nearest_float_pos p ltac:(lia)) as (m & -> & _). reflexivity.
Qed.

Lemma nearest_float_wf n : 0 <= n < 2 ^ 53 -> wf (nearest_float n).
Proof.
  intros Hn. destruct n as [|p|p]; [reflexivity| |lia].
  destruct (nearest_float_pos p ltac:(lia)) as (m & -> & _).
  pose proof (digits_le_53 p ltac:(lia)). cbn [wf]. split; [reflexivity|lia].
Qed.

Lemma f60_nearest : f60 = nearest_float 60.
Proof. reflexivity. Qed.

End ExactFloats.

(** ** The first number of a text *)

Section FirstNumber.
Variable U : Unicode.

Lemma search_skip r (pre : text) : forall pv s,
  starts_with_digit U r -> digit_free U pre = true ->
  search_from U r pv (pre ++ s) = search_from U r (after pv pre) s.
Proof.
  induction pre as [|c pre IH]; intros pv s Hr Hp; [reflexivity|].
  cbn [app]. pose proof (digit_free_head U c pre Hp) as Hc.
  apply digit_free_tail in Hp.
  assert (E : search_from U r pv (c :: pre ++ s) = search_from U r (Some c) (pre ++ s)).
  { cbn [search_from]. unfold match_at. now rewrite Hr. }
  rewrite E. now rewrite IH.
Qed.

Lemma search_here r pv s m : match_at U r pv s = Some m -> search_from U r pv s = Some m.
Proof. intros H. destruct s; cbn [search_from]; now rewrite H. Qed.

(** A group of digits takes the whole run. *)
Lemma digits_group_first n pv (d rest : text) caps k m :
  d <> [] -> forallb (isdecimal U) d = true ->
  match rest with c :: _ => isdecimal U c = false | [] => True end ->
  k (MS (after pv d) rest ((n, d) :: caps)) = Some m ->
  rx U (Grp n (Plus CDigit)) (MS pv (d ++ rest) caps) k = Some m.
Proof.
  intros Hne Hd Hr Hk. destruct d as [|c ds]; [congruence|].
  cbn [forallb] in Hd. apply andb_prop in Hd as [Hc Hds].
  cbn [rx]. unfold Plus. rewrite rx_seq.
  cbn [rx m_rest m_caps m_prev app in_cls]. rewrite Hc.
  apply star_first. change (in_cls U CDigit) with (isdecimal U).
  rewrite (skip_run_app (isdecimal U) ds rest (Some c) Hds Hr). cbn [fst snd m_prev m_rest m_caps].
  rewrite (consumed_app (c :: ds) rest). exact Hk.
Qed.

Lemma spaces_first pv (sp rest : text) caps k m :
  forallb (isspace U) sp = true ->
  match rest with c :: _ => isspace U c = false | [] => True end ->
  k (MS (after pv sp) rest caps) = Some m ->
  rx U (Star CSpace) (MS pv (sp ++ rest) caps) k = Some m.
Proof.
  intros Hs Hr Hk. cbn [rx m_rest m_caps m_prev]. apply star_first.
  change (in_cls U CSpace) with (isspace U).
  now rewrite (skip_run_app (isspace U) sp rest pv Hs Hr).
Qed.

Lemma cls_first p pv x (t : text) caps k m :
  in_cls U p x = true -> k (MS (Some x) t caps) = Some m ->
  rx U (Cls p) (MS pv (x :: t) caps) k = Some m.
Proof. intros Hx Hk. cbn [rx m_rest m_caps]. now rewrite Hx. Qed.

Lemma ascii_digits_decimal d : forallb ascii_digit d = true -> forallb (isdecimal U) d = true.
Proof.
  induction d as [|c d IH]; [reflexivity|]. cbn [forallb]. intros H.
  apply andb_prop in H as [Hc Hd]. now rewrite (ascii_digit_decimal U c Hc), IH.
Qed.

Lemma isdigit_char_decimal c : isdigit_char U c = false -> isdecimal U c = false.
Proof. unfold isdigit_char, isdecimal. now destruct (class_of U c). Qed.

Lemma isdigit_with (a : text) c b : isdigit_char U c = false -> isdigit U (a ++ c :: b) = false.
Proof.
  intros Hc. unfold isdigit. destruct (a ++ c :: b) eqn:E; [reflexivity|]. rewrite <- E.
  rewrite forallb_app. cbn [forallb]. rewrite Hc. now rewrite andb_false_r.
Qed.

(** X11: a number, a dash or one of the letters [t] and [o], and a
    second number.  [parse_servings_to_int] returns the first number of
    the first such range of the text when it has at most 4300 digits; a
    longer one makes [int] raise [ValueError]. *)
Theorem servings_range_lower_bound t (pre d1 sp1 : text) sep (sp2 : text) c2 (post : text) :
  lower U (strip U t) = pre ++ d1 ++ sp1 ++ sep :: sp2 ++ c2 :: post ->
  digit_free U pre = true ->
  d1 <> [] -> forallb ascii_digit d1 = true ->
  forallb (isspace U) sp1 = true -> range_separator U sep ->
  forallb (isspace U) sp2 = true -> isdecimal U c2 = true ->
  parse_servings_to_int U (PyStr t)
  = if (Z.of_nat (length d1) <=? 4300)%Z then Ok (decimal_value d1) else Raise ValueError.
Proof.
  intros Es Hpre Hne Hd1 Hsp1 (Hin & Hss & Hsd) Hsp2 Hc2.
  unfold parse_servings_to_int. rewrite Es.
  assert (Hd : forallb (isdecimal U) d1 = true) by now apply ascii_digits_decimal.
  assert (Dg : isdigit U (pre ++ d1 ++ sp1 ++ sep :: sp2 ++ c2 :: post) = false).
  { rewrite !app_assoc. rewrite <- (app_assoc pre). now apply isdigit_with. }
  rewrite Dg.
  destruct (pre ++ d1 ++ sp1 ++ sep :: sp2 ++ c2 :: post) eqn:E0.
  { exfalso. destruct pre; [destruct d1; [congruence|discriminate]|discriminate]. }
  rewrite <- E0. clear E0.
  assert (S : exists m, re_search U range_pattern
                          (pre ++ d1 ++ sp1 ++ sep :: sp2 ++ c2 :: post) = Some m /\
                        group 1 m = Some d1).
  { unfold re_search.
    rewrite search_skip;
      [|unfold range_pattern; apply seq_starts; apply plus_group_starts|exact Hpre].
    destruct (skip_run_split (isdecimal U) post (Some c2)) as (ds & Ep & Hds & Hpv).
    eexists. split.
    - apply search_here. unfold match_at, range_pattern. rewrite rx_seq.
      apply digits_group_first; [exact Hne|exact Hd| |].
      { destruct sp1 as [|x sp1]; cbn [app].
        - now apply isdigit_char_decimal.
        - cbn [forallb] in Hsp1. apply andb_prop in Hsp1 as [Hx _].
          now apply space_not_decimal. }
      cbv beta. rewrite rx_seq. apply spaces_first; [exact Hsp1|exact Hss|].
      cbv beta. rewrite rx_seq. apply cls_first.
      { cbn [in_cls]. apply existsb_exists. exists sep. split; [exact Hin|apply N.eqb_refl]. }
      rewrite rx_seq. apply spaces_first; [exact Hsp2|now apply decimal_not_space|].
      cbv beta. cbn [rx]. unfold Plus. rewrite rx_seq. apply cls_first; [exact Hc2|].
      cbn [rx m_rest m_caps m_prev]. apply star_first. reflexivity.
    - reflexivity. }
  destruct S as (m' & -> & ->).
  destruct (Z.leb_spec (Z.of_nat (length d1)) 4300) as [L|L].
  - apply py_int_digits; assumption.
  - now apply py_int_long.
Qed.

Lemma search_found r : forall s pv m,
  search_from U r pv s = Some m ->
  exists a b pv', s = a ++ b /\ match_at U r pv' b = Some m.
Proof.
  induction s as [|c s IH]; intros pv m H; cbn [search_from] in H.
  - destruct (match_at U r pv []) eqn:E; [|discriminate].
    injection H as <-. now exists [], [], pv.
  - destruct (match_at U r pv (c :: s)) eqn:E.
    + injection H as <-. now exists [], (c :: s), pv.
    + destruct (IH _ _ H) as (a & b & pv' & -> & Hm).
      now exists (c :: a), b, pv'.
Qed.

(** A decimal digit of a text whose digits are all in [d] is in [d]. *)
Lemma digit_inside (pre d post : text) : forall (A : text) c (B : text),
  digit_free U pre = true -> digit_free U post = true ->
  isdecimal U c = true ->
  A ++ c :: B = pre ++ d ++ post ->
  exists d1 d2, d = d1 ++ c :: d2 /\ A = pre ++ d1 /\ B = d2 ++ post.
Proof.
  induction pre as [|p pre IH]; intros A c B Hpre Hpost Hc E.
  - cbn [app] in E. clear Hpre. revert A E.
    induction d as [|x d IHd]; intros A E.
    + cbn [app] in E. exfalso.
      assert (In c post) by (rewrite <- E; apply in_elt).
      unfold digit_free in Hpost. rewrite forallb_forall in Hpost.
      specialize (Hpost c H). now rewrite Hc in Hpost.
    + destruct A as [|a A]; cbn [app] in E; injection E as -> E.
      * now exists [], d.
      * destruct (IHd A E) as (d1 & d2 & -> & -> & ->). now exists (x :: d1), d2.
  - pose proof (digit_free_head U p pre Hpre) as Hp. apply digit_free_tail in Hpre.
    destruct A as [|a A]; cbn [app] in E; injection E as -> E; [congruence|].
    destruct (IH A c B Hpre Hpost Hc E) as (d1 & d2 & -> & -> & ->).
    now exists d1, d2.
Qed.

Lemma digits_shape_head T :
  digits_shape U T -> exists c T', T = c :: T' /\ isdecimal U c = true.
Proof.
  intros [Hne Hd]. destruct T as [|c T']; [congruence|].
  cbn [forallb] in Hd. apply andb_prop in Hd as [Hc _]. now exists c, T'.
Qed.

Lemma rx_star_inv p st k m :
  rx U (Star p) st k = Some m ->
  exists ds r pv, m_rest st = ds ++ r /\ forallb (in_cls U p) ds = true /\
                  k (MS pv r (m_caps st)) = Some m.
Proof. cbn [rx]. apply star_inv. Qed.

(** The range pattern needs digits on both sides of its separator. *)
Lemma no_range_in_one_number (pre d post : text) :
  digit_free U pre = true -> forallb ascii_digit d = true -> digit_free U post = true ->
  re_search U range_pattern (pre ++ d ++ post) = None.
Proof.
  intros Hpre Hd Hpost. unfold re_search.
  destruct (search_from U range_pattern None (pre ++ d ++ post)) as [m|] eqn:S;
    [exfalso|reflexivity].
  apply search_found in S as (a & b & pv & E & M).
  unfold match_at, range_pattern in M. rewrite rx_seq in M.
  apply plus_captures in M as (T1 & r1 & pv1 & E1 & S1 & M).
  cbv beta in M. cbn [m_rest m_caps] in E1, M. subst b.
  rewrite rx_seq in M.
  apply rx_star_inv in M as (sp & r2 & pv2 & E2 & Hsp & M).
  cbv beta in M. cbn [m_rest m_caps] in E2, M. subst r1.
  rewrite rx_seq in M. apply cls_inv in M as (x & r3 & E3 & Hx & M).
  cbv beta in M. cbn [m_rest m_caps] in E3, M. subst r2.
  rewrite rx_seq in M.
  apply rx_star_inv in M as (sp' & r4 & pv4 & E4 & Hsp' & M).
  cbv beta in M. cbn [m_rest m_caps] in E4, M. subst r3.
  apply plus_captures in M as (T2 & r5 & pv5 & E5 & S2 & _).
  cbn [m_rest] in E5. subst r4.
  destruct (digits_shape_head T1 S1) as (c1 & T1' & -> & Hc1).
  destruct (digits_shape_head T2 S2) as (c2 & T2' & -> & Hc2).
  cbn [app] in E.
  symmetry in E.
  destruct (digit_inside pre d post a c1 _ Hpre Hpost Hc1 E) as (d1 & d2 & -> & _ & E2).
  rewrite forallb_app in Hd. apply andb_prop in Hd as [_ Hd]. cbn [forallb] in Hd.
  apply andb_prop in Hd as [_ Hd2].
  assert (E2' : (T1' ++ sp ++ x :: sp') ++ c2 :: T2' ++ r5 = [] ++ d2 ++ post).
  { rewrite <- !app_assoc. cbn [app]. rewrite <- ?app_assoc. exact E2. }
  destruct (digit_inside [] d2 post _ c2 _ eq_refl Hpost Hc2 E2') as (e1 & e2 & -> & E4 & _).
  cbn [app] in E4.
  assert (Hin : In x e1).
  { rewrite <- E4. apply in_or_app. right. apply in_or_app. right. now left. }
  rewrite forallb_app in Hd2. apply andb_prop in Hd2 as [He1 _].
  rewrite forallb_forall in He1. specialize (He1 x Hin).
  cbn [in_cls existsb] in Hx. unfold ascii_digit, between in He1.
  repeat match type of Hx with
         | (_ || _)%bool = true => apply orb_prop in Hx as [Hx|Hx]
         end; try discriminate; apply N.eqb_eq in Hx; subst x; discriminate.
Qed.

Lemma number_end_digit_free (d post : text) :
  d <> [] -> forallb (isdecimal U) d = true -> digit_free U post = true ->
  exists pv, number_end U (d ++ post) = Some (pv, post).
Proof.
  intros Hne Hd Hpost. destruct d as [|c ds]; [congruence|].
  cbn [forallb] in Hd. apply andb_prop in Hd as [Hc Hds].
  cbn [app number_end]. rewrite Hc.
  rewrite (skip_run_app (isdecimal U) ds post (Some c) Hds (head_not_decimal U post Hpost)).
  destruct post as [|dot [|c2 t2]]; try (eexists; reflexivity).
  apply digit_free_tail in Hpost. apply digit_free_head in Hpost.
  rewrite Hpost, andb_false_r. eexists; reflexivity.
Qed.

Lemma py_float_digits d :
  d <> [] -> forallb ascii_digit d = true ->
  py_float U d = Ok (float_of_decimal (decimal_value d) 0).
Proof.
  intros Hne Hd. unfold py_float.
  rewrite (cut_at_dot_digits U d (ascii_digits_decimal d Hd)).
  now rewrite (digits_number_digits U d Hne Hd).
Qed.

Lemma no_digit_nil w : no_digit U w = true -> forallb (isdigit_char U) w = true -> w = [].
Proof.
  destruct w as [|c w]; [reflexivity|]. unfold no_digit. cbn [forallb].
  intros H1 H2. apply andb_prop in H1 as [H1 _]. apply andb_prop in H2 as [H2 _].
  rewrite H2 in H1. discriminate.
Qed.

(** X12: a text with one run of digits, at most 4300 of them, among
    characters that are no digits: [parse_servings_to_int] returns the
    number the run denotes. *)
Theorem servings_single_number t (pre d post : text) :
  lower U (strip U t) = pre ++ d ++ post ->
  no_digit U pre = true -> no_digit U post = true ->
  d <> [] -> forallb ascii_digit d = true -> (Z.of_nat (length d) <= 4300)%Z ->
  (decimal_value d < 2 ^ 53)%Z ->
  parse_servings_to_int U (PyStr t) = Ok (decimal_value d).
Proof.
  intros Es Hpre Hpost Hne Hd Hl Hv.
  unfold parse_servings_to_int. rewrite Es.
  destruct (pre ++ d ++ post) eqn:E0.
  { exfalso. destruct pre; [destruct d; [congruence|discriminate]|discriminate]. }
  rewrite <- E0. clear E0.
  destruct (isdigit U (pre ++ d ++ post)) eqn:Dg.
  - unfold isdigit in Dg.
    destruct (pre ++ d ++ post) eqn:E0; [discriminate|]. rewrite <- E0 in *. clear E0.
    rewrite !forallb_app in Dg.
    apply andb_prop in Dg as [D1 D2]. apply andb_prop in D2 as [_ D3].
    rewrite (no_digit_nil pre Hpre D1), (no_digit_nil post Hpost D3), app_nil_r.
    cbn [app]. now apply py_int_digits.
  - pose proof (no_digit_free U pre Hpre) as Fpre.
    pose proof (no_digit_free U post Hpost) as Fpost.
    rewrite (no_range_in_one_number pre d post Fpre Hd Fpost).
    unfold re_search.
    rewrite search_skip; [|apply number_starts|exact Fpre].
    destruct (number_end_digit_free d post Hne (ascii_digits_decimal d Hd) Fpost) as [pv Ne].
    assert (M : match_at U number_pattern (after None pre) (d ++ post)
                = Some (MS pv post [(1, d)])).
    { unfold match_at, number_pattern.
      change (rx U (number 1) ?st Some) with (rx U (Seq (number 1) Eps) st Some).
      apply (number_first U 1 Eps _ _ _ _ _ pv post Ne).
      cbn [rx]. now rewrite firstn_consumed. }
    rewrite (search_here _ _ _ _ M).
    unfold float_of_group, group. cbn [m_caps lookup Nat.eqb].
    rewrite (py_float_digits d Hne Hd). cbn [bind].
    pose proof (decimal_value_nonneg d) as Hn.
    rewrite float_of_decimal_int by lia.
    apply round_nearest_float. lia.
Qed.

End FirstNumber.

(** ** Hours and minutes in words *)

Section UnitWords.
Variable U : Unicode.

Lemma second_pattern_eq : second_pattern = Seq (number 1) second_tail.
Proof. reflexivity. Qed.

Lemma plain_space_isspace c : plain_space c = true -> isspace U c = true.
Proof.
  unfold plain_space, isspace, class_of, is_ascii, ascii_class, between.
  intros H.
  assert (A : (c <? 128)%N = true).
  { apply N.ltb_lt.
    destruct (N.leb_spec 9 c), (N.leb_spec c 13), (N.leb_spec 28 c), (N.leb_spec c 31),
      (N.eqb_spec c 32); cbn in H; try discriminate; lia. }
  rewrite A. unfold between in H. now rewrite H.
Qed.

Lemma plain_spaces_isspace sp :
  forallb plain_space sp = true -> forallb (isspace U) sp = true.
Proof.
  induction sp as [|c sp IH]; [reflexivity|]. cbn [forallb]. intros H.
  apply andb_prop in H as [Hc Hs]. now rewrite (plain_space_isspace c Hc), IH.
Qed.

(** The tail of a unit pattern, after the white space. *)
Lemma tail_after_spaces K pv (sp r : text) caps k :
  (forall pv c t, isspace U c = true -> rx U K (MS pv (c :: t) caps) k = None) ->
  forallb (isspace U) sp = true ->
  match r with c :: _ => isspace U c = false | [] => True end ->
  rx U (Seq (Star CSpace) K) (MS pv (sp ++ r) caps) k = rx U K (MS (after pv sp) r caps) k.
Proof.
  intros HK Hsp Hr. rewrite rx_seq. cbn [rx m_rest m_prev m_caps].
  rewrite star_greedy.
  - change (in_cls U CSpace) with (isspace U).
    now rewrite (skip_run_app (isspace U) sp r pv Hsp Hr).
  - intros pv' c t Hc. now apply HK.
Qed.

Lemma hour_tail_eq :
  hour_tail = ltac:(let t := eval vm_compute in hour_tail in exact t).
Proof. reflexivity. Qed.

Lemma minute_tail_eq :
  minute_tail = ltac:(let t := eval vm_compute in minute_tail in exact t).
Proof. reflexivity. Qed.

Lemma second_tail_eq :
  second_tail = ltac:(let t := eval vm_compute in second_tail in exact t).
Proof. reflexivity. Qed.

Lemma space_is_not x c : isspace U x = false -> isspace U c = true -> (c =? x)%N = false.
Proof. intros Hx Hc. apply N.eqb_neq. intros ->. congruence. Qed.

Ltac letters c Hc :=
  rewrite ?(not_word U c 99%N Hc eq_refl), ?(not_word U c 100%N Hc eq_refl),
    ?(not_word U c 101%N Hc eq_refl), ?(not_word U c 104%N Hc eq_refl),
    ?(not_word U c 105%N Hc eq_refl), ?(not_word U c 109%N Hc eq_refl),
    ?(not_word U c 110%N Hc eq_refl), ?(not_word U c 111%N Hc eq_refl),
    ?(not_word U c 114%N Hc eq_refl), ?(not_word U c 115%N Hc eq_refl),
    ?(not_word U c 116%N Hc eq_refl), ?(not_word U c 117%N Hc eq_refl).

Ltac spaces c Hc :=
  rewrite ?(space_is_not 104%N c eq_refl Hc), ?(space_is_not 109%N c eq_refl Hc),
    ?(space_is_not 115%N c eq_refl Hc).

Ltac tail_run s Hs :=
  destruct s as [|?c ?s]; cbn [ends_word] in Hs;
  cbn [rx m_rest m_prev m_caps N.eqb Pos.eqb];
  [|match type of Hs with isword _ ?c = false => letters c Hs end];
  cbn [rx m_rest m_prev m_caps N.eqb Pos.eqb];
  unfold word_before, word_after; cbn [m_prev m_rest]; rewrite ?Hs; cbn;
  try (eexists; reflexivity); try reflexivity.

Lemma word_head_not_space w (s : text) :
  In w (hour_words ++ minute_words) ->
  match w ++ s with c :: _ => isspace U c = false | [] => True end.
Proof.
  intros Hw. cbv [hour_words minute_words map of_string list_ascii_of_string app] in Hw.
  cbn in Hw.
  repeat (destruct Hw as [<-|Hw]; [reflexivity|]). destruct Hw.
Qed.

Lemma hour_tail_hours pv (sp s : text) caps w :
  forallb plain_space sp = true -> In w hour_words -> ends_word U s ->
  exists pv', rx U hour_tail (MS pv (sp ++ w ++ s) caps) Some = Some (MS pv' s caps).
Proof.
  intros Hsp Hw Hs. apply plain_spaces_isspace in Hsp.
  rewrite hour_tail_eq. rewrite tail_after_spaces; [|intros pv' c t Hc|exact Hsp|].
  - cbv [hour_words map of_string list_ascii_of_string] in Hw. cbn in Hw.
    destruct Hw as [<-|[<-|[<-|[<-|[<-|[]]]]]]; cbn [app]; tail_run s Hs.
  - cbn [rx m_rest m_prev m_caps]. spaces c Hc. reflexivity.
  - apply word_head_not_space. apply in_or_app. now left.
Qed.

Lemma minute_tail_minutes pv (sp s : text) caps w :
  forallb plain_space sp = true -> In w minute_words -> ends_word U s ->
  exists pv', rx U minute_tail (MS pv (sp ++ w ++ s) caps) Some = Some (MS pv' s caps).
Proof.
  intros Hsp Hw Hs. apply plain_spaces_isspace in Hsp.
  rewrite minute_tail_eq. rewrite tail_after_spaces; [|intros pv' c t Hc|exact Hsp|].
  - cbv [minute_words map of_string list_ascii_of_string] in Hw. cbn in Hw.
    destruct Hw as [<-|[<-|[<-|[<-|[<-|[]]]]]]; cbn [app]; tail_run s Hs.
  - cbn [rx m_rest m_prev m_caps]. spaces c Hc. reflexivity.
  - apply word_head_not_space. apply in_or_app. now right.
Qed.

(** A tail fails before the words of the other units. *)
Lemma hour_tail_minutes pv (sp s : text) caps w :
  forallb plain_space sp = true -> In w minute_words ->
  rx U hour_tail (MS pv (sp ++ w ++ s) caps) Some = None.
Proof.
  intros Hsp Hw. apply plain_spaces_isspace in Hsp.
  rewrite hour_tail_eq. rewrite tail_after_spaces; [|intros pv' c t Hc|exact Hsp|].
  - cbv [minute_words map of_string list_ascii_of_string] in Hw. cbn in Hw.
    destruct Hw as [<-|[<-|[<-|[<-|[<-|[]]]]]]; reflexivity.
  - cbn [rx m_rest m_prev m_caps]. spaces c Hc. reflexivity.
  - apply word_head_not_space. apply in_or_app. now right.
Qed.

Lemma minute_tail_hours pv (sp s : text) caps w :
  forallb plain_space sp = true -> In w hour_words ->
  rx U minute_tail (MS pv (sp ++ w ++ s) caps) Some = None.
Proof.
  intros Hsp Hw. apply plain_spaces_isspace in Hsp.
  rewrite minute_tail_eq. rewrite tail_after_spaces; [|intros pv' c t Hc|exact Hsp|].
  - cbv [hour_words map of_string list_ascii_of_string] in Hw. cbn in Hw.
    destruct Hw as [<-|[<-|[<-|[<-|[<-|[]]]]]]; reflexivity.
  - cbn [rx m_rest m_prev m_caps]. spaces c Hc. reflexivity.
  - apply word_head_not_space. apply in_or_app. now left.
Qed.

Lemma second_tail_others pv (sp s : text) caps w :
  forallb plain_space sp = true -> In w (hour_words ++ minute_words) ->
  rx U second_tail (MS pv (sp ++ w ++ s) caps) Some = None.
Proof.
  intros Hsp Hw. apply plain_spaces_isspace in Hsp.
  rewrite second_tail_eq. rewrite tail_after_spaces; [|intros pv' c t Hc|exact Hsp|].
  - cbv [hour_words minute_words map of_string list_ascii_of_string app] in Hw. cbn in Hw.
    repeat (destruct Hw as [<-|Hw]; [reflexivity|]). destruct Hw.
  - cbn [rx m_rest m_prev m_caps]. spaces c Hc. reflexivity.
  - now apply word_head_not_space.
Qed.

Lemma word_not_led w (s : text) :
  In w (hour_words ++ minute_words) -> not_number_led U (w ++ s).
Proof.
  intros Hw. cbv [hour_words minute_words map of_string list_ascii_of_string app] in Hw.
  cbn in Hw.
  repeat (destruct Hw as [<-|Hw]; [split; [reflexivity|discriminate]|]). destruct Hw.
Qed.

Lemma plain_space_not_led c : plain_space c = true -> isdecimal U c = false /\ c <> 46%N.
Proof.
  intros H. split.
  - apply space_not_decimal. now apply plain_space_isspace.
  - intros ->. discriminate.
Qed.

Lemma quantity_not_led (sp : text) w (s : text) :
  forallb plain_space sp = true -> In w (hour_words ++ minute_words) ->
  not_number_led U (sp ++ w ++ s).
Proof.
  intros Hsp Hw. destruct sp as [|c sp]; cbn [app].
  - now apply word_not_led.
  - cbn [forallb] in Hsp. apply andb_prop in Hsp as [Hc _].
    cbn [not_number_led]. now apply plain_space_not_led.
Qed.

Lemma word_digit_free w : In w (hour_words ++ minute_words) -> digit_free U w = true.
Proof.
  intros Hw. cbv [hour_words minute_words map of_string list_ascii_of_string app] in Hw.
  cbn in Hw.
  repeat (destruct Hw as [<-|Hw]; [reflexivity|]). destruct Hw.
Qed.

Lemma spaces_digit_free sp : forallb plain_space sp = true -> digit_free U sp = true.
Proof.
  unfold digit_free. induction sp as [|c sp IH]; [reflexivity|]. cbn [forallb].
  intros H. apply andb_prop in H as [Hc Hs].
  rewrite (proj1 (plain_space_not_led c Hc)), IH by exact Hs. reflexivity.
Qed.

Lemma scan_of_any K pv s :
  rejects_number U K -> finditer_from U (Seq (number 1) K) pv s 0 = scan_of U K s.
Proof. intros R. now apply finditer_prev. Qed.

Lemma scan_other K c (s : text) :
  rejects_number U K -> isdecimal U c = false -> scan_of U K (c :: s) = scan_of U K s.
Proof.
  intros R Hc. unfold scan_of at 1. rewrite finditer_step_fail.
  - now apply scan_of_any.
  - unfold match_at. apply (seq_starts U _ _ (number_starts U 1)). exact Hc.
Qed.

Lemma scan_quantity_skip K (d sp : text) w (s : text) :
  rejects_number U K ->
  forallb ascii_digit d = true -> forallb plain_space sp = true ->
  In w (hour_words ++ minute_words) ->
  (forall pv caps, rx U K (MS pv (sp ++ w ++ s) caps) Some = None) ->
  scan_of U K (d ++ sp ++ w ++ s) = scan_of U K s.
Proof.
  intros R Hd Hsp Hw HK. unfold scan_of at 1.
  destruct (scan_digits U K R (sp ++ w ++ s) (quantity_not_led sp w s Hsp Hw) HK d None
              (ascii_digits_decimal U d Hd)) as [pv1 ->].
  destruct (scan_digit_free U K sp (w ++ s) pv1 R (spaces_digit_free sp Hsp)) as [pv2 ->].
  destruct (scan_digit_free U K w s pv2 R (word_digit_free w Hw)) as [pv3 ->].
  now apply scan_of_any.
Qed.

Lemma scan_quantity_match K (d sp : text) w (s : text) :
  rejects_number U K ->
  d <> [] -> forallb ascii_digit d = true -> forallb plain_space sp = true ->
  In w (hour_words ++ minute_words) ->
  (forall pv caps, exists pv',
     rx U K (MS pv (sp ++ w ++ s) caps) Some = Some (MS pv' s caps)) ->
  exists m0, scan_of U K (d ++ sp ++ w ++ s) = m0 :: scan_of U K s /\ group 1 m0 = Some d.
Proof.
  intros R Hne Hd Hsp Hw HK. unfold scan_of at 1.
  destruct (number_end_digits U d (sp ++ w ++ s) Hne (ascii_digits_decimal U d Hd)
              (quantity_not_led sp w s Hsp Hw)) as [pv1 Ne].
  destruct (HK pv1 [(1, d)]) as [pv2 Hm].
  assert (M : match_at U (Seq (number 1) K) None (d ++ sp ++ w ++ s)
              = Some (MS pv2 s [(1, d)])).
  { rewrite (match_at_number U 1 K None _ R), Ne. now rewrite firstn_consumed. }
  exists (MS pv2 s [(1, d)]). split; [|reflexivity].
  rewrite (finditer_step_match U _ None _ _ (d ++ sp ++ w) M).
  - cbn [m_rest]. f_equal. now apply scan_of_any.
  - cbn [m_rest]. now rewrite <- !app_assoc.
  - destruct d; [congruence|discriminate].
Qed.

Lemma second_tail_rejects : rejects_number U second_tail.
Proof.
  cbv [second_tail Opt lit lit_text of_string list_ascii_of_string map].
  repeat first [ apply rejects_spaces | apply rejects_alt | apply rejects_seq
               | apply rejects_chr; [reflexivity|discriminate] ].
Qed.

Lemma scan_of_nil K : scan_of U K [] = [].
Proof.
  unfold scan_of. cbn [finditer_from]. unfold match_at.
  now rewrite (seq_starts U _ _ (number_starts U 1)).
Qed.

Lemma quantities_nonneg s h m : quantities U s h m -> (0 <= h /\ 0 <= m)%Z.
Proof.
  induction 1 as [|c s h m Hc Q IH|d sp w s h m Hne Hd Hsp Hw He Q IH
                    |d sp w s h m Hne Hd Hsp Hw He Q IH];
    try pose proof (decimal_value_nonneg d); lia.
Qed.

Lemma float_of_digits_group m0 d :
  group 1 m0 = Some d -> d <> [] -> forallb ascii_digit d = true ->
  (decimal_value d < 2 ^ 53)%Z ->
  float_of_group U 1 m0 = Ok (nearest_float (decimal_value d)).
Proof.
  intros G Hne Hd Hv. unfold float_of_group. rewrite G.
  rewrite (py_float_digits U d Hne Hd). f_equal.
  apply float_of_decimal_int. pose proof (decimal_value_nonneg d). lia.
Qed.

(** The hours loop adds sixty times the hours of the text. *)
Lemma hours_total s h m :
  quantities U s h m ->
  forall n, (0 <= n)%Z -> (n + 60 * h < 2 ^ 53)%Z ->
  accumulate (fun mt => x <- float_of_group U 1 mt ;; Ok (fmul x f60))
             (scan_of U hour_tail s) (nearest_float n)
  = Ok (nearest_float (n + 60 * h)).
Proof.
  induction 1 as [|c s h m Hc Q IH|d sp w s h m Hne Hd Hsp Hw He Q IH
                    |d sp w s h m Hne Hd Hsp Hw He Q IH]; intros n Hn Hb.
  - rewrite scan_of_nil. cbn [accumulate]. do 2 f_equal. lia.
  - rewrite scan_other by (apply hour_tail_rejects || now apply isdigit_char_decimal).
    now apply IH.
  - destruct (quantities_nonneg _ _ _ Q) as [Hh Hm].
    pose proof (decimal_value_nonneg d) as Hv.
    destruct (scan_quantity_match hour_tail d sp w s (hour_tail_rejects U) Hne Hd Hsp
                ltac:(apply in_or_app; now left)
                ltac:(intros pv caps; now apply hour_tail_hours))
      as (m0 & -> & G).
    cbn [accumulate].
    rewrite (float_of_digits_group m0 d G Hne Hd) by lia. cbn [bind].
    rewrite f60_nearest, fmul_int by lia.
    rewrite fadd_int by lia.
    rewrite IH by lia. do 2 f_equal. lia.
  - rewrite scan_quantity_skip;
      [now apply IH|apply hour_tail_rejects|exact Hd|exact Hsp
      |apply in_or_app; now right|].
    intros pv caps. now apply hour_tail_minutes.
Qed.

(** The minutes loop adds the minutes of the text. *)
Lemma minutes_total s h m :
  quantities U s h m ->
  forall n, (0 <= n)%Z -> (n + m < 2 ^ 53)%Z ->
  accumulate (fun mt => float_of_group U 1 mt)
             (scan_of U minute_tail s) (nearest_float n)
  = Ok (nearest_float (n + m)).
Proof.
  induction 1 as [|c s h m Hc Q IH|d sp w s h m Hne Hd Hsp Hw He Q IH
                    |d sp w s h m Hne Hd Hsp Hw He Q IH]; intros n Hn Hb.
  - rewrite scan_of_nil. cbn [accumulate]. do 2 f_equal. lia.
  - rewrite scan_other by (apply minute_tail_rejects || now apply isdigit_char_decimal).
    now apply IH.
  - rewrite scan_quantity_skip;
      [now apply IH|apply minute_tail_rejects|exact Hd|exact Hsp
      |apply in_or_app; now left|].
    intros pv caps. now apply minute_tail_hours.
  - destruct (quantities_nonneg _ _ _ Q) as [Hh Hm].
    pose proof (decimal_value_nonneg d) as Hv.
    destruct (scan_quantity_match minute_tail d sp w s (minute_tail_rejects U) Hne Hd Hsp
                ltac:(apply in_or_app; now right)
                ltac:(intros pv caps; now apply minute_tail_minutes))
      as (m0 & -> & G).
    cbn [accumulate].
    rewrite (float_of_digits_group m0 d G Hne Hd) by lia. cbn [bind].
    rewrite fadd_int by lia.
    rewrite IH by lia. do 2 f_equal. lia.
Qed.

(** The seconds loop finds nothing. *)
Lemma seconds_none s h m : quantities U s h m -> scan_of U second_tail s = [].
Proof.
  induction 1 as [|c s h m Hc Q IH|d sp w s h m Hne Hd Hsp Hw He Q IH
                    |d sp w s h m Hne Hd Hsp Hw He Q IH].
  - apply scan_of_nil.
  - rewrite scan_other by (apply second_tail_rejects || now apply isdigit_char_decimal).
    exact IH.
  - rewrite scan_quantity_skip;
      [exact IH|apply second_tail_rejects|exact Hd|exact Hsp
      |apply in_or_app; now left|].
    intros pv caps. apply second_tail_others; [exact Hsp|apply in_or_app; now left].
  - rewrite scan_quantity_skip;
      [exact IH|apply second_tail_rejects|exact Hd|exact Hsp
      |apply in_or_app; now right|].
    intros pv caps. apply second_tail_others; [exact Hsp|apply in_or_app; now right].
Qed.

Lemma unit_words_quantities s h m :
  quantities U s h m -> (60 * h + m < 2 ^ 53)%Z ->
  unit_words U s = Ok (nearest_float (60 * h + m)).
Proof.
  intros Q Hb. destruct (quantities_nonneg _ _ _ Q) as [Hh Hm].
  unfold unit_words, finditer.
  rewrite hour_pattern_eq, minute_pattern_eq, second_pattern_eq.
  fold (scan_of U hour_tail s). fold (scan_of U minute_tail s).
  fold (scan_of U second_tail s).
  change f0 with (nearest_float 0).
  rewrite (hours_total s h m Q 0) by lia. cbn [bind].
  rewrite (minutes_total s h m Q) by lia. cbn [bind].
  rewrite (seconds_none s h m Q). cbn [accumulate]. do 2 f_equal.
Qed.

Lemma replace_app a b (x y : text) : replace a b (x ++ y) = replace a b x ++ replace a b y.
Proof. apply map_app. Qed.

Lemma replace_id a b (x : text) :
  forallb (fun c => negb (c =? a)%N) x = true -> replace a b x = x.
Proof.
  unfold replace. induction x as [|c x IH]; [reflexivity|]. cbn [forallb map].
  intros H. apply andb_prop in H as [Hc Hx]. apply negb_true_iff in Hc.
  now rewrite Hc, IH.
Qed.

Lemma digits_without a d :
  ascii_digit a = false -> forallb ascii_digit d = true ->
  forallb (fun c => negb (c =? a)%N) d = true.
Proof.
  intros Ha. induction d as [|c d IH]; [reflexivity|]. cbn [forallb].
  intros H. apply andb_prop in H as [Hc Hd]. rewrite (IH Hd), andb_true_r.
  apply negb_true_iff, N.eqb_neq. intros ->. congruence.
Qed.

Lemma spaces_without a sp :
  plain_space a = false -> forallb plain_space sp = true ->
  forallb (fun c => negb (c =? a)%N) sp = true.
Proof.
  intros Ha. induction sp as [|c sp IH]; [reflexivity|]. cbn [forallb].
  intros H. apply andb_prop in H as [Hc Hd]. rewrite (IH Hd), andb_true_r.
  apply negb_true_iff, N.eqb_neq. intros ->. congruence.
Qed.

Lemma ends_word_replace a b s :
  isword U b = false -> ends_word U s -> ends_word U (replace a b s).
Proof.
  intros Hb. destruct s as [|c s]; [easy|]. cbn [replace map ends_word].
  now destruct (c =? a)%N.
Qed.

(** Replacing a character that is no part of a quantity by one that is
    neither a digit nor a word character leaves the quantities as they are. *)
Lemma quantities_replace a b s h m :
  ascii_digit a = false -> plain_space a = false ->
  (forall w, In w (hour_words ++ minute_words) ->
             forallb (fun c => negb (c =? a)%N) w = true) ->
  isdigit_char U b = false -> isword U b = false ->
  quantities U s h m -> quantities U (replace a b s) h m.
Proof.
  intros Ha Hs Hw Hb Wb.
  induction 1 as [|c s h m Hc Q IH|d sp w s h m Hne Hd Hsp Hin He Q IH
                    |d sp w s h m Hne Hd Hsp Hin He Q IH].
  - constructor.
  - cbn [replace map]. apply quantities_other; [|exact IH].
    now destruct (c =? a)%N.
  - rewrite !replace_app.
    rewrite (replace_id a b d (digits_without a d Ha Hd)).
    rewrite (replace_id a b sp (spaces_without a sp Hs Hsp)).
    rewrite (replace_id a b w (Hw w ltac:(apply in_or_app; now left))).
    apply quantities_hours; try assumption. now apply ends_word_replace.
  - rewrite !replace_app.
    rewrite (replace_id a b d (digits_without a d Ha Hd)).
    rewrite (replace_id a b sp (spaces_without a sp Hs Hsp)).
    rewrite (replace_id a b w (Hw w ltac:(apply in_or_app; now right))).
    apply quantities_minutes; try assumption. now apply ends_word_replace.
Qed.

Lemma words_without a :
  ~ In a (concat (hour_words ++ minute_words)) ->
  forall w, In w (hour_words ++ minute_words) ->
            forallb (fun c => negb (c =? a)%N) w = true.
Proof.
  intros Ha w Hw. apply forallb_forall. intros c Hc.
  apply negb_true_iff, N.eqb_neq. intros ->. apply Ha.
  apply in_concat. now exists w.
Qed.

Lemma quantities_normal s h m :
  quantities U s h m ->
  quantities U (replace 8212 45 (replace 8211 45 (replace 44 32 s))) h m.
Proof.
  intros Q.
  apply quantities_replace; try reflexivity;
    [apply words_without; cbn; intuition discriminate|].
  apply quantities_replace; try reflexivity;
    [apply words_without; cbn; intuition discriminate|].
  apply quantities_replace; try reflexivity;
    [apply words_without; cbn; intuition discriminate|].
  exact Q.
Qed.

Lemma starts_pt_replace a b s :
  a <> 112%N -> a <> 116%N -> b <> 112%N -> b <> 116%N ->
  starts_with (of_string "pt") (replace a b s) = starts_with (of_string "pt") s.
Proof.
  intros A1 A2 B1 B2. change (of_string "pt") with [112%N; 116%N].
  assert (E : forall x c, a <> x -> b <> x ->
                (x =? (if (c =? a)%N then b else c))%N = (x =? c)%N).
  { intros x c Ax Bx. destruct (N.eqb_spec c a) as [->|N]; [|reflexivity].
    rewrite (proj2 (N.eqb_neq x a)) by congruence.
    apply N.eqb_neq. congruence. }
  destruct s as [|c1 [|c2 s]]; cbn [replace map starts_with]; [reflexivity| |].
  - now rewrite E.
  - now rewrite !E.
Qed.

(** The ISO pattern matches only a text that starts with [pt]. *)
Lemma iso_needs_pt s :
  starts_with (of_string "pt") s = false -> re_match U iso_pattern s = None.
Proof.
  intros H. destruct (re_match U iso_pattern s) as [m|] eqn:M; [exfalso|reflexivity].
  unfold re_match, match_at in M. rewrite iso_pattern_eq in M. rewrite rx_seq in M.
  change (rx U Bos (MS None s []) ?k) with (k (MS None s [])) in M.
  cbv beta in M. rewrite !rx_seq in M.
  apply chr_inv in M as (t1 & E1 & M). cbn [m_rest m_caps] in E1, M. subst s.
  apply chr_inv in M as (t2 & E2 & M). cbn [m_rest m_caps] in E2, M. subst t1.
  discriminate H.
Qed.

Lemma quantities_letter s h m :
  quantities U s h m -> (0 < 60 * h + m)%Z ->
  exists (x : text) c (y : text), s = x ++ c :: y /\ (c = 104%N \/ c = 109%N).
Proof.
  induction 1 as [|c s h m Hc Q IH|d sp w s h m Hne Hd Hsp Hin He Q IH
                    |d sp w s h m Hne Hd Hsp Hin He Q IH]; intros Hv.
  - lia.
  - destruct (IH Hv) as (x & c' & y & -> & Hc'). now exists (c :: x), c', y.
  - assert (exists w', w = 104%N :: w') as [w' ->].
    { cbv [hour_words map of_string list_ascii_of_string] in Hin. cbn in Hin.
      repeat (destruct Hin as [<-|Hin]; [eexists; reflexivity|]). destruct Hin. }
    exists (d ++ sp), 104%N, (w' ++ s). split; [now rewrite <- app_assoc|now left].
  - assert (exists w', w = 109%N :: w') as [w' ->].
    { cbv [minute_words map of_string list_ascii_of_string] in Hin. cbn in Hin.
      repeat (destruct Hin as [<-|Hin]; [eexists; reflexivity|]). destruct Hin. }
    exists (d ++ sp), 109%N, (w' ++ s). split; [now rewrite <- app_assoc|now right].
Qed.

Lemma clock_chars s parts c :
  clock_shape U s parts -> In c s -> isdecimal U c = true \/ c = 58%N.
Proof.
  assert (D : forall T, digits_shape U T -> In c T -> isdecimal U c = true).
  { intros T [_ HT] Hc. rewrite forallb_forall in HT. now apply HT. }
  intros [hh mi Hh Hmi _|hh mi sec Hh Hmi _ Hsec _] Hc.
  - apply in_app_or in Hc as [Hc|[<-|Hc]]; [left; now apply (D hh)|now right|].
    left; now apply (D mi).
  - apply in_app_or in Hc as [Hc|[<-|Hc]]; [left; now apply (D hh)|now right|].
    apply in_app_or in Hc as [Hc|[<-|Hc]]; [left; now apply (D mi)|now right|].
    left; now apply (D sec).
Qed.

(** X13: a text made of quantities of hours and of minutes in words.
    [parse_time_to_minutes] returns sixty times the hours plus the
    minutes, all of them added up. *)
Theorem hours_and_minutes_add_up t h m :
  quantities U (lower U (strip U t)) h m ->
  starts_with (of_string "pt") (lower U (strip U t)) = false ->
  (0 < 60 * h + m < 2 ^ 53)%Z ->
  parse_time_to_minutes U (PyStr t) = Ok (60 * h + m)%Z.
Proof.
  intros Q Hpt Hv. unfold parse_time_to_minutes.
  set (s := lower U (strip U t)) in *.
  destruct (quantities_letter s h m Q ltac:(lia)) as (x & c & y & Es & Hc).
  assert (Hdig : isdigit_char U c = false) by (destruct Hc as [-> | ->]; reflexivity).
  assert (Dg : isdigit U s = false) by (rewrite Es; now apply isdigit_with).
  assert (Cl : re_fullmatch U colon_pattern s = None).
  { destruct (re_fullmatch U colon_pattern s) as [mc|] eqn:M; [exfalso|reflexivity].
    destruct (colon_inv U s mc M) as [parts P].
    assert (Hin : In c s) by (rewrite Es; apply in_elt).
    destruct (clock_chars s parts c P Hin) as [D|E];
      destruct Hc as [-> | ->]; discriminate. }
  destruct s as [|c0 s0] eqn:E0; [destruct x; discriminate|].
  rewrite <- E0 in *. rewrite Dg, Cl. cbv zeta.
  set (s' := replace 8212 45 (replace 8211 45 (replace 44 32 s))).
  assert (Hpt' : starts_with (of_string "pt") s' = false).
  { unfold s'. rewrite !starts_pt_replace by discriminate. exact Hpt. }
  rewrite (iso_needs_pt s' Hpt').
  rewrite (unit_words_quantities s' h m (quantities_normal s h m Q)) by lia.
  cbn [bind]. rewrite nearest_float_nonzero by lia. cbn [bind].
  unfold bare_number. rewrite nearest_float_nonzero by lia. cbn [bind].
  apply round_nearest_float. lia.
Qed.

End UnitWords.

(** ** ISO durations *)

Section IsoDurations.
Variable U : Unicode.

Lemma rx_alt a b st k :
  rx U (Alt a b) st k = match rx U a st k with Some m => Some m | None => rx U b st k end.
Proof. reflexivity. Qed.

(** An optional field of the ISO pattern that is present. *)
Lemma iso_field_present n x (d rest : text) pv caps k m :
  d <> [] -> forallb ascii_digit d = true ->
  isdecimal U x = false -> x <> 46%N ->
  k (MS (Some x) rest ((n, d) :: caps)) = Some m ->
  rx U (Opt (Seq (number n) (Chr x))) (MS pv (d ++ x :: rest) caps) k = Some m.
Proof.
  intros Hne Hd Dx Nx Hk. unfold Opt. rewrite rx_alt.
  destruct (number_end_digits U d (x :: rest) Hne (ascii_digits_decimal U d Hd)
              (conj Dx Nx)) as [pv1 Ne].
  rewrite (number_first U n (Chr x) pv (d ++ x :: rest) caps k m pv1 (x :: rest) Ne);
    [reflexivity|].
  rewrite firstn_consumed. cbn [rx m_rest m_caps]. now rewrite N.eqb_refl.
Qed.

(** An optional field of the ISO pattern that is absent: the text goes on
    with another field, or ends. *)
Lemma iso_field_absent n x (rest : text) pv caps k :
  isdecimal U x = false -> x <> 46%N ->
  rest = [] \/
  (exists (d : text) y (r : text),
     rest = d ++ y :: r /\ d <> [] /\ forallb ascii_digit d = true /\
     isdecimal U y = false /\ y <> 46%N /\ y <> x) ->
  rx U (Opt (Seq (number n) (Chr x))) (MS pv rest caps) k = k (MS pv rest caps).
Proof.
  intros Dx Nx Hr. unfold Opt. rewrite rx_alt.
  assert (E : rx U (Seq (number n) (Chr x)) (MS pv rest caps) k = None).
  { destruct Hr as [->|(d & y & r & -> & Hne & Hd & Dy & Ny & Nyx)].
    - apply (seq_starts U _ _ (number_starts U n)). exact I.
    - rewrite (number_greedy U n (Chr x) pv _ caps k (rejects_chr U x Dx Nx)).
      destruct (number_end_digits U d (y :: r) Hne (ascii_digits_decimal U d Hd)
                  (conj Dy Ny)) as [pv1 ->].
      cbn [rx m_rest m_caps]. now rewrite (proj2 (N.eqb_neq y x) Nyx). }
  now rewrite E.
Qed.

Lemma fdiv_0_60 : fdiv f0 f60 = f0.
Proof. reflexivity. Qed.

Lemma iso_total hv mv :
  (0 <= hv)%Z -> (0 <= mv)%Z -> (60 * hv + mv < 2 ^ 53)%Z ->
  py_round (fadd (fadd (fmul (nearest_float hv) f60) (nearest_float mv)) (fdiv f0 f60))
  = Ok (60 * hv + mv)%Z.
Proof.
  intros Hh Hm Hb. rewrite fdiv_0_60, f60_nearest.
  rewrite fmul_int by lia. rewrite fadd_int by lia.
  rewrite fadd_0_r by (apply nearest_float_wf; lia).
  replace (hv * 60 + mv)%Z with (60 * hv + mv)%Z by lia.
  apply round_nearest_float. lia.
Qed.

Lemma digits_unchanged a b d :
  ascii_digit a = false -> forallb ascii_digit d = true -> replace a b d = d.
Proof. intros Ha Hd. apply replace_id. now apply digits_without. Qed.

Lemma iso_field_unchanged a b o x :
  ascii_digit a = false -> a <> x -> iso_field_digits o ->
  replace a b (iso_field o x) = iso_field o x.
Proof.
  intros Ha Hx Ho. destruct o as [d|]; [|reflexivity]. destruct Ho as [_ Hd].
  cbn [iso_field]. rewrite replace_app, (digits_unchanged a b d Ha Hd).
  cbn [replace map]. now rewrite (proj2 (N.eqb_neq x a)) by congruence.
Qed.

Lemma float_of_field n m o :
  iso_field_digits o -> (iso_field_value o < 2 ^ 53)%Z ->
  group n m = o ->
  float_of_group_or_zero U n m = Ok (nearest_float (iso_field_value o)).
Proof.
  intros Ho Hv G. unfold float_of_group_or_zero. rewrite G.
  destruct o as [d|]; [|reflexivity]. destruct Ho as [Hne Hd]. cbn [iso_field_value] in *.
  destruct d as [|c d']; [congruence|].
  rewrite (py_float_digits U (c :: d') Hne Hd). f_equal.
  apply float_of_decimal_int. pose proof (decimal_value_nonneg (c :: d')). lia.
Qed.

(** X14: an ISO duration of hours and minutes, [PT<h>H<m>M] with either
    field or both left out, in either case of its letters.
    [parse_time_to_minutes] returns sixty times the hours plus the minutes. *)
Theorem iso_hours_and_minutes t hh mm :
  lower U (strip U t) = of_string "pt" ++ iso_field hh 104 ++ iso_field mm 109 ->
  iso_field_digits hh -> iso_field_digits mm ->
  (60 * iso_field_value hh + iso_field_value mm < 2 ^ 53)%Z ->
  parse_time_to_minutes U (PyStr t)
  = Ok (60 * iso_field_value hh + iso_field_value mm)%Z.
Proof.
  intros Es Hh Hm Hb. unfold parse_time_to_minutes. rewrite Es.
  assert (Hhv : (0 <= iso_field_value hh)%Z)
    by (destruct hh; cbn; [apply decimal_value_nonneg|lia]).
  assert (Hmv : (0 <= iso_field_value mm)%Z)
    by (destruct mm; cbn; [apply decimal_value_nonneg|lia]).
  set (s := of_string "pt" ++ iso_field hh 104 ++ iso_field mm 109).
  assert (Hs : s = 112%N :: 116%N :: iso_field hh 104 ++ iso_field mm 109) by reflexivity.
  assert (Dg : isdigit U s = false) by (rewrite Hs; reflexivity).
  assert (Cl : re_fullmatch U colon_pattern s = None).
  { destruct (re_fullmatch U colon_pattern s) as [mc|] eqn:M; [exfalso|reflexivity].
    destruct (colon_inv U _ mc M) as [parts P].
    pose proof (clock_starts_digit U _ _ P) as D. rewrite Hs in D. discriminate D. }
  assert (R : forall a b, ascii_digit a = false -> a <> 112%N -> a <> 116%N ->
                a <> 104%N -> a <> 109%N -> replace a b s = s).
  { intros a b Ha A1 A2 A3 A4. unfold s.
    rewrite !replace_app, !iso_field_unchanged by auto.
    change (of_string "pt") with [112%N; 116%N]. cbn [replace map].
    rewrite (proj2 (N.eqb_neq 112 a)), (proj2 (N.eqb_neq 116 a)) by congruence.
    reflexivity. }
  destruct s as [|c0 s0] eqn:E0; [discriminate|]. rewrite <- E0 in *.
  rewrite Dg, Cl. cbv zeta.
  rewrite !R by (reflexivity || discriminate).
  rewrite Hs.
  assert (M : exists mi,
             re_match U iso_pattern (112%N :: 116%N :: iso_field hh 104 ++ iso_field mm 109)
             = Some mi /\
             group 1 mi = hh /\ group 2 mi = mm /\ group 3 mi = None).
  { unfold re_match, match_at. rewrite iso_pattern_eq. rewrite rx_seq.
    change (rx U Bos (MS None ?s []) ?k) with (k (MS None s [])). cbv beta.
    rewrite !rx_seq. cbn [rx m_rest m_caps N.eqb Pos.eqb].
    fold (Opt (Seq (number 1) (Chr 104))). fold (Opt (Seq (number 2) (Chr 109))).
    fold (Opt (Seq (number 3) (Chr 115))).
    destruct hh as [dh|], mm as [dm|]; cbn [iso_field app iso_field_digits] in *.
    - destruct Hh as [Nh Dh], Hm as [Nm Dm]. eexists. split.
      + rewrite <- app_assoc. cbn [app].
        apply iso_field_present; [assumption..|reflexivity|discriminate|].
        apply iso_field_present; [assumption..|reflexivity|discriminate|].
        rewrite iso_field_absent by (reflexivity || discriminate || now left).
        reflexivity.
      + repeat split.
    - destruct Hh as [Nh Dh]. eexists. split.
      + rewrite app_nil_r.
        apply iso_field_present; [assumption..|reflexivity|discriminate|].
        rewrite iso_field_absent by (reflexivity || discriminate || now left).
        rewrite iso_field_absent by (reflexivity || discriminate || now left).
        reflexivity.
      + repeat split.
    - destruct Hm as [Nm Dm]. eexists. split.
      + rewrite iso_field_absent; [|reflexivity|discriminate|].
        * apply iso_field_present; [assumption..|reflexivity|discriminate|].
          rewrite iso_field_absent by (reflexivity || discriminate || now left).
          reflexivity.
        * right. exists dm, 109%N, [].
          repeat split; try assumption; try reflexivity; discriminate.
      + repeat split.
    - eexists. split.
      + rewrite !iso_field_absent by (reflexivity || discriminate || now left).
        reflexivity.
      + repeat split. }
  destruct M as (mi & -> & G1 & G2 & G3).
  unfold iso_minutes.
  rewrite (float_of_field 1 mi hh Hh ltac:(lia) G1). cbn [bind].
  rewrite (float_of_field 2 mi mm Hm ltac:(lia) G2). cbn [bind].
  rewrite (float_of_field 3 mi None I ltac:(cbn; lia) G3). cbn [bind iso_field_value].
  change (nearest_float 0) with f0.
  now apply iso_total.
Qed.

End IsoDurations.

(** ** A number without a unit *)

Section BareNumber.
Variable U : Unicode.

Lemma needs_chr x : needs_letter U x (Chr x).
Proof.
  intros st k m H. apply chr_inv in H as (t & E & _). rewrite E. now left.
Qed.

Lemma needs_seq x a b : needs_letter U x a -> needs_letter U x (Seq a b).
Proof. intros Ha st k m H. rewrite rx_seq in H. now apply Ha in H. Qed.

Lemma needs_alt x a b :
  needs_letter U x a -> needs_letter U x b -> needs_letter U x (Alt a b).
Proof.
  intros Ha Hb st k m H.
  apply rx_alt_inv in H as [H|H]; [now apply Ha in H|now apply Hb in H].
Qed.

Lemma needs_after_star x p b : needs_letter U x b -> needs_letter U x (Seq (Star p) b).
Proof.
  intros Hb st k m H. rewrite rx_seq in H.
  apply rx_star_inv in H as (ds & r & pv & E & _ & H). cbv beta in H.
  apply Hb in H. cbn [m_rest] in H. rewrite E. apply in_or_app. now right.
Qed.

Ltac needs :=
  repeat first [ apply needs_after_star | apply needs_alt | apply needs_seq
               | apply needs_chr ].

Lemma hour_tail_needs : needs_letter U 104%N hour_tail.
Proof. rewrite hour_tail_eq. needs. Qed.

Lemma minute_tail_needs : needs_letter U 109%N minute_tail.
Proof. rewrite minute_tail_eq. needs. Qed.

Lemma second_tail_needs : needs_letter U 115%N second_tail.
Proof. rewrite second_tail_eq. needs. Qed.

Lemma compact_h_tail_needs : needs_letter U 104%N compact_h_tail.
Proof. unfold compact_h_tail. needs. Qed.

Lemma compact_m_tail_needs : needs_letter U 109%N compact_m_tail.
Proof. unfold compact_m_tail. needs. Qed.

Lemma fails_without x K pv (r : text) caps k :
  needs_letter U x K -> ~ In x r -> rx U K (MS pv r caps) k = None.
Proof.
  intros HK Hx. destruct (rx U K (MS pv r caps) k) as [m|] eqn:E; [exfalso|reflexivity].
  apply HK in E. now apply Hx.
Qed.

Lemma unit_free_letters w :
  unit_free w = true -> ~ In 104%N w /\ ~ In 109%N w /\ ~ In 115%N w.
Proof.
  unfold unit_free. rewrite forallb_forall. intros H.
  repeat split; intros Hin; specialize (H _ Hin); discriminate.
Qed.

Lemma unit_free_replace a b w :
  b <> 104%N -> b <> 109%N -> b <> 115%N ->
  unit_free w = true -> unit_free (replace a b w) = true.
Proof.
  intros B1 B2 B3. unfold unit_free, replace.
  induction w as [|c w IH]; [reflexivity|]. cbn [forallb map].
  intros H. apply andb_prop in H as [Hc Hw]. rewrite (IH Hw), andb_true_r.
  destruct (c =? a)%N; [|exact Hc].
  rewrite !(proj2 (N.eqb_neq b _)) by assumption. reflexivity.
Qed.

(** The scan of a unit pattern over a text whose one number is followed
    by no unit finds nothing. *)
Lemma scan_number_alone K (pre d post : text) :
  rejects_number U K ->
  (forall pv caps, rx U K (MS pv post caps) Some = None) ->
  digit_free U pre = true -> forallb (isdecimal U) d = true -> digit_free U post = true ->
  finditer U (Seq (number 1) K) (pre ++ d ++ post) = [].
Proof.
  intros R HK Hpre Hd Hpost. unfold finditer.
  destruct (scan_digit_free U K pre (d ++ post) None R Hpre) as [pv ->].
  revert pv. induction d as [|c d IH]; intros pv.
  - cbn [app]. apply finditer_digit_free; [|exact Hpost].
    apply seq_starts, number_starts.
  - assert (Hd' := Hd). cbn [forallb] in Hd. apply andb_prop in Hd as [Hc Hds].
    destruct (number_end_digit_free U (c :: d) post ltac:(discriminate) Hd' Hpost)
      as [pv1 E].
    cbn [app] in *. rewrite finditer_step_fail; [now apply IH|].
    rewrite (match_at_number U 1 K pv _ R), E. apply HK.
Qed.

Lemma compact_hm_pattern_eq :
  compact_hm_pattern
  = Seq (number 1) (Seq (Chr 104) (Seq (Star CSpace) (Seq (number 2) (Chr 109)))).
Proof. reflexivity. Qed.

Lemma clock_ends_digit s parts :
  clock_shape U s parts -> exists (x : text) c, s = x ++ [c] /\ isdecimal U c = true.
Proof.
  assert (D : forall T, digits_shape U T ->
                exists (x : text) c, T = x ++ [c] /\ isdecimal U c = true).
  { intros T [Hne HT]. destruct (exists_last Hne) as (x & c & ->).
    exists x, c. split; [reflexivity|].
    rewrite forallb_app in HT. apply andb_prop in HT as [_ HT]. cbn in HT.
    now rewrite andb_true_r in HT. }
  intros [hh mi Hh Hmi _|hh mi sec Hh Hmi _ Hsec _].
  - destruct (D mi Hmi) as (x & c & -> & Hc). exists (hh ++ 58%N :: x), c.
    split; [now rewrite <- app_assoc|exact Hc].
  - destruct (D sec Hsec) as (x & c & -> & Hc). exists (hh ++ 58%N :: mi ++ 58%N :: x), c.
    split; [|exact Hc]. rewrite <- app_assoc. cbn [app]. now rewrite <- app_assoc.
Qed.

Lemma clock_has_colon s parts : clock_shape U s parts -> In 58%N s.
Proof. intros [hh mi _ _ _|hh mi sec _ _ _ _ _]; apply in_elt. Qed.

(** A text with one run of digits is no clock text. *)
Lemma one_number_no_clock (pre d post : text) :
  digit_free U pre = true -> forallb ascii_digit d = true -> digit_free U post = true ->
  re_fullmatch U colon_pattern (pre ++ d ++ post) = None.
Proof.
  intros Hpre Hd Hpost.
  destruct (re_fullmatch U colon_pattern (pre ++ d ++ post)) as [m|] eqn:M;
    [exfalso|reflexivity].
  destruct (colon_inv U _ m M) as [parts P].
  pose proof (clock_starts_digit U _ _ P) as Hh.
  destruct pre as [|p pre].
  2:{ cbn [app] in Hh. rewrite (digit_free_head U p pre Hpre) in Hh. discriminate. }
  cbn [app] in *.
  destruct (clock_ends_digit _ _ P) as (x & c & E & Hc).
  pose proof (clock_has_colon _ _ P) as Hcol.
  destruct post as [|q post].
  - rewrite app_nil_r in Hcol. rewrite forallb_forall in Hd.
    specialize (Hd _ Hcol). discriminate.
  - destruct (@exists_last _ (q :: post) ltac:(discriminate)) as (y & c' & Ey).
    rewrite Ey, app_assoc in E. apply app_inj_tail in E as [_ ->].
    rewrite Ey in Hpost. unfold digit_free in Hpost. rewrite forallb_app in Hpost.
    apply andb_prop in Hpost as [_ Hpost]. cbn in Hpost. now rewrite Hc in Hpost.
Qed.

(** X15: a text with one run of digits, at most 4300 of them, and, after
    it, none of the letters [h], [m] and [s]: [parse_time_to_minutes]
    finds no unit and returns the number the run denotes. *)
Theorem time_single_number t (pre d post : text) :
  lower U (strip U t) = pre ++ d ++ post ->
  no_digit U pre = true -> no_digit U post = true -> unit_free post = true ->
  starts_with (of_string "pt") (pre ++ d ++ post) = false ->
  d <> [] -> forallb ascii_digit d = true -> (Z.of_nat (length d) <= 4300)%Z ->
  (decimal_value d < 2 ^ 53)%Z ->
  parse_time_to_minutes U (PyStr t) = Ok (decimal_value d).
Proof.
  intros Es Hpre Hpost Hunit Hpt Hne Hd Hl Hv.
  unfold parse_time_to_minutes. rewrite Es.
  pose proof (decimal_value_nonneg d) as Hn.
  destruct (pre ++ d ++ post) eqn:E0.
  { exfalso. destruct pre; [destruct d; [congruence|discriminate]|discriminate]. }
  rewrite <- E0 in *. clear E0.
  destruct (isdigit U (pre ++ d ++ post)) eqn:Dg.
  { unfold isdigit in Dg.
    destruct (pre ++ d ++ post) eqn:E0; [discriminate|]. rewrite <- E0 in *. clear E0.
    rewrite !forallb_app in Dg.
    apply andb_prop in Dg as [D1 D2]. apply andb_prop in D2 as [_ D3].
    rewrite (no_digit_nil U pre Hpre D1), (no_digit_nil U post Hpost D3), app_nil_r.
    cbn [app]. now apply py_int_digits. }
  pose proof (no_digit_free U pre Hpre) as Fpre.
  pose proof (no_digit_free U post Hpost) as Fpost.
  rewrite (one_number_no_clock pre d post Fpre Hd Fpost). cbv zeta.
  set (pre' := replace 8212 45 (replace 8211 45 (replace 44 32 pre))).
  set (post' := replace 8212 45 (replace 8211 45 (replace 44 32 post))).
  assert (Er : replace 8212 45 (replace 8211 45 (replace 44 32 (pre ++ d ++ post)))
               = pre' ++ d ++ post').
  { rewrite !replace_app. unfold pre', post'.
    now rewrite !(digits_unchanged _ _ d) by (reflexivity || assumption). }
  rewrite Er.
  assert (Fpre' : digit_free U pre' = true)
    by (unfold pre'; repeat apply digit_free_replace; reflexivity || assumption).
  assert (Fpost' : digit_free U post' = true)
    by (unfold post'; repeat apply digit_free_replace; reflexivity || assumption).
  assert (Hunit' : unit_free post' = true)
    by (unfold post'; repeat apply unit_free_replace; discriminate || assumption).
  destruct (unit_free_letters post' Hunit') as (Nh & Nm & Ns).
  assert (Hpt' : starts_with (of_string "pt") (pre' ++ d ++ post') = false).
  { rewrite <- Er. rewrite !starts_pt_replace by discriminate. exact Hpt. }
  rewrite (iso_needs_pt U _ Hpt').
  pose proof (ascii_digits_decimal U d Hd) as Dd.
  assert (W : unit_words U (pre' ++ d ++ post') = Ok f0).
  { unfold unit_words.
    rewrite hour_pattern_eq, minute_pattern_eq, second_pattern_eq.
    rewrite !scan_number_alone; try assumption;
      [reflexivity
      |apply second_tail_rejects
      |intros pv caps; apply (fails_without 115%N); [apply second_tail_needs|exact Ns]
      |apply minute_tail_rejects
      |intros pv caps; apply (fails_without 109%N); [apply minute_tail_needs|exact Nm]
      |apply hour_tail_rejects
      |intros pv caps; apply (fails_without 104%N); [apply hour_tail_needs|exact Nh]]. }
  rewrite W. cbn [bind]. replace (is_zero f0) with true by reflexivity.
  assert (C : compact U (pre' ++ d ++ post') f0 = Ok f0).
  { unfold compact, findall1, findall2.
    rewrite compact_hm_pattern_eq, compact_h_pattern_eq, compact_m_pattern_eq.
    rewrite !scan_number_alone; try assumption;
      [reflexivity
      |apply compact_m_tail_rejects
      |intros pv caps; apply (fails_without 109%N); [apply compact_m_tail_needs|exact Nm]
      |apply compact_h_tail_rejects
      |intros pv caps; apply (fails_without 104%N); [apply compact_h_tail_needs|exact Nh]
      |apply rejects_seq, rejects_chr; [reflexivity|discriminate]
      |intros pv caps; apply (fails_without 104%N); [apply needs_seq, needs_chr|exact Nh]]. }
  rewrite C. cbn [bind]. unfold bare_number. replace (is_zero f0) with true by reflexivity.
  unfold re_search.
  rewrite search_skip; [|apply number_starts|exact Fpre'].
  destruct (number_end_digit_free U d post' Hne Dd Fpost') as [pv Ne].
  assert (M : match_at U number_pattern (after None pre') (d ++ post')
              = Some (MS pv post' [(1, d)])).
  { unfold match_at, number_pattern.
    change (rx U (number 1) ?st Some) with (rx U (Seq (number 1) Eps) st Some).
    apply (number_first U 1 Eps _ _ _ _ _ pv post' Ne).
    cbn [rx]. now rewrite firstn_consumed. }
  rewrite (search_here U _ _ _ _ M).
  unfold float_of_group, group. cbn [m_caps lookup Nat.eqb].
  rewrite (py_float_digits U d Hne Hd). cbn [bind].
  rewrite float_of_decimal_int by lia.
  apply round_nearest_float. lia.
Qed.

End BareNumber.

(** ** Hexadecimal notation *)

Section HexFacts.

Lemma hex_uint_text_digits d : forallb hex_digit (hex_uint_text d) = true.
Proof. induction d; simpl; auto. Qed.

Lemma hex_uint_text_length d : length (hex_uint_text d) = Hexadecimal.nb_digits d.
Proof. induction d; simpl; auto. Qed.

Lemma fold_hex_acc d : forall acc,
  fold_left (fun acc c => 16 * acc + hex_digit_value c)%Z (hex_uint_text d) (Zpos acc)
  = Zpos (Pos.of_hex_uint_acc d acc).
Proof.
  induction d; intros acc; cbn [hex_uint_text fold_left Pos.of_hex_uint_acc];
    try reflexivity; rewrite <- IHd; f_equal.
Qed.

Lemma fold_hex d : hex_value (hex_uint_text d) = Z.of_N (Pos.of_hex_uint d).
Proof.
  unfold hex_value.
  induction d; cbn [hex_uint_text fold_left Pos.of_hex_uint]; try reflexivity;
    try exact IHd; apply fold_hex_acc.
Qed.

(** The digits [hex] prints of a natural number, read back. *)
Lemma hex_value_to_hex n : hex_value (hex_uint_text (N.to_hex_uint n)) = Z.of_N n.
Proof.
  rewrite fold_hex. f_equal. exact (HexadecimalN.Unsigned.of_to n).
Qed.

Lemma hex_value_ge s : forall acc,
  (0 <= acc)%Z -> forallb hex_digit s = true ->
  (acc * 16 ^ Z.of_nat (length s)
   <= fold_left (fun acc c => 16 * acc + hex_digit_value c)%Z s acc)%Z.
Proof.
  induction s as [|c s IH]; intros acc Hacc Hs.
  - cbn. lia.
  - cbn [forallb] in Hs. apply andb_prop in Hs as [Hc Hs].
    cbn [fold_left length]. rewrite Nat2Z.inj_succ, Z.pow_succ_r by lia.
    assert (0 <= hex_digit_value c)%Z by (unfold hex_digit_value; destruct (between 48 57 c); lia).
    specialize (IH (16 * acc + hex_digit_value c)%Z ltac:(lia) Hs).
    assert (0 <= 16 ^ Z.of_nat (length s))%Z by (apply Z.pow_nonneg; lia).
    nia.
Qed.

Lemma hex_value_zeros k s : hex_value (repeat 48%N k ++ s) = hex_value s.
Proof.
  unfold hex_value. induction k as [|k IH]; [reflexivity|].
  cbn [repeat app fold_left]. exact IH.
Qed.

Lemma to_hex_normal n : Hexadecimal.unorm (N.to_hex_uint n) = N.to_hex_uint n.
Proof.
  rewrite <- HexadecimalN.Unsigned.to_of. now rewrite HexadecimalN.Unsigned.of_to.
Qed.

(** [hex] prints no leading zero, but for the number 0. *)
Lemma to_hex_head n :
  match hex_uint_text (N.to_hex_uint n) with
  | c :: t => hex_digit c = true /\ (c = 48%N -> t = [])
  | [] => False
  end.
Proof.
  pose proof (to_hex_normal n) as E.
  pose proof (hex_uint_text_digits (N.to_hex_uint n)) as D.
  destruct (N.to_hex_uint n) as [|u|u|u|u|u|u|u|u|u|u|u|u|u|u|u|u] eqn:Eu;
    cbn [hex_uint_text forallb] in *;
    try (apply andb_prop in D as [Dc _]; split; [exact Dc|discriminate]).
  - now apply HexadecimalFacts.unorm_nonnil in E.
  - split; [reflexivity|]. intros _.
    destruct u as [|u'|u'|u'|u'|u'|u'|u'|u'|u'|u'|u'|u'|u'|u'|u'|u'] eqn:Eu';
      [reflexivity|exfalso..];
      rewrite HexadecimalFacts.unorm_D0 in E;
      (assert (Hn : Hexadecimal.nb_digits (Hexadecimal.unorm u)
                    <= Hexadecimal.nb_digits u)
         by (apply HexadecimalFacts.nb_digits_unorm; subst u; discriminate));
      subst u; rewrite E in Hn; cbn [Hexadecimal.nb_digits] in Hn; lia.
Qed.

(** The number of digits [hex] prints. *)
Lemma to_hex_length n k :
  (Z.of_N n < 16 ^ Z.of_nat (S k))%Z -> length (hex_uint_text (N.to_hex_uint n)) <= S k.
Proof.
  intros Hn. pose proof (to_hex_head n) as Hh.
  pose proof (hex_value_to_hex n) as Hv.
  pose proof (hex_uint_text_digits (N.to_hex_uint n)) as Hd.
  destruct (hex_uint_text (N.to_hex_uint n)) as [|c t]; [easy|].
  destruct Hh as [Hc Hz]. cbn [forallb] in Hd. apply andb_prop in Hd as [_ Ht].
  destruct (N.eq_dec c 48) as [->|Hne]; [rewrite (Hz eq_refl); cbn; lia|].
  assert (1 <= hex_digit_value c)%Z.
  { unfold hex_digit_value, hex_digit, between in *.
    destruct (N.leb_spec 48 c), (N.leb_spec c 57), (N.leb_spec 97 c), (N.leb_spec c 102);
      cbn in *; try discriminate; lia. }
  unfold hex_value in Hv. cbn [fold_left] in Hv.
  pose proof (hex_value_ge t (16 * 0 + hex_digit_value c)%Z ltac:(lia) Ht) as G.
  rewrite Hv in G.
  destruct (Nat.le_gt_cases (length (c :: t)) (S k)) as [|Hgt]; [assumption|exfalso].
  cbn [length] in Hgt.
  assert (16 ^ Z.of_nat (S k) <= 16 ^ Z.of_nat (length t))%Z
    by (apply Z.pow_le_mono_r; lia).
  nia.
Qed.

(** [hex(n)[2:]] for a natural number. *)
Lemma hex_digits_of n :
  (0 <= n)%Z -> skipn 2 (py_hex n) = hex_uint_text (N.to_hex_uint (Z.to_N n)).
Proof. intros Hn. destruct n; [reflexivity|reflexivity|lia]. Qed.

Lemma zfill_hex w s :
  forallb hex_digit s = true -> zfill w s = repeat 48%N (w - length s) ++ s.
Proof.
  unfold zfill. destruct s as [|c t]; [now rewrite app_nil_r|].
  cbn [forallb]. intros H. apply andb_prop in H as [Hc _].
  unfold hex_digit, between in Hc.
  destruct (c =? 43)%N eqn:E1; [apply N.eqb_eq in E1; subst; discriminate|].
  destruct (c =? 45)%N eqn:E2; [apply N.eqb_eq in E2; subst; discriminate|].
  reflexivity.
Qed.

Lemma forallb_repeat {A} (f : A -> bool) x k : f x = true -> forallb f (repeat x k) = true.
Proof. intros H. induction k; cbn; [reflexivity|now rewrite H]. Qed.

(** The two parts of a file name. *)
Lemma hex_timestamp_facts ts :
  (0 <= ts)%Z ->
  skipn 2 (py_hex ts) <> [] /\ forallb hex_digit (skipn 2 (py_hex ts)) = true /\
  hex_value (skipn 2 (py_hex ts)) = ts.
Proof.
  intros Hts. rewrite hex_digits_of by exact Hts. split; [|split].
  - pose proof (to_hex_head (Z.to_N ts)). now destruct (hex_uint_text _).
  - apply hex_uint_text_digits.
  - rewrite hex_value_to_hex. lia.
Qed.

Lemma random_hex_facts rnd :
  (0 <= rnd <= 0xFFFFF)%Z ->
  length (zfill 5 (skipn 2 (py_hex rnd))) = 5 /\
  forallb hex_digit (zfill 5 (skipn 2 (py_hex rnd))) = true /\
  hex_value (zfill 5 (skipn 2 (py_hex rnd))) = rnd.
Proof.
  intros Hr. rewrite hex_digits_of by lia.
  set (d := hex_uint_text (N.to_hex_uint (Z.to_N rnd))).
  assert (Hd : forallb hex_digit d = true) by apply hex_uint_text_digits.
  assert (Hl : length d <= 5).
  { apply (to_hex_length _ 4). rewrite Z2N.id by lia.
    change (16 ^ Z.of_nat 5)%Z with 1048576%Z. lia. }
  rewrite zfill_hex by exact Hd. split; [|split].
  - rewrite length_app, repeat_length. clearbody d. unfold char in *. lia.
  - rewrite forallb_app. apply andb_true_intro.
    split; [apply forallb_repeat; reflexivity|exact Hd].
  - rewrite hex_value_zeros. unfold d. rewrite hex_value_to_hex. lia.
Qed.

End HexFacts.

(** ** File names *)

Section FileNames.

Lemma filename_of_timestamp now rnd extension ts :
  timestamp_ms now = Ok ts ->
  generate_unique_filename now rnd extension
  = Ok (skipn 2 (py_hex ts) ++ 45%N :: zfill 5 (skipn 2 (py_hex rnd))
        ++ match extension with [] => [] | _ => 46%N :: extension end).
Proof.
  intros E. unfold generate_unique_filename. rewrite E. cbn [bind].
  destruct extension; cbn [app]; [now rewrite app_nil_r|reflexivity].
Qed.

(** A text is cut at its first hyphen in one way. *)
Lemma cut_at_hyphen a : forall b x y,
  forallb hex_digit a = true -> forallb hex_digit b = true ->
  a ++ 45%N :: x = b ++ 45%N :: y -> a = b /\ x = y.
Proof.
  induction a as [|c a IH]; intros [|c' b] x y Ha Hb E; cbn [app forallb] in *.
  - injection E as ->. now split.
  - injection E as <- _. apply andb_prop in Hb as [Hc _]. discriminate.
  - injection E as -> _. apply andb_prop in Ha as [Hc _]. discriminate.
  - injection E as -> E. apply andb_prop in Ha as [_ Ha]. apply andb_prop in Hb as [_ Hb].
    destruct (IH b x y Ha Hb E) as [-> ->]. now split.
Qed.

Lemma app_same_length {A} (a : list A) : forall b x y,
  length a = length b -> a ++ x = b ++ y -> a = b /\ x = y.
Proof.
  induction a as [|c a IH]; intros [|c' b] x y Hl E; cbn [app length] in *;
    try discriminate; [now split|].
  injection E as -> E. injection Hl as Hl.
  destruct (IH b x y Hl E) as [-> ->]. now split.
Qed.

(** X3: the file name, read back.  For a clock that is not before 1970
    and a draw in range, the name is the milliseconds in hexadecimal, a
    hyphen, the draw on exactly five hexadecimal digits and, when an
    extension is given, a full stop and the extension. *)
Theorem unique_filename_reads_back now rnd extension ts :
  timestamp_ms now = Ok ts -> (0 <= ts)%Z -> (0 <= rnd <= 0xFFFFF)%Z ->
  exists stamp draw,
    generate_unique_filename now rnd extension
    = Ok (stamp ++ 45%N :: draw
          ++ match extension with [] => [] | _ => 46%N :: extension end) /\
    stamp <> [] /\ forallb hex_digit stamp = true /\ hex_value stamp = ts /\
    length draw = 5 /\ forallb hex_digit draw = true /\ hex_value draw = rnd.
Proof.
  intros E Hts Hr.
  exists (skipn 2 (py_hex ts)), (zfill 5 (skipn 2 (py_hex rnd))).
  split; [exact (filename_of_timestamp now rnd extension ts E)|].
  destruct (hex_timestamp_facts ts Hts) as (A & B & C).
  destruct (random_hex_facts rnd Hr) as (D & F & G).
  repeat split; assumption.
Qed.

Lemma names_equal (a1 d1 e1 a2 d2 e2 : text) :
  forallb hex_digit a1 = true -> forallb hex_digit a2 = true ->
  length d1 = length d2 ->
  a1 ++ 45%N :: d1 ++ match e1 with [] => [] | _ => 46%N :: e1 end
  = a2 ++ 45%N :: d2 ++ match e2 with [] => [] | _ => 46%N :: e2 end ->
  a1 = a2 /\ d1 = d2 /\ e1 = e2.
Proof.
  intros B1 B2 Hl E.
  apply cut_at_hyphen in E as [Ea E]; [|assumption..].
  apply app_same_length in E as [Ed Ex]; [|exact Hl].
  split; [exact Ea|]. split; [exact Ed|].
  destruct e1, e2; try discriminate; [reflexivity|congruence].
Qed.

(** X4: two calls return the same name only when they agree on the
    millisecond, on the draw and on the extension. *)
Theorem unique_filename_injective now1 rnd1 ext1 ts1 now2 rnd2 ext2 ts2 name :
  timestamp_ms now1 = Ok ts1 -> (0 <= ts1)%Z -> (0 <= rnd1 <= 0xFFFFF)%Z ->
  timestamp_ms now2 = Ok ts2 -> (0 <= ts2)%Z -> (0 <= rnd2 <= 0xFFFFF)%Z ->
  generate_unique_filename now1 rnd1 ext1 = Ok name ->
  generate_unique_filename now2 rnd2 ext2 = Ok name ->
  ts1 = ts2 /\ rnd1 = rnd2 /\ ext1 = ext2.
Proof.
  intros E1 H1 R1 E2 H2 R2 N1 N2.
  rewrite (filename_of_timestamp now1 rnd1 ext1 ts1 E1) in N1.
  rewrite (filename_of_timestamp now2 rnd2 ext2 ts2 E2) in N2.
  destruct (hex_timestamp_facts ts1 H1) as (_ & B1 & C1).
  destruct (hex_timestamp_facts ts2 H2) as (_ & B2 & C2).
  destruct (random_hex_facts rnd1 R1) as (D1 & _ & G1).
  destruct (random_hex_facts rnd2 R2) as (D2 & _ & G2).
  assert (E : Ok (A := text) _ = Ok _) by exact (eq_trans N1 (eq_sym N2)).
  assert (E' := f_equal (fun r => match r with Ok t => t | Raise _ => [] end) E).
  cbv beta iota in E'.
  apply names_equal in E' as (Ea & Ed & Ex);
    [|assumption|assumption|exact (eq_trans D1 (eq_sym D2))].
  rewrite <- C1, <- C2, <- G1, <- G2, Ea, Ed. now split.
Qed.

(** X16: when the time stamp in milliseconds, [int(timestamp * 1000)],
    is negative, [hex] prints its sign first, and the name starts with the
    [x] of [-0x], before the hexadecimal digits of the absolute value. *)
Theorem unique_filename_negative_stamp now rnd extension ts :
  timestamp_ms now = Ok ts -> (ts < 0)%Z -> (0 <= rnd <= 0xFFFFF)%Z ->
  exists stamp draw,
    generate_unique_filename now rnd extension
    = Ok (120%N :: stamp ++ 45%N :: draw
          ++ match extension with [] => [] | _ => 46%N :: extension end) /\
    forallb hex_digit stamp = true /\ hex_value stamp = (- ts)%Z /\
    length draw = 5 /\ forallb hex_digit draw = true /\ hex_value draw = rnd.
Proof.
  intros E Hts Hr. destruct ts as [|p|p]; try lia.
  exists (hex_uint_text (Pos.to_hex_uint p)), (zfill 5 (skipn 2 (py_hex rnd))).
  split; [exact (filename_of_timestamp now rnd extension (Zneg p) E)|].
  destruct (random_hex_facts rnd Hr) as (D & F & G).
  split; [apply hex_uint_text_digits|]. split; [|now repeat split].
  rewrite fold_hex, HexadecimalPos.Unsigned.of_to. reflexivity.
Qed.

End FileNames.

(** ** The extension of an image *)

Section ExtensionFacts.
Variable U : Unicode.
Variable L : Libraries.

Lemma text_eqb_eq a : forall b, text_eqb a b = true <-> a = b.
Proof.
  induction a as [|x a IH]; intros [|y b]; cbn [text_eqb]; try easy.
  rewrite andb_true_iff, N.eqb_eq, IH. split; [now intros [-> ->]|].
  intros E. now injection E.
Qed.

Lemma allowed_In ext :
  existsb (text_eqb ext) ALLOWED_EXTENSIONS = true <-> In ext ALLOWED_EXTENSIONS.
Proof.
  rewrite existsb_exists. split.
  - intros (x & Hx & E). apply text_eqb_eq in E. now subst.
  - intros H. exists ext. split; [exact H|now apply text_eqb_eq].
Qed.

Lemma extension_of_path_allowed path ext :
  extension_of_path U path = Some ext -> In ext ALLOWED_EXTENSIONS.
Proof.
  unfold extension_of_path. destruct (contains _ path); [|discriminate].
  destruct (existsb _ _) eqn:E; [|discriminate].
  intros H. injection H as <-. now apply allowed_In.
Qed.

Lemma extension_of_type_allowed ct ext :
  extension_of_type L ct = Some ext -> In ext ALLOWED_EXTENSIONS.
Proof.
  unfold extension_of_type. destruct ct as [[|c ct]|]; try discriminate.
  destruct (guess_extension L (c :: ct)) as [[|e g]|]; try discriminate.
  destruct (existsb _ _) eqn:E; [|discriminate].
  intros H. injection H as <-. now apply allowed_In.
Qed.

Lemma split_acc_nonempty sep s : forall cur, split_acc sep cur s <> [].
Proof.
  induction s as [|c s IH]; intros cur; cbn [split_acc]; [discriminate|].
  destruct (c =? sep)%N; [discriminate|apply IH].
Qed.

(** The last piece of [split] is what follows the last separator. *)
Lemma split_acc_last_piece sep (stem e : text) : forall cur,
  forallb (fun c => negb (c =? sep)%N) e = true ->
  last (split_acc sep cur (stem ++ sep :: e)) [] = e.
Proof.
  assert (T : forall e cur, forallb (fun c => negb (c =? sep)%N) e = true ->
                            split_acc sep cur e = [rev cur ++ e]).
  { clear e. induction e as [|c e IH]; intros cur He; cbn [split_acc].
    - now rewrite app_nil_r.
    - cbn [forallb] in He. apply andb_prop in He as [Hc He].
      apply negb_true_iff in Hc. rewrite Hc, IH by exact He.
      cbn [rev]. now rewrite <- app_assoc. }
  induction stem as [|c stem IH]; intros cur He; cbn [app split_acc].
  - rewrite N.eqb_refl, (T e [] He). reflexivity.
  - destruct (c =? sep)%N.
    + specialize (IH [] He).
      destruct (split_acc sep [] (stem ++ sep :: e)) eqn:S;
        [now apply split_acc_nonempty in S|exact IH].
    + apply IH, He.
Qed.

Lemma ascii_lower_dot c : ascii_lower c = 46%N -> c = 46%N.
Proof.
  unfold ascii_lower, between.
  destruct (N.leb_spec 65 c), (N.leb_spec c 90); cbn; lia.
Qed.

Lemma allowed_no_dot a :
  In a ALLOWED_EXTENSIONS -> forallb (fun c => negb (c =? 46)%N) a = true.
Proof.
  intros H. cbn in H.
  repeat (destruct H as [<-|H]; [reflexivity|]). destruct H.
Qed.

Lemma extension_allowed url content_type ext :
  get_extension_from_url U L url content_type = Ok ext -> In ext ALLOWED_EXTENSIONS.
Proof.
  unfold get_extension_from_url.
  destruct (urlparse_path L url) as [path|e]; [|discriminate]. cbn [bind].
  destruct (extension_of_path U path) as [x|] eqn:P.
  - intros E. injection E as <-. exact (extension_of_path_allowed path x P).
  - destruct (extension_of_type L content_type) as [x|] eqn:T; intros E; injection E as <-.
    + exact (extension_of_type_allowed _ x T).
    + cbn. auto.
Qed.

(** X5: the extension is one of the allowed ones, whatever the URL and
    the content type are and whatever the two libraries answer; the
    function raises only where [urlparse] does. *)
Theorem extension_is_allowed url content_type :
  match urlparse_path L url with
  | Ok _ => exists ext, get_extension_from_url U L url content_type = Ok ext /\
                        In ext ALLOWED_EXTENSIONS
  | Raise e => get_extension_from_url U L url content_type = Raise e
  end.
Proof.
  unfold get_extension_from_url.
  destruct (urlparse_path L url) as [path|e]; [|reflexivity]. cbn [bind].
  destruct (extension_of_path U path) as [ext|] eqn:P.
  - exists ext. split; [reflexivity|exact (extension_of_path_allowed path ext P)].
  - destruct (extension_of_type L content_type) as [ext|] eqn:T.
    + exists ext. split; [reflexivity|exact (extension_of_type_allowed _ ext T)].
    + exists (of_string "jpg"). split; [reflexivity|]. cbn. auto.
Qed.

(** X6: an allowed extension at the end of the path of the URL, in
    either case of its letters, is the result in lower case, whatever the
    content type says. *)
Theorem extension_of_url_wins url content_type (stem e a : text) :
  urlparse_path L url = Ok (stem ++ 46%N :: e) ->
  ignoring_case e a -> In a ALLOWED_EXTENSIONS ->
  get_extension_from_url U L url content_type = Ok a.
Proof.
  intros P [He <-] Ha. unfold get_extension_from_url. rewrite P. cbn [bind].
  assert (D : forallb (fun c => negb (c =? 46)%N) e = true).
  { pose proof (allowed_no_dot _ Ha) as Hd.
    clear -Hd. induction e as [|c e IH]; [reflexivity|].
    cbn [map forallb] in *. apply andb_prop in Hd as [Hc Hd].
    rewrite (IH Hd), andb_true_r.
    apply negb_true_iff. apply negb_true_iff in Hc.
    apply N.eqb_neq. apply N.eqb_neq in Hc. intros ->. now apply Hc. }
  assert (P1 : extension_of_path U (stem ++ 46%N :: e) = Some (map ascii_lower e)).
  { unfold extension_of_path.
    pose proof (contains_middle [46%N] stem e) as C. cbn [app] in C.
    pose proof (split_acc_last_piece 46 stem e [] D) as S.
    pose proof (lower_ascii_text U e He) as Lw.
    pose proof (proj2 (allowed_In _) Ha) as A.
    unfold split, text, char in *. rewrite C, S, Lw, A. reflexivity. }
  unfold text, char in *. now rewrite P1.
Qed.

(** X18: when the path of the URL gives no allowed extension, the result
    is what [mimetypes] guesses for the content type, without its leading
    full stops, if that is an allowed extension, and [jpg] in every other
    case; so the renaming of [jpe] changes no result. *)
Theorem extension_from_content_type url path content_type guess :
  urlparse_path L url = Ok path -> extension_of_path U path = None ->
  content_type <> [] -> guess_extension L content_type = Some guess ->
  get_extension_from_url U L url (Some content_type)
  = Ok (if existsb (text_eqb (lstrip_char 46 guess)) ALLOWED_EXTENSIONS
        then lstrip_char 46 guess
        else of_string "jpg").
Proof.
  intros P E Hne G. unfold get_extension_from_url. rewrite P. cbn [bind]. rewrite E.
  unfold extension_of_type. destruct content_type as [|c ct]; [congruence|].
  rewrite G. destruct guess as [|g0 g].
  - reflexivity.
  - set (e := lstrip_char 46 (g0 :: g)).
    destruct (text_eqb e (of_string "jpe")) eqn:J.
    + apply text_eqb_eq in J. rewrite J. reflexivity.
    + now destruct (existsb (text_eqb e) ALLOWED_EXTENSIONS).
Qed.

End ExtensionFacts.

(** ** Uploading an image *)

Section UploadFacts.
Variable U : Unicode.
Variable L : Libraries.
Variable W : World.

(** What the [try] block leaves behind, by the point it stops at. *)
Lemma download_and_put_cases image_url client bucket :
  (exists f, download_and_put U L W image_url client bucket []
             = (Fails f, [HttpGet image_url])) \/
  (exists f request,
     download_and_put U L W image_url client bucket []
     = (Fails f, [HttpGet image_url; PutObject client request]) /\
     put_object W client request = Fails f) \/
  (exists resp ext name body,
     requests_get W image_url = Done resp /\
     content resp = Done body /\
     get_extension_from_url U L image_url
       (Some (match header_content_type resp with
              | Some v => v
              | None => of_string "image/jpeg"
              end)) = Ok ext /\
     generate_unique_filename (clock W) (randint W) ext = Ok name /\
     let request := {| Bucket := bucket;
                       Key := of_string "uploads/scraper/" ++ name;
                       Body := body;
                       ContentType := match header_content_type resp with
                                      | Some v => v
                                      | None => of_string "image/jpeg"
                                      end;
                       ACL := of_string "public-read" |} in
     put_object W client request = Done tt /\
     download_and_put U L W image_url client bucket []
     = (Done {| success := true;
                url := of_string "https://" ++ bucket ++ of_string ".s3."
                       ++ getenv_or W "AWS_REGION" "us-east-1"
                       ++ of_string ".amazonaws.com/"
                       ++ of_string "uploads/scraper/" ++ name;
                key := of_string "uploads/scraper/" ++ name |},
        [HttpGet image_url; PutObject client request])).
Proof.
  unfold download_and_put, and_then, call, lift, ret. cbn [app].
  destruct (requests_get W image_url) as [resp|f]; [|left; now exists f].
  destruct (raise_for_status resp) as [[]|f]; [|left; now exists f].
  destruct (get_extension_from_url U L image_url _) as [ext|e] eqn:E;
    [|left; now exists OtherException].
  cbn [of_result].
  destruct (generate_unique_filename (clock W) (randint W) ext) as [name|e] eqn:G;
    [|left; now exists OtherException].
  cbn [of_result].
  destruct (content resp) as [body|f] eqn:C; [|left; now exists f].
  destruct (put_object W client _) as [[]|f] eqn:P.
  - right. right. exists resp, ext, name, body. cbn zeta.
    repeat split; try assumption; reflexivity.
  - right. left. eexists f, _. split; [reflexivity|exact P].
Qed.

Lemma no_client_without_credentials :
  unset W "AWS_ACCESS_KEY_ID" \/ unset W "AWS_SECRET_ACCESS_KEY" ->
  get_s3_client W = None.
Proof.
  unfold unset, get_s3_client. intros [[H|H]|[H|H]]; rewrite H; try reflexivity;
    now destruct (getenv W (of_string "AWS_ACCESS_KEY_ID")) as [[|? ?]|].
Qed.

(** X7: [upload_image_from_url] either fails, and then returns the URL it
    was given with an empty key after at most one request and one
    refused [put_object]; or succeeds after exactly one request and one
    accepted [put_object], made with the client and the bucket passed as
    arguments when they are, with the key and the URL it returns. *)
Theorem upload_from_url_outcome image_url s3 bucket_name r calls :
  upload_image_from_url U L W image_url s3 bucket_name = (r, calls) ->
  (success r = false /\ url r = image_url /\ key r = [] /\
   (calls = [] \/ calls = [HttpGet image_url] \/
    exists c req f,
      calls = [HttpGet image_url; PutObject c req] /\ put_object W c req = Fails f)) \/
  (success r = true /\
   exists c req name,
     calls = [HttpGet image_url; PutObject c req] /\
     put_object W c req = Done tt /\
     (forall c0, s3 = Some c0 -> c = c0) /\
     (forall b, bucket_name = Some b -> b <> [] -> Bucket req = b) /\
     ACL req = of_string "public-read" /\
     Key req = key r /\
     key r = of_string "uploads/scraper/" ++ name /\
     url r = of_string "https://" ++ Bucket req ++ of_string ".s3."
             ++ getenv_or W "AWS_REGION" "us-east-1"
             ++ of_string ".amazonaws.com/" ++ key r).
Proof.
  unfold upload_image_from_url.
  destruct image_url as [|u0 us]; [intros E; injection E as <- <-; left; repeat split; auto|].
  set (image_url := u0 :: us).
  set (client := match s3 with Some c => Some c | None => get_s3_client W end).
  assert (Hc : forall c c0, client = Some c -> s3 = Some c0 -> c = c0).
  { intros c c0 E E0. subst client. rewrite E0 in E. now injection E. }
  destruct client as [c|]; [|intros E; injection E as <- <-; left; repeat split; auto].
  set (bucket := match bucket_name with
                 | Some (_ :: _) => bucket_name
                 | _ => getenv W (of_string "AWS_BUCKET_NAME")
                 end).
  assert (Hb : forall b b0, bucket = Some b -> bucket_name = Some b0 -> b0 <> [] -> b = b0).
  { intros b b0 E E0 N. subst bucket. rewrite E0 in E.
    destruct b0; [congruence|now injection E]. }
  destruct bucket as [[|b0 bs]|]; try (intros E; injection E as <- <-; left; repeat split; auto).
  destruct (download_and_put_cases image_url c (b0 :: bs))
    as [[f D]|[(f & req & D & P)|(resp & ext & name & body & _ & _ & _ & _ & P & D)]];
    rewrite D.
  - destruct f; intros E; injection E as <- <-; left; repeat split; auto.
  - destruct f; intros E; injection E as <- <-; left; repeat split;
      right; right; exists c, req; eauto.
  - intros E; injection E as <- <-. right. split; [reflexivity|].
    eexists c, _, name. cbn [Bucket Key ACL key url].
    split; [reflexivity|]. split; [exact P|].
    split; [intros c0 E0; now apply (Hc c c0)|].
    split; [intros b E0 N; now apply (Hb (b0 :: bs) b)|].
    repeat split.
Qed.

(** X8: [upload_image_if_configured] returns the URL it was given with
    an empty key, or the key and the URL of the object it stored: the
    body of the response, under its content type ([image/jpeg] when the
    response names none), readable by all, in the bucket and with the
    client of the environment. *)
Theorem upload_if_configured_result image_url r calls :
  upload_image_if_configured U L W image_url = (r, calls) ->
  (ref_url r = image_url /\ ref_key r = []) \/
  (exists c req resp name,
     calls = [HttpGet image_url; PutObject c req] /\
     get_s3_client W = Some c /\
     getenv W (of_string "AWS_BUCKET_NAME") = Some (Bucket req) /\
     requests_get W image_url = Done resp /\
     content resp = Done (Body req) /\
     ContentType req = content_type_of resp /\
     ACL req = of_string "public-read" /\
     put_object W c req = Done tt /\
     Key req = ref_key r /\
     ref_key r = of_string "uploads/scraper/" ++ name /\
     ref_url r = of_string "https://" ++ Bucket req ++ of_string ".s3."
                 ++ getenv_or W "AWS_REGION" "us-east-1"
                 ++ of_string ".amazonaws.com/" ++ ref_key r).
Proof.
  unfold upload_image_if_configured.
  destruct image_url as [|u0 us]; [intros E; injection E as <- <-; left; auto|].
  set (image_url := u0 :: us). unfold upload_image_from_url.
  fold image_url. cbv iota. unfold image_url at 1. cbv iota. fold image_url.
  destruct (get_s3_client W) as [c|]; [|intros E; injection E as <- <-; left; auto].
  destruct (getenv W (of_string "AWS_BUCKET_NAME")) as [[|b0 bs]|] eqn:B;
    try (intros E; injection E as <- <-; left; auto).
  destruct (download_and_put_cases image_url c (b0 :: bs))
    as [[f D]|[(f & req & D & P)|(resp & ext & name & body & G & C & _ & _ & P & D)]];
    rewrite D.
  - destruct f; intros E; injection E as <- <-; left; auto.
  - destruct f; intros E; injection E as <- <-; left; auto.
  - intros E; injection E as <- <-. right.
    eexists c, _, resp, name. cbn [Bucket Key ACL Body ContentType ref_key ref_url key url].
    repeat split; try assumption; reflexivity.
Qed.

(** X9: without the access key, the secret key or the name of the bucket
    in the environment, nothing is requested and nothing is stored: the
    URL comes back as it was given. *)
Theorem not_configured_no_calls image_url :
  unset W "AWS_ACCESS_KEY_ID" \/ unset W "AWS_SECRET_ACCESS_KEY" \/
  unset W "AWS_BUCKET_NAME" ->
  upload_image_if_configured U L W image_url
  = ({| ref_url := image_url; ref_key := [] |}, []).
Proof.
  intros H. unfold upload_image_if_configured.
  destruct image_url as [|u0 us]; [reflexivity|].
  unfold upload_image_from_url.
  destruct (get_s3_client W) as [c|] eqn:C; [|reflexivity].
  destruct H as [H|[H|H]];
    try (rewrite no_client_without_credentials in C by tauto; discriminate).
  destruct H as [H|H]; rewrite H; reflexivity.
Qed.

(** X10: the key of a stored object is [uploads/scraper/], the
    milliseconds in hexadecimal, a hyphen, five hexadecimal digits, a full
    stop and an allowed extension: no part of it is text of the URL. *)
Theorem stored_key_shape image_url r calls ts :
  upload_image_if_configured U L W image_url = (r, calls) ->
  ref_key r <> [] ->
  timestamp_ms (clock W) = Ok ts -> (0 <= ts)%Z -> (0 <= randint W <= 0xFFFFF)%Z ->
  exists stamp draw ext,
    ref_key r = of_string "uploads/scraper/" ++ stamp ++ 45%N :: draw ++ 46%N :: ext /\
    stamp <> [] /\ forallb hex_digit stamp = true /\ hex_value stamp = ts /\
    length draw = 5 /\ forallb hex_digit draw = true /\ hex_value draw = randint W /\
    In ext ALLOWED_EXTENSIONS.
Proof.
  unfold upload_image_if_configured.
  destruct image_url as [|u0 us]; [intros E; injection E as <- <-; easy|].
  set (image_url := u0 :: us). unfold upload_image_from_url.
  fold image_url. cbv iota. unfold image_url at 1. cbv iota. fold image_url.
  destruct (get_s3_client W) as [c|]; [|intros E; injection E as <- <-; easy].
  destruct (getenv W (of_string "AWS_BUCKET_NAME")) as [[|b0 bs]|] eqn:B;
    try (intros E; injection E as <- <-; easy).
  destruct (download_and_put_cases image_url c (b0 :: bs))
    as [[f D]|[(f & req & D & P)|(resp & ext & name & body & G & C & X & N & P & D)]];
    rewrite D.
  - destruct f; intros E; injection E as <- <-; easy.
  - destruct f; intros E; injection E as <- <-; easy.
  - intros E _ T Hts Hr; injection E as <- <-. cbn [ref_key key success].
    rewrite (filename_of_timestamp _ _ ext ts T) in N. injection N as <-.
    pose proof (extension_allowed U L image_url _ ext X) as A.
    destruct (hex_timestamp_facts ts Hts) as (S1 & S2 & S3).
    destruct (random_hex_facts _ Hr) as (R1 & R2 & R3).
    exists (skipn 2 (py_hex ts)), (zfill 5 (skipn 2 (py_hex (randint W)))), ext.
    split.
    { destruct ext as [|e0 ext]; [destruct A as [A|[A|[A|[A|[A|[A|[]]]]]]]; discriminate|].
      reflexivity. }
    repeat split; assumption.
Qed.

(** X19: when the download fails, at the request or at its status,
    nothing is stored: no [put_object] is called and the URL comes back as
    it was given. *)
Theorem failed_download_stores_nothing image_url s3 bucket_name r calls :
  (exists f, requests_get W image_url = Fails f) \/
  (exists resp f, requests_get W image_url = Done resp /\ raise_for_status resp = Fails f) ->
  upload_image_from_url U L W image_url s3 bucket_name = (r, calls) ->
  r = {| success := false; url := image_url; key := [] |} /\
  (calls = [] \/ calls = [HttpGet image_url]).
Proof.
  intros Hf. unfold upload_image_from_url.
  destruct image_url as [|u0 us]; [intros E; injection E as <- <-; auto|].
  set (image_url := u0 :: us) in *.
  destruct (match s3 with Some c => Some c | None => get_s3_client W end) as [c|];
    [|intros E; injection E as <- <-; auto].
  destruct (match bucket_name with
            | Some (_ :: _) => bucket_name
            | _ => getenv W (of_string "AWS_BUCKET_NAME")
            end) as [[|b0 bs]|]; try (intros E; injection E as <- <-; auto).
  assert (D : exists f, download_and_put U L W image_url c (b0 :: bs) []
                        = (Fails f, [HttpGet image_url])).
  { unfold download_and_put, and_then, call, lift. cbn [app].
    destruct Hf as [[f ->]|(resp & f & -> & ->)]; now exists f. }
  destruct D as [f ->]. destruct f; intros E; injection E as <- <-; auto.
Qed.

(** X20: what is stored is not checked to be an image: a response of any
    content type whose URL and type give no allowed extension is stored
    under a key that ends in [.jpg], with the content type it came with. *)
Theorem any_content_is_stored image_url c bucket resp body path name :
  image_url <> [] -> bucket <> [] ->
  get_s3_client W = Some c ->
  getenv W (of_string "AWS_BUCKET_NAME") = Some bucket ->
  requests_get W image_url = Done resp -> raise_for_status resp = Done tt ->
  content resp = Done body ->
  urlparse_path L image_url = Ok path -> extension_of_path U path = None ->
  extension_of_type L (Some (content_type_of resp)) = None ->
  generate_unique_filename (clock W) (randint W) (of_string "jpg") = Ok name ->
  (forall request, put_object W c request = Done tt) ->
  exists stem,
    name = stem ++ of_string ".jpg" /\
    upload_image_if_configured U L W image_url
    = ({| ref_url := of_string "https://" ++ bucket ++ of_string ".s3."
                     ++ getenv_or W "AWS_REGION" "us-east-1"
                     ++ of_string ".amazonaws.com/"
                     ++ of_string "uploads/scraper/" ++ name;
          ref_key := of_string "uploads/scraper/" ++ name |},
       [HttpGet image_url;
        PutObject c {| Bucket := bucket;
                       Key := of_string "uploads/scraper/" ++ name;
                       Body := body;
                       ContentType := content_type_of resp;
                       ACL := of_string "public-read" |}]).
Proof.
  intros Hu Hb C B G S Cn P E T N Put.
  assert (X : get_extension_from_url U L image_url (Some (content_type_of resp))
              = Ok (of_string "jpg")).
  { unfold get_extension_from_url. rewrite P. cbn [bind]. now rewrite E, T. }
  assert (Hn : exists stem, name = stem ++ of_string ".jpg").
  { unfold generate_unique_filename in N.
    destruct (timestamp_ms (clock W)) as [ts|e]; [|discriminate]. cbn [bind] in N.
    change (of_string "jpg") with [106%N; 112%N; 103%N] in N. cbv iota in N.
    injection N as <-.
    exists (skipn 2 (py_hex ts) ++ [45%N] ++ zfill 5 (skipn 2 (py_hex (randint W)))).
    rewrite <- !app_assoc. reflexivity. }
  destruct Hn as [stem Hn]. exists stem. split; [exact Hn|].
  unfold upload_image_if_configured, upload_image_from_url.
  destruct image_url as [|u0 us]; [congruence|].
  set (image_url := u0 :: us) in *. rewrite C, B.
  destruct bucket as [|b0 bs]; [congruence|].
  unfold download_and_put, and_then, call, lift, ret. cbn [app].
  rewrite G, S. fold (content_type_of resp). rewrite X. cbn [of_result].
  rewrite N. cbn [of_result]. rewrite Cn, Put. cbn [success url key]. reflexivity.
Qed.

End UploadFacts.

(** ** Checking the syntax of the files *)

Section ValidateFacts.
Variable F : Sources.

Lemma check_files_spec files : forall all_valid,
  check_files F files all_valid
  = (all_valid && forallb (fun file => fst (check_syntax F file)) files,
     map (fun file => snd (check_syntax F file)) files).
Proof.
  induction files as [|file rest IH]; intros all_valid; cbn [check_files forallb map].
  - now rewrite andb_true_r.
  - destruct (check_syntax F file) as [ok line]. cbn [fst snd].
    rewrite IH. f_equal. destruct ok, all_valid; reflexivity.
Qed.

Lemma check_syntax_true file :
  fst (check_syntax F file) = true <->
  exists code, read_file F file = inl code /\ ast_parse F code = None.
Proof.
  unfold check_syntax. destruct (read_file F file) as [code|str].
  - destruct (ast_parse F code) as [[lineno msg|str]|] eqn:P; cbn [fst]; split;
      try discriminate; try (intros (c & E & Q); injection E as <-; congruence).
    intros _. now exists code.
  - cbn [fst]. split; [discriminate|]. intros (c & E & _). discriminate.
Qed.

(** X17: the script reports on every file of its list, in order, also
    after one has failed, and calls [sys.exit(1)] exactly when some file
    could not be read or parsed. *)
Theorem main_reports_every_file :
  (exists verdict,
     fst (main F)
     = [of_string "Checking Python syntax..." ++ [10%N]]
       ++ map (fun file => snd (check_syntax F file)) files_to_check
       ++ [10%N :: repeat 61%N 50; verdict]) /\
  (snd (main F) = Some 1%Z <->
   exists file, In file files_to_check /\
     forall code, read_file F file = inl code -> ast_parse F code <> None) /\
  (snd (main F) = None <->
   forall file, In file files_to_check ->
     exists code, read_file F file = inl code /\ ast_parse F code = None).
Proof.
  unfold main. rewrite check_files_spec. cbn [andb].
  destruct (forallb (fun file => fst (check_syntax F file)) files_to_check) eqn:A.
  - cbn [fst snd]. split; [|split].
    + eexists. rewrite <- !app_assoc. reflexivity.
    + split; [discriminate|]. intros (file & Hin & Hbad). exfalso.
      rewrite forallb_forall in A. specialize (A file Hin).
      apply check_syntax_true in A as (code & E & P). now apply (Hbad code E).
    + split; [|reflexivity]. intros _ file Hin.
      rewrite forallb_forall in A. apply check_syntax_true. now apply A.
  - cbn [fst snd]. split; [|split].
    + eexists. rewrite <- !app_assoc. reflexivity.
    + split; [|reflexivity]. intros _.
      assert (E : existsb (fun file => negb (fst (check_syntax F file))) files_to_check
                  = true).
      { clear -A. induction files_to_check as [|f fs IH]; [discriminate|].
        cbn [forallb existsb] in *. destruct (fst (check_syntax F f)); [|reflexivity].
        cbn [negb orb]. apply IH. exact A. }
      apply existsb_exists in E as (file & Hin & Hf). exists file. split; [exact Hin|].
      intros code E P. apply negb_true_iff in Hf.
      assert (T : fst (check_syntax F file) = true)
        by (apply check_syntax_true; now exists code).
      congruence.
    + split; [discriminate|]. intros H. exfalso.
      assert (T : forallb (fun file => fst (check_syntax F file)) files_to_check = true).
      { apply forallb_forall. intros file Hin. apply check_syntax_true. now apply H. }
      congruence.
Qed.

End ValidateFacts.

(** ** The sample table *)

Lemma sample_table_decimal_values : decimal_values sample_table.
Proof.
  intros c v. cbn [uni_class sample_table].
  destruct (_ || _)%bool; [discriminate|].
  destruct (between 1632 1641 c) eqn:B.
  - intros [= <-]. unfold between in B. apply andb_prop in B as [B1 B2].
    apply N.leb_le in B1, B2. lia.
  - destruct (_ || _)%bool; [discriminate|]. destruct (_ || _)%bool; discriminate.
Qed.

(** ** Inputs on which the claims fail *)

(** C1: a negative number comes out negative, and the infinite and
    not-a-number floats raise. *)
Lemma C1_negative_and_non_finite :
  parse_time_to_minutes sample_table (PyInt (-5)) = Ok (-5)%Z /\
  parse_servings_to_int sample_table (PyInt (-5)) = Ok (-5)%Z /\
  parse_time_to_minutes sample_table (PyFloat (S754_infinity false)) = Raise OverflowError /\
  parse_time_to_minutes sample_table (PyFloat S754_nan) = Raise ValueError /\
  parse_time_to_minutes sample_table (PyStr [178%N]) = Raise ValueError.
Proof. repeat split; vm_compute; reflexivity. Qed.

(** C5: an hours field of three digits is handled by the colon grammar;
    the bare number of the text would be 100. *)
Lemma C5_three_digit_hours :
  parse_time_to_minutes sample_table (PyStr (of_string "100:30")) = Ok 6030%Z /\
  re_fullmatch sample_table colon_pattern (of_string "100:30")
  = Some (MS (Some 48%N) [] []).
Proof. split; vm_compute; reflexivity. Qed.

(** C6: the [int] 2^53 + 1 goes through a float and comes out as 2^53. *)
Lemma C6_large_int :
  parse_time_to_minutes sample_table (PyInt 9007199254740993)
  = Ok 9007199254740992%Z /\
  parse_servings_to_int sample_table (PyInt 9007199254740993)
  = Ok 9007199254740992%Z.
Proof. split; vm_compute; reflexivity. Qed.

(** C7: a superscript two is a digit for [str.isdigit] and none for [int];
    and [int] refuses 4301 digits. *)
Lemma C7_digits_that_int_refuses :
  isdigit sample_table (lower sample_table (strip sample_table [178%N])) = true /\
  parse_time_to_minutes sample_table (PyStr [178%N]) = Raise ValueError /\
  parse_servings_to_int sample_table (PyStr [178%N]) = Raise ValueError /\
  parse_time_to_minutes sample_table (PyStr (repeat 57%N 4301)) = Raise ValueError /\
  parse_servings_to_int sample_table (PyStr (repeat 57%N 4301)) = Raise ValueError.
Proof. repeat split; vm_compute; reflexivity. Qed.

(** C8: [-5] is normalized to [-5], and its text to [5]. *)
Lemma C8_negative_not_stable :
  parse_time_to_minutes sample_table (PyInt (-5)) = Ok (-5)%Z /\
  py_str_int (-5) = of_string "-5" /\
  parse_time_to_minutes sample_table (PyStr (py_str_int (-5))) = Ok 5%Z.
Proof. repeat split; vm_compute; reflexivity. Qed.

(** C9: a URL of the second platform that mentions the first in its query
    string is classified as the first. *)
Lemma C9_both_domains :
  contains (of_string "youtube.com")
    (lower sample_table (of_string "https://www.youtube.com/watch?v=1&ref=tiktok.com"))
  = true /\
  get_platform sample_table (of_string "https://www.youtube.com/watch?v=1&ref=tiktok.com")
  = tiktok.
Proof. split; vm_compute; reflexivity. Qed.

(** ** Instances *)

Lemma C1_results_at_7 :
  parse_time_to_minutes sample_table (PyInt 7) = Ok 7%Z /\
  parse_servings_to_int sample_table (PyInt 7) = Ok 7%Z.
Proof.
  apply (proj1 (proj2 (proj2 (proj2 (proj2 (C1_results sample_table))))) 7%Z).
  vm_compute. reflexivity.
Defined.

Lemma C5_clock_at_12_05 :
  parse_time_to_minutes sample_table (PyStr (of_string "12:05")) = Ok 725%Z.
Proof.
  apply (proj2 (proj1 (proj2 (C5_clock_grammar sample_table))
                 (of_string "12") (of_string "05")
                 ltac:(discriminate) eq_refl ltac:(vm_compute; discriminate)
                 ltac:(discriminate) eq_refl ltac:(vm_compute; lia))).
  vm_compute. reflexivity.
Defined.

Lemma C6_numeric_at_minus_3 :
  parse_time_to_minutes sample_table (PyInt (-3)) = Ok (-3)%Z /\
  parse_servings_to_int sample_table (PyInt (-3)) = Ok (-3)%Z.
Proof.
  apply (proj1 (proj2 (C6_numeric_arguments sample_table)) (-3)%Z).
  vm_compute. reflexivity.
Defined.

Lemma C7_pure_digits_at_42 :
  parse_time_to_minutes sample_table (PyStr (of_string " 42 ")) = Ok 42%Z /\
  parse_servings_to_int sample_table (PyStr (of_string " 42 ")) = Ok 42%Z.
Proof.
  apply (proj2 (proj2 (C7_pure_digits_first sample_table))
           (of_string " ") (of_string "42") (of_string " "));
    [discriminate|reflexivity|vm_compute; discriminate|reflexivity|reflexivity].
Defined.

Lemma C8_stability_at_90 :
  parse_time_to_minutes sample_table (PyStr (py_str_int 90)) = Ok 90%Z.
Proof.
  apply (C8_stability_nonneg sample_table (PyStr (of_string "1:30")) 90%Z);
    [exact sample_table_decimal_values|exact I|vm_compute; reflexivity|lia].
Defined.

Lemma C10_rounding_at_2_5_min :
  parse_time_to_minutes sample_table (PyStr (of_string "2.5 Min"))
  = (x <- time_total sample_table (of_string "2.5 min") ;; py_round x).
Proof.
  apply (proj1 (proj2 (proj2 (proj2 (proj2 (proj2 (proj2 (proj2 (proj2
           (C10_round_half_to_even sample_table)))))))))
           (of_string "2.5 Min")); [discriminate|reflexivity].
Defined.

Lemma C9_platform_at_short_link :
  get_platform sample_table (of_string "HTTPS://YouTu.be/abc?t=1") = youtube.
Proof.
  apply (proj1 (proj2 (C9_platform_by_substring sample_table))
           (of_string "HTTPS://") (of_string "YouTu.be") (of_string "/abc?t=1"));
    [right; split; reflexivity|reflexivity].
Defined.

Lemma C4_compact_at_90_min :
  parse_time_to_minutes sample_table (PyStr (of_string "90 min"))
  = py_round (float_of_decimal 90 0).
Proof.
  apply (proj2 (C4_compact_alternatives sample_table) (of_string "90 min"));
    [discriminate|reflexivity|reflexivity|reflexivity|vm_compute; reflexivity|reflexivity].
Defined.

Lemma unique_filename_at_sample :
  exists stamp draw,
    generate_unique_filename (nearest_float 1700000000) 0xabc (of_string "jpg")
    = Ok (stamp ++ 45%N :: draw ++ 46%N :: of_string "jpg") /\
    stamp <> [] /\ forallb hex_digit stamp = true /\ hex_value stamp = 1700000000000%Z /\
    length draw = 5 /\ forallb hex_digit draw = true /\ hex_value draw = 0xabc%Z.
Proof.
  apply (unique_filename_reads_back (nearest_float 1700000000) 0xabc (of_string "jpg")
           1700000000000%Z); [vm_compute; reflexivity|lia|lia].
Defined.

Lemma unique_filename_same_name :
  1700000000000%Z = 1700000000000%Z /\ 0xabc%Z = 0xabc%Z /\ of_string "jpg" = of_string "jpg".
Proof.
  apply (unique_filename_injective
           (nearest_float 1700000000) 0xabc (of_string "jpg") 1700000000000%Z
           (nearest_float 1700000000) 0xabc (of_string "jpg") 1700000000000%Z
           (of_string "18bcfe56800-00abc.jpg"));
    try (vm_compute; reflexivity); lia.
Defined.

Lemma extension_of_upper_case_url :
  get_extension_from_url sample_table sample_libraries
    (of_string "https://cdn.example.com/img/photo.PNG?w=200")
    (Some (of_string "image/jpeg"))
  = Ok (of_string "png").
Proof.
  apply (extension_of_url_wins sample_table sample_libraries _ _
           (of_string "/img/photo") (of_string "PNG") (of_string "png"));
    [reflexivity|split; reflexivity|cbn; auto].
Defined.

Lemma upload_from_url_at_sample :
  let W := sample_world sample_env in
  let image_url := of_string "https://example.com/a.gif" in
  let r := fst (upload_image_from_url sample_table sample_libraries W image_url None None) in
  let calls :=
    snd (upload_image_from_url sample_table sample_libraries W image_url None None) in
  (success r = false /\ url r = image_url /\ key r = [] /\
   (calls = [] \/ calls = [HttpGet image_url] \/
    exists c req f,
      calls = [HttpGet image_url; PutObject c req] /\ put_object W c req = Fails f)) \/
  (success r = true /\
   exists c req name,
     calls = [HttpGet image_url; PutObject c req] /\
     put_object W c req = Done tt /\
     (forall c0, @None s3_client = Some c0 -> c = c0) /\
     (forall b, @None text = Some b -> b <> [] -> Bucket req = b) /\
     ACL req = of_string "public-read" /\
     Key req = key r /\
     key r = of_string "uploads/scraper/" ++ name /\
     url r = of_string "https://" ++ Bucket req ++ of_string ".s3."
             ++ getenv_or W "AWS_REGION" "us-east-1"
             ++ of_string ".amazonaws.com/" ++ key r).
Proof.
  intros W image_url r calls.
  apply (upload_from_url_outcome sample_table sample_libraries W image_url None None).
  apply surjective_pairing.
Defined.

Lemma upload_if_configured_at_sample :
  let W := sample_world sample_env in
  let image_url := of_string "https://example.com/a.gif" in
  let r := fst (upload_image_if_configured sample_table sample_libraries W image_url) in
  let calls := snd (upload_image_if_configured sample_table sample_libraries W image_url) in
  (ref_url r = image_url /\ ref_key r = []) \/
  (exists c req resp name,
     calls = [HttpGet image_url; PutObject c req] /\
     get_s3_client W = Some c /\
     getenv W (of_string "AWS_BUCKET_NAME") = Some (Bucket req) /\
     requests_get W image_url = Done resp /\
     content resp = Done (Body req) /\
     ContentType req = content_type_of resp /\
     ACL req = of_string "public-read" /\
     put_object W c req = Done tt /\
     Key req = ref_key r /\
     ref_key r = of_string "uploads/scraper/" ++ name /\
     ref_url r = of_string "https://" ++ Bucket req ++ of_string ".s3."
                 ++ getenv_or W "AWS_REGION" "us-east-1"
                 ++ of_string ".amazonaws.com/" ++ ref_key r).
Proof.
  intros W image_url r calls.
  apply (upload_if_configured_result sample_table sample_libraries W image_url).
  apply surjective_pairing.
Defined.

Lemma not_configured_at_empty_env :
  upload_image_if_configured sample_table sample_libraries (sample_world empty_env)
    (of_string "https://example.com/a.gif")
  = ({| ref_url := of_string "https://example.com/a.gif"; ref_key := [] |}, []).
Proof.
  apply (not_configured_no_calls sample_table sample_libraries (sample_world empty_env)).
  left. left. reflexivity.
Defined.

Lemma stored_key_at_sample :
  let W := sample_world sample_env in
  let r := fst (upload_image_if_configured sample_table sample_libraries W
                  (of_string "https://example.com/a.gif")) in
  exists stamp draw ext,
    ref_key r = of_string "uploads/scraper/" ++ stamp ++ 45%N :: draw ++ 46%N :: ext /\
    stamp <> [] /\ forallb hex_digit stamp = true /\ hex_value stamp = 1700000000000%Z /\
    length draw = 5 /\ forallb hex_digit draw = true /\ hex_value draw = randint W /\
    In ext ALLOWED_EXTENSIONS.
Proof.
  intros W r.
  apply (stored_key_shape sample_table sample_libraries W
           (of_string "https://example.com/a.gif") r
           (snd (upload_image_if_configured sample_table sample_libraries W
                   (of_string "https://example.com/a.gif")))
           1700000000000%Z).
  - apply surjective_pairing.
  - vm_compute. discriminate.
  - vm_compute. reflexivity.
  - lia.
  - vm_compute. split; discriminate.
Defined.

Lemma surrounding_space_at_tabs :
  parse_time_to_minutes sample_table
    (PyStr ([9; 32]%N ++ of_string "1 hour 30 minutes" ++ [32; 10]%N))
  = parse_time_to_minutes sample_table (PyStr (of_string "1 hour 30 minutes")) /\
  parse_servings_to_int sample_table
    (PyStr ([9; 32]%N ++ of_string "1 hour 30 minutes" ++ [32; 10]%N))
  = parse_servings_to_int sample_table (PyStr (of_string "1 hour 30 minutes")).
Proof.
  apply (surrounding_space_ignored sample_table [9; 32]%N (of_string "1 hour 30 minutes")
           [32; 10]%N); reflexivity.
Defined.

Lemma letter_case_at_capitals :
  parse_time_to_minutes sample_table (PyStr (of_string "1 HOUR 30 Minutes"))
  = parse_time_to_minutes sample_table (PyStr (of_string "1 hour 30 minutes")) /\
  parse_servings_to_int sample_table (PyStr (of_string "1 HOUR 30 Minutes"))
  = parse_servings_to_int sample_table (PyStr (of_string "1 hour 30 minutes")).
Proof.
  apply (letter_case_ignored sample_table (of_string "1 HOUR 30 Minutes")
           (of_string "1 hour 30 minutes")).
  split; reflexivity.
Defined.

Lemma servings_range_at_en_dash :
  parse_servings_to_int sample_table
    (PyStr (of_string "Makes 10 " ++ [8211%N] ++ of_string " 12 muffins"))
  = Ok 10%Z.
Proof.
  apply (servings_range_lower_bound sample_table _
           (of_string "makes ") (of_string "10") [32%N] 8211%N [32%N] 49%N
           (of_string "2 muffins"));
    try reflexivity; [discriminate|].
  split; [cbn; auto|split; reflexivity].
Defined.

Lemma servings_single_number_at_serves_4 :
  parse_servings_to_int sample_table (PyStr (of_string "Serves 4 people")) = Ok 4%Z.
Proof.
  apply (servings_single_number sample_table _
           (of_string "serves ") (of_string "4") (of_string " people"));
    try reflexivity; discriminate.
Defined.

Lemma hours_and_minutes_at_1_hour_30_minutes :
  parse_time_to_minutes sample_table (PyStr (of_string "1 Hour, 30 Minutes")) = Ok 90%Z.
Proof.
  apply (hours_and_minutes_add_up sample_table (of_string "1 Hour, 30 Minutes") 1 30).
  - change (lower sample_table (strip sample_table (of_string "1 Hour, 30 Minutes")))
      with (of_string "1" ++ of_string " " ++ of_string "hour"
            ++ 44%N :: 32%N :: of_string "30" ++ of_string " " ++ of_string "minutes" ++ []).
    change 1%Z with (decimal_value (of_string "1") + 0)%Z.
    change 30%Z with (decimal_value (of_string "30") + 0)%Z.
    apply quantities_hours;
      [discriminate|reflexivity|reflexivity|cbn; auto|reflexivity|].
    apply quantities_other; [reflexivity|].
    apply quantities_other; [reflexivity|].
    apply quantities_minutes;
      [discriminate|reflexivity|reflexivity|cbn; auto|exact I|apply quantities_end].
  - reflexivity.
  - vm_compute. split; reflexivity.
Defined.

Lemma iso_hours_and_minutes_at_PT1H30M :
  parse_time_to_minutes sample_table (PyStr (of_string "PT1H30M")) = Ok 90%Z.
Proof.
  apply (iso_hours_and_minutes sample_table (of_string "PT1H30M")
           (Some (of_string "1")) (Some (of_string "30")));
    try reflexivity; split; (discriminate || reflexivity).
Defined.

Lemma time_single_number_at_about_45 :
  parse_time_to_minutes sample_table (PyStr (of_string "About 45, or a bit over")) = Ok 45%Z.
Proof.
  apply (time_single_number sample_table _
           (of_string "about ") (of_string "45") (of_string ", or a bit over"));
    try reflexivity; discriminate.
Defined.

Lemma unique_filename_one_second_before_1970 :
  exists stamp draw,
    generate_unique_filename (nearest_float (-1)) 0xabc []
    = Ok (120%N :: stamp ++ 45%N :: draw ++ []) /\
    forallb hex_digit stamp = true /\ hex_value stamp = (- -1000)%Z /\
    length draw = 5 /\ forallb hex_digit draw = true /\ hex_value draw = 0xabc%Z.
Proof.
  apply (unique_filename_negative_stamp (nearest_float (-1)) 0xabc [] (-1000)%Z);
    [vm_compute; reflexivity|lia|lia].
Defined.

Lemma extension_from_html :
  get_extension_from_url sample_table sample_libraries
    (of_string "https://example.com/recipe?id=7") (Some (of_string "text/html"))
  = Ok (if existsb (text_eqb (lstrip_char 46 (of_string ".html"))) ALLOWED_EXTENSIONS
        then lstrip_char 46 (of_string ".html")
        else of_string "jpg").
Proof.
  apply (extension_from_content_type sample_table sample_libraries
           (of_string "https://example.com/recipe?id=7") (of_string "/recipe")
           (of_string "text/html") (of_string ".html"));
    [reflexivity|reflexivity|discriminate|reflexivity].
Defined.

Lemma failed_download_at_offline :
  let W := offline_world sample_env in
  let image_url := of_string "https://example.com/a.gif" in
  let r := fst (upload_image_from_url sample_table sample_libraries W image_url None None) in
  let calls :=
    snd (upload_image_from_url sample_table sample_libraries W image_url None None) in
  r = {| success := false; url := image_url; key := [] |} /\
  (calls = [] \/ calls = [HttpGet image_url]).
Proof.
  intros W image_url r calls.
  apply (failed_download_stores_nothing sample_table sample_libraries W image_url None None).
  - left. exists RequestException. reflexivity.
  - apply surjective_pairing.
Defined.

Lemma any_content_at_html :
  let W := html_world sample_env in
  let image_url := of_string "https://example.com/recipe?id=7" in
  let name := of_string "18bcfe56800-00abc.jpg" in
  exists stem,
    name = stem ++ of_string ".jpg" /\
    upload_image_if_configured sample_table sample_libraries W image_url
    = ({| ref_url := of_string "https://" ++ of_string "recipes" ++ of_string ".s3."
                     ++ getenv_or W "AWS_REGION" "us-east-1"
                     ++ of_string ".amazonaws.com/"
                     ++ of_string "uploads/scraper/" ++ name;
          ref_key := of_string "uploads/scraper/" ++ name |},
       [HttpGet image_url;
        PutObject {| aws_access_key_id := of_string "AKIDEXAMPLE";
                     aws_secret_access_key := of_string "secret";
                     region_name := of_string "us-east-1" |}
                  {| Bucket := of_string "recipes";
                     Key := of_string "uploads/scraper/" ++ name;
                     Body := [Byte.x3c; Byte.x70; Byte.x3e];
                     ContentType := of_string "text/html";
                     ACL := of_string "public-read" |}]).
Proof.
  intros W image_url name.
  apply (any_content_is_stored sample_table sample_libraries W image_url
           {| aws_access_key_id := of_string "AKIDEXAMPLE";
              aws_secret_access_key := of_string "secret";
              region_name := of_string "us-east-1" |}
           (of_string "recipes")
           {| raise_for_status := Done tt;
              header_content_type := Some (of_string "text/html");
              content := Done [Byte.x3c; Byte.x70; Byte.x3e] |}
           [Byte.x3c; Byte.x70; Byte.x3e] (of_string "/recipe") name).
  - discriminate.
  - discriminate.
  - vm_compute. reflexivity.
  - vm_compute. reflexivity.
  - reflexivity.
  - reflexivity.
  - reflexivity.
  - vm_compute. reflexivity.
  - vm_compute. reflexivity.
  - vm_compute. reflexivity.
  - vm_compute. reflexivity.
  - intros request. reflexivity.
Defined.
